(** * Shallow embedding of QuantExt's OpenCL compute context

    Source: [QuantExt/qle/math/openclenvironment.cpp], class [OpenClContext].

    The context is a mutable object driven by its client through
    [initiateCalculation], [createInputVariable], [createInputVariates],
    [applyOperation], [freeVariable], [declareOutputVariable],
    [finalizeCalculation] and [disposeCalculation].  Each member function is
    embedded as a computation in a state-and-exception monad over the record
    [OpenClContext]; [QL_REQUIRE]/[QL_FAIL] become [Thrown], and an access
    that C++ leaves undefined (indexing a vector out of range, [back()] of an
    empty vector, a device read past the end of a host vector) becomes
    [Undefined].  The OpenCL device is an environment:
    every API call is appended to a log and answered from a list of pending
    status codes. *)

From Stdlib Require Import NArith ZArith List String Bool Lia.
From Stdlib Require Import DecimalString DecimalPos DecimalN DecimalZ.
From Stdlib Require Import Floats.PrimFloat.
From stdpp Require Import base list strings.

Local Open Scope string_scope.
Local Open Scope list_scope.
Local Open Scope N_scope.

(** ** [std::size_t]: 64-bit unsigned arithmetic *)

Module SizeT.

Definition modulus : N := 2 ^ 64.

Definition wrap (x : N) : N := x mod modulus.

Definition add (a b : N) : N := wrap (a + b).

Definition mul (a b : N) : N := wrap (a * b).

(** [a - b] on unsigned operands: borrows from [2^64] when [a < b]. *)
Definition sub (a b : N) : N := Z.to_N ((Z.of_N a - Z.of_N b) mod Z.of_N modulus).

(** [std::to_string] of an unsigned value. *)
Definition to_string (n : N) : string := NilZero.string_of_uint (N.to_uint n).

End SizeT.

Infix "+%" := SizeT.add (at level 50, left associativity).
Infix "*%" := SizeT.mul (at level 40, left associativity).
Infix "-%" := SizeT.sub (at level 50, left associativity).

(** [mt_N], the Mersenne-Twister state size (64-bit state words). *)
Definition mt_N : N := 624.

(** ** Host and device values *)

(** A host [double]. *)
Definition double : Type := PrimFloat.float.

(** A single-precision value, kept as the [double] it was cast from:
    [cast_float d] stands for the C++ expression [(float)d]. *)
Inductive cl_float : Type :=
| cast_float (d : double).

Definition FLT_MAX : double := 0x1.fffffep127%float.

(** [std::min(a, b)] is [(b < a) ? b : a]; [std::max(a, b)] is
    [(a < b) ? b : a]. *)
Definition std_min (a b : double) : double := if PrimFloat.ltb b a then b else a.
Definition std_max (a b : double) : double := if PrimFloat.ltb a b then b else a.

(** [(float)std::max(std::min(v, (double)FLT_MAX), -(double)FLT_MAX)] *)
Definition clampToFloat (v : double) : cl_float :=
  cast_float (std_max (std_min v FLT_MAX) (PrimFloat.opp FLT_MAX)).

(** OpenCL status codes ([cl_int]) and object handles ([cl_context],
    [cl_program], [cl_kernel], [cl_mem], [cl_event]); handle [0] is a
    default-constructed (null) handle. *)
Definition cl_int : Type := Z.
Definition CL_SUCCESS : cl_int := 0%Z.
Definition cl_handle : Type := N.
Definition null_handle : cl_handle := 0.

Definition sizeof_double : N := 8.
Definition sizeof_float : N := 4.
Definition sizeof_cl_ulong : N := 8.
Definition sizeof_cl_mem : N := 8.

Inductive ClArg : Type :=
| ArgMem (m : cl_handle)
| ArgULong (v : N).

Inductive HostData : Type :=
| Data64 (v : list double)
| Data32 (v : list cl_float).

(** The OpenCL API calls (and the one host sleep) the context performs, with
    the arguments that matter to the protocol. *)
Inductive ClCall : Type :=
| clCreateContext
| clCreateCommandQueue (ctx : cl_handle)
| clCreateProgramWithSource (source : string)
| clBuildProgram (p : cl_handle)
| clGetProgramBuildInfo (p : cl_handle)
| clCreateKernel (p : cl_handle) (name : string)
| clCreateBuffer (bytes : N)
| clSetKernelArg (k : cl_handle) (index : N) (arg : ClArg)
| clEnqueueNDRangeKernel (k : cl_handle) (globalSize : N) (waitList : list cl_handle)
| clEnqueueCopyBuffer (src dst : cl_handle) (bytes : N)
| clEnqueueWriteBuffer (buf : cl_handle) (bytes : N) (data : HostData)
| clEnqueueReadBuffer (buf : cl_handle) (offset bytes : N) (waitList : list cl_handle)
| clWaitForEvents (events : list cl_handle)
| clFinish
| clReleaseMemObject (m : cl_handle)
| clReleaseKernel (k : cl_handle)
| clReleaseProgram (p : cl_handle)
| sleep_for_seconds (s : N).

(** ** The context record *)

Inductive ComputeState : Type := idle | createInput | createVariates | calc.

Definition ComputeState_eqb (a b : ComputeState) : bool :=
  match a, b with
  | idle, idle | createInput, createInput
  | createVariates, createVariates | calc, calc => true
  | _, _ => false
  end.

(** Modelled from the spec: [ComputeContext::Settings] is declared in the
    absent header [computeenvironment.hpp]; the spec's data model gives its
    fields [{ useDoublePrecision, rngSeed, debug }]. *)
Record Settings : Type := mkSettings {
  useDoublePrecision : bool;
  rngSeed : N;
  debug : bool
}.

Record OpenClContext : Type := mkOpenClContext {
  healthy_ : bool;
  initialized_ : bool;
  context_ : cl_handle;
  queue_ : cl_handle;
  supportsDoublePrecision_ : bool;
  numberOfOperations : N;
  size_ : list N;
  disposed_ : list bool;
  hasKernel_ : list bool;
  version_ : list N;
  program_ : list cl_handle;
  kernel_ : list cl_handle;
  inputBufferSize_ : list N;
  nOutputVars_ : list N;
  variatesPoolSize_ : N;
  variatesPool_ : cl_handle;
  variatesMtStateBuffer_ : cl_handle;
  variatesProgram_ : cl_handle;
  variatesKernelSeedInit_ : cl_handle;
  variatesKernelTwist_ : cl_handle;
  variatesKernelGenerate_ : cl_handle;
  currentId_ : N;
  currentState_ : ComputeState;
  nVars_ : N;
  nVariates_ : N;
  settings_ : Settings;
  inputVarOffset_ : list N;
  inputVarIsScalar_ : list bool;
  inputVarValues32_ : list cl_float;
  inputVarValues64_ : list double;
  freedVariables_ : list N;
  outputVariables_ : list N;
  currentSsa_ : string;
  cl_replies : list cl_int;
  cl_calls : list (ClCall * cl_int)
}.

Definition set_healthy_ (v : bool) (c : OpenClContext) : OpenClContext :=
  {| healthy_ := v; initialized_ := initialized_ c; context_ := context_ c; queue_ := queue_ c;
     supportsDoublePrecision_ := supportsDoublePrecision_ c; numberOfOperations :=
     numberOfOperations c; size_ := size_ c; disposed_ := disposed_ c; hasKernel_ := hasKernel_
     c; version_ := version_ c; program_ := program_ c; kernel_ := kernel_ c; inputBufferSize_ :=
     inputBufferSize_ c; nOutputVars_ := nOutputVars_ c; variatesPoolSize_ := variatesPoolSize_
     c; variatesPool_ := variatesPool_ c; variatesMtStateBuffer_ := variatesMtStateBuffer_ c;
     variatesProgram_ := variatesProgram_ c; variatesKernelSeedInit_ := variatesKernelSeedInit_
     c; variatesKernelTwist_ := variatesKernelTwist_ c; variatesKernelGenerate_ :=
     variatesKernelGenerate_ c; currentId_ := currentId_ c; currentState_ := currentState_ c;
     nVars_ := nVars_ c; nVariates_ := nVariates_ c; settings_ := settings_ c; inputVarOffset_ :=
     inputVarOffset_ c; inputVarIsScalar_ := inputVarIsScalar_ c; inputVarValues32_ :=
     inputVarValues32_ c; inputVarValues64_ := inputVarValues64_ c; freedVariables_ :=
     freedVariables_ c; outputVariables_ := outputVariables_ c; currentSsa_ := currentSsa_ c;
     cl_replies := cl_replies c; cl_calls := cl_calls c |}.

Definition set_initialized_ (v : bool) (c : OpenClContext) : OpenClContext :=
  {| healthy_ := healthy_ c; initialized_ := v; context_ := context_ c; queue_ := queue_ c;
     supportsDoublePrecision_ := supportsDoublePrecision_ c; numberOfOperations :=
     numberOfOperations c; size_ := size_ c; disposed_ := disposed_ c; hasKernel_ := hasKernel_
     c; version_ := version_ c; program_ := program_ c; kernel_ := kernel_ c; inputBufferSize_ :=
     inputBufferSize_ c; nOutputVars_ := nOutputVars_ c; variatesPoolSize_ := variatesPoolSize_
     c; variatesPool_ := variatesPool_ c; variatesMtStateBuffer_ := variatesMtStateBuffer_ c;
     variatesProgram_ := variatesProgram_ c; variatesKernelSeedInit_ := variatesKernelSeedInit_
     c; variatesKernelTwist_ := variatesKernelTwist_ c; variatesKernelGenerate_ :=
     variatesKernelGenerate_ c; currentId_ := currentId_ c; currentState_ := currentState_ c;
     nVars_ := nVars_ c; nVariates_ := nVariates_ c; settings_ := settings_ c; inputVarOffset_ :=
     inputVarOffset_ c; inputVarIsScalar_ := inputVarIsScalar_ c; inputVarValues32_ :=
     inputVarValues32_ c; inputVarValues64_ := inputVarValues64_ c; freedVariables_ :=
     freedVariables_ c; outputVariables_ := outputVariables_ c; currentSsa_ := currentSsa_ c;
     cl_replies := cl_replies c; cl_calls := cl_calls c |}.

Definition set_context_ (v : cl_handle) (c : OpenClContext) : OpenClContext :=
  {| healthy_ := healthy_ c; initialized_ := initialized_ c; context_ := v; queue_ := queue_ c;
     supportsDoublePrecision_ := supportsDoublePrecision_ c; numberOfOperations :=
     numberOfOperations c; size_ := size_ c; disposed_ := disposed_ c; hasKernel_ := hasKernel_
     c; version_ := version_ c; program_ := program_ c; kernel_ := kernel_ c; inputBufferSize_ :=
     inputBufferSize_ c; nOutputVars_ := nOutputVars_ c; variatesPoolSize_ := variatesPoolSize_
     c; variatesPool_ := variatesPool_ c; variatesMtStateBuffer_ := variatesMtStateBuffer_ c;
     variatesProgram_ := variatesProgram_ c; variatesKernelSeedInit_ := variatesKernelSeedInit_
     c; variatesKernelTwist_ := variatesKernelTwist_ c; variatesKernelGenerate_ :=
     variatesKernelGenerate_ c; currentId_ := currentId_ c; currentState_ := currentState_ c;
     nVars_ := nVars_ c; nVariates_ := nVariates_ c; settings_ := settings_ c; inputVarOffset_ :=
     inputVarOffset_ c; inputVarIsScalar_ := inputVarIsScalar_ c; inputVarValues32_ :=
     inputVarValues32_ c; inputVarValues64_ := inputVarValues64_ c; freedVariables_ :=
     freedVariables_ c; outputVariables_ := outputVariables_ c; currentSsa_ := currentSsa_ c;
     cl_replies := cl_replies c; cl_calls := cl_calls c |}.

Definition set_queue_ (v : cl_handle) (c : OpenClContext) : OpenClContext :=
  {| healthy_ := healthy_ c; initialized_ := initialized_ c; context_ := context_ c; queue_ := v;
     supportsDoublePrecision_ := supportsDoublePrecision_ c; numberOfOperations :=
     numberOfOperations c; size_ := size_ c; disposed_ := disposed_ c; hasKernel_ := hasKernel_
     c; version_ := version_ c; program_ := program_ c; kernel_ := kernel_ c; inputBufferSize_ :=
     inputBufferSize_ c; nOutputVars_ := nOutputVars_ c; variatesPoolSize_ := variatesPoolSize_
     c; variatesPool_ := variatesPool_ c; variatesMtStateBuffer_ := variatesMtStateBuffer_ c;
     variatesProgram_ := variatesProgram_ c; variatesKernelSeedInit_ := variatesKernelSeedInit_
     c; variatesKernelTwist_ := variatesKernelTwist_ c; variatesKernelGenerate_ :=
     variatesKernelGenerate_ c; currentId_ := currentId_ c; currentState_ := currentState_ c;
     nVars_ := nVars_ c; nVariates_ := nVariates_ c; settings_ := settings_ c; inputVarOffset_ :=
     inputVarOffset_ c; inputVarIsScalar_ := inputVarIsScalar_ c; inputVarValues32_ :=
     inputVarValues32_ c; inputVarValues64_ := inputVarValues64_ c; freedVariables_ :=
     freedVariables_ c; outputVariables_ := outputVariables_ c; currentSsa_ := currentSsa_ c;
     cl_replies := cl_replies c; cl_calls := cl_calls c |}.

Definition set_supportsDoublePrecision_ (v : bool) (c : OpenClContext) : OpenClContext :=
  {| healthy_ := healthy_ c; initialized_ := initialized_ c; context_ := context_ c; queue_ :=
     queue_ c; supportsDoublePrecision_ := v; numberOfOperations := numberOfOperations c; size_
     := size_ c; disposed_ := disposed_ c; hasKernel_ := hasKernel_ c; version_ := version_ c;
     program_ := program_ c; kernel_ := kernel_ c; inputBufferSize_ := inputBufferSize_ c;
     nOutputVars_ := nOutputVars_ c; variatesPoolSize_ := variatesPoolSize_ c; variatesPool_ :=
     variatesPool_ c; variatesMtStateBuffer_ := variatesMtStateBuffer_ c; variatesProgram_ :=
     variatesProgram_ c; variatesKernelSeedInit_ := variatesKernelSeedInit_ c;
     variatesKernelTwist_ := variatesKernelTwist_ c; variatesKernelGenerate_ :=
     variatesKernelGenerate_ c; currentId_ := currentId_ c; currentState_ := currentState_ c;
     nVars_ := nVars_ c; nVariates_ := nVariates_ c; settings_ := settings_ c; inputVarOffset_ :=
     inputVarOffset_ c; inputVarIsScalar_ := inputVarIsScalar_ c; inputVarValues32_ :=
     inputVarValues32_ c; inputVarValues64_ := inputVarValues64_ c; freedVariables_ :=
     freedVariables_ c; outputVariables_ := outputVariables_ c; currentSsa_ := currentSsa_ c;
     cl_replies := cl_replies c; cl_calls := cl_calls c |}.

Definition set_numberOfOperations (v : N) (c : OpenClContext) : OpenClContext :=
  {| healthy_ := healthy_ c; initialized_ := initialized_ c; context_ := context_ c; queue_ :=
     queue_ c; supportsDoublePrecision_ := supportsDoublePrecision_ c; numberOfOperations := v;
     size_ := size_ c; disposed_ := disposed_ c; hasKernel_ := hasKernel_ c; version_ := version_
     c; program_ := program_ c; kernel_ := kernel_ c; inputBufferSize_ := inputBufferSize_ c;
     nOutputVars_ := nOutputVars_ c; variatesPoolSize_ := variatesPoolSize_ c; variatesPool_ :=
     variatesPool_ c; variatesMtStateBuffer_ := variatesMtStateBuffer_ c; variatesProgram_ :=
     variatesProgram_ c; variatesKernelSeedInit_ := variatesKernelSeedInit_ c;
     variatesKernelTwist_ := variatesKernelTwist_ c; variatesKernelGenerate_ :=
     variatesKernelGenerate_ c; currentId_ := currentId_ c; currentState_ := currentState_ c;
     nVars_ := nVars_ c; nVariates_ := nVariates_ c; settings_ := settings_ c; inputVarOffset_ :=
     inputVarOffset_ c; inputVarIsScalar_ := inputVarIsScalar_ c; inputVarValues32_ :=
     inputVarValues32_ c; inputVarValues64_ := inputVarValues64_ c; freedVariables_ :=
     freedVariables_ c; outputVariables_ := outputVariables_ c; currentSsa_ := currentSsa_ c;
     cl_replies := cl_replies c; cl_calls := cl_calls c |}.

Definition set_size_ (v : list N) (c : OpenClContext) : OpenClContext :=
  {| healthy_ := healthy_ c; initialized_ := initialized_ c; context_ := context_ c; queue_ :=
     queue_ c; supportsDoublePrecision_ := supportsDoublePrecision_ c; numberOfOperations :=
     numberOfOperations c; size_ := v; disposed_ := disposed_ c; hasKernel_ := hasKernel_ c;
     version_ := version_ c; program_ := program_ c; kernel_ := kernel_ c; inputBufferSize_ :=
     inputBufferSize_ c; nOutputVars_ := nOutputVars_ c; variatesPoolSize_ := variatesPoolSize_
     c; variatesPool_ := variatesPool_ c; variatesMtStateBuffer_ := variatesMtStateBuffer_ c;
     variatesProgram_ := variatesProgram_ c; variatesKernelSeedInit_ := variatesKernelSeedInit_
     c; variatesKernelTwist_ := variatesKernelTwist_ c; variatesKernelGenerate_ :=
     variatesKernelGenerate_ c; currentId_ := currentId_ c; currentState_ := currentState_ c;
     nVars_ := nVars_ c; nVariates_ := nVariates_ c; settings_ := settings_ c; inputVarOffset_ :=
     inputVarOffset_ c; inputVarIsScalar_ := inputVarIsScalar_ c; inputVarValues32_ :=
     inputVarValues32_ c; inputVarValues64_ := inputVarValues64_ c; freedVariables_ :=
     freedVariables_ c; outputVariables_ := outputVariables_ c; currentSsa_ := currentSsa_ c;
     cl_replies := cl_replies c; cl_calls := cl_calls c |}.

Definition set_disposed_ (v : list bool) (c : OpenClContext) : OpenClContext :=
  {| healthy_ := healthy_ c; initialized_ := initialized_ c; context_ := context_ c; queue_ :=
     queue_ c; supportsDoublePrecision_ := supportsDoublePrecision_ c; numberOfOperations :=
     numberOfOperations c; size_ := size_ c; disposed_ := v; hasKernel_ := hasKernel_ c; version_
     := version_ c; program_ := program_ c; kernel_ := kernel_ c; inputBufferSize_ :=
     inputBufferSize_ c; nOutputVars_ := nOutputVars_ c; variatesPoolSize_ := variatesPoolSize_
     c; variatesPool_ := variatesPool_ c; variatesMtStateBuffer_ := variatesMtStateBuffer_ c;
     variatesProgram_ := variatesProgram_ c; variatesKernelSeedInit_ := variatesKernelSeedInit_
     c; variatesKernelTwist_ := variatesKernelTwist_ c; variatesKernelGenerate_ :=
     variatesKernelGenerate_ c; currentId_ := currentId_ c; currentState_ := currentState_ c;
     nVars_ := nVars_ c; nVariates_ := nVariates_ c; settings_ := settings_ c; inputVarOffset_ :=
     inputVarOffset_ c; inputVarIsScalar_ := inputVarIsScalar_ c; inputVarValues32_ :=
     inputVarValues32_ c; inputVarValues64_ := inputVarValues64_ c; freedVariables_ :=
     freedVariables_ c; outputVariables_ := outputVariables_ c; currentSsa_ := currentSsa_ c;
     cl_replies := cl_replies c; cl_calls := cl_calls c |}.

Definition set_hasKernel_ (v : list bool) (c : OpenClContext) : OpenClContext :=
  {| healthy_ := healthy_ c; initialized_ := initialized_ c; context_ := context_ c; queue_ :=
     queue_ c; supportsDoublePrecision_ := supportsDoublePrecision_ c; numberOfOperations :=
     numberOfOperations c; size_ := size_ c; disposed_ := disposed_ c; hasKernel_ := v; version_
     := version_ c; program_ := program_ c; kernel_ := kernel_ c; inputBufferSize_ :=
     inputBufferSize_ c; nOutputVars_ := nOutputVars_ c; variatesPoolSize_ := variatesPoolSize_
     c; variatesPool_ := variatesPool_ c; variatesMtStateBuffer_ := variatesMtStateBuffer_ c;
     variatesProgram_ := variatesProgram_ c; variatesKernelSeedInit_ := variatesKernelSeedInit_
     c; variatesKernelTwist_ := variatesKernelTwist_ c; variatesKernelGenerate_ :=
     variatesKernelGenerate_ c; currentId_ := currentId_ c; currentState_ := currentState_ c;
     nVars_ := nVars_ c; nVariates_ := nVariates_ c; settings_ := settings_ c; inputVarOffset_ :=
     inputVarOffset_ c; inputVarIsScalar_ := inputVarIsScalar_ c; inputVarValues32_ :=
     inputVarValues32_ c; inputVarValues64_ := inputVarValues64_ c; freedVariables_ :=
     freedVariables_ c; outputVariables_ := outputVariables_ c; currentSsa_ := currentSsa_ c;
     cl_replies := cl_replies c; cl_calls := cl_calls c |}.

Definition set_version_ (v : list N) (c : OpenClContext) : OpenClContext :=
  {| healthy_ := healthy_ c; initialized_ := initialized_ c; context_ := context_ c; queue_ :=
     queue_ c; supportsDoublePrecision_ := supportsDoublePrecision_ c; numberOfOperations :=
     numberOfOperations c; size_ := size_ c; disposed_ := disposed_ c; hasKernel_ := hasKernel_
     c; version_ := v; program_ := program_ c; kernel_ := kernel_ c; inputBufferSize_ :=
     inputBufferSize_ c; nOutputVars_ := nOutputVars_ c; variatesPoolSize_ := variatesPoolSize_
     c; variatesPool_ := variatesPool_ c; variatesMtStateBuffer_ := variatesMtStateBuffer_ c;
     variatesProgram_ := variatesProgram_ c; variatesKernelSeedInit_ := variatesKernelSeedInit_
     c; variatesKernelTwist_ := variatesKernelTwist_ c; variatesKernelGenerate_ :=
     variatesKernelGenerate_ c; currentId_ := currentId_ c; currentState_ := currentState_ c;
     nVars_ := nVars_ c; nVariates_ := nVariates_ c; settings_ := settings_ c; inputVarOffset_ :=
     inputVarOffset_ c; inputVarIsScalar_ := inputVarIsScalar_ c; inputVarValues32_ :=
     inputVarValues32_ c; inputVarValues64_ := inputVarValues64_ c; freedVariables_ :=
     freedVariables_ c; outputVariables_ := outputVariables_ c; currentSsa_ := currentSsa_ c;
     cl_replies := cl_replies c; cl_calls := cl_calls c |}.

Definition set_program_ (v : list cl_handle) (c : OpenClContext) : OpenClContext :=
  {| healthy_ := healthy_ c; initialized_ := initialized_ c; context_ := context_ c; queue_ :=
     queue_ c; supportsDoublePrecision_ := supportsDoublePrecision_ c; numberOfOperations :=
     numberOfOperations c; size_ := size_ c; disposed_ := disposed_ c; hasKernel_ := hasKernel_
     c; version_ := version_ c; program_ := v; kernel_ := kernel_ c; inputBufferSize_ :=
     inputBufferSize_ c; nOutputVars_ := nOutputVars_ c; variatesPoolSize_ := variatesPoolSize_
     c; variatesPool_ := variatesPool_ c; variatesMtStateBuffer_ := variatesMtStateBuffer_ c;
     variatesProgram_ := variatesProgram_ c; variatesKernelSeedInit_ := variatesKernelSeedInit_
     c; variatesKernelTwist_ := variatesKernelTwist_ c; variatesKernelGenerate_ :=
     variatesKernelGenerate_ c; currentId_ := currentId_ c; currentState_ := currentState_ c;
     nVars_ := nVars_ c; nVariates_ := nVariates_ c; settings_ := settings_ c; inputVarOffset_ :=
     inputVarOffset_ c; inputVarIsScalar_ := inputVarIsScalar_ c; inputVarValues32_ :=
     inputVarValues32_ c; inputVarValues64_ := inputVarValues64_ c; freedVariables_ :=
     freedVariables_ c; outputVariables_ := outputVariables_ c; currentSsa_ := currentSsa_ c;
     cl_replies := cl_replies c; cl_calls := cl_calls c |}.

Definition set_kernel_ (v : list cl_handle) (c : OpenClContext) : OpenClContext :=
  {| healthy_ := healthy_ c; initialized_ := initialized_ c; context_ := context_ c; queue_ :=
     queue_ c; supportsDoublePrecision_ := supportsDoublePrecision_ c; numberOfOperations :=
     numberOfOperations c; size_ := size_ c; disposed_ := disposed_ c; hasKernel_ := hasKernel_
     c; version_ := version_ c; program_ := program_ c; kernel_ := v; inputBufferSize_ :=
     inputBufferSize_ c; nOutputVars_ := nOutputVars_ c; variatesPoolSize_ := variatesPoolSize_
     c; variatesPool_ := variatesPool_ c; variatesMtStateBuffer_ := variatesMtStateBuffer_ c;
     variatesProgram_ := variatesProgram_ c; variatesKernelSeedInit_ := variatesKernelSeedInit_
     c; variatesKernelTwist_ := variatesKernelTwist_ c; variatesKernelGenerate_ :=
     variatesKernelGenerate_ c; currentId_ := currentId_ c; currentState_ := currentState_ c;
     nVars_ := nVars_ c; nVariates_ := nVariates_ c; settings_ := settings_ c; inputVarOffset_ :=
     inputVarOffset_ c; inputVarIsScalar_ := inputVarIsScalar_ c; inputVarValues32_ :=
     inputVarValues32_ c; inputVarValues64_ := inputVarValues64_ c; freedVariables_ :=
     freedVariables_ c; outputVariables_ := outputVariables_ c; currentSsa_ := currentSsa_ c;
     cl_replies := cl_replies c; cl_calls := cl_calls c |}.

Definition set_inputBufferSize_ (v : list N) (c : OpenClContext) : OpenClContext :=
  {| healthy_ := healthy_ c; initialized_ := initialized_ c; context_ := context_ c; queue_ :=
     queue_ c; supportsDoublePrecision_ := supportsDoublePrecision_ c; numberOfOperations :=
     numberOfOperations c; size_ := size_ c; disposed_ := disposed_ c; hasKernel_ := hasKernel_
     c; version_ := version_ c; program_ := program_ c; kernel_ := kernel_ c; inputBufferSize_ :=
     v; nOutputVars_ := nOutputVars_ c; variatesPoolSize_ := variatesPoolSize_ c; variatesPool_
     := variatesPool_ c; variatesMtStateBuffer_ := variatesMtStateBuffer_ c; variatesProgram_ :=
     variatesProgram_ c; variatesKernelSeedInit_ := variatesKernelSeedInit_ c;
     variatesKernelTwist_ := variatesKernelTwist_ c; variatesKernelGenerate_ :=
     variatesKernelGenerate_ c; currentId_ := currentId_ c; currentState_ := currentState_ c;
     nVars_ := nVars_ c; nVariates_ := nVariates_ c; settings_ := settings_ c; inputVarOffset_ :=
     inputVarOffset_ c; inputVarIsScalar_ := inputVarIsScalar_ c; inputVarValues32_ :=
     inputVarValues32_ c; inputVarValues64_ := inputVarValues64_ c; freedVariables_ :=
     freedVariables_ c; outputVariables_ := outputVariables_ c; currentSsa_ := currentSsa_ c;
     cl_replies := cl_replies c; cl_calls := cl_calls c |}.

Definition set_nOutputVars_ (v : list N) (c : OpenClContext) : OpenClContext :=
  {| healthy_ := healthy_ c; initialized_ := initialized_ c; context_ := context_ c; queue_ :=
     queue_ c; supportsDoublePrecision_ := supportsDoublePrecision_ c; numberOfOperations :=
     numberOfOperations c; size_ := size_ c; disposed_ := disposed_ c; hasKernel_ := hasKernel_
     c; version_ := version_ c; program_ := program_ c; kernel_ := kernel_ c; inputBufferSize_ :=
     inputBufferSize_ c; nOutputVars_ := v; variatesPoolSize_ := variatesPoolSize_ c;
     variatesPool_ := variatesPool_ c; variatesMtStateBuffer_ := variatesMtStateBuffer_ c;
     variatesProgram_ := variatesProgram_ c; variatesKernelSeedInit_ := variatesKernelSeedInit_
     c; variatesKernelTwist_ := variatesKernelTwist_ c; variatesKernelGenerate_ :=
     variatesKernelGenerate_ c; currentId_ := currentId_ c; currentState_ := currentState_ c;
     nVars_ := nVars_ c; nVariates_ := nVariates_ c; settings_ := settings_ c; inputVarOffset_ :=
     inputVarOffset_ c; inputVarIsScalar_ := inputVarIsScalar_ c; inputVarValues32_ :=
     inputVarValues32_ c; inputVarValues64_ := inputVarValues64_ c; freedVariables_ :=
     freedVariables_ c; outputVariables_ := outputVariables_ c; currentSsa_ := currentSsa_ c;
     cl_replies := cl_replies c; cl_calls := cl_calls c |}.

Definition set_variatesPoolSize_ (v : N) (c : OpenClContext) : OpenClContext :=
  {| healthy_ := healthy_ c; initialized_ := initialized_ c; context_ := context_ c; queue_ :=
     queue_ c; supportsDoublePrecision_ := supportsDoublePrecision_ c; numberOfOperations :=
     numberOfOperations c; size_ := size_ c; disposed_ := disposed_ c; hasKernel_ := hasKernel_
     c; version_ := version_ c; program_ := program_ c; kernel_ := kernel_ c; inputBufferSize_ :=
     inputBufferSize_ c; nOutputVars_ := nOutputVars_ c; variatesPoolSize_ := v; variatesPool_ :=
     variatesPool_ c; variatesMtStateBuffer_ := variatesMtStateBuffer_ c; variatesProgram_ :=
     variatesProgram_ c; variatesKernelSeedInit_ := variatesKernelSeedInit_ c;
     variatesKernelTwist_ := variatesKernelTwist_ c; variatesKernelGenerate_ :=
     variatesKernelGenerate_ c; currentId_ := currentId_ c; currentState_ := currentState_ c;
     nVars_ := nVars_ c; nVariates_ := nVariates_ c; settings_ := settings_ c; inputVarOffset_ :=
     inputVarOffset_ c; inputVarIsScalar_ := inputVarIsScalar_ c; inputVarValues32_ :=
     inputVarValues32_ c; inputVarValues64_ := inputVarValues64_ c; freedVariables_ :=
     freedVariables_ c; outputVariables_ := outputVariables_ c; currentSsa_ := currentSsa_ c;
     cl_replies := cl_replies c; cl_calls := cl_calls c |}.

Definition set_variatesPool_ (v : cl_handle) (c : OpenClContext) : OpenClContext :=
  {| healthy_ := healthy_ c; initialized_ := initialized_ c; context_ := context_ c; queue_ :=
     queue_ c; supportsDoublePrecision_ := supportsDoublePrecision_ c; numberOfOperations :=
     numberOfOperations c; size_ := size_ c; disposed_ := disposed_ c; hasKernel_ := hasKernel_
     c; version_ := version_ c; program_ := program_ c; kernel_ := kernel_ c; inputBufferSize_ :=
     inputBufferSize_ c; nOutputVars_ := nOutputVars_ c; variatesPoolSize_ := variatesPoolSize_
     c; variatesPool_ := v; variatesMtStateBuffer_ := variatesMtStateBuffer_ c; variatesProgram_
     := variatesProgram_ c; variatesKernelSeedInit_ := variatesKernelSeedInit_ c;
     variatesKernelTwist_ := variatesKernelTwist_ c; variatesKernelGenerate_ :=
     variatesKernelGenerate_ c; currentId_ := currentId_ c; currentState_ := currentState_ c;
     nVars_ := nVars_ c; nVariates_ := nVariates_ c; settings_ := settings_ c; inputVarOffset_ :=
     inputVarOffset_ c; inputVarIsScalar_ := inputVarIsScalar_ c; inputVarValues32_ :=
     inputVarValues32_ c; inputVarValues64_ := inputVarValues64_ c; freedVariables_ :=
     freedVariables_ c; outputVariables_ := outputVariables_ c; currentSsa_ := currentSsa_ c;
     cl_replies := cl_replies c; cl_calls := cl_calls c |}.

Definition set_variatesMtStateBuffer_ (v : cl_handle) (c : OpenClContext) : OpenClContext :=
  {| healthy_ := healthy_ c; initialized_ := initialized_ c; context_ := context_ c; queue_ :=
     queue_ c; supportsDoublePrecision_ := supportsDoublePrecision_ c; numberOfOperations :=
     numberOfOperations c; size_ := size_ c; disposed_ := disposed_ c; hasKernel_ := hasKernel_
     c; version_ := version_ c; program_ := program_ c; kernel_ := kernel_ c; inputBufferSize_ :=
     inputBufferSize_ c; nOutputVars_ := nOutputVars_ c; variatesPoolSize_ := variatesPoolSize_
     c; variatesPool_ := variatesPool_ c; variatesMtStateBuffer_ := v; variatesProgram_ :=
     variatesProgram_ c; variatesKernelSeedInit_ := variatesKernelSeedInit_ c;
     variatesKernelTwist_ := variatesKernelTwist_ c; variatesKernelGenerate_ :=
     variatesKernelGenerate_ c; currentId_ := currentId_ c; currentState_ := currentState_ c;
     nVars_ := nVars_ c; nVariates_ := nVariates_ c; settings_ := settings_ c; inputVarOffset_ :=
     inputVarOffset_ c; inputVarIsScalar_ := inputVarIsScalar_ c; inputVarValues32_ :=
     inputVarValues32_ c; inputVarValues64_ := inputVarValues64_ c; freedVariables_ :=
     freedVariables_ c; outputVariables_ := outputVariables_ c; currentSsa_ := currentSsa_ c;
     cl_replies := cl_replies c; cl_calls := cl_calls c |}.

Definition set_variatesProgram_ (v : cl_handle) (c : OpenClContext) : OpenClContext :=
  {| healthy_ := healthy_ c; initialized_ := initialized_ c; context_ := context_ c; queue_ :=
     queue_ c; supportsDoublePrecision_ := supportsDoublePrecision_ c; numberOfOperations :=
     numberOfOperations c; size_ := size_ c; disposed_ := disposed_ c; hasKernel_ := hasKernel_
     c; version_ := version_ c; program_ := program_ c; kernel_ := kernel_ c; inputBufferSize_ :=
     inputBufferSize_ c; nOutputVars_ := nOutputVars_ c; variatesPoolSize_ := variatesPoolSize_
     c; variatesPool_ := variatesPool_ c; variatesMtStateBuffer_ := variatesMtStateBuffer_ c;
     variatesProgram_ := v; variatesKernelSeedInit_ := variatesKernelSeedInit_ c;
     variatesKernelTwist_ := variatesKernelTwist_ c; variatesKernelGenerate_ :=
     variatesKernelGenerate_ c; currentId_ := currentId_ c; currentState_ := currentState_ c;
     nVars_ := nVars_ c; nVariates_ := nVariates_ c; settings_ := settings_ c; inputVarOffset_ :=
     inputVarOffset_ c; inputVarIsScalar_ := inputVarIsScalar_ c; inputVarValues32_ :=
     inputVarValues32_ c; inputVarValues64_ := inputVarValues64_ c; freedVariables_ :=
     freedVariables_ c; outputVariables_ := outputVariables_ c; currentSsa_ := currentSsa_ c;
     cl_replies := cl_replies c; cl_calls := cl_calls c |}.

Definition set_variatesKernelSeedInit_ (v : cl_handle) (c : OpenClContext) : OpenClContext :=
  {| healthy_ := healthy_ c; initialized_ := initialized_ c; context_ := context_ c; queue_ :=
     queue_ c; supportsDoublePrecision_ := supportsDoublePrecision_ c; numberOfOperations :=
     numberOfOperations c; size_ := size_ c; disposed_ := disposed_ c; hasKernel_ := hasKernel_
     c; version_ := version_ c; program_ := program_ c; kernel_ := kernel_ c; inputBufferSize_ :=
     inputBufferSize_ c; nOutputVars_ := nOutputVars_ c; variatesPoolSize_ := variatesPoolSize_
     c; variatesPool_ := variatesPool_ c; variatesMtStateBuffer_ := variatesMtStateBuffer_ c;
     variatesProgram_ := variatesProgram_ c; variatesKernelSeedInit_ := v; variatesKernelTwist_
     := variatesKernelTwist_ c; variatesKernelGenerate_ := variatesKernelGenerate_ c; currentId_
     := currentId_ c; currentState_ := currentState_ c; nVars_ := nVars_ c; nVariates_ :=
     nVariates_ c; settings_ := settings_ c; inputVarOffset_ := inputVarOffset_ c;
     inputVarIsScalar_ := inputVarIsScalar_ c; inputVarValues32_ := inputVarValues32_ c;
     inputVarValues64_ := inputVarValues64_ c; freedVariables_ := freedVariables_ c;
     outputVariables_ := outputVariables_ c; currentSsa_ := currentSsa_ c; cl_replies :=
     cl_replies c; cl_calls := cl_calls c |}.

Definition set_variatesKernelTwist_ (v : cl_handle) (c : OpenClContext) : OpenClContext :=
  {| healthy_ := healthy_ c; initialized_ := initialized_ c; context_ := context_ c; queue_ :=
     queue_ c; supportsDoublePrecision_ := supportsDoublePrecision_ c; numberOfOperations :=
     numberOfOperations c; size_ := size_ c; disposed_ := disposed_ c; hasKernel_ := hasKernel_
     c; version_ := version_ c; program_ := program_ c; kernel_ := kernel_ c; inputBufferSize_ :=
     inputBufferSize_ c; nOutputVars_ := nOutputVars_ c; variatesPoolSize_ := variatesPoolSize_
     c; variatesPool_ := variatesPool_ c; variatesMtStateBuffer_ := variatesMtStateBuffer_ c;
     variatesProgram_ := variatesProgram_ c; variatesKernelSeedInit_ := variatesKernelSeedInit_
     c; variatesKernelTwist_ := v; variatesKernelGenerate_ := variatesKernelGenerate_ c;
     currentId_ := currentId_ c; currentState_ := currentState_ c; nVars_ := nVars_ c; nVariates_
     := nVariates_ c; settings_ := settings_ c; inputVarOffset_ := inputVarOffset_ c;
     inputVarIsScalar_ := inputVarIsScalar_ c; inputVarValues32_ := inputVarValues32_ c;
     inputVarValues64_ := inputVarValues64_ c; freedVariables_ := freedVariables_ c;
     outputVariables_ := outputVariables_ c; currentSsa_ := currentSsa_ c; cl_replies :=
     cl_replies c; cl_calls := cl_calls c |}.

Definition set_variatesKernelGenerate_ (v : cl_handle) (c : OpenClContext) : OpenClContext :=
  {| healthy_ := healthy_ c; initialized_ := initialized_ c; context_ := context_ c; queue_ :=
     queue_ c; supportsDoublePrecision_ := supportsDoublePrecision_ c; numberOfOperations :=
     numberOfOperations c; size_ := size_ c; disposed_ := disposed_ c; hasKernel_ := hasKernel_
     c; version_ := version_ c; program_ := program_ c; kernel_ := kernel_ c; inputBufferSize_ :=
     inputBufferSize_ c; nOutputVars_ := nOutputVars_ c; variatesPoolSize_ := variatesPoolSize_
     c; variatesPool_ := variatesPool_ c; variatesMtStateBuffer_ := variatesMtStateBuffer_ c;
     variatesProgram_ := variatesProgram_ c; variatesKernelSeedInit_ := variatesKernelSeedInit_
     c; variatesKernelTwist_ := variatesKernelTwist_ c; variatesKernelGenerate_ := v; currentId_
     := currentId_ c; currentState_ := currentState_ c; nVars_ := nVars_ c; nVariates_ :=
     nVariates_ c; settings_ := settings_ c; inputVarOffset_ := inputVarOffset_ c;
     inputVarIsScalar_ := inputVarIsScalar_ c; inputVarValues32_ := inputVarValues32_ c;
     inputVarValues64_ := inputVarValues64_ c; freedVariables_ := freedVariables_ c;
     outputVariables_ := outputVariables_ c; currentSsa_ := currentSsa_ c; cl_replies :=
     cl_replies c; cl_calls := cl_calls c |}.

Definition set_currentId_ (v : N) (c : OpenClContext) : OpenClContext :=
  {| healthy_ := healthy_ c; initialized_ := initialized_ c; context_ := context_ c; queue_ :=
     queue_ c; supportsDoublePrecision_ := supportsDoublePrecision_ c; numberOfOperations :=
     numberOfOperations c; size_ := size_ c; disposed_ := disposed_ c; hasKernel_ := hasKernel_
     c; version_ := version_ c; program_ := program_ c; kernel_ := kernel_ c; inputBufferSize_ :=
     inputBufferSize_ c; nOutputVars_ := nOutputVars_ c; variatesPoolSize_ := variatesPoolSize_
     c; variatesPool_ := variatesPool_ c; variatesMtStateBuffer_ := variatesMtStateBuffer_ c;
     variatesProgram_ := variatesProgram_ c; variatesKernelSeedInit_ := variatesKernelSeedInit_
     c; variatesKernelTwist_ := variatesKernelTwist_ c; variatesKernelGenerate_ :=
     variatesKernelGenerate_ c; currentId_ := v; currentState_ := currentState_ c; nVars_ :=
     nVars_ c; nVariates_ := nVariates_ c; settings_ := settings_ c; inputVarOffset_ :=
     inputVarOffset_ c; inputVarIsScalar_ := inputVarIsScalar_ c; inputVarValues32_ :=
     inputVarValues32_ c; inputVarValues64_ := inputVarValues64_ c; freedVariables_ :=
     freedVariables_ c; outputVariables_ := outputVariables_ c; currentSsa_ := currentSsa_ c;
     cl_replies := cl_replies c; cl_calls := cl_calls c |}.

Definition set_currentState_ (v : ComputeState) (c : OpenClContext) : OpenClContext :=
  {| healthy_ := healthy_ c; initialized_ := initialized_ c; context_ := context_ c; queue_ :=
     queue_ c; supportsDoublePrecision_ := supportsDoublePrecision_ c; numberOfOperations :=
     numberOfOperations c; size_ := size_ c; disposed_ := disposed_ c; hasKernel_ := hasKernel_
     c; version_ := version_ c; program_ := program_ c; kernel_ := kernel_ c; inputBufferSize_ :=
     inputBufferSize_ c; nOutputVars_ := nOutputVars_ c; variatesPoolSize_ := variatesPoolSize_
     c; variatesPool_ := variatesPool_ c; variatesMtStateBuffer_ := variatesMtStateBuffer_ c;
     variatesProgram_ := variatesProgram_ c; variatesKernelSeedInit_ := variatesKernelSeedInit_
     c; variatesKernelTwist_ := variatesKernelTwist_ c; variatesKernelGenerate_ :=
     variatesKernelGenerate_ c; currentId_ := currentId_ c; currentState_ := v; nVars_ := nVars_
     c; nVariates_ := nVariates_ c; settings_ := settings_ c; inputVarOffset_ := inputVarOffset_
     c; inputVarIsScalar_ := inputVarIsScalar_ c; inputVarValues32_ := inputVarValues32_ c;
     inputVarValues64_ := inputVarValues64_ c; freedVariables_ := freedVariables_ c;
     outputVariables_ := outputVariables_ c; currentSsa_ := currentSsa_ c; cl_replies :=
     cl_replies c; cl_calls := cl_calls c |}.

Definition set_nVars_ (v : N) (c : OpenClContext) : OpenClContext :=
  {| healthy_ := healthy_ c; initialized_ := initialized_ c; context_ := context_ c; queue_ :=
     queue_ c; supportsDoublePrecision_ := supportsDoublePrecision_ c; numberOfOperations :=
     numberOfOperations c; size_ := size_ c; disposed_ := disposed_ c; hasKernel_ := hasKernel_
     c; version_ := version_ c; program_ := program_ c; kernel_ := kernel_ c; inputBufferSize_ :=
     inputBufferSize_ c; nOutputVars_ := nOutputVars_ c; variatesPoolSize_ := variatesPoolSize_
     c; variatesPool_ := variatesPool_ c; variatesMtStateBuffer_ := variatesMtStateBuffer_ c;
     variatesProgram_ := variatesProgram_ c; variatesKernelSeedInit_ := variatesKernelSeedInit_
     c; variatesKernelTwist_ := variatesKernelTwist_ c; variatesKernelGenerate_ :=
     variatesKernelGenerate_ c; currentId_ := currentId_ c; currentState_ := currentState_ c;
     nVars_ := v; nVariates_ := nVariates_ c; settings_ := settings_ c; inputVarOffset_ :=
     inputVarOffset_ c; inputVarIsScalar_ := inputVarIsScalar_ c; inputVarValues32_ :=
     inputVarValues32_ c; inputVarValues64_ := inputVarValues64_ c; freedVariables_ :=
     freedVariables_ c; outputVariables_ := outputVariables_ c; currentSsa_ := currentSsa_ c;
     cl_replies := cl_replies c; cl_calls := cl_calls c |}.

Definition set_nVariates_ (v : N) (c : OpenClContext) : OpenClContext :=
  {| healthy_ := healthy_ c; initialized_ := initialized_ c; context_ := context_ c; queue_ :=
     queue_ c; supportsDoublePrecision_ := supportsDoublePrecision_ c; numberOfOperations :=
     numberOfOperations c; size_ := size_ c; disposed_ := disposed_ c; hasKernel_ := hasKernel_
     c; version_ := version_ c; program_ := program_ c; kernel_ := kernel_ c; inputBufferSize_ :=
     inputBufferSize_ c; nOutputVars_ := nOutputVars_ c; variatesPoolSize_ := variatesPoolSize_
     c; variatesPool_ := variatesPool_ c; variatesMtStateBuffer_ := variatesMtStateBuffer_ c;
     variatesProgram_ := variatesProgram_ c; variatesKernelSeedInit_ := variatesKernelSeedInit_
     c; variatesKernelTwist_ := variatesKernelTwist_ c; variatesKernelGenerate_ :=
     variatesKernelGenerate_ c; currentId_ := currentId_ c; currentState_ := currentState_ c;
     nVars_ := nVars_ c; nVariates_ := v; settings_ := settings_ c; inputVarOffset_ :=
     inputVarOffset_ c; inputVarIsScalar_ := inputVarIsScalar_ c; inputVarValues32_ :=
     inputVarValues32_ c; inputVarValues64_ := inputVarValues64_ c; freedVariables_ :=
     freedVariables_ c; outputVariables_ := outputVariables_ c; currentSsa_ := currentSsa_ c;
     cl_replies := cl_replies c; cl_calls := cl_calls c |}.

Definition set_settings_ (v : Settings) (c : OpenClContext) : OpenClContext :=
  {| healthy_ := healthy_ c; initialized_ := initialized_ c; context_ := context_ c; queue_ :=
     queue_ c; supportsDoublePrecision_ := supportsDoublePrecision_ c; numberOfOperations :=
     numberOfOperations c; size_ := size_ c; disposed_ := disposed_ c; hasKernel_ := hasKernel_
     c; version_ := version_ c; program_ := program_ c; kernel_ := kernel_ c; inputBufferSize_ :=
     inputBufferSize_ c; nOutputVars_ := nOutputVars_ c; variatesPoolSize_ := variatesPoolSize_
     c; variatesPool_ := variatesPool_ c; variatesMtStateBuffer_ := variatesMtStateBuffer_ c;
     variatesProgram_ := variatesProgram_ c; variatesKernelSeedInit_ := variatesKernelSeedInit_
     c; variatesKernelTwist_ := variatesKernelTwist_ c; variatesKernelGenerate_ :=
     variatesKernelGenerate_ c; currentId_ := currentId_ c; currentState_ := currentState_ c;
     nVars_ := nVars_ c; nVariates_ := nVariates_ c; settings_ := v; inputVarOffset_ :=
     inputVarOffset_ c; inputVarIsScalar_ := inputVarIsScalar_ c; inputVarValues32_ :=
     inputVarValues32_ c; inputVarValues64_ := inputVarValues64_ c; freedVariables_ :=
     freedVariables_ c; outputVariables_ := outputVariables_ c; currentSsa_ := currentSsa_ c;
     cl_replies := cl_replies c; cl_calls := cl_calls c |}.

Definition set_inputVarOffset_ (v : list N) (c : OpenClContext) : OpenClContext :=
  {| healthy_ := healthy_ c; initialized_ := initialized_ c; context_ := context_ c; queue_ :=
     queue_ c; supportsDoublePrecision_ := supportsDoublePrecision_ c; numberOfOperations :=
     numberOfOperations c; size_ := size_ c; disposed_ := disposed_ c; hasKernel_ := hasKernel_
     c; version_ := version_ c; program_ := program_ c; kernel_ := kernel_ c; inputBufferSize_ :=
     inputBufferSize_ c; nOutputVars_ := nOutputVars_ c; variatesPoolSize_ := variatesPoolSize_
     c; variatesPool_ := variatesPool_ c; variatesMtStateBuffer_ := variatesMtStateBuffer_ c;
     variatesProgram_ := variatesProgram_ c; variatesKernelSeedInit_ := variatesKernelSeedInit_
     c; variatesKernelTwist_ := variatesKernelTwist_ c; variatesKernelGenerate_ :=
     variatesKernelGenerate_ c; currentId_ := currentId_ c; currentState_ := currentState_ c;
     nVars_ := nVars_ c; nVariates_ := nVariates_ c; settings_ := settings_ c; inputVarOffset_ :=
     v; inputVarIsScalar_ := inputVarIsScalar_ c; inputVarValues32_ := inputVarValues32_ c;
     inputVarValues64_ := inputVarValues64_ c; freedVariables_ := freedVariables_ c;
     outputVariables_ := outputVariables_ c; currentSsa_ := currentSsa_ c; cl_replies :=
     cl_replies c; cl_calls := cl_calls c |}.

Definition set_inputVarIsScalar_ (v : list bool) (c : OpenClContext) : OpenClContext :=
  {| healthy_ := healthy_ c; initialized_ := initialized_ c; context_ := context_ c; queue_ :=
     queue_ c; supportsDoublePrecision_ := supportsDoublePrecision_ c; numberOfOperations :=
     numberOfOperations c; size_ := size_ c; disposed_ := disposed_ c; hasKernel_ := hasKernel_
     c; version_ := version_ c; program_ := program_ c; kernel_ := kernel_ c; inputBufferSize_ :=
     inputBufferSize_ c; nOutputVars_ := nOutputVars_ c; variatesPoolSize_ := variatesPoolSize_
     c; variatesPool_ := variatesPool_ c; variatesMtStateBuffer_ := variatesMtStateBuffer_ c;
     variatesProgram_ := variatesProgram_ c; variatesKernelSeedInit_ := variatesKernelSeedInit_
     c; variatesKernelTwist_ := variatesKernelTwist_ c; variatesKernelGenerate_ :=
     variatesKernelGenerate_ c; currentId_ := currentId_ c; currentState_ := currentState_ c;
     nVars_ := nVars_ c; nVariates_ := nVariates_ c; settings_ := settings_ c; inputVarOffset_ :=
     inputVarOffset_ c; inputVarIsScalar_ := v; inputVarValues32_ := inputVarValues32_ c;
     inputVarValues64_ := inputVarValues64_ c; freedVariables_ := freedVariables_ c;
     outputVariables_ := outputVariables_ c; currentSsa_ := currentSsa_ c; cl_replies :=
     cl_replies c; cl_calls := cl_calls c |}.

Definition set_inputVarValues32_ (v : list cl_float) (c : OpenClContext) : OpenClContext :=
  {| healthy_ := healthy_ c; initialized_ := initialized_ c; context_ := context_ c; queue_ :=
     queue_ c; supportsDoublePrecision_ := supportsDoublePrecision_ c; numberOfOperations :=
     numberOfOperations c; size_ := size_ c; disposed_ := disposed_ c; hasKernel_ := hasKernel_
     c; version_ := version_ c; program_ := program_ c; kernel_ := kernel_ c; inputBufferSize_ :=
     inputBufferSize_ c; nOutputVars_ := nOutputVars_ c; variatesPoolSize_ := variatesPoolSize_
     c; variatesPool_ := variatesPool_ c; variatesMtStateBuffer_ := variatesMtStateBuffer_ c;
     variatesProgram_ := variatesProgram_ c; variatesKernelSeedInit_ := variatesKernelSeedInit_
     c; variatesKernelTwist_ := variatesKernelTwist_ c; variatesKernelGenerate_ :=
     variatesKernelGenerate_ c; currentId_ := currentId_ c; currentState_ := currentState_ c;
     nVars_ := nVars_ c; nVariates_ := nVariates_ c; settings_ := settings_ c; inputVarOffset_ :=
     inputVarOffset_ c; inputVarIsScalar_ := inputVarIsScalar_ c; inputVarValues32_ := v;
     inputVarValues64_ := inputVarValues64_ c; freedVariables_ := freedVariables_ c;
     outputVariables_ := outputVariables_ c; currentSsa_ := currentSsa_ c; cl_replies :=
     cl_replies c; cl_calls := cl_calls c |}.

Definition set_inputVarValues64_ (v : list double) (c : OpenClContext) : OpenClContext :=
  {| healthy_ := healthy_ c; initialized_ := initialized_ c; context_ := context_ c; queue_ :=
     queue_ c; supportsDoublePrecision_ := supportsDoublePrecision_ c; numberOfOperations :=
     numberOfOperations c; size_ := size_ c; disposed_ := disposed_ c; hasKernel_ := hasKernel_
     c; version_ := version_ c; program_ := program_ c; kernel_ := kernel_ c; inputBufferSize_ :=
     inputBufferSize_ c; nOutputVars_ := nOutputVars_ c; variatesPoolSize_ := variatesPoolSize_
     c; variatesPool_ := variatesPool_ c; variatesMtStateBuffer_ := variatesMtStateBuffer_ c;
     variatesProgram_ := variatesProgram_ c; variatesKernelSeedInit_ := variatesKernelSeedInit_
     c; variatesKernelTwist_ := variatesKernelTwist_ c; variatesKernelGenerate_ :=
     variatesKernelGenerate_ c; currentId_ := currentId_ c; currentState_ := currentState_ c;
     nVars_ := nVars_ c; nVariates_ := nVariates_ c; settings_ := settings_ c; inputVarOffset_ :=
     inputVarOffset_ c; inputVarIsScalar_ := inputVarIsScalar_ c; inputVarValues32_ :=
     inputVarValues32_ c; inputVarValues64_ := v; freedVariables_ := freedVariables_ c;
     outputVariables_ := outputVariables_ c; currentSsa_ := currentSsa_ c; cl_replies :=
     cl_replies c; cl_calls := cl_calls c |}.

Definition set_freedVariables_ (v : list N) (c : OpenClContext) : OpenClContext :=
  {| healthy_ := healthy_ c; initialized_ := initialized_ c; context_ := context_ c; queue_ :=
     queue_ c; supportsDoublePrecision_ := supportsDoublePrecision_ c; numberOfOperations :=
     numberOfOperations c; size_ := size_ c; disposed_ := disposed_ c; hasKernel_ := hasKernel_
     c; version_ := version_ c; program_ := program_ c; kernel_ := kernel_ c; inputBufferSize_ :=
     inputBufferSize_ c; nOutputVars_ := nOutputVars_ c; variatesPoolSize_ := variatesPoolSize_
     c; variatesPool_ := variatesPool_ c; variatesMtStateBuffer_ := variatesMtStateBuffer_ c;
     variatesProgram_ := variatesProgram_ c; variatesKernelSeedInit_ := variatesKernelSeedInit_
     c; variatesKernelTwist_ := variatesKernelTwist_ c; variatesKernelGenerate_ :=
     variatesKernelGenerate_ c; currentId_ := currentId_ c; currentState_ := currentState_ c;
     nVars_ := nVars_ c; nVariates_ := nVariates_ c; settings_ := settings_ c; inputVarOffset_ :=
     inputVarOffset_ c; inputVarIsScalar_ := inputVarIsScalar_ c; inputVarValues32_ :=
     inputVarValues32_ c; inputVarValues64_ := inputVarValues64_ c; freedVariables_ := v;
     outputVariables_ := outputVariables_ c; currentSsa_ := currentSsa_ c; cl_replies :=
     cl_replies c; cl_calls := cl_calls c |}.

Definition set_outputVariables_ (v : list N) (c : OpenClContext) : OpenClContext :=
  {| healthy_ := healthy_ c; initialized_ := initialized_ c; context_ := context_ c; queue_ :=
     queue_ c; supportsDoublePrecision_ := supportsDoublePrecision_ c; numberOfOperations :=
     numberOfOperations c; size_ := size_ c; disposed_ := disposed_ c; hasKernel_ := hasKernel_
     c; version_ := version_ c; program_ := program_ c; kernel_ := kernel_ c; inputBufferSize_ :=
     inputBufferSize_ c; nOutputVars_ := nOutputVars_ c; variatesPoolSize_ := variatesPoolSize_
     c; variatesPool_ := variatesPool_ c; variatesMtStateBuffer_ := variatesMtStateBuffer_ c;
     variatesProgram_ := variatesProgram_ c; variatesKernelSeedInit_ := variatesKernelSeedInit_
     c; variatesKernelTwist_ := variatesKernelTwist_ c; variatesKernelGenerate_ :=
     variatesKernelGenerate_ c; currentId_ := currentId_ c; currentState_ := currentState_ c;
     nVars_ := nVars_ c; nVariates_ := nVariates_ c; settings_ := settings_ c; inputVarOffset_ :=
     inputVarOffset_ c; inputVarIsScalar_ := inputVarIsScalar_ c; inputVarValues32_ :=
     inputVarValues32_ c; inputVarValues64_ := inputVarValues64_ c; freedVariables_ :=
     freedVariables_ c; outputVariables_ := v; currentSsa_ := currentSsa_ c; cl_replies :=
     cl_replies c; cl_calls := cl_calls c |}.

Definition set_currentSsa_ (v : string) (c : OpenClContext) : OpenClContext :=
  {| healthy_ := healthy_ c; initialized_ := initialized_ c; context_ := context_ c; queue_ :=
     queue_ c; supportsDoublePrecision_ := supportsDoublePrecision_ c; numberOfOperations :=
     numberOfOperations c; size_ := size_ c; disposed_ := disposed_ c; hasKernel_ := hasKernel_
     c; version_ := version_ c; program_ := program_ c; kernel_ := kernel_ c; inputBufferSize_ :=
     inputBufferSize_ c; nOutputVars_ := nOutputVars_ c; variatesPoolSize_ := variatesPoolSize_
     c; variatesPool_ := variatesPool_ c; variatesMtStateBuffer_ := variatesMtStateBuffer_ c;
     variatesProgram_ := variatesProgram_ c; variatesKernelSeedInit_ := variatesKernelSeedInit_
     c; variatesKernelTwist_ := variatesKernelTwist_ c; variatesKernelGenerate_ :=
     variatesKernelGenerate_ c; currentId_ := currentId_ c; currentState_ := currentState_ c;
     nVars_ := nVars_ c; nVariates_ := nVariates_ c; settings_ := settings_ c; inputVarOffset_ :=
     inputVarOffset_ c; inputVarIsScalar_ := inputVarIsScalar_ c; inputVarValues32_ :=
     inputVarValues32_ c; inputVarValues64_ := inputVarValues64_ c; freedVariables_ :=
     freedVariables_ c; outputVariables_ := outputVariables_ c; currentSsa_ := v; cl_replies :=
     cl_replies c; cl_calls := cl_calls c |}.

Definition set_cl_replies (v : list cl_int) (c : OpenClContext) : OpenClContext :=
  {| healthy_ := healthy_ c; initialized_ := initialized_ c; context_ := context_ c; queue_ :=
     queue_ c; supportsDoublePrecision_ := supportsDoublePrecision_ c; numberOfOperations :=
     numberOfOperations c; size_ := size_ c; disposed_ := disposed_ c; hasKernel_ := hasKernel_
     c; version_ := version_ c; program_ := program_ c; kernel_ := kernel_ c; inputBufferSize_ :=
     inputBufferSize_ c; nOutputVars_ := nOutputVars_ c; variatesPoolSize_ := variatesPoolSize_
     c; variatesPool_ := variatesPool_ c; variatesMtStateBuffer_ := variatesMtStateBuffer_ c;
     variatesProgram_ := variatesProgram_ c; variatesKernelSeedInit_ := variatesKernelSeedInit_
     c; variatesKernelTwist_ := variatesKernelTwist_ c; variatesKernelGenerate_ :=
     variatesKernelGenerate_ c; currentId_ := currentId_ c; currentState_ := currentState_ c;
     nVars_ := nVars_ c; nVariates_ := nVariates_ c; settings_ := settings_ c; inputVarOffset_ :=
     inputVarOffset_ c; inputVarIsScalar_ := inputVarIsScalar_ c; inputVarValues32_ :=
     inputVarValues32_ c; inputVarValues64_ := inputVarValues64_ c; freedVariables_ :=
     freedVariables_ c; outputVariables_ := outputVariables_ c; currentSsa_ := currentSsa_ c;
     cl_replies := v; cl_calls := cl_calls c |}.

Definition set_cl_calls (v : list (ClCall * cl_int)) (c : OpenClContext) : OpenClContext :=
  {| healthy_ := healthy_ c; initialized_ := initialized_ c; context_ := context_ c; queue_ :=
     queue_ c; supportsDoublePrecision_ := supportsDoublePrecision_ c; numberOfOperations :=
     numberOfOperations c; size_ := size_ c; disposed_ := disposed_ c; hasKernel_ := hasKernel_
     c; version_ := version_ c; program_ := program_ c; kernel_ := kernel_ c; inputBufferSize_ :=
     inputBufferSize_ c; nOutputVars_ := nOutputVars_ c; variatesPoolSize_ := variatesPoolSize_
     c; variatesPool_ := variatesPool_ c; variatesMtStateBuffer_ := variatesMtStateBuffer_ c;
     variatesProgram_ := variatesProgram_ c; variatesKernelSeedInit_ := variatesKernelSeedInit_
     c; variatesKernelTwist_ := variatesKernelTwist_ c; variatesKernelGenerate_ :=
     variatesKernelGenerate_ c; currentId_ := currentId_ c; currentState_ := currentState_ c;
     nVars_ := nVars_ c; nVariates_ := nVariates_ c; settings_ := settings_ c; inputVarOffset_ :=
     inputVarOffset_ c; inputVarIsScalar_ := inputVarIsScalar_ c; inputVarValues32_ :=
     inputVarValues32_ c; inputVarValues64_ := inputVarValues64_ c; freedVariables_ :=
     freedVariables_ c; outputVariables_ := outputVariables_ c; currentSsa_ := currentSsa_ c;
     cl_replies := cl_replies c; cl_calls := v |}.

(** ** State, exceptions and undefined behaviour *)

(** The result of running a member function from a state [s]:
    - [Returned a s']: normal return of [a], leaving state [s'];
    - [Thrown what s']: a [QL_REQUIRE]/[QL_FAIL] threw; [what] is the fixed
      leading text of the message, [s'] the state at the throw;
    - [Undefined]: the C++ execution has undefined behaviour;
    - [OutOfFuel]: a loop was cut off by the fuel bound of the embedding. *)
Inductive outcome (S A : Type) : Type :=
| Returned (a : A) (s : S)
| Thrown (what : string) (s : S)
| Undefined
| OutOfFuel.

Arguments Returned {S A} a s.
Arguments Thrown {S A} what s.
Arguments Undefined {S A}.
Arguments OutOfFuel {S A}.

Definition M (S A : Type) : Type := S -> outcome S A.

Definition ret {S A : Type} (a : A) : M S A := fun s => Returned a s.

Definition bind {S A B : Type} (m : M S A) (k : A -> M S B) : M S B :=
  fun s =>
    match m s with
    | Returned a s' => k a s'
    | Thrown what s' => Thrown what s'
    | Undefined => Undefined
    | OutOfFuel => OutOfFuel
    end.

Definition throw {S A : Type} (what : string) : M S A := fun s => Thrown what s.
Definition undefined {S A : Type} : M S A := fun _ => Undefined.
Definition out_of_fuel {S A : Type} : M S A := fun _ => OutOfFuel.
Definition get {S : Type} : M S S := fun s => Returned s s.
Definition modify {S : Type} (f : S -> S) : M S unit := fun s => Returned tt (f s).

Notation "x <- m ;; k" := (bind m (fun x => k))
  (at level 20, m at level 99, k at level 200, only parsing).
Notation "' pat <- m ;; k" := (bind m (fun x => match x with pat => k end))
  (at level 20, pat pattern, m at level 99, k at level 200, only parsing).
Notation "m ;; k" := (bind m (fun _ => k))
  (at level 100, k at level 200, only parsing, right associativity).

Definition QL_REQUIRE {S : Type} (condition : bool) (what : string) : M S unit :=
  if condition then ret tt else throw what.

Definition QL_FAIL {S A : Type} (what : string) : M S A := throw what.

(** A scoped guard: [cleanup] is the guard's destructor, run when the scope
    [body] is left by return or by exception. *)
Definition scope_exit {S A : Type} (body : M S A) (cleanup : S -> S) : M S A :=
  fun s =>
    match body s with
    | Returned a s' => Returned a (cleanup s')
    | Thrown what s' => Thrown what (cleanup s')
    | Undefined => Undefined
    | OutOfFuel => OutOfFuel
    end.

(** [for (x : l) a = body(x, a)] with a loop-carried local [a]. *)
Fixpoint forM {S A : Type} (l : list N) (body : N -> A -> M S A) (a : A) : M S A :=
  match l with
  | [] => ret a
  | x :: l' => a' <- body x a ;; forM l' body a'
  end.

(** The index values of [for (std::size_t i = 0; i < n; ++i)]. *)
Definition indices (n : N) : list N := map N.of_nat (seq 0 (N.to_nat n)).

(** ** [std::vector] accesses *)

Definition vec_size {A : Type} (v : list A) : N := N.of_nat (length v).

(** [v[i]], undefined out of range. *)
Definition vec_get {S A : Type} (v : list A) (i : N) : M S A :=
  match v !! N.to_nat i with
  | Some x => ret x
  | None => undefined
  end.

(** [v[i] = x], undefined out of range. *)
Definition vec_set {S A : Type} (v : list A) (i : N) (x : A) : M S (list A) :=
  if (N.to_nat i <? length v)%nat then ret (<[N.to_nat i := x]> v) else undefined.

(** [v.back()], undefined on an empty vector. *)
Definition vec_back {S A : Type} (v : list A) : M S A :=
  match last v with
  | Some x => ret x
  | None => undefined
  end.

(** [&v[0]], handed to a device call that reads [bytes] bytes from that
    address: the first [bytes / elementSize] elements of [v].  Undefined on an
    empty vector, and when [v] holds fewer elements than are read. *)
Definition host_read {S A : Type} (v : list A) (bytes elementSize : N) : M S (list A) :=
  if (0 <? vec_size v) && (bytes / elementSize <=? vec_size v)
  then ret (take (N.to_nat (bytes / elementSize)) v)
  else undefined.

Definition newline : string := String (Ascii.ascii_of_nat 10) EmptyString.

(** [boost::join(parts, sep)] *)
Fixpoint join (sep : string) (parts : list string) : string :=
  match parts with
  | [] => ""
  | [p] => p
  | p :: rest => p +:+ sep +:+ join sep rest
  end.


(** ** The device *)

(** One OpenCL API call: it is logged with the status it returns, the status
    being the next pending reply of the device ([CL_SUCCESS] once the list is
    exhausted); object-creating calls and enqueues hand back a fresh handle. *)
Definition next_reply (c : OpenClContext) : cl_int := hd CL_SUCCESS (cl_replies c).

Definition fresh_handle (c : OpenClContext) : cl_handle := N.of_nat (S (length (cl_calls c))).

Definition answered (call : ClCall) (c : OpenClContext) : OpenClContext :=
  set_cl_calls (cl_calls c ++ [(call, next_reply c)]) (set_cl_replies (tl (cl_replies c)) c).

Definition cl (call : ClCall) : M OpenClContext (cl_int * cl_handle) :=
  fun c => Returned (next_reply c, fresh_handle c) (answered call c).

(** A host-side action that is logged but answered by no device. *)
Definition host (call : ClCall) : M OpenClContext unit :=
  modify (fun c => set_cl_calls (cl_calls c ++ [(call, CL_SUCCESS)]) c).

Definition is_success (err : cl_int) : bool := (err =? CL_SUCCESS)%Z.

(** [releaseMem], [releaseKernel], [releaseProgram]: a failing release is
    reported on [std::cerr] only. *)
Definition releaseMem (m : cl_handle) : M OpenClContext unit :=
  _ <- cl (clReleaseMemObject m) ;; ret tt.
Definition releaseKernel (k : cl_handle) : M OpenClContext unit :=
  _ <- cl (clReleaseKernel k) ;; ret tt.
Definition releaseProgram (p : cl_handle) : M OpenClContext unit :=
  _ <- cl (clReleaseProgram p) ;; ret tt.

(** The context as its constructor leaves it.  [nVars_], [nVariates_] and the
    handles have no initialiser in the class: their initial value is
    indeterminate and supplied as [garbage]. *)
Definition OpenClContext_new (supportsDoublePrecision : bool) (garbage : N)
    (replies : list cl_int) : OpenClContext :=
  {| healthy_ := true; initialized_ := false; context_ := garbage; queue_ := garbage;
     supportsDoublePrecision_ := supportsDoublePrecision; numberOfOperations := garbage;
     size_ := []; disposed_ := []; hasKernel_ := []; version_ := []; program_ := [];
     kernel_ := []; inputBufferSize_ := []; nOutputVars_ := [];
     variatesPoolSize_ := 0; variatesPool_ := garbage; variatesMtStateBuffer_ := garbage;
     variatesProgram_ := garbage; variatesKernelSeedInit_ := garbage;
     variatesKernelTwist_ := garbage; variatesKernelGenerate_ := garbage;
     currentId_ := 0; currentState_ := idle; nVars_ := garbage; nVariates_ := garbage;
     settings_ := {| useDoublePrecision := false; rngSeed := 0; debug := false |};
     inputVarOffset_ := []; inputVarIsScalar_ := []; inputVarValues32_ := [];
     inputVarValues64_ := []; freedVariables_ := []; outputVariables_ := [];
     currentSsa_ := ""; cl_replies := replies; cl_calls := [] |}.

(** ** [OpenClContext::init] *)

(** [runHealthCheckProgram]: builds and runs a one-work-item probe.  Its
    [CleanUp] guard releases what was created, programs first, then kernels,
    then buffers.  The text it returns (the status of the failing call, or
    the number the probe computed) only feeds [deviceInfo_], which is not
    part of this model: the embedding keeps the device calls. *)
Definition runHealthCheckProgram (source kernelName : string) : M OpenClContext unit :=
  '(err, program) <- cl (clCreateProgramWithSource source) ;;
  if negb (is_success err) then ret tt else
  '(err, _) <- cl (clBuildProgram program) ;;
  if negb (is_success err) then releaseProgram program else
  '(err, kernel) <- cl (clCreateKernel program kernelName) ;;
  if negb (is_success err) then releaseProgram program else
  '(err, resultBuffer) <- cl (clCreateBuffer sizeof_cl_ulong) ;;
  if negb (is_success err) then releaseProgram program ;; releaseKernel kernel else
  _ <- cl (clSetKernelArg kernel 0 (ArgMem resultBuffer)) ;;
  '(err, runEvent) <- cl (clEnqueueNDRangeKernel kernel 1 []) ;;
  if negb (is_success err)
  then releaseProgram program ;; releaseKernel kernel ;; releaseMem resultBuffer else
  _ <- cl (clEnqueueReadBuffer resultBuffer 0 sizeof_cl_ulong [runEvent]) ;;
  releaseProgram program ;; releaseKernel kernel ;; releaseMem resultBuffer.

(** [runHealthChecks]: the four probes.  The code appends eight entries to
    [deviceInfo_], the sizes of four host types and the texts that the four
    probes return; [deviceInfo_] is not part of this model, so of the function
    the embedding keeps the device calls and nothing else. *)
Definition runHealthChecks : M OpenClContext unit :=
  runHealthCheckProgram
    "__kernel void ore_get_uint_size(__global ulong* result) { result[0] = sizeof(uint); }"
    "ore_get_uint_size" ;;
  runHealthCheckProgram
    "__kernel void ore_get_ulong_size(__global ulong* result) { result[0] = sizeof(ulong); }"
    "ore_get_ulong_size" ;;
  runHealthCheckProgram
    "__kernel void ore_get_float_size(__global ulong* result) { result[0] = sizeof(float); }"
    "ore_get_float_size" ;;
  runHealthCheckProgram
    "__kernel void ore_get_double_size(__global ulong* result) { result[0] = sizeof(double); }"
    "ore_get_double_size".

(** The retry loop
    [for (attempt = 0; attempt < 10 && err != CL_SUCCESS; ++attempt)];
    [remaining] counts the attempts left, [err] is the loop-carried status. *)
Fixpoint createContextLoop (remaining : nat) (err : cl_int) : M OpenClContext cl_int :=
  match remaining with
  | O => ret err
  | S remaining' =>
      if is_success err then ret err else
      '(err', ctx) <- cl clCreateContext ;;
      modify (set_context_ ctx) ;;
      (if negb (is_success err') then host (sleep_for_seconds 10) else ret tt) ;;
      createContextLoop remaining' err'
  end.

(** [init()].  The local [cl_int err] is read by the loop condition before
    anything is assigned to it; [err0] is that indeterminate value. *)
Definition init (err0 : cl_int) : M OpenClContext unit :=
  c <- get ;;
  QL_REQUIRE (healthy_ c)
    "OpenClCOntext::init(): context is not healthy, check log for previous errors, aborting." ;;
  if initialized_ c then ret tt else
  modify (set_numberOfOperations 0) ;;
  modify (set_healthy_ false) ;;
  err <- createContextLoop 10 err0 ;;
  QL_REQUIRE (is_success err)
    "OpenClContext::OpenClContext(): error during clCreateContext(): " ;;
  c <- get ;;
  '(err, q) <- cl (clCreateCommandQueue (context_ c)) ;;
  modify (set_queue_ q) ;;
  QL_REQUIRE (is_success err)
    "OpenClContext::OpenClContext(): error during clCreateCommandQueue(): " ;;
  modify (fun c => set_healthy_ true (set_initialized_ true c)) ;;
  runHealthChecks.

(** ** [OpenClContext::disposeCalculation] *)

Definition disposeCalculation (id : N) : M OpenClContext unit :=
  c <- get ;;
  d <- vec_get (disposed_ c) (id -% 1) ;;
  QL_REQUIRE (negb d) "OpenClContext::disposeCalculation(): id was already disposed." ;;
  disposed' <- vec_set (disposed_ c) (id -% 1) true ;;
  modify (set_disposed_ disposed') ;;
  k <- vec_get (kernel_ c) (id -% 1) ;;
  releaseKernel k ;;
  p <- vec_get (program_ c) (id -% 1) ;;
  releaseProgram p.

(** ** [OpenClContext::initiateCalculation] *)

Definition initiateCalculation (n id version : N) (settings : Settings)
    : M OpenClContext (N * bool) :=
  QL_REQUIRE (0 <? n) "OpenClContext::initiateCalculation(): n must not be zero" ;;
  modify (set_settings_ settings) ;;
  newCalc <-
    (if id =? 0 then
       modify (fun c => set_size_ (size_ c ++ [n]) c) ;;
       modify (fun c => set_disposed_ (disposed_ c ++ [false]) c) ;;
       modify (fun c => set_hasKernel_ (hasKernel_ c ++ [false]) c) ;;
       modify (fun c => set_version_ (version_ c ++ [version]) c) ;;
       modify (fun c => set_program_ (program_ c ++ [null_handle]) c) ;;
       modify (fun c => set_kernel_ (kernel_ c ++ [null_handle]) c) ;;
       modify (fun c => set_inputBufferSize_ (inputBufferSize_ c ++ [0]) c) ;;
       modify (fun c => set_nOutputVars_ (nOutputVars_ c ++ [0]) c) ;;
       modify (fun c => set_currentId_ (vec_size (hasKernel_ c)) c) ;;
       ret true
     else
       c <- get ;;
       QL_REQUIRE (id <=? vec_size (hasKernel_ c))
         "OpenClContext::initiateCalculation(): id invalid" ;;
       sz <- vec_get (size_ c) (id -% 1) ;;
       QL_REQUIRE (sz =? n)
         "OpenClContext::initiateCalculation(): size for id does not match current size" ;;
       d <- vec_get (disposed_ c) (id -% 1) ;;
       QL_REQUIRE (negb d)
         "OpenClContext::initiateCalculation(): id was already disposed, it can not be used any more." ;;
       v <- vec_get (version_ c) (id -% 1) ;;
       newCalc <-
         (if negb (version =? v) then
            hasKernel' <- vec_set (hasKernel_ c) (id -% 1) false ;;
            modify (set_hasKernel_ hasKernel') ;;
            version' <- vec_set (version_ c) (id -% 1) version ;;
            modify (set_version_ version') ;;
            k <- vec_get (kernel_ c) (id -% 1) ;;
            releaseKernel k ;;
            p <- vec_get (program_ c) (id -% 1) ;;
            releaseProgram p ;;
            ret true
          else ret false) ;;
       modify (set_currentId_ id) ;;
       ret newCalc) ;;
  (* reset variable info *)
  modify (set_nVars_ 0) ;;
  modify (set_inputVarOffset_ []) ;;
  modify (set_inputVarIsScalar_ []) ;;
  modify (set_inputVarValues32_ []) ;;
  modify (set_inputVarValues64_ []) ;;
  (if newCalc : bool then
     modify (set_freedVariables_ []) ;;
     modify (set_outputVariables_ []) ;;
     modify (set_nVariates_ 0) ;;
     (* reset ssa *)
     modify (set_currentSsa_ "")
   else ret tt) ;;
  (* set state *)
  modify (set_currentState_ createInput) ;;
  (* return calc id *)
  c <- get ;;
  ret (currentId_ c, newCalc).

(** ** [OpenClContext::createInputVariable] *)

(** The offset computation shared by both overloads:
    [nextOffset = 0; if (!inputVarOffset_.empty()) nextOffset =
     inputVarOffset_.back() + (inputVarIsScalar_.back() ? 1 : size_[currentId_ - 1])]. *)
Definition nextInputOffset : M OpenClContext N :=
  c <- get ;;
  match inputVarOffset_ c with
  | [] => ret 0
  | _ :: _ =>
      lastOffset <- vec_back (inputVarOffset_ c) ;;
      lastIsScalar <- vec_back (inputVarIsScalar_ c) ;;
      width <- (if lastIsScalar : bool then ret 1
                else vec_get (size_ c) (currentId_ c -% 1)) ;;
      ret (lastOffset +% width)
  end.

(** [nVars_++] *)
Definition post_increment_nVars : M OpenClContext N :=
  c <- get ;;
  modify (set_nVars_ (nVars_ c +% 1)) ;;
  ret (nVars_ c).

Definition push_input_value (v : double) : M OpenClContext unit :=
  modify (fun c =>
    if useDoublePrecision (settings_ c)
    then set_inputVarValues64_ (inputVarValues64_ c ++ [v]) c
    else (* ensure that v falls into the single precision range *)
         set_inputVarValues32_ (inputVarValues32_ c ++ [clampToFloat v]) c).

(** [createInputVariable(double v)] *)
Definition createInputVariable_scalar (v : double) : M OpenClContext N :=
  c <- get ;;
  QL_REQUIRE (ComputeState_eqb (currentState_ c) createInput)
    "OpenClContext::createInputVariable(): not in state createInput" ;;
  nextOffset <- nextInputOffset ;;
  modify (fun c => set_inputVarOffset_ (inputVarOffset_ c ++ [nextOffset]) c) ;;
  modify (fun c => set_inputVarIsScalar_ (inputVarIsScalar_ c ++ [true]) c) ;;
  push_input_value v ;;
  post_increment_nVars.

(** [createInputVariable(double* v)]; [v i] is the value read at [v[i]]. *)
Definition createInputVariable_vector (v : N -> double) : M OpenClContext N :=
  c <- get ;;
  QL_REQUIRE (ComputeState_eqb (currentState_ c) createInput)
    "OpenClContext::createInputVariable(): not in state createInput" ;;
  nextOffset <- nextInputOffset ;;
  modify (fun c => set_inputVarOffset_ (inputVarOffset_ c ++ [nextOffset]) c) ;;
  modify (fun c => set_inputVarIsScalar_ (inputVarIsScalar_ c ++ [false]) c) ;;
  n <- vec_get (size_ c) (currentId_ c -% 1) ;;
  forM (indices n) (fun i _ => push_input_value (v i)) tt ;;
  post_increment_nVars.


(** ** [OpenClContext::updateVariatesPool] *)

(** The text of a generated program: its lines, each ended by a newline. *)
Definition unlines (ls : list string) : string :=
  fold_right (fun l rest => l +:+ newline +:+ rest) EmptyString ls.

(* ported from QuantLib::InverseCumulativeNormal *)
Definition sourceInvCumN (fpTypeStr fpSuffix : string) : string :=
  unlines
    [ fpTypeStr +:+ " ore_invCumN(const uint x0) {";
      "    const " +:+ fpTypeStr +:+ " a1_ = -3.969683028665376e+01" +:+ fpSuffix +:+ ";";
      "    const " +:+ fpTypeStr +:+ " a2_ = 2.209460984245205e+02" +:+ fpSuffix +:+ ";";
      "    const " +:+ fpTypeStr +:+ " a3_ = -2.759285104469687e+02" +:+ fpSuffix +:+ ";";
      "    const " +:+ fpTypeStr +:+ " a4_ = 1.383577518672690e+02" +:+ fpSuffix +:+ ";";
      "    const " +:+ fpTypeStr +:+ " a5_ = -3.066479806614716e+01" +:+ fpSuffix +:+ ";";
      "    const " +:+ fpTypeStr +:+ " a6_ = 2.506628277459239e+00" +:+ fpSuffix +:+ ";";
      "    const " +:+ fpTypeStr +:+ " b1_ = -5.447609879822406e+01" +:+ fpSuffix +:+ ";";
      "    const " +:+ fpTypeStr +:+ " b2_ = 1.615858368580409e+02" +:+ fpSuffix +:+ ";";
      "    const " +:+ fpTypeStr +:+ " b3_ = -1.556989798598866e+02" +:+ fpSuffix +:+ ";";
      "    const " +:+ fpTypeStr +:+ " b4_ = 6.680131188771972e+01" +:+ fpSuffix +:+ ";";
      "    const " +:+ fpTypeStr +:+ " b5_ = -1.328068155288572e+01" +:+ fpSuffix +:+ ";";
      "    const " +:+ fpTypeStr +:+ " c1_ = -7.784894002430293e-03" +:+ fpSuffix +:+ ";";
      "    const " +:+ fpTypeStr +:+ " c2_ = -3.223964580411365e-01" +:+ fpSuffix +:+ ";";
      "    const " +:+ fpTypeStr +:+ " c3_ = -2.400758277161838e+00" +:+ fpSuffix +:+ ";";
      "    const " +:+ fpTypeStr +:+ " c4_ = -2.549732539343734e+00" +:+ fpSuffix +:+ ";";
      "    const " +:+ fpTypeStr +:+ " c5_ = 4.374664141464968e+00" +:+ fpSuffix +:+ ";";
      "    const " +:+ fpTypeStr +:+ " c6_ = 2.938163982698783e+00" +:+ fpSuffix +:+ ";";
      "    const " +:+ fpTypeStr +:+ " d1_ = 7.784695709041462e-03" +:+ fpSuffix +:+ ";";
      "    const " +:+ fpTypeStr +:+ " d2_ = 3.224671290700398e-01" +:+ fpSuffix +:+ ";";
      "    const " +:+ fpTypeStr +:+ " d3_ = 2.445134137142996e+00" +:+ fpSuffix +:+ ";";
      "    const " +:+ fpTypeStr +:+ " d4_ = 3.754408661907416e+00" +:+ fpSuffix +:+ ";";
      "    const " +:+ fpTypeStr +:+ " x_low_ = 0.02425" +:+ fpSuffix +:+ ";";
      "    const " +:+ fpTypeStr +:+ " x_high_ = 1.0" +:+ fpSuffix +:+ " - x_low_;";
      "    const " +:+ fpTypeStr +:+ " x = x0 / (" +:+ fpTypeStr +:+ ")UINT_MAX;";
      "    if (x < x_low_ || x_high_ < x) {";
      "        if (x0 == UINT_MAX) {";
      "          return 0x1.fffffep127" +:+ fpSuffix +:+ ";";
      "        } else if(x0 == 0) {";
      "          return -0x1.fffffep127" +:+ fpSuffix +:+ ";";
      "        }";
      "        " +:+ fpTypeStr +:+ " z;";
      "        if (x < x_low_) {";
      "            z = sqrt(-2.0" +:+ fpSuffix +:+ " * log(x));";
      "            z = (((((c1_ * z + c2_) * z + c3_) * z + c4_) * z + c5_) * z + c6_) /";
      "                ((((d1_ * z + d2_) * z + d3_) * z + d4_) * z + 1.0" +:+ fpSuffix +:+ ");";
      "        } else {";
      "            z = sqrt(-2.0f * log(1.0f - x));";
      "            z = -(((((c1_ * z + c2_) * z + c3_) * z + c4_) * z + c5_) * z + c6_) /";
      "                ((((d1_ * z + d2_) * z + d3_) * z + d4_) * z + 1.0" +:+ fpSuffix +:+ ");";
      "        }";
      "        return z;";
      "    } else {";
      "        " +:+ fpTypeStr +:+ " z = x - 0.5" +:+ fpSuffix +:+ ";";
      "        " +:+ fpTypeStr +:+ " r = z * z;";
      "        z = (((((a1_ * r + a2_) * r + a3_) * r + a4_) * r + a5_) * r + a6_) * z /";
      "            (((((b1_ * r + b2_) * r + b3_) * r + b4_) * r + b5_) * r + 1.0" +:+ fpSuffix +:+ ");";
      "        return z;";
      "    }";
      "}";
      EmptyString ].

(* from QuantLib::MersenneTwisterUniformRng *)
Definition kernelSourceSeedInit : string :=
  unlines
    [ "__kernel void ore_seedInitialization(const ulong s, __global ulong* mt) {";
      "  const ulong N = 624;";
      "  mt[0]= s & 0xffffffffU;";
      "  for (ulong mti=1; mti<N; ++mti) {";
      "    mt[mti] = (1812433253UL * (mt[mti-1] ^ (mt[mti-1] >> 30)) + mti);";
      "    mt[mti] &= 0xffffffffUL;";
      "  }";
      "}";
      EmptyString ].

Definition kernelSourceTwist : string :=
  unlines
    [ "__kernel void ore_twist(__global ulong* mt) {";
      " const ulong N = 624;";
      " const ulong M = 397;";
      " const ulong MATRIX_A = 0x9908b0dfUL;";
      " const ulong UPPER_MASK=0x80000000UL;";
      " const ulong LOWER_MASK=0x7fffffffUL;";
      " const ulong mag01[2]={0x0UL, MATRIX_A};";
      " ulong kk;";
      " ulong y;";
      " for (kk=0;kk<N-M;++kk) {";
      "     y = (mt[kk]&UPPER_MASK)|(mt[kk+1]&LOWER_MASK);";
      "     mt[kk] = mt[kk+M] ^ (y >> 1) ^ mag01[y & 0x1UL];";
      " }";
      " for (;kk<N-1;kk++) {";
      "     y = (mt[kk]&UPPER_MASK)|(mt[kk+1]&LOWER_MASK);";
      "     mt[kk] = mt[(kk+M)-N] ^ (y >> 1) ^ mag01[y & 0x1UL];";
      " }";
      " y = (mt[N-1]&UPPER_MASK)|(mt[0]&LOWER_MASK);";
      " mt[N-1] = mt[M-1] ^ (y >> 1) ^ mag01[y & 0x1UL];";
      "}";
      EmptyString ].

Definition kernelSourceGenerate (fpTypeStr : string) : string :=
  unlines
    [ "__kernel void ore_generate(const ulong offset, __global ulong* mt, __global " +:+ fpTypeStr +:+ "* output) {";
      "   ulong mti = get_global_id(0);";
      "   ulong y = mt[mti];";
      "   y ^= (y >> 11);";
      "   y ^= (y << 7) & 0x9d2c5680U;";
      "   y ^= (y << 15) & 0xefc60000U;";
      "   y ^= (y >> 18);";
      "   output[offset + mti] = ore_invCumN((uint)y);";
      "}";
      EmptyString ].

Definition fpTypeStr_of (s : Settings) : string :=
  if useDoublePrecision s then "double" else "float".

Definition fpSize_of (s : Settings) : N :=
  if useDoublePrecision s then sizeof_double else sizeof_float.

(** The block guarded by [if (variatesPoolSize_ == 0)]: build the kernels
    that fill the pool and enqueue the seed initialisation; returns
    [initEvent].  When the build fails the code reads the build log and
    throws: the [QL_FAIL] written here, or [std::out_of_range] from
    [substr(MAX_BUILD_LOG_LOGFILE)] when the log is shorter than 1024
    characters; of the two the embedding shows the [QL_FAIL]. *)
Definition buildVariatesProgram : M OpenClContext cl_handle :=
  c <- get ;;
  let fpTypeStr := fpTypeStr_of (settings_ c) in
  let fpSuffix := if useDoublePrecision (settings_ c) then EmptyString else "f" in
  let programSource :=
    sourceInvCumN fpTypeStr fpSuffix +:+ kernelSourceSeedInit +:+ kernelSourceTwist
      +:+ kernelSourceGenerate fpTypeStr in
  '(err, p) <- cl (clCreateProgramWithSource programSource) ;;
  modify (set_variatesProgram_ p) ;;
  QL_REQUIRE (is_success err) "OpenClContext::updateVariatesPool(): error creating program: " ;;
  '(err, _) <- cl (clBuildProgram p) ;;
  (if negb (is_success err) then
     _ <- cl (clGetProgramBuildInfo p) ;;
     QL_FAIL "OpenClContext::updateVariatesPool(): error during program build: "
   else ret tt) ;;
  '(err, k) <- cl (clCreateKernel p "ore_seedInitialization") ;;
  modify (set_variatesKernelSeedInit_ k) ;;
  QL_REQUIRE (is_success err)
    "OpenClContext::updateVariatesPool(): error creating kernel seedInit: " ;;
  '(err, k) <- cl (clCreateKernel p "ore_twist") ;;
  modify (set_variatesKernelTwist_ k) ;;
  QL_REQUIRE (is_success err)
    "OpenClContext::updateVariatesPool(): error creating kernel twist: " ;;
  '(err, k) <- cl (clCreateKernel p "ore_generate") ;;
  modify (set_variatesKernelGenerate_ k) ;;
  QL_REQUIRE (is_success err)
    "OpenClContext::updateVariatesPool(): error creating kernel generate: " ;;
  '(err, b) <- cl (clCreateBuffer (sizeof_cl_ulong * mt_N)) ;;
  modify (set_variatesMtStateBuffer_ b) ;;
  QL_REQUIRE (is_success err)
    "OpenClContext::updateVariatesPool(): error creating mt state buffer: " ;;
  c <- get ;;
  '(err0, _) <- cl (clSetKernelArg (variatesKernelSeedInit_ c) 0 (ArgULong (rngSeed (settings_ c)))) ;;
  '(err1, _) <- cl (clSetKernelArg (variatesKernelSeedInit_ c) 1 (ArgMem (variatesMtStateBuffer_ c))) ;;
  QL_REQUIRE (is_success (Z.lor err0 err1))
    "OpenClContext::updateVariatesPool(): error setting kernel args seed init: " ;;
  '(err, initEvent) <- cl (clEnqueueNDRangeKernel (variatesKernelSeedInit_ c) 1 []) ;;
  QL_REQUIRE (is_success err)
    "OpenClContext::updateVariatesPool(): error running kernel seed init: " ;;
  ret initEvent.

(** The fill loop
    [for (currentPoolSize = variatesPoolSize_; currentPoolSize < demand; currentPoolSize += mt_N)]
    with its loop-carried locals; it returns them as the loop leaves them. *)
Fixpoint fillLoop (fuel : nat) (demand : N) (initEvent : cl_handle)
    (currentPoolSize : N) (generateEvent : cl_handle) (haveGenerated : bool)
    : M OpenClContext (N * cl_handle * bool) :=
  if currentPoolSize <? demand then
    match fuel with
    | O => out_of_fuel
    | S fuel' =>
        c <- get ;;
        '(err, _) <- cl (clSetKernelArg (variatesKernelTwist_ c) 0 (ArgMem (variatesMtStateBuffer_ c))) ;;
        QL_REQUIRE (is_success err)
          "OpenClContext::updateVariatesPool(): error setting args for kernel twist: " ;;
        let waitList :=
          if (variatesPoolSize_ c =? 0) || haveGenerated
          then [if variatesPoolSize_ c =? 0 then initEvent else generateEvent]
          else [] in
        '(err, twistEvent) <- cl (clEnqueueNDRangeKernel (variatesKernelTwist_ c) mt_N waitList) ;;
        QL_REQUIRE (is_success err)
          "OpenClContext::updateVariatesPool(): error running kernel twist: " ;;
        '(err0, _) <- cl (clSetKernelArg (variatesKernelGenerate_ c) 0 (ArgULong currentPoolSize)) ;;
        '(err1, _) <- cl (clSetKernelArg (variatesKernelGenerate_ c) 1 (ArgMem (variatesMtStateBuffer_ c))) ;;
        '(err2, _) <- cl (clSetKernelArg (variatesKernelGenerate_ c) 2 (ArgMem (variatesPool_ c))) ;;
        QL_REQUIRE (is_success (Z.lor (Z.lor err0 err1) err2))
          "OpenClContext::updateVariatesPool(): error settings args for kernel generate: " ;;
        '(err, generateEvent') <- cl (clEnqueueNDRangeKernel (variatesKernelGenerate_ c) mt_N [twistEvent]) ;;
        QL_REQUIRE (is_success err)
          "OpenClContext::updateVariatesPool(): error running kernel generate: " ;;
        fillLoop fuel' demand initEvent (currentPoolSize +% mt_N) generateEvent' true
    end
  else ret (currentPoolSize, generateEvent, haveGenerated).

(** [alignedSize = 624 * (demand / 624 + (demand % 624 == 0 ? 0 : 1))] *)
Definition alignedSize_of (demand : N) : N :=
  624 *% (demand / 624 +% (if demand mod 624 =? 0 then 0 else 1)).

(** [~OldBufferReleaser()] *)
Definition OldBufferReleaser_dtor (b : cl_handle) (active : bool) (c : OpenClContext)
    : OpenClContext :=
  if active then answered (clReleaseMemObject b) c else c.

Definition updateVariatesPool (fuel : nat) : M OpenClContext unit :=
  c <- get ;;
  QL_REQUIRE (0 <? nVariates_ c)
    "OpenClContext::updateVariatesPool(): internal error, got nVariates_ == 0." ;;
  let fpSize := fpSize_of (settings_ c) in
  initEvent <- (if variatesPoolSize_ c =? 0 then buildVariatesProgram else ret null_handle) ;;
  (* if the variates pool is big enough, we exit early *)
  n <- vec_get (size_ c) (currentId_ c -% 1) ;;
  let demand := nVariates_ c *% n in
  if demand <=? variatesPoolSize_ c then
    (if variatesPoolSize_ c =? 0
     then _ <- cl (clWaitForEvents [initEvent]) ;; ret tt
     else ret tt)
  else
    (* create new buffer to hold the variates and copy the current buffer
       contents to the new buffer *)
    let alignedSize := alignedSize_of demand in
    let oldBuffer := variatesPool_ c in
    scope_exit
      ('(err, newPool) <- cl (clCreateBuffer (fpSize *% alignedSize)) ;;
       modify (set_variatesPool_ newPool) ;;
       QL_REQUIRE (is_success err)
         "OpenClContext::updateVariatesPool(): error creating variates buffer with size " ;;
       copyEvent <-
         (if 0 <? variatesPoolSize_ c then
            '(err, copyEvent) <-
              cl (clEnqueueCopyBuffer oldBuffer newPool (fpSize *% variatesPoolSize_ c)) ;;
            QL_REQUIRE (is_success err)
              "OpenClContext::updateVariatesPool(): error copying existing variates buffer to new buffer: " ;;
            ret copyEvent
          else ret null_handle) ;;
       (* fill in the new variates *)
       '(currentPoolSize, generateEvent, haveGenerated) <-
         fillLoop fuel demand initEvent (variatesPoolSize_ c) null_handle false ;;
       (* wait for events to finish *)
       let waitList :=
         (if 0 <? variatesPoolSize_ c then [copyEvent] else [])
           ++ (if haveGenerated : bool then [generateEvent] else []) in
       (match waitList with
        | [] => ret tt
        | _ :: _ => _ <- cl (clWaitForEvents waitList) ;; ret tt
        end) ;;
       (* update current variates pool size *)
       QL_REQUIRE (currentPoolSize =? alignedSize)
         "OpenClContext::updateVariatesPool(): internal error, currentPoolSize does not match alignedSize" ;;
       modify (set_variatesPoolSize_ currentPoolSize))
      (OldBufferReleaser_dtor oldBuffer (0 <? variatesPoolSize_ c)).

(** ** [OpenClContext::createInputVariates] *)

(** [resultIds[i][j] = nVars_++] *)
Definition assignVariateId (i j : N) (resultIds : list (list N))
    : M OpenClContext (list (list N)) :=
  id <- post_increment_nVars ;;
  row <- vec_get resultIds i ;;
  row' <- vec_set row j id ;;
  vec_set resultIds i row'.

Definition createInputVariates (fuel : nat) (dim steps : N)
    : M OpenClContext (list (list N)) :=
  c <- get ;;
  QL_REQUIRE (ComputeState_eqb (currentState_ c) createInput
              || ComputeState_eqb (currentState_ c) createVariates)
    "OpenClContext::createInputVariable(): not in state createInput or createVariates" ;;
  QL_REQUIRE (0 <? currentId_ c) "OpenClContext::applyOperation(): current id is not set" ;;
  hasKernel <- vec_get (hasKernel_ c) (currentId_ c -% 1) ;;
  QL_REQUIRE (negb hasKernel)
    "OpenClContext::createInputVariates(): id has a kernel already, input variates can not be regenerated." ;;
  modify (set_currentState_ createVariates) ;;
  resultIds <-
    forM (indices steps)
      (fun j resultIds => forM (indices dim) (fun i resultIds => assignVariateId i j resultIds) resultIds)
      (repeat (repeat 0 (N.to_nat steps)) (N.to_nat dim)) ;;
  modify (fun c => set_nVariates_ (nVariates_ c +% dim *% steps) c) ;;
  updateVariatesPool fuel ;;
  ret resultIds.

(** ** [OpenClContext::applyOperation] *)

(** Modelled from the spec: the enumeration [RandomVariableOpCode] is declared
    in the absent header [randomvariable_opcodes.hpp]; these are the opcodes
    named by the [switch] of [applyOperation] and by the spec's opcode table.
    [Other code label] is any value that reaches the [default] label.  There
    the code evaluates [getRandomVariableOpLabels()[randomVariableOpCode]], an
    unchecked lookup in a table of the same absent header: [label] is the
    entry that the table holds for [code], and [None] when [code] lies outside
    the table. *)
Module RandomVariableOpCode.
Inductive t : Type :=
| None | Add | Subtract | Negative | Mult | Div
| IndicatorEq | IndicatorGt | IndicatorGeq
| Min | Max | Abs | Exp | Sqrt | Log | Pow
| Other (code : N) (label : option string).
End RandomVariableOpCode.

(** The source expression an argument id stands for. *)
Definition argName (c : OpenClContext) (arg : N) : M OpenClContext string :=
  if arg <? vec_size (inputVarOffset_ c) then
    offset <- vec_get (inputVarOffset_ c) arg ;;
    isScalar <- vec_get (inputVarIsScalar_ c) arg ;;
    ret ("input[" +:+ SizeT.to_string offset +:+ "U" +:+ (if isScalar : bool then "]" else " + i]"))
  else if arg <? vec_size (inputVarOffset_ c) +% nVariates_ c then
    n <- vec_get (size_ c) (currentId_ c -% 1) ;;
    ret ("rn[" +:+ SizeT.to_string ((arg -% vec_size (inputVarOffset_ c)) *% n) +:+ "U + i]")
  else
    (* variable is an (intermediate) result *)
    ret ("v" +:+ SizeT.to_string arg).

Fixpoint mapM {S A B : Type} (f : A -> M S B) (l : list A) : M S (list B) :=
  match l with
  | [] => ret []
  | x :: l' => y <- f x ;; ys <- mapM f l' ;; ret (y :: ys)
  end.

Definition unary {S : Type} (argStr : list string) (before after : string) : M S string :=
  a0 <- vec_get argStr 0 ;;
  ret (before +:+ a0 +:+ after).

Definition binary {S : Type} (argStr : list string) (before between after : string)
    : M S string :=
  a0 <- vec_get argStr 0 ;;
  a1 <- vec_get argStr 1 ;;
  ret (before +:+ a0 +:+ between +:+ a1 +:+ after).

(** What the [switch] appends to [ssaLine]. *)
Definition opExpression {S : Type} (randomVariableOpCode : RandomVariableOpCode.t)
    (argStr : list string) : M S string :=
  match randomVariableOpCode with
  | RandomVariableOpCode.None => ret EmptyString
  | RandomVariableOpCode.Add => binary argStr EmptyString " + " ";"
  | RandomVariableOpCode.Subtract => binary argStr EmptyString " - " ";"
  | RandomVariableOpCode.Negative => unary argStr "-" ";"
  | RandomVariableOpCode.Mult => binary argStr EmptyString " * " ";"
  | RandomVariableOpCode.Div => binary argStr EmptyString " / " ";"
  | RandomVariableOpCode.IndicatorEq => binary argStr "ore_indicatorEq(" "," ");"
  | RandomVariableOpCode.IndicatorGt => binary argStr "ore_indicatorGt(" "," ");"
  | RandomVariableOpCode.IndicatorGeq => binary argStr "ore_indicatorGeq(" "," ");"
  | RandomVariableOpCode.Min => binary argStr "fmin(" "," ");"
  | RandomVariableOpCode.Max => binary argStr "fmax(" "," ");"
  | RandomVariableOpCode.Abs => unary argStr "fabs(" ");"
  | RandomVariableOpCode.Exp => unary argStr "exp(" ");"
  | RandomVariableOpCode.Sqrt => unary argStr "sqrt(" ");"
  | RandomVariableOpCode.Log => unary argStr "log(" ");"
  | RandomVariableOpCode.Pow => binary argStr "pow(" "," ");"
  | RandomVariableOpCode.Other _ label =>
      (* the message reads the label of the opcode before it is thrown *)
      match label with
      | Some _ => QL_FAIL "OpenClContext::executeKernel(): no implementation for op code "
      | Datatypes.None => undefined
      end
  end.

Definition applyOperation (randomVariableOpCode : RandomVariableOpCode.t) (args : list N)
    : M OpenClContext N :=
  c <- get ;;
  QL_REQUIRE (ComputeState_eqb (currentState_ c) createInput
              || ComputeState_eqb (currentState_ c) createVariates
              || ComputeState_eqb (currentState_ c) calc)
    "OpenClContext::applyOperation(): not in state createInput or calc" ;;
  modify (set_currentState_ calc) ;;
  QL_REQUIRE (0 <? currentId_ c) "OpenClContext::applyOperation(): current id is not set" ;;
  hasKernel <- vec_get (hasKernel_ c) (currentId_ c -% 1) ;;
  QL_REQUIRE (negb hasKernel) "OpenClContext::applyOperation(): id has a kernel already." ;;
  (* determine variable id to use for result *)
  '(resultId, resultIdNeedsDeclaration) <-
    (match last (freedVariables_ c) with
     | Some back =>
         modify (set_freedVariables_ (removelast (freedVariables_ c))) ;;
         ret (back, false)
     | Datatypes.None =>
         id <- post_increment_nVars ;;
         ret (id, true)
     end) ;;
  (* determine arg variable names *)
  argStr <- mapM (argName c) args ;;
  (* generate ssa entry *)
  let fpTypeStr := fpTypeStr_of (settings_ c) in
  let ssaLine :=
    (if resultIdNeedsDeclaration : bool then fpTypeStr +:+ " " else EmptyString)
      +:+ "v" +:+ SizeT.to_string resultId +:+ " = " in
  expression <- opExpression randomVariableOpCode argStr ;;
  let ssaLine := ssaLine +:+ expression in
  (* add entry to global ssa *)
  modify (fun c => set_currentSsa_ (currentSsa_ c +:+ "  " +:+ ssaLine +:+ newline) c) ;;
  (* update num of ops in debug info *)
  (if debug (settings_ c) then
     n <- vec_get (size_ c) (currentId_ c -% 1) ;;
     modify (fun c => set_numberOfOperations (numberOfOperations c +% 1 *% n) c)
   else ret tt) ;;
  (* return result id *)
  ret resultId.

(** ** [OpenClContext::freeVariable] *)

Definition freeVariable (id : N) : M OpenClContext unit :=
  c <- get ;;
  QL_REQUIRE (ComputeState_eqb (currentState_ c) calc) "OpenClContext::free(): not in state calc" ;;
  QL_REQUIRE (0 <? currentId_ c) "OpenClContext::freeVariable(): current id is not set" ;;
  hasKernel <- vec_get (hasKernel_ c) (currentId_ c -% 1) ;;
  QL_REQUIRE (negb hasKernel)
    "OpenClContext::freeVariable(): id has a kernel already, variables can not be freed." ;;
  (* we do not free input variables, only variables that were added during the calc *)
  if id <? vec_size (inputVarOffset_ c) +% nVariates_ c then ret tt
  else modify (set_freedVariables_ (freedVariables_ c ++ [id])).

(** ** [OpenClContext::declareOutputVariable] *)

Definition declareOutputVariable (id : N) : M OpenClContext unit :=
  c <- get ;;
  QL_REQUIRE (negb (ComputeState_eqb (currentState_ c) idle))
    "OpenClContext::declareOutputVariable(): state is idle" ;;
  QL_REQUIRE (0 <? currentId_ c) "OpenClContext::declareOutputVariable(): current id not set" ;;
  hasKernel <- vec_get (hasKernel_ c) (currentId_ c -% 1) ;;
  QL_REQUIRE (negb hasKernel)
    "OpenClContext::declareOutputVariable(): id has a kernel already, output variables can not be declared." ;;
  modify (set_outputVariables_ (outputVariables_ c ++ [id])) ;;
  count <- vec_get (nOutputVars_ c) (currentId_ c -% 1) ;;
  nOutputVars' <- vec_set (nOutputVars_ c) (currentId_ c -% 1) (count +% 1) ;;
  modify (set_nOutputVars_ nOutputVars').


(** ** [OpenClContext::finalizeCalculation] *)

Definition includeSource (fpTypeStr fpEpsStr fpSuffix : string) : string :=
  unlines
    [ "bool ore_closeEnough(const " +:+ fpTypeStr +:+ " x, const " +:+ fpTypeStr +:+ " y) {";
      "    const " +:+ fpTypeStr +:+ " tol = 42.0" +:+ fpSuffix +:+ " * " +:+ fpEpsStr +:+ ";";
      "    " +:+ fpTypeStr +:+ " diff = fabs(x - y);";
      "    if (x == 0.0" +:+ fpSuffix +:+ " || y == 0.0" +:+ fpSuffix +:+ ")";
      "        return diff < tol * tol;";
      "    return diff <= tol * fabs(x) || diff <= tol * fabs(y);";
      "}";
      EmptyString;
      fpTypeStr +:+ " ore_indicatorEq(const " +:+ fpTypeStr +:+ " x, const " +:+ fpTypeStr +:+ " y) " +:+ "{ return ore_closeEnough(x, y) ? 1.0" +:+ fpSuffix +:+ " : 0.0" +:+ fpSuffix +:+ "; }";
      EmptyString;
      fpTypeStr +:+ " ore_indicatorGt(const " +:+ fpTypeStr +:+ " x, const " +:+ fpTypeStr +:+ " y) " +:+ "{ return x > y && !ore_closeEnough(x, y); }";
      EmptyString;
      fpTypeStr +:+ " ore_indicatorGeq(const " +:+ fpTypeStr +:+ " x, const " +:+ fpTypeStr +:+ " y) { return x > y || ore_closeEnough(x, y); }";
      EmptyString ].

(** The function's frame: the context and the local [guard.mem], which both
    survive a throw until the guard's destructor has run. *)
Record Frame : Type := mkFrame {
  this : OpenClContext;
  guard_mem : list cl_handle
}.

Definition on_this {A : Type} (m : M OpenClContext A) : M Frame A :=
  fun f =>
    match m (this f) with
    | Returned a c => Returned a {| this := c; guard_mem := guard_mem f |}
    | Thrown what c => Thrown what {| this := c; guard_mem := guard_mem f |}
    | Undefined => Undefined
    | OutOfFuel => OutOfFuel
    end.

(** [guard.mem.push_back(m)] *)
Definition guard_mem_push_back (m : cl_handle) : M Frame unit :=
  modify (fun f => {| this := this f; guard_mem := guard_mem f ++ [m] |}).

(** [~exitGuard()]:
    [*currentState = ComputeState::idle; for (auto& m : mem) clReleaseMemObject(m);] *)
Definition exitGuard_dtor (f : Frame) : OpenClContext :=
  fold_left (fun c m => answered (clReleaseMemObject m) c) (guard_mem f)
            (set_currentState_ idle (this f)).

(** The source expression written to an output slot. *)
Definition outputName (c : OpenClContext) (outputVariable : N) : M OpenClContext string :=
  if outputVariable <? vec_size (inputVarOffset_ c) then
    isScalar <- vec_get (inputVarIsScalar_ c) outputVariable ;;
    ret ("input[" +:+ SizeT.to_string outputVariable +:+ "U"
           +:+ (if isScalar : bool then "]" else " + i] "))
  else if outputVariable <? vec_size (inputVarOffset_ c) +% nVariates_ c then
    n <- vec_get (size_ c) (currentId_ c -% 1) ;;
    ret ("rn[" +:+ SizeT.to_string ((outputVariable -% vec_size (inputVarOffset_ c)) *% n)
           +:+ "U + i]")
  else
    ret ("v" +:+ SizeT.to_string outputVariable).

(** The block guarded by [if (!hasKernel_[currentId_ - 1])]: assemble the
    kernel source, build it and cache program and kernel.  When the build
    fails the code reads the build log and throws: the [QL_FAIL] written here,
    or [std::out_of_range] from [substr(MAX_BUILD_LOG_LOGFILE)] when the log
    is shorter than 1024 characters.  Both leave the same state; of the two
    the embedding shows the [QL_FAIL]. *)
Definition buildKernel (inputBufferSize outputBufferSize : N) : M OpenClContext unit :=
  c <- get ;;
  let fpTypeStr := fpTypeStr_of (settings_ c) in
  let fpEpsStr := if useDoublePrecision (settings_ c) then "0x1.0p-52" else "0x1.0p-23f" in
  let fpSuffix := if useDoublePrecision (settings_ c) then EmptyString else "f" in
  version <- vec_get (version_ c) (currentId_ c -% 1) ;;
  let kernelName :=
    "ore_kernel_" +:+ SizeT.to_string (currentId_ c) +:+ "_" +:+ SizeT.to_string version in
  let inputArgs :=
    (if 0 <? inputBufferSize then ["__global " +:+ fpTypeStr +:+ "* input"] else [])
      ++ (if 0 <? nVariates_ c then ["__global " +:+ fpTypeStr +:+ "* rn"] else [])
      ++ (if 0 <? outputBufferSize then ["__global " +:+ fpTypeStr +:+ "* output"] else []) in
  n <- vec_get (size_ c) (currentId_ c -% 1) ;;
  let kernelSource :=
    includeSource fpTypeStr fpEpsStr fpSuffix +:+ "__kernel void " +:+ kernelName +:+ "("
      +:+ join "," inputArgs +:+ ") {" +:+ newline
      +:+ "unsigned int i = get_global_id(0);" +:+ newline
      +:+ "if(i < " +:+ SizeT.to_string n +:+ "U) {" +:+ newline in
  let kernelSource := kernelSource +:+ currentSsa_ c in
  nOutputVars <- vec_get (nOutputVars_ c) (currentId_ c -% 1) ;;
  kernelSource <-
    forM (indices nOutputVars)
      (fun i kernelSource =>
         let offset := i *% n in
         outputVariable <- vec_get (outputVariables_ c) i ;;
         output <- outputName c outputVariable ;;
         let ssaLine := "  output[" +:+ SizeT.to_string offset +:+ "UL + i] = " +:+ output +:+ ";" in
         ret (kernelSource +:+ ssaLine +:+ newline))
      kernelSource ;;
  let kernelSource := kernelSource +:+ "  }" +:+ newline +:+ "}" +:+ newline in
  '(err, p) <- cl (clCreateProgramWithSource kernelSource) ;;
  program' <- vec_set (program_ c) (currentId_ c -% 1) p ;;
  modify (set_program_ program') ;;
  QL_REQUIRE (is_success err)
    "OpenClContext::finalizeCalculation(): error during clCreateProgramWithSource(): " ;;
  '(err, _) <- cl (clBuildProgram p) ;;
  (if negb (is_success err) then
     _ <- cl (clGetProgramBuildInfo p) ;;
     QL_FAIL "OpenClContext::finalizeCalculation(): error during program build for kernel '"
   else ret tt) ;;
  '(err, k) <- cl (clCreateKernel p kernelName) ;;
  kernel' <- vec_set (kernel_ c) (currentId_ c -% 1) k ;;
  modify (set_kernel_ kernel') ;;
  QL_REQUIRE (is_success err)
    "OpenClContext::finalizeCalculation(): error during clCreateKernel(): " ;;
  hasKernel' <- vec_set (hasKernel_ c) (currentId_ c -% 1) true ;;
  modify (set_hasKernel_ hasKernel') ;;
  inputBufferSize' <- vec_set (inputBufferSize_ c) (currentId_ c -% 1) inputBufferSize ;;
  modify (set_inputBufferSize_ inputBufferSize').

(** The read-back loop [for (i = 0; i < output.size(); ++i)]. *)
Definition readBack (outputBuffer runEvent : cl_handle) (fpSize n : N) (i : N)
    (outputBufferEvents : list cl_handle) : M OpenClContext (list cl_handle) :=
  '(err, ev) <- cl (clEnqueueReadBuffer outputBuffer (fpSize *% i *% n) (fpSize *% n) [runEvent]) ;;
  QL_REQUIRE (is_success err)
    "OpenClContext::finalizeCalculation(): writing to output buffer fails: " ;;
  ret (outputBufferEvents ++ [ev]).

(** The body of [finalizeCalculation], inside the scope of [guard].
    [output] holds the client's result buffers (host addresses).  The input
    buffer is filled from the value vector of the configured precision, read
    at [&inputVarValues64_[0]] or [&inputVarValues32_[0]] for as many bytes as
    the buffer has.  The wall clock readings added to [debugInfo_] in debug
    mode are not modelled; the [clFinish] calls that debug mode inserts
    are. *)
Definition finalizeCalculation_body (output : list N) : M Frame unit :=
  c <- on_this get ;;
  QL_REQUIRE (0 <? currentId_ c) "OpenClContext::finalizeCalculation(): current id is not set" ;;
  nOutputVars <- vec_get (nOutputVars_ c) (currentId_ c -% 1) ;;
  QL_REQUIRE (vec_size output =? nOutputVars)
    "OpenClContext::finalizeCalculation(): output size inconsistent to kernel output size" ;;
  QL_REQUIRE (negb (useDoublePrecision (settings_ c)) || supportsDoublePrecision_ c)
    "OpenClContext::finalizeCalculation(): double precision is configured for this calculation, but not supported by the device. Switch to single precision or use an appropriate device." ;;
  (* create input and output buffers *)
  let fpSize := fpSize_of (settings_ c) in
  inputBufferSize <-
    (match inputVarOffset_ c with
     | [] => ret 0
     | _ :: _ =>
         lastOffset <- vec_back (inputVarOffset_ c) ;;
         lastIsScalar <- vec_back (inputVarIsScalar_ c) ;;
         width <- (if lastIsScalar : bool then ret 1
                   else vec_get (size_ c) (currentId_ c -% 1)) ;;
         ret (lastOffset +% width)
     end) ;;
  inputBuffer <-
    (if 0 <? inputBufferSize then
       '(err, inputBuffer) <- on_this (cl (clCreateBuffer (fpSize *% inputBufferSize))) ;;
       guard_mem_push_back inputBuffer ;;
       QL_REQUIRE (is_success err)
         "OpenClContext::finalizeCalculation(): creating input buffer fails: " ;;
       ret inputBuffer
     else ret null_handle) ;;
  nOutputVars <- vec_get (nOutputVars_ c) (currentId_ c -% 1) ;;
  n <- vec_get (size_ c) (currentId_ c -% 1) ;;
  let outputBufferSize := nOutputVars *% n in
  outputBuffer <-
    (if 0 <? outputBufferSize then
       '(err, outputBuffer) <- on_this (cl (clCreateBuffer (fpSize *% outputBufferSize))) ;;
       guard_mem_push_back outputBuffer ;;
       QL_REQUIRE (is_success err)
         "OpenClContext::finalizeCalculation(): creating output buffer fails: " ;;
       ret outputBuffer
     else ret null_handle) ;;
  (* build kernel if necessary *)
  hasKernel <- vec_get (hasKernel_ c) (currentId_ c -% 1) ;;
  (if negb hasKernel then on_this (buildKernel inputBufferSize outputBufferSize)
   else
     cached <- vec_get (inputBufferSize_ c) (currentId_ c -% 1) ;;
     QL_REQUIRE (inputBufferSize =? cached)
       "OpenClContext::finalizeCalculation(): input buffer size inconsistent to kernel input buffer size") ;;
  (* write input data to input buffer (asynchronously) *)
  inputBufferEvent <-
    (if 0 <? inputBufferSize then
       data <-
         (if useDoublePrecision (settings_ c)
          then values <- host_read (inputVarValues64_ c) (fpSize *% inputBufferSize)
                           sizeof_double ;;
               ret (Data64 values)
          else values <- host_read (inputVarValues32_ c) (fpSize *% inputBufferSize)
                           sizeof_float ;;
               ret (Data32 values)) ;;
       '(err, ev) <-
         on_this (cl (clEnqueueWriteBuffer inputBuffer (fpSize *% inputBufferSize) data)) ;;
       QL_REQUIRE (is_success err)
         "OpenClContext::finalizeCalculation(): writing to input buffer fails: " ;;
       ret ev
     else ret null_handle) ;;
  (if debug (settings_ c) then
     '(err, _) <- on_this (cl clFinish) ;;
     QL_REQUIRE (is_success err) "OpenClContext::clFinish(): error in debug mode: "
   else ret tt) ;;
  (* set kernel args *)
  c' <- on_this get ;;
  kernel <- vec_get (kernel_ c') (currentId_ c -% 1) ;;
  '(err0, kidx) <-
    (if 0 <? inputBufferSize then
       '(err, _) <- on_this (cl (clSetKernelArg kernel 0 (ArgMem inputBuffer))) ;;
       ret (Z.lor 0 err, 1)
     else ret (0%Z, 0)) ;;
  '(err1, kidx) <-
    (if 0 <? nVariates_ c then
       '(err, _) <- on_this (cl (clSetKernelArg kernel kidx (ArgMem (variatesPool_ c)))) ;;
       ret (Z.lor err0 err, kidx +% 1)
     else ret (err0, kidx)) ;;
  err2 <-
    (if 0 <? outputBufferSize then
       '(err, _) <- on_this (cl (clSetKernelArg kernel kidx (ArgMem outputBuffer))) ;;
       ret (Z.lor err1 err)
     else ret err1) ;;
  QL_REQUIRE (is_success err2) "OpenClContext::finalizeCalculation(): set kernel args fails: " ;;
  (* execute kernel *)
  (if debug (settings_ c) then _ <- on_this (cl clFinish) ;; ret tt else ret tt) ;;
  let runWaitEvents := if 0 <? inputBufferSize then [inputBufferEvent] else [] in
  '(err, runEvent) <- on_this (cl (clEnqueueNDRangeKernel kernel n runWaitEvents)) ;;
  QL_REQUIRE (is_success err) "OpenClContext::finalizeCalculation(): enqueue kernel fails: " ;;
  (if debug (settings_ c) then
     '(err, _) <- on_this (cl clFinish) ;;
     QL_REQUIRE (is_success err) "OpenClContext::clFinish(): error in debug mode: "
   else ret tt) ;;
  (* copy the results (asynchronously) *)
  (if 0 <? outputBufferSize then
     outputBufferEvents <-
       on_this (forM (indices (vec_size output)) (readBack outputBuffer runEvent fpSize n) []) ;;
     '(err, _) <- on_this (cl (clWaitForEvents outputBufferEvents)) ;;
     QL_REQUIRE (is_success err)
       "OpenClContext::finalizeCalculation(): wait for output buffer events to finish fails: "
   else ret tt) ;;
  (if debug (settings_ c) then
     '(err, _) <- on_this (cl clFinish) ;;
     QL_REQUIRE (is_success err) "OpenClContext::clFinish(): error in debug mode: "
   else ret tt).

(** [finalizeCalculation]: [guard] is constructed first, so its destructor
    runs on every way out of the body. *)
Definition finalizeCalculation (output : list N) : M OpenClContext unit :=
  fun c =>
    match finalizeCalculation_body output {| this := c; guard_mem := [] |} with
    | Returned a f => Returned a (exitGuard_dtor f)
    | Thrown what f => Thrown what (exitGuard_dtor f)
    | Undefined => Undefined
    | OutOfFuel => OutOfFuel
    end.


(** ** [errorText] *)

(** [std::to_string] of an [int]: its decimal digits, after a minus sign
    for a negative number. *)
Definition std_to_string_int (x : Z) : string := NilZero.string_of_int (Z.to_int x).

(** The text of an OpenCL status for the messages. *)
Definition errorText (err : cl_int) : string :=
  match err with
  | 0 => "CL_SUCCESS"
  | (-1) => "CL_DEVICE_NOT_FOUND"
  | (-2) => "CL_DEVICE_NOT_AVAILABLE"
  | (-3) => "CL_COMPILER_NOT_AVAILABLE"
  | (-4) => "CL_MEM_OBJECT_ALLOCATION_FAILURE"
  | (-5) => "CL_OUT_OF_RESOURCES"
  | (-6) => "CL_OUT_OF_HOST_MEMORY"
  | (-7) => "CL_PROFILING_INFO_NOT_AVAILABLE"
  | (-8) => "CL_MEM_COPY_OVERLAP"
  | (-9) => "CL_IMAGE_FORMAT_MISMATCH"
  | (-10) => "CL_IMAGE_FORMAT_NOT_SUPPORTED"
  | (-11) => "CL_BUILD_PROGRAM_FAILURE"
  | (-12) => "CL_MAP_FAILURE"
  | (-13) => "CL_MISALIGNED_SUB_BUFFER_OFFSET"
  | (-14) => "CL_EXEC_STATUS_ERROR_FOR_EVENTS_IN_WAIT_LIST"
  | (-15) => "CL_COMPILE_PROGRAM_FAILURE"
  | (-16) => "CL_LINKER_NOT_AVAILABLE"
  | (-17) => "CL_LINK_PROGRAM_FAILURE"
  | (-18) => "CL_DEVICE_PARTITION_FAILED"
  | (-19) => "CL_KERNEL_ARG_INFO_NOT_AVAILABLE"
  | (-30) => "CL_INVALID_VALUE"
  | (-31) => "CL_INVALID_DEVICE_TYPE"
  | (-32) => "CL_INVALID_PLATFORM"
  | (-33) => "CL_INVALID_DEVICE"
  | (-34) => "CL_INVALID_CONTEXT"
  | (-35) => "CL_INVALID_QUEUE_PROPERTIES"
  | (-36) => "CL_INVALID_COMMAND_QUEUE"
  | (-37) => "CL_INVALID_HOST_PTR"
  | (-38) => "CL_INVALID_MEM_OBJECT"
  | (-39) => "CL_INVALID_IMAGE_FORMAT_DESCRIPTOR"
  | (-40) => "CL_INVALID_IMAGE_SIZE"
  | (-41) => "CL_INVALID_SAMPLER"
  | (-42) => "CL_INVALID_BINARY"
  | (-43) => "CL_INVALID_BUILD_OPTIONS"
  | (-44) => "CL_INVALID_PROGRAM"
  | (-45) => "CL_INVALID_PROGRAM_EXECUTABLE"
  | (-46) => "CL_INVALID_KERNEL_NAME"
  | (-47) => "CL_INVALID_KERNEL_DEFINITION"
  | (-48) => "CL_INVALID_KERNEL"
  | (-49) => "CL_INVALID_ARG_INDEX"
  | (-50) => "CL_INVALID_ARG_VALUE"
  | (-51) => "CL_INVALID_ARG_SIZE"
  | (-52) => "CL_INVALID_KERNEL_ARGS"
  | (-53) => "CL_INVALID_WORK_DIMENSION"
  | (-54) => "CL_INVALID_WORK_GROUP_SIZE"
  | (-55) => "CL_INVALID_WORK_ITEM_SIZE"
  | (-56) => "CL_INVALID_GLOBAL_OFFSET"
  | (-57) => "CL_INVALID_EVENT_WAIT_LIST"
  | (-58) => "CL_INVALID_EVENT"
  | (-59) => "CL_INVALID_OPERATION"
  | (-60) => "CL_INVALID_GL_OBJECT"
  | (-61) => "CL_INVALID_BUFFER_SIZE"
  | (-62) => "CL_INVALID_MIP_LEVEL"
  | (-63) => "CL_INVALID_GLOBAL_WORK_SIZE"
  | (-64) => "CL_INVALID_PROPERTY"
  | (-65) => "CL_INVALID_IMAGE_DESCRIPTOR"
  | (-66) => "CL_INVALID_COMPILER_OPTIONS"
  | (-67) => "CL_INVALID_LINKER_OPTIONS"
  | (-68) => "CL_INVALID_DEVICE_PARTITION_COUNT"
  | _ => "unknown cl error code " +:+ std_to_string_int err
  end%Z.

(** ** [OpenClContext::~OpenClContext] *)

(** The calls of the destructor: releases, which the running context makes
    as well, and the two calls that end the life of the command queue and of
    the OpenCL context. *)
Inductive FinalCall : Type :=
| release (call : ClCall)
| clReleaseCommandQueue (queue : cl_handle)
| clReleaseContext (context : cl_handle).

(** A call made by the destructor.  A failing status is reported on
    [std::cerr] and has no other effect, so the log keeps the call only. *)
Definition final (call : FinalCall) : M (list FinalCall) unit :=
  modify (fun log => log ++ [call]).

(** [~OpenClContext()], as a computation on the log of its calls. *)
Definition OpenClContext_dtor (c : OpenClContext) : M (list FinalCall) unit :=
  if initialized_ c then
    (if 0 <? variatesPoolSize_ c then
       final (release (clReleaseMemObject (variatesPool_ c))) ;;
       final (release (clReleaseMemObject (variatesMtStateBuffer_ c))) ;;
       final (release (clReleaseKernel (variatesKernelSeedInit_ c))) ;;
       final (release (clReleaseKernel (variatesKernelTwist_ c))) ;;
       final (release (clReleaseKernel (variatesKernelGenerate_ c))) ;;
       final (release (clReleaseProgram (variatesProgram_ c)))
     else ret tt) ;;
    forM (indices (vec_size (kernel_ c)))
      (fun i _ =>
         d <- vec_get (disposed_ c) i ;;
         if d : bool then ret tt
         else k <- vec_get (kernel_ c) i ;; final (release (clReleaseKernel k)))
      tt ;;
    forM (indices (vec_size (program_ c)))
      (fun i _ =>
         d <- vec_get (disposed_ c) i ;;
         if d : bool then ret tt
         else p <- vec_get (program_ c) i ;; final (release (clReleaseProgram p)))
      tt ;;
    final (clReleaseCommandQueue (queue_ c)) ;;
    final (clReleaseContext (context_ c))
  else ret tt.


(** ** The client's view *)

(** One call of the client interface. *)
Inductive Call : Type :=
| call_init (err0 : cl_int)
| call_initiateCalculation (n id version : N) (settings : Settings)
| call_disposeCalculation (id : N)
| call_createInputVariable_scalar (v : double)
| call_createInputVariable_vector (v : N -> double)
| call_createInputVariates (fuel : nat) (dim steps : N)
| call_applyOperation (randomVariableOpCode : RandomVariableOpCode.t) (args : list N)
| call_freeVariable (id : N)
| call_declareOutputVariable (id : N)
| call_finalizeCalculation (output : list N).

(** The context a call leaves behind, whether it returned or threw (the
    client may catch the exception and go on using the context). *)
Definition state_after {A : Type} (o : outcome OpenClContext A) : option OpenClContext :=
  match o with
  | Returned _ c => Some c
  | Thrown _ c => Some c
  | Undefined => Datatypes.None
  | OutOfFuel => Datatypes.None
  end.

Definition perform (call : Call) (c : OpenClContext) : option OpenClContext :=
  match call with
  | call_init err0 => state_after (init err0 c)
  | call_initiateCalculation n id version settings =>
      state_after (initiateCalculation n id version settings c)
  | call_disposeCalculation id => state_after (disposeCalculation id c)
  | call_createInputVariable_scalar v => state_after (createInputVariable_scalar v c)
  | call_createInputVariable_vector v => state_after (createInputVariable_vector v c)
  | call_createInputVariates fuel dim steps => state_after (createInputVariates fuel dim steps c)
  | call_applyOperation op args => state_after (applyOperation op args c)
  | call_freeVariable id => state_after (freeVariable id c)
  | call_declareOutputVariable id => state_after (declareOutputVariable id c)
  | call_finalizeCalculation output => state_after (finalizeCalculation output c)
  end.

Fixpoint perform_all (calls : list Call) (c : OpenClContext) : option OpenClContext :=
  match calls with
  | [] => Some c
  | call :: calls' =>
      match perform call c with
      | Some c' => perform_all calls' c'
      | Datatypes.None => Datatypes.None
      end
  end.

Definition is_size_t (x : N) : Prop := x < SizeT.modulus.

(** The contexts a client can bring about: construction, then calls. *)
Definition reachable (c : OpenClContext) : Prop :=
  exists (supportsDoublePrecision : bool) (garbage : N) (replies : list cl_int)
         (calls : list Call),
    is_size_t garbage /\
    perform_all calls (OpenClContext_new supportsDoublePrecision garbage replies) = Some c.

(** A context on a device that answers every call with [CL_SUCCESS], after
    the given calls. *)
Definition fresh_context : OpenClContext := OpenClContext_new true 0 [].

Definition after_from (c : OpenClContext) (calls : list Call) : OpenClContext :=
  match perform_all calls c with
  | Some c' => c'
  | Datatypes.None => c
  end.

Definition after (calls : list Call) : OpenClContext := after_from fresh_context calls.

Definition single_precision : Settings :=
  {| useDoublePrecision := false; rngSeed := 42; debug := false |}.

(** A first evaluation of a calculation of batch size 4 with one variate
    [v0] and one operation [v1 = -v0], whose result is freed and declared as
    the output; the kernel is not built yet. *)
Definition first_evaluation : list Call :=
  [ call_initiateCalculation 4 0 0 single_precision;
    call_createInputVariates 8 1 1;
    call_applyOperation RandomVariableOpCode.Negative [0];
    call_freeVariable 1;
    call_declareOutputVariable 1 ].

(** The same, finalised (which builds and caches the kernel) and initiated
    again under the same id and version. *)
Definition repeat_evaluation : list Call :=
  first_evaluation
    ++ [ call_finalizeCalculation [1000];
         call_initiateCalculation 4 1 0 single_precision ].

(** The first evaluation, initiated again before it was finalised. *)
Definition reinitiated : list Call :=
  first_evaluation ++ [ call_initiateCalculation 4 1 0 single_precision ].

(** A calculation that has just been initiated. *)
Definition started : list Call := [ call_initiateCalculation 4 0 0 single_precision ].

(** A context whose [init] failed: the device refuses [clCreateContext] in
    all ten attempts. *)
Definition refusing_device : OpenClContext := OpenClContext_new true 0 (repeat (-6)%Z 10).

Definition failed_init : OpenClContext := after_from refusing_device [ call_init (-1)%Z ].

(** * The vocabulary of the statements

    Invariants of the context, the reading of the code as pre- and
    postconditions, and the concrete calculations on which the statements
    are exercised. *)

(** ** Pre- and postconditions of monadic code *)

(** [holds ub oof P m Q E]: started in a state satisfying [P], the
    computation [m] either returns [a] in a state satisfying [Q a], or
    throws in a state satisfying [E].  [ub] is what is known when the run is
    undefined and [oof] when it is cut off for lack of fuel: [True] says
    nothing about such runs, [False] says that there are none.
    [preserves ub oof P m] is the case where [P] holds afterwards, whether
    [m] returns or throws. *)
Definition holds {S : Type} (ub oof : Prop) {A : Type}
    (P : S -> Prop) (m : M S A) (Q : A -> S -> Prop) (E : S -> Prop) : Prop :=
  forall s, P s ->
    match m s with
    | Returned a s' => Q a s'
    | Thrown _ s' => E s'
    | Undefined => ub
    | OutOfFuel => oof
    end.

Definition preserves {S : Type} (ub oof : Prop) {A : Type}
    (P : S -> Prop) (m : M S A) : Prop :=
  holds ub oof P m (fun _ => P) P.

(** The frame of [finalizeCalculation]: a predicate on the context, seen as
    a predicate on the frame. *)
Definition on_frame (P : OpenClContext -> Prop) : Frame -> Prop := fun f => P (this f).

(** ** The representation invariant *)

(** The representation invariant of [OpenClContext]: the per-calculation
    vectors are parallel, the current id names one of them once a
    calculation is under way, the two input descriptor vectors are parallel,
    the pool size is a multiple of 624, the two counters are [std::size_t]
    values. *)
Record wf (c : OpenClContext) : Prop := mk_wf {
  wf_size : length (size_ c) = length (hasKernel_ c);
  wf_disposed : length (disposed_ c) = length (hasKernel_ c);
  wf_version : length (version_ c) = length (hasKernel_ c);
  wf_program : length (program_ c) = length (hasKernel_ c);
  wf_kernel : length (kernel_ c) = length (hasKernel_ c);
  wf_inputBufferSize : length (inputBufferSize_ c) = length (hasKernel_ c);
  wf_nOutputVars : length (nOutputVars_ c) = length (hasKernel_ c);
  wf_current : currentId_ c <= vec_size (hasKernel_ c);
  wf_busy : currentState_ c <> idle -> 0 < currentId_ c;
  wf_inputs : length (inputVarIsScalar_ c) = length (inputVarOffset_ c);
  wf_pool : variatesPoolSize_ c mod 624 = 0;
  wf_nVars : is_size_t (nVars_ c);
  wf_nVariates : is_size_t (nVariates_ c)
}.

(** [m] keeps the representation invariant, whether it returns or throws. *)
Definition keeps_wf {A : Type} (m : M OpenClContext A) : Prop := preserves True True wf m.

(** While a member function runs on a context that started as [c0]: the
    invariant holds, no calculation is added and the current id stays. *)
Definition steady (c0 s : OpenClContext) : Prop :=
  wf s /\ length (hasKernel_ s) = length (hasKernel_ c0) /\ currentId_ s = currentId_ c0.

(** [c'] is [c] with another call log and other pending replies. *)
Definition device_only (c c' : OpenClContext) : Prop :=
  exists calls replies, c' = set_cl_calls calls (set_cl_replies replies c).

(** No failing status is pending. *)
Definition quiet (s : OpenClContext) : Prop := cl_replies s = [].

(** ** [createInputVariable] *)

(** An argument of [createInputVariable]: the [double] overload takes one
    value, the [double*] overload reads one value per work item. *)
Inductive InputValue : Type :=
| input_scalar (v : double)
| input_vector (v : N -> double).

Definition is_scalar (x : InputValue) : bool :=
  match x with input_scalar _ => true | input_vector _ => false end.

(** Overload resolution. *)
Definition createInputVariable (x : InputValue) : M OpenClContext N :=
  match x with
  | input_scalar v => createInputVariable_scalar v
  | input_vector v => createInputVariable_vector v
  end.

(** A sequence of calls, one per element of [xs], collecting the ids. *)
Definition createInputVariables (xs : list InputValue) : M OpenClContext (list N) :=
  mapM createInputVariable xs.

(** The offsets start at zero, and each one is its predecessor plus the
    width of the predecessor: [1] for a scalar, [n] for a vector
    ([std::size_t] addition). *)
Definition offsets_chained (n : N) (offsets : list N) (isScalar : list bool) : Prop :=
  length isScalar = length offsets /\
  (forall o, offsets !! 0%nat = Some o -> o = 0) /\
  (forall (k : nat) (o o' : N) (s : bool),
      offsets !! k = Some o -> isScalar !! k = Some s -> offsets !! S k = Some o' ->
      o' = o +% (if s then 1 else n)).

(** What [nextInputOffset] computes, as a function of the two descriptor
    vectors. *)
Definition following_offset (n : N) (offsets : list N) (isScalar : list bool) : N :=
  match last offsets, last isScalar with
  | Some o, Some s => o +% (if s then 1 else n)
  | _, _ => 0
  end.

(** Storing values touches the value vectors only. *)
Definition same_descriptors (c c' : OpenClContext) : Prop :=
  currentState_ c' = currentState_ c /\ size_ c' = size_ c /\
  currentId_ c' = currentId_ c /\ nVars_ c' = nVars_ c /\
  inputVarOffset_ c' = inputVarOffset_ c /\ inputVarIsScalar_ c' = inputVarIsScalar_ c.

(** ** The variate pool *)

(** What [updateVariatesPool] leaves alone before it commits the new pool
    size: everything but the pool's own members (program, kernels, state
    buffer, pool buffer) and the device log. *)
Record pooling (c0 s : OpenClContext) : Prop := mk_pooling {
  pool_healthy : healthy_ s = healthy_ c0;
  pool_initialized : initialized_ s = initialized_ c0;
  pool_context : context_ s = context_ c0;
  pool_queue : queue_ s = queue_ c0;
  pool_supportsDoublePrecision : supportsDoublePrecision_ s = supportsDoublePrecision_ c0;
  pool_numberOfOperations : numberOfOperations s = numberOfOperations c0;
  pool_size : size_ s = size_ c0;
  pool_disposed : disposed_ s = disposed_ c0;
  pool_hasKernel : hasKernel_ s = hasKernel_ c0;
  pool_version : version_ s = version_ c0;
  pool_program : program_ s = program_ c0;
  pool_kernel : kernel_ s = kernel_ c0;
  pool_inputBufferSize : inputBufferSize_ s = inputBufferSize_ c0;
  pool_nOutputVars : nOutputVars_ s = nOutputVars_ c0;
  pool_variatesPoolSize : variatesPoolSize_ s = variatesPoolSize_ c0;
  pool_currentId : currentId_ s = currentId_ c0;
  pool_currentState : currentState_ s = currentState_ c0;
  pool_nVars : nVars_ s = nVars_ c0;
  pool_nVariates : nVariates_ s = nVariates_ c0;
  pool_settings : settings_ s = settings_ c0;
  pool_inputVarOffset : inputVarOffset_ s = inputVarOffset_ c0;
  pool_inputVarIsScalar : inputVarIsScalar_ s = inputVarIsScalar_ c0;
  pool_inputVarValues32 : inputVarValues32_ s = inputVarValues32_ c0;
  pool_inputVarValues64 : inputVarValues64_ s = inputVarValues64_ c0;
  pool_freedVariables : freedVariables_ s = freedVariables_ c0;
  pool_outputVariables : outputVariables_ s = outputVariables_ c0;
  pool_currentSsa : currentSsa_ s = currentSsa_ c0
}.

(** What a returning [updateVariatesPool] has done to a context that
    started as [c0], in the code's own terms: the calculation has a batch
    size [n], there are variates, and the pool size is the old one when that
    covered the demand [nVariates_ * n], and otherwise the aligned size,
    which the fill loop has reached. *)
Definition committed (c0 s : OpenClContext) : Prop :=
  pooling c0 (set_variatesPoolSize_ (variatesPoolSize_ c0) s) /\
  exists n,
    size_ c0 !! N.to_nat (currentId_ c0 -% 1) = Some n /\
    (0 <? nVariates_ c0) = true /\
    if nVariates_ c0 *% n <=? variatesPoolSize_ c0
    then variatesPoolSize_ s = variatesPoolSize_ c0
    else variatesPoolSize_ s = alignedSize_of (nVariates_ c0 *% n) /\
         nVariates_ c0 *% n <= variatesPoolSize_ s.

(** The pool update on a quiet device, started in [c0]. *)
Definition pooling_quietly (c0 s : OpenClContext) : Prop := pooling c0 s /\ quiet s.

(** Where the fill loop stops, for a demand that leaves room for one more
    block below [2^64]: at the first size not below the demand, a whole
    number of blocks above the size it started from. *)
Definition filled_up (demand start stop : N) : Prop :=
  demand <= stop /\ stop mod 624 = start mod 624 /\
  (start < demand -> stop < demand + 624) /\ (demand <= start -> stop = start).

(** ** [createInputVariates] *)

(** The entries of the id matrix written so far, when the columns before
    [jdone] are complete and column [jdone] is written up to row [idone]:
    entry [(i, j)] holds the [(j * dim + i)]-th id counted from [v]. *)
Definition filled (v dim : N) (jdone idone : N) (a : list (list N)) : Prop :=
  forall i j, i < dim -> j < jdone \/ (j = jdone /\ i < idone) ->
    exists row,
      a !! N.to_nat i = Some row /\
      row !! N.to_nat j = Some (SizeT.wrap (v + (j * dim + i))).

(** The variable counter after [k] ids were handed out, and the variate
    counter untouched. *)
Definition counting (v k nVariates : N) (s : OpenClContext) : Prop :=
  nVars_ s = SizeT.wrap (v + k) /\ nVariates_ s = nVariates.

(** The id matrix keeps the shape it was allocated with: [dim] rows of
    [steps] entries. *)
Definition shaped (dim steps : N) (a : list (list N)) : Prop :=
  length a = N.to_nat dim /\ Forall (fun row => length row = N.to_nat steps) a.

(** [s] is [s0] with another variable counter. *)
Definition counting_from (s0 s : OpenClContext) : Prop := exists v, s = set_nVars_ v s0.

(** ** [applyOperation] *)

(** How an argument id resolves to a source expression, case by case, in a
    calculation of batch size [n]: ids below the number of inputs are
    inputs, read at their offset (plus the work item index [i] for a
    vector); the next [nVariates_] ids are variates, read from [rn]; all
    others are intermediates [v<id>]. *)
Inductive resolves (c : OpenClContext) (n : N) (arg : N) : string -> Prop :=
| resolves_scalar (offset : N) :
    arg < vec_size (inputVarOffset_ c) ->
    inputVarOffset_ c !! N.to_nat arg = Some offset ->
    inputVarIsScalar_ c !! N.to_nat arg = Some true ->
    resolves c n arg ("input[" +:+ SizeT.to_string offset +:+ "U" +:+ "]")
| resolves_vector (offset : N) :
    arg < vec_size (inputVarOffset_ c) ->
    inputVarOffset_ c !! N.to_nat arg = Some offset ->
    inputVarIsScalar_ c !! N.to_nat arg = Some false ->
    resolves c n arg ("input[" +:+ SizeT.to_string offset +:+ "U" +:+ " + i]")
| resolves_variate :
    vec_size (inputVarOffset_ c) <= arg ->
    arg < vec_size (inputVarOffset_ c) +% nVariates_ c ->
    resolves c n arg
      ("rn[" +:+ SizeT.to_string ((arg -% vec_size (inputVarOffset_ c)) *% n) +:+ "U + i]")
| resolves_intermediate :
    vec_size (inputVarOffset_ c) <= arg ->
    vec_size (inputVarOffset_ c) +% nVariates_ c <= arg ->
    resolves c n arg ("v" +:+ SizeT.to_string arg).

(** The opcode table: the right-hand side an opcode stands for, over the
    resolved arguments [a] and [b], and the number of arguments it reads.
    [None] stands for an empty right-hand side, without even the closing
    semicolon. *)
Definition table_rhs (op : RandomVariableOpCode.t) (a b : string) : string :=
  match op with
  | RandomVariableOpCode.None => EmptyString
  | RandomVariableOpCode.Add => a +:+ " + " +:+ b +:+ ";"
  | RandomVariableOpCode.Subtract => a +:+ " - " +:+ b +:+ ";"
  | RandomVariableOpCode.Negative => "-" +:+ a +:+ ";"
  | RandomVariableOpCode.Mult => a +:+ " * " +:+ b +:+ ";"
  | RandomVariableOpCode.Div => a +:+ " / " +:+ b +:+ ";"
  | RandomVariableOpCode.IndicatorEq => "ore_indicatorEq(" +:+ a +:+ "," +:+ b +:+ ");"
  | RandomVariableOpCode.IndicatorGt => "ore_indicatorGt(" +:+ a +:+ "," +:+ b +:+ ");"
  | RandomVariableOpCode.IndicatorGeq => "ore_indicatorGeq(" +:+ a +:+ "," +:+ b +:+ ");"
  | RandomVariableOpCode.Min => "fmin(" +:+ a +:+ "," +:+ b +:+ ");"
  | RandomVariableOpCode.Max => "fmax(" +:+ a +:+ "," +:+ b +:+ ");"
  | RandomVariableOpCode.Abs => "fabs(" +:+ a +:+ ");"
  | RandomVariableOpCode.Exp => "exp(" +:+ a +:+ ");"
  | RandomVariableOpCode.Sqrt => "sqrt(" +:+ a +:+ ");"
  | RandomVariableOpCode.Log => "log(" +:+ a +:+ ");"
  | RandomVariableOpCode.Pow => "pow(" +:+ a +:+ "," +:+ b +:+ ");"
  | RandomVariableOpCode.Other _ _ => EmptyString
  end.

Definition arity (op : RandomVariableOpCode.t) : nat :=
  match op with
  | RandomVariableOpCode.None | RandomVariableOpCode.Other _ _ => 0
  | RandomVariableOpCode.Negative | RandomVariableOpCode.Abs | RandomVariableOpCode.Exp
  | RandomVariableOpCode.Sqrt | RandomVariableOpCode.Log => 1
  | _ => 2
  end.

Definition supported (op : RandomVariableOpCode.t) : bool :=
  match op with
  | RandomVariableOpCode.Other _ _ => false
  | _ => true
  end.

(** The first and second element of [argStr], when present. *)
Definition first_arg (argStr : list string) : string := nth 0 argStr EmptyString.
Definition second_arg (argStr : list string) : string := nth 1 argStr EmptyString.

(** ** [finalizeCalculation] *)

(** What [finalizeCalculation] leaves alone while it runs on a context that
    started as [c0]: everything but the device log and the cached program,
    kernel, kernel flag and input buffer size, whose vectors keep their
    length. *)
Record finalizing (c0 s : OpenClContext) : Prop := mk_finalizing {
  fin_size : size_ s = size_ c0;
  fin_disposed : disposed_ s = disposed_ c0;
  fin_version : version_ s = version_ c0;
  fin_nOutputVars : nOutputVars_ s = nOutputVars_ c0;
  fin_program : length (program_ s) = length (program_ c0);
  fin_kernel : length (kernel_ s) = length (kernel_ c0);
  fin_hasKernel : length (hasKernel_ s) = length (hasKernel_ c0);
  fin_inputBufferSize : length (inputBufferSize_ s) = length (inputBufferSize_ c0);
  fin_currentId : currentId_ s = currentId_ c0;
  fin_currentState : currentState_ s = currentState_ c0;
  fin_nVars : nVars_ s = nVars_ c0;
  fin_nVariates : nVariates_ s = nVariates_ c0;
  fin_variatesPoolSize : variatesPoolSize_ s = variatesPoolSize_ c0;
  fin_inputVarOffset : inputVarOffset_ s = inputVarOffset_ c0;
  fin_inputVarIsScalar : inputVarIsScalar_ s = inputVarIsScalar_ c0;
  fin_outputVariables : outputVariables_ s = outputVariables_ c0
}.

(** The number of values held by the value vector of the configured
    precision. *)
Definition values_stored (c : OpenClContext) : N :=
  if useDoublePrecision (settings_ c)
  then vec_size (inputVarValues64_ c)
  else vec_size (inputVarValues32_ c).

(** The value vector of the configured precision holds a value for every
    element of the input buffer, whose size is derived from the last input
    descriptor. *)
Definition inputs_stored (c : OpenClContext) : Prop :=
  forall n,
    size_ c !! N.to_nat (currentId_ c -% 1) = Some n ->
    following_offset n (inputVarOffset_ c) (inputVarIsScalar_ c) <= values_stored c.

(** The calculation being finalised can be finalised: it is well-formed,
    every output that its record counts is listed (unless its kernel is
    cached, when the list is not read), and the input values are stored. *)
Definition finalize_safe (c : OpenClContext) : Prop :=
  wf c /\
  (forall count,
     hasKernel_ c !! N.to_nat (currentId_ c -% 1) = Some false ->
     nOutputVars_ c !! N.to_nat (currentId_ c -% 1) = Some count ->
     count <= vec_size (outputVariables_ c)) /\
  inputs_stored c.

(** ** Concrete calculations *)

(** The two scalars and the vector of a calculation of batch size 4. *)
Definition three_inputs : list InputValue :=
  [input_scalar 1%float; input_vector (fun _ => 2%float); input_scalar 3%float].

(** A calculation of batch size 4 with one variate, covered by a pool of
    624 samples. *)
Definition one_variate : OpenClContext :=
  after [call_initiateCalculation 4 0 0 single_precision; call_createInputVariates 8 1 1].

(** A calculation of batch size 4 with a pool of 624 samples, as it stands
    when [updateVariatesPool] is entered with 157 variates: the demand is
    628 samples. *)
Definition demand_628 : OpenClContext :=
  set_nVariates_ 157
    (after [call_initiateCalculation 4 0 0 single_precision; call_createInputVariates 8 1 1]).

Definition pool_of_1248 : OpenClContext :=
  default demand_628 (state_after (updateVariatesPool 8 demand_628)).



(** Two variates over three steps, requested in a calculation that has one
    input already. *)
Definition one_input : OpenClContext :=
  after_from (after started) [call_createInputVariable_scalar 1%float].

Definition variates_2x3 : OpenClContext :=
  default one_input (state_after (createInputVariates 8 2 3 one_input)).

(** The first evaluation on a device that refuses to build the kernel
    ([clBuildProgram] is the third device call of [finalizeCalculation]). *)
Definition build_refused : OpenClContext :=
  set_cl_replies [0; 0; -11]%Z (after first_evaluation).

(** ** Device objects created and released *)

(** The calls that create a program, kernel or buffer object. *)
Definition creates_object (call : ClCall) : bool :=
  match call with
  | clCreateProgramWithSource _ | clCreateKernel _ _ | clCreateBuffer _ => true
  | _ => false
  end.

(** The objects created by the calls of [log], when the first of them is
    call number [i] of the device log: a call that is answered with
    [CL_SUCCESS] creates the object whose handle [cl] returned for it. *)
Fixpoint objects_created (i : nat) (log : list (ClCall * cl_int)) : list cl_handle :=
  match log with
  | [] => []
  | (call, err) :: log' =>
      (if creates_object call && is_success err then [N.of_nat (S i)] else [])
        ++ objects_created (S i) log'
  end.

(** The object a call releases, if it is a release. *)
Definition released_by (call : ClCall) : list cl_handle :=
  match call with
  | clReleaseMemObject h | clReleaseKernel h | clReleaseProgram h => [h]
  | _ => []
  end.

(** The objects the calls of [log] release. *)
Fixpoint objects_released (log : list (ClCall * cl_int)) : list cl_handle :=
  match log with
  | [] => []
  | (call, _) :: log' => released_by call ++ objects_released log'
  end.

(** [s] is [c] after device calls, and nothing else, that created the
    objects [created] and released the objects [released]. *)
Definition tally (c : OpenClContext) (created released : list cl_handle)
    (s : OpenClContext) : Prop :=
  device_only c s /\
  exists new,
    cl_calls s = cl_calls c ++ new /\
    objects_created (length (cl_calls c)) new = created /\
    objects_released new = released.

(** [c'] is [c] after device calls that released every object they created,
    in the order of creation, and nothing else. *)
Definition balanced (c c' : OpenClContext) : Prop :=
  exists objects, tally c objects objects c'.

(** The device calls made between [c] and [c'] leak nothing: the objects
    they released are the objects they created, in the order of creation. *)
Definition leak_free (c c' : OpenClContext) : Prop :=
  exists new,
    cl_calls c' = cl_calls c ++ new /\
    objects_released new = objects_created (length (cl_calls c)) new.

(** ** [init] *)

(** The number of failing statuses the device has pending before its next
    [CL_SUCCESS] (an exhausted list answers [CL_SUCCESS]). *)
Fixpoint refusals (replies : list cl_int) : nat :=
  match replies with
  | [] => 0
  | r :: replies' => if is_success r then 0 else S (refusals replies')
  end.

(** The log of refused attempts to create the context: each one is
    followed by a sleep of ten seconds. *)
Definition refused (replies : list cl_int) : list (ClCall * cl_int) :=
  flat_map (fun r => [(clCreateContext, r); (sleep_for_seconds 10, CL_SUCCESS)]) replies.

(** A device that refuses [clCreateContext] twice and then accepts. *)
Definition reluctant_device : OpenClContext := OpenClContext_new true 0 [-6; -5]%Z.

(** A context after a successful [init]. *)
Definition initialized_context : OpenClContext := after [call_init (-1)%Z].

(** ** [freeVariable] and the order of the calls *)

(** The id [applyOperation] hands out: the most recently freed one, or the
    next new one. *)
Definition next_result_id (c : OpenClContext) : N :=
  default (nVars_ c) (last (freedVariables_ c)).

(** [id] names neither an input nor a variate. *)
Definition is_intermediate (c : OpenClContext) (id : N) : Prop :=
  (id <? vec_size (inputVarOffset_ c) +% nVariates_ c) = false.

(** What [applyOperation] leaves alone. *)
Definition same_calculation (c c' : OpenClContext) : Prop :=
  hasKernel_ c' = hasKernel_ c /\ currentId_ c' = currentId_ c /\
  inputVarOffset_ c' = inputVarOffset_ c /\ nVariates_ c' = nVariates_ c.

(** The first evaluation up to its operation: the result [v1] is live. *)
Definition one_operation : OpenClContext :=
  after [ call_initiateCalculation 4 0 0 single_precision;
          call_createInputVariates 8 1 1;
          call_applyOperation RandomVariableOpCode.Negative [0] ].

(** ** [finalizeCalculation]: checks, buffers and the cached kernel *)

(** A check that [finalizeCalculation] makes before it touches the device
    fails: the current id is 0 (no calculation was initiated yet), or the
    number of result buffers is not the number of outputs that the record of
    the current calculation counts, or double precision is configured on a
    device without it.  The state is not among the things checked. *)
Definition finalize_refused (output : list N) (c : OpenClContext) : Prop :=
  currentId_ c = 0 \/
  exists count,
    nOutputVars_ c !! N.to_nat (currentId_ c -% 1) = Some count /\
    (vec_size output <> count \/
     (useDoublePrecision (settings_ c) = true /\ supportsDoublePrecision_ c = false)).

(** The calls that build a program or a kernel. *)
Definition builds (call : ClCall) : bool :=
  match call with
  | clCreateProgramWithSource _ | clBuildProgram _ | clCreateKernel _ _ => true
  | _ => false
  end.

(** [s] is [c0] with its cached programs and kernels as they were, after
    device calls none of which builds anything. *)
Record reusing (c0 s : OpenClContext) : Prop := mk_reusing {
  reuse_program : program_ s = program_ c0;
  reuse_kernel : kernel_ s = kernel_ c0;
  reuse_hasKernel : hasKernel_ s = hasKernel_ c0;
  reuse_inputBufferSize : inputBufferSize_ s = inputBufferSize_ c0;
  reuse_log : exists new,
      cl_calls s = cl_calls c0 ++ new /\ Forall (fun e => builds (fst e) = false) new
}.

(** The handles returned by the [clCreateBuffer] calls of [log], whether
    they succeeded or not, when the first call of [log] is call number [i] of
    the device log. *)
Fixpoint buffers_requested (i : nat) (log : list (ClCall * cl_int)) : list cl_handle :=
  match log with
  | [] => []
  | (call, _) :: log' =>
      (match call with clCreateBuffer _ => [N.of_nat (S i)] | _ => [] end)
        ++ buffers_requested (S i) log'
  end.

(** [s] has the log of [c0] followed by calls that requested the buffers
    [requested] and released the objects [released]. *)
Definition logged (c0 : OpenClContext) (requested released : list cl_handle)
    (s : OpenClContext) : Prop :=
  exists new,
    cl_calls s = cl_calls c0 ++ new /\
    buffers_requested (length (cl_calls c0)) new = requested /\
    objects_released new = released.

(** Inside [finalizeCalculation]: nothing was released yet, and the guard
    holds every buffer requested so far, except for [pending], which are
    about to be handed to it. *)
Definition guarded (c0 : OpenClContext) (pending : list cl_handle) (f : Frame) : Prop :=
  logged c0 (guard_mem f ++ pending) [] (this f).

(** A call that neither requests a buffer nor releases anything. *)
Definition plain (call : ClCall) : bool :=
  match call with
  | clCreateBuffer _ | clReleaseMemObject _ | clReleaseKernel _ | clReleaseProgram _ => false
  | _ => true
  end.

(** A calculation with one scalar input and one output, about to be
    finalised on a device that grants the input buffer and refuses the
    output buffer. *)
Definition output_buffer_refused : OpenClContext :=
  set_cl_replies [0; -61]%Z
    (after [ call_initiateCalculation 4 0 0 single_precision;
             call_createInputVariable_scalar 1%float;
             call_applyOperation RandomVariableOpCode.Negative [0];
             call_declareOutputVariable 1 ]).

(** ** Disposal and version changes *)

(** The calculation [id] is known, live, of batch size [n], and stored
    under another version than [version]. *)
Record outdated (c : OpenClContext) (n id version : N) (k p : cl_handle) : Prop :=
  mk_outdated {
  outdated_n : 0 < n;
  outdated_id : 0 < id;
  outdated_known : id <= vec_size (hasKernel_ c);
  outdated_size : size_ c !! N.to_nat (id -% 1) = Some n;
  outdated_live : disposed_ c !! N.to_nat (id -% 1) = Some false;
  outdated_version : exists v, version_ c !! N.to_nat (id -% 1) = Some v /\ v <> version;
  outdated_kernel : kernel_ c !! N.to_nat (id -% 1) = Some k;
  outdated_program : program_ c !! N.to_nat (id -% 1) = Some p
}.

(** The first evaluation, finalised: calculation 1 has a kernel, stored
    under version 0, and one declared output. *)
Definition finalized_once : OpenClContext :=
  after (first_evaluation ++ [call_finalizeCalculation [1000]]).

(** ** [finalizeCalculation] on a device that answers [CL_SUCCESS] *)

(** While [finalizeCalculation] runs on a quiet device, on a context that
    started as [c0]; [built] says that the kernel of the current calculation
    has been built. *)
Record running (c0 : OpenClContext) (built : bool) (s : OpenClContext) : Prop := mk_running {
  run_finalizing : finalizing c0 s;
  run_quiet : quiet s;
  run_built : built = true -> hasKernel_ s !! N.to_nat (currentId_ c0 -% 1) = Some true
}.

(** What [finalizeCalculation] checks before it builds a kernel for the
    first time: a calculation is current and has no kernel yet, there is one
    result buffer per declared output, and the configured precision is
    supported. *)
Record first_finalize (output : list N) (c : OpenClContext) : Prop := mk_first_finalize {
  first_current : 0 < currentId_ c;
  first_kernel : hasKernel_ c !! N.to_nat (currentId_ c -% 1) = Some false;
  first_outputs : nOutputVars_ c !! N.to_nat (currentId_ c -% 1) = Some (vec_size output);
  first_precision :
    negb (useDoublePrecision (settings_ c)) || supportsDoublePrecision_ c = true
}.

(** The finalised first evaluation, initiated again under version 7. *)
Definition version_changed : OpenClContext :=
  after (first_evaluation
           ++ [ call_finalizeCalculation [1000];
                call_initiateCalculation 4 1 7 single_precision ]).

(** ** [applyOperation]: opcodes without implementation, missing arguments *)

(** The context after [applyOperation] has entered [calc] and taken its
    result id. *)
Definition result_id_taken (c : OpenClContext) : OpenClContext :=
  match last (freedVariables_ c) with
  | Some _ => set_freedVariables_ (removelast (freedVariables_ c)) (set_currentState_ calc c)
  | Datatypes.None => set_nVars_ (nVars_ c +% 1) (set_currentState_ calc c)
  end.

(** ** The variate pool: reuse and failed growth *)

(** While [updateVariatesPool] grows a pool that started as [c0]: the new
    buffer, requested with [bytes] bytes, is in [variatesPool_], the recorded
    size is still the old one, and the request is the first new entry of the
    log. *)
Record growing (c0 : OpenClContext) (bytes : N) (s : OpenClContext) : Prop := mk_growing {
  grow_size : variatesPoolSize_ s = variatesPoolSize_ c0;
  grow_pool : variatesPool_ s = fresh_handle c0;
  grow_log : exists new,
      cl_calls s = cl_calls c0 ++ (clCreateBuffer bytes, next_reply c0) :: new
}.

(** A second calculation of batch size 4 on the context of the first
    evaluation, whose pool of 624 samples covers its demand. *)
Definition second_calculation : OpenClContext :=
  after (first_evaluation
           ++ [ call_finalizeCalculation [1000];
                call_initiateCalculation 4 0 0 single_precision ]).

(** The context of [demand_628] on a device that refuses the new pool
    buffer. *)
Definition growth_refused : OpenClContext := set_cl_replies [-61]%Z demand_628.

(** What the refused growth leaves behind. *)
Definition growth_failed : OpenClContext :=
  default growth_refused (state_after (updateVariatesPool 8 growth_refused)).

(** ** Input values and input names *)

(** The number of values an input contributes in a calculation of batch
    size [n], and the total over a sequence of inputs. *)
Definition input_width (n : N) (x : InputValue) : N := if is_scalar x then 1 else n.

Definition total_width (n : N) (xs : list InputValue) : N :=
  fold_right (fun x total => input_width n x + total) 0 xs.

(** The descriptors and the stored values agree: the size of the input
    buffer, as derived from the last offset, is the number of stored values
    as a [std::size_t]. *)
Definition values_match (n : N) (c : OpenClContext) : Prop :=
  length (inputVarIsScalar_ c) = length (inputVarOffset_ c) /\
  following_offset n (inputVarOffset_ c) (inputVarIsScalar_ c)
    = SizeT.wrap (values_stored c).

(** Two scalars and a vector between them, created in a calculation of
    batch size 4: the ids are 0, 1, 2 and the offsets 0, 1, 5. *)
Definition three_inputs_created : OpenClContext :=
  after (started
           ++ [ call_createInputVariable_scalar 1%float;
                call_createInputVariable_vector (fun _ => 2%float);
                call_createInputVariable_scalar 3%float ]).

(** ** [errorText] *)

(** The status codes that the [switch] of [errorText] names. *)
Definition named_codes : list cl_int := [0; -1; -2; -3; -4; -5; -6; -7; -8; -9; -10; -11; -12; -13; -14; -15; -16; -17; -18; -19; -30; -31; -32; -33; -34; -35; -36; -37; -38; -39; -40; -41; -42; -43; -44; -45; -46; -47; -48; -49; -50; -51; -52; -53; -54; -55; -56; -57; -58; -59; -60; -61; -62; -63; -64; -65; -66; -67; -68]%Z.

(** [strip prefix text]: what follows [prefix] in [text]. *)
Fixpoint strip (prefix text : string) : option string :=
  match prefix, text with
  | EmptyString, _ => Some text
  | String a prefix', String b text' => if Ascii.eqb a b then strip prefix' text' else Datatypes.None
  | String _ _, EmptyString => Datatypes.None
  end.

(** Reads a status back from its text: the named code with that text, or
    the number that follows ["unknown cl error code "]. *)
Definition errorCode (text : string) : option cl_int :=
  match find (fun code => String.eqb (errorText code) text) named_codes with
  | Some code => Some code
  | Datatypes.None =>
      match strip "unknown cl error code " text with
      | Some digits => option_map Z.of_int (NilZero.int_of_string digits)
      | Datatypes.None => Datatypes.None
      end
  end.

(** ** The destructor *)

(** The entries of a per-calculation vector that belong to calculations
    which are not disposed. *)
Fixpoint live (disposed : list bool) (v : list cl_handle) : list cl_handle :=
  match disposed, v with
  | d :: disposed', h :: v' => (if d then [] else [h]) ++ live disposed' v'
  | _, _ => []
  end.

(** The releases of the variate pool's objects. *)
Definition pool_releases (c : OpenClContext) : list FinalCall :=
  if 0 <? variatesPoolSize_ c then
    [ release (clReleaseMemObject (variatesPool_ c));
      release (clReleaseMemObject (variatesMtStateBuffer_ c));
      release (clReleaseKernel (variatesKernelSeedInit_ c));
      release (clReleaseKernel (variatesKernelTwist_ c));
      release (clReleaseKernel (variatesKernelGenerate_ c));
      release (clReleaseProgram (variatesProgram_ c)) ]
  else [].

(** What the destructor of a well-formed, initialised context does. *)
Definition final_calls (c : OpenClContext) : list FinalCall :=
  pool_releases c
    ++ map (fun k => release (clReleaseKernel k)) (live (disposed_ c) (kernel_ c))
    ++ map (fun p => release (clReleaseProgram p)) (live (disposed_ c) (program_ c))
    ++ [clReleaseCommandQueue (queue_ c); clReleaseContext (context_ c)].

(** A context initialised on a cooperative device, after a finalised
    first evaluation. *)
Definition initialized_and_finalized : OpenClContext :=
  after (call_init (-1)%Z :: first_evaluation ++ [call_finalizeCalculation [1000]]).

(** ** [finalizeCalculation] and the precision of the stored values *)

Definition double_precision : Settings :=
  {| useDoublePrecision := true; rngSeed := 42; debug := false |}.

(** A calculation of batch size 4 with one scalar input, one operation and
    one output, built in single precision. *)
Definition one_input_evaluation : list Call :=
  [ call_initiateCalculation 4 0 0 single_precision;
    call_createInputVariable_scalar 1%float;
    call_applyOperation RandomVariableOpCode.Negative [0];
    call_declareOutputVariable 1 ].

(** The same after an [initiateCalculation] for its id that asks for double
    precision and is rejected for its batch size: the call has thrown, and
    the settings it came with are stored. *)
Definition precision_switched : OpenClContext :=
  after (one_input_evaluation ++ [ call_initiateCalculation 5 1 0 double_precision ]).

(** ** What the operations do not read *)

(** The outcome of a run, with [f] applied to the state it leaves. *)
Definition outcome_map {S A : Type} (f : S -> S) (o : outcome S A) : outcome S A :=
  match o with
  | Returned a s => Returned a (f s)
  | Thrown what s => Thrown what (f s)
  | Undefined => Undefined
  | OutOfFuel => OutOfFuel
  end.

(** [m] does not look at what [f] changes: started after [f], it does what
    it does otherwise, and leaves the state that [f] makes of the one it
    leaves otherwise. *)
Definition commutes {S A : Type} (f : S -> S) (m : M S A) : Prop :=
  forall s, m (f s) = outcome_map f (m s).

(** [f] done to the context of a frame of [finalizeCalculation]. *)
Definition reframe (f : OpenClContext -> OpenClContext) (frame : Frame) : Frame :=
  {| this := f (this frame); guard_mem := guard_mem frame |}.

(** The first evaluation, finalised twice in a row. *)
Definition finalized_twice : OpenClContext :=
  after (first_evaluation ++ [call_finalizeCalculation [1000]; call_finalizeCalculation [1000]]).

(** * Properties *)

(** ** Unsigned arithmetic *)

Arguments SizeT.wrap : simpl never.
Arguments SizeT.add : simpl never.
Arguments SizeT.mul : simpl never.
Arguments SizeT.sub : simpl never.
Arguments SizeT.to_string : simpl never.

Lemma modulus_value : SizeT.modulus = 18446744073709551616.
Proof. reflexivity. Qed.

Lemma wrap_small (x : N) : is_size_t x -> SizeT.wrap x = x.
Proof. intros H. unfold SizeT.wrap. apply N.mod_small. exact H. Qed.

Lemma wrap_is_size_t (x : N) : is_size_t (SizeT.wrap x).
Proof. unfold is_size_t, SizeT.wrap. apply N.mod_lt. rewrite modulus_value. discriminate. Qed.

Lemma add_is_size_t (a b : N) : is_size_t (a +% b).
Proof. apply wrap_is_size_t. Qed.

Lemma mul_is_size_t (a b : N) : is_size_t (a *% b).
Proof. apply wrap_is_size_t. Qed.

Lemma add_small (a b : N) : is_size_t (a + b) -> a +% b = a + b.
Proof. apply wrap_small. Qed.

Lemma add_0_r (a : N) : is_size_t a -> a +% 0 = a.
Proof. intros H. unfold SizeT.add. rewrite N.add_0_r. apply wrap_small, H. Qed.

Lemma mul_small (a b : N) : is_size_t (a * b) -> a *% b = a * b.
Proof. apply wrap_small. Qed.

(** [id - 1] for a valid one-based id. *)
Lemma sub_1_pos (id : N) : 0 < id -> is_size_t id -> id -% 1 = id - 1.
Proof.
  unfold is_size_t, SizeT.sub. rewrite modulus_value. intros Hpos Hlt.
  rewrite Z.mod_small by lia. lia.
Qed.

(** [0 - 1] wraps to the largest value. *)
Lemma sub_1_zero : 0 -% 1 = 18446744073709551615.
Proof. reflexivity. Qed.

Lemma add_wrap_l (a b : N) : SizeT.wrap a +% b = a +% b.
Proof.
  unfold SizeT.add, SizeT.wrap.
  rewrite N.Div0.add_mod_idemp_l. reflexivity.
Qed.

Lemma add_wrap_r (a b : N) : a +% SizeT.wrap b = a +% b.
Proof.
  unfold SizeT.add, SizeT.wrap.
  rewrite N.Div0.add_mod_idemp_r. reflexivity.
Qed.

Lemma add_add (a b c : N) : a +% b +% c = a +% (b + c).
Proof.
  change (a +% b) with (SizeT.wrap (a + b)). rewrite add_wrap_l.
  unfold SizeT.add. f_equal. lia.
Qed.

(** ** Symbolic execution of the monadic code *)

(** Projections of updated contexts. *)
Ltac ctx_simpl :=
  cbn [
       healthy_ initialized_ context_ queue_ supportsDoublePrecision_ numberOfOperations
       size_ disposed_ hasKernel_ version_ program_ kernel_ inputBufferSize_
       nOutputVars_ variatesPoolSize_ variatesPool_ variatesMtStateBuffer_
       variatesProgram_ variatesKernelSeedInit_ variatesKernelTwist_
       variatesKernelGenerate_ currentId_ currentState_ nVars_ nVariates_ settings_
       inputVarOffset_ inputVarIsScalar_ inputVarValues32_ inputVarValues64_
       freedVariables_ outputVariables_ currentSsa_ cl_replies cl_calls set_healthy_
       set_initialized_ set_context_ set_queue_ set_supportsDoublePrecision_
       set_numberOfOperations set_size_ set_disposed_ set_hasKernel_ set_version_
       set_program_ set_kernel_ set_inputBufferSize_ set_nOutputVars_
       set_variatesPoolSize_ set_variatesPool_ set_variatesMtStateBuffer_
       set_variatesProgram_ set_variatesKernelSeedInit_ set_variatesKernelTwist_
       set_variatesKernelGenerate_ set_currentId_ set_currentState_ set_nVars_
       set_nVariates_ set_settings_ set_inputVarOffset_ set_inputVarIsScalar_
       set_inputVarValues32_ set_inputVarValues64_ set_freedVariables_
       set_outputVariables_ set_currentSsa_ set_cl_replies set_cl_calls answered this
       guard_mem fst snd ].

Tactic Notation "ctx_simpl" "in" hyp(H) :=
  cbn [
       healthy_ initialized_ context_ queue_ supportsDoublePrecision_ numberOfOperations
       size_ disposed_ hasKernel_ version_ program_ kernel_ inputBufferSize_
       nOutputVars_ variatesPoolSize_ variatesPool_ variatesMtStateBuffer_
       variatesProgram_ variatesKernelSeedInit_ variatesKernelTwist_
       variatesKernelGenerate_ currentId_ currentState_ nVars_ nVariates_ settings_
       inputVarOffset_ inputVarIsScalar_ inputVarValues32_ inputVarValues64_
       freedVariables_ outputVariables_ currentSsa_ cl_replies cl_calls set_healthy_
       set_initialized_ set_context_ set_queue_ set_supportsDoublePrecision_
       set_numberOfOperations set_size_ set_disposed_ set_hasKernel_ set_version_
       set_program_ set_kernel_ set_inputBufferSize_ set_nOutputVars_
       set_variatesPoolSize_ set_variatesPool_ set_variatesMtStateBuffer_
       set_variatesProgram_ set_variatesKernelSeedInit_ set_variatesKernelTwist_
       set_variatesKernelGenerate_ set_currentId_ set_currentState_ set_nVars_
       set_nVariates_ set_settings_ set_inputVarOffset_ set_inputVarIsScalar_
       set_inputVarValues32_ set_inputVarValues64_ set_freedVariables_
       set_outputVariables_ set_currentSsa_ set_cl_replies set_cl_calls answered this
       guard_mem fst snd ] in H.

Ltac exec_unfold :=
  unfold releaseKernel, releaseProgram, releaseMem, guard_mem_push_back, QL_REQUIRE, QL_FAIL,
    vec_get, vec_set, vec_back, cl, host, scope_exit, on_this,
    bind, ret, throw, undefined, out_of_fuel, get, modify in *.

Ltac exec_split :=
  match goal with
  | |- context [if ?b then _ else _] =>
      lazymatch b with
      | context [if _ then _ else _] => fail
      | context [match _ with _ => _ end] => fail
      | _ => destruct b eqn:?
      end
  | |- context [match ?l !! ?i with _ => _ end] => destruct (l !! i) eqn:?
  | |- context [match last ?l with _ => _ end] => destruct (last l) eqn:?
  end.

Ltac exec := exec_unfold; ctx_simpl; repeat (exec_split; ctx_simpl).

Ltac returned :=
  let H := fresh in
  intros H; inversion H; subst; clear H; ctx_simpl.

(** ** [initiateCalculation]: what is reset *)

(** C7 (as amended).  A successful [initiateCalculation] always clears the
    input descriptors (offsets, scalar flags, stored values) and the variable
    counter and enters [createInput]; the SSA text, the free list, the output
    list and the variate counter are reset together, and only when the call
    reports [fresh = true]: otherwise all four are left as they were. *)
Theorem initiateCalculation_resets (n id version : N) (settings : Settings)
    (c c' : OpenClContext) (r : N * bool) :
  initiateCalculation n id version settings c = Returned r c' ->
  nVars_ c' = 0 /\ inputVarOffset_ c' = [] /\ inputVarIsScalar_ c' = [] /\
  inputVarValues32_ c' = [] /\ inputVarValues64_ c' = [] /\
  currentState_ c' = createInput /\
  (snd r = true ->
     currentSsa_ c' = EmptyString /\ freedVariables_ c' = [] /\
     outputVariables_ c' = [] /\ nVariates_ c' = 0) /\
  (snd r = false ->
     currentSsa_ c' = currentSsa_ c /\ freedVariables_ c' = freedVariables_ c /\
     outputVariables_ c' = outputVariables_ c /\ nVariates_ c' = nVariates_ c).
Proof.
  unfold initiateCalculation. exec; returned.
  all: repeat first [split | intros; progress ctx_simpl]; try congruence; try discriminate.
Qed.

(** A new calculation ([id = 0]) is always accepted and is fresh. *)
Lemma initiateCalculation_new (n version : N) (settings : Settings) (c : OpenClContext)
    (Hn : 0 < n) :
  exists c',
    initiateCalculation n 0 version settings c
      = Returned (vec_size (hasKernel_ c ++ [false]), true) c' /\
    healthy_ c' = healthy_ c /\ hasKernel_ c' = hasKernel_ c ++ [false] /\
    size_ c' = size_ c ++ [n] /\ currentId_ c' = vec_size (hasKernel_ c ++ [false]) /\
    currentState_ c' = createInput.
Proof.
  apply N.ltb_lt in Hn.
  unfold initiateCalculation. exec_unfold. rewrite Hn. ctx_simpl.
  eexists. split; [reflexivity |]. ctx_simpl. auto 6.
Qed.

(** Re-initiating a live calculation under its stored version is accepted
    and is not fresh. *)
Lemma initiateCalculation_repeat (n id version : N) (settings : Settings)
    (c : OpenClContext)
    (Hn : 0 < n) (Hid : 0 < id) (Hle : id <= vec_size (hasKernel_ c))
    (Hsize : size_ c !! N.to_nat (id -% 1) = Some n)
    (Hdisposed : disposed_ c !! N.to_nat (id -% 1) = Some false)
    (Hversion : version_ c !! N.to_nat (id -% 1) = Some version) :
  exists c', initiateCalculation n id version settings c = Returned (id, false) c'.
Proof.
  apply N.ltb_lt in Hn. apply N.leb_le in Hle.
  assert ((id =? 0) = false) as Hid0 by (apply N.eqb_neq; lia).
  unfold initiateCalculation. exec_unfold. ctx_simpl.
  repeat (first [rewrite Hn | rewrite Hid0 | rewrite Hle | rewrite Hsize | rewrite Hdisposed
                | rewrite Hversion | rewrite N.eqb_refl ]; ctx_simpl).
  eexists. reflexivity.
Qed.

Ltac conjs := repeat apply conj.
Ltac by_computation := vm_compute; reflexivity.

(** C7, the claim as stated, fails.  After a first evaluation the free
    list is [[1]], the output list is [[1]], one variate is counted and one
    line of SSA text is held; initiating the same id and version again is
    accepted with [fresh = false] and leaves all four as they were, while
    the input descriptors and the variable counter are cleared. *)
Lemma initiateCalculation_repeat_keeps_scratch :
  perform_all first_evaluation fresh_context = Some (after first_evaluation) /\
  freedVariables_ (after first_evaluation) = [1] /\
  outputVariables_ (after first_evaluation) = [1] /\
  nVariates_ (after first_evaluation) = 1 /\
  initiateCalculation 4 1 0 single_precision (after first_evaluation)
    = Returned (1, false) (after reinitiated) /\
  freedVariables_ (after reinitiated) = [1] /\
  outputVariables_ (after reinitiated) = [1] /\
  nVariates_ (after reinitiated) = 1 /\
  currentSsa_ (after reinitiated) = currentSsa_ (after first_evaluation) /\
  inputVarOffset_ (after reinitiated) = [] /\
  nVars_ (after reinitiated) = 0.
Proof. conjs; by_computation. Qed.

Lemma initiateCalculation_resets_witness :
  nVars_ (after started) = 0 /\
  inputVarOffset_ (after started) = [] /\
  inputVarIsScalar_ (after started) = [] /\
  inputVarValues32_ (after started) = [] /\
  inputVarValues64_ (after started) = [] /\
  currentState_ (after started) = createInput /\
  (snd (1, true) = true ->
     currentSsa_ (after started) = EmptyString /\
     freedVariables_ (after started) = [] /\
     outputVariables_ (after started) = [] /\
     nVariates_ (after started) = 0) /\
  (snd (1, true) = false ->
     currentSsa_ (after started) = currentSsa_ fresh_context /\
     freedVariables_ (after started) = freedVariables_ fresh_context /\
     outputVariables_ (after started) = outputVariables_ fresh_context /\
     nVariates_ (after started) = nVariates_ fresh_context).
Proof.
  apply (initiateCalculation_resets 4 0 0 single_precision fresh_context (after started)
           (1, true)).
  by_computation.
Defined.

(** ** Rules for invariants of monadic code

    The rules carry [P] through the code as an invariant: what a step reads
    becomes a fact about the value read, and what it writes must keep [P]. *)

Section Holds.

Context {S : Type} (ub oof : Prop).

Context (P E : S -> Prop).

Lemma holds_consequence {A : Type} (P' E' : S -> Prop) (m : M S A) (Q Q' : A -> S -> Prop) :
  holds ub oof P' m Q' E' ->
  (forall s, P s -> P' s) -> (forall a s, Q' a s -> Q a s) -> (forall s, E' s -> E s) ->
  holds ub oof P m Q E.
Proof.
  intros Hm HP HQ HE s Hs. specialize (Hm s (HP s Hs)).
  destruct (m s) as [a s' | what s' | |]; auto.
Qed.

Lemma holds_ret {A : Type} (a : A) (Q : A -> S -> Prop) :
  (forall s, P s -> Q a s) -> holds ub oof P (ret a) Q E.
Proof. intros HQ s Hs. apply HQ, Hs. Qed.

Lemma holds_throw {A : Type} (what : string) (Q : A -> S -> Prop) :
  (forall s, P s -> E s) -> holds ub oof P (throw what) Q E.
Proof. intros HE s Hs. apply HE, Hs. Qed.

Lemma holds_fail {A : Type} (what : string) (Q : A -> S -> Prop) :
  (forall s, P s -> E s) -> holds ub oof P (QL_FAIL what) Q E.
Proof. intros HE s Hs. apply HE, Hs. Qed.

Lemma holds_require (b : bool) (what : string) (Q : unit -> S -> Prop) :
  (forall s, P s -> E s) ->
  (b = true -> forall s, P s -> Q tt s) -> holds ub oof P (QL_REQUIRE b what) Q E.
Proof. intros HE HQ s Hs. destruct b; [apply HQ; auto | apply HE, Hs]. Qed.

Lemma holds_modify (f : S -> S) (Q : unit -> S -> Prop) :
  (forall s, P s -> Q tt (f s)) -> holds ub oof P (modify f) Q E.
Proof. intros Hf s Hs. apply Hf, Hs. Qed.

Lemma holds_seq {A B : Type} (R : A -> S -> Prop) (m : M S A) (k : A -> M S B)
    (Q : B -> S -> Prop) :
  holds ub oof P m R E -> (forall a, holds ub oof (R a) (k a) Q E) -> holds ub oof P (bind m k) Q E.
Proof.
  intros Hm Hk s Hs. unfold bind. specialize (Hm s Hs).
  destruct (m s) as [a s' | what s' | |]; try assumption.
  apply Hk, Hm.
Qed.

Lemma holds_bind {A B : Type} (m : M S A) (k : A -> M S B) (Q : B -> S -> Prop) :
  holds ub oof P m (fun _ => P) E -> (forall a, holds ub oof P (k a) Q E) -> holds ub oof P (bind m k) Q E.
Proof. apply holds_seq. Qed.

Lemma holds_assoc {A B C : Type} (m : M S A) (f : A -> M S B) (g : B -> M S C)
    (Q : C -> S -> Prop) :
  holds ub oof P (bind m (fun a => bind (f a) g)) Q E -> holds ub oof P (bind (bind m f) g) Q E.
Proof.
  intros H s Hs. specialize (H s Hs). unfold bind in *.
  destruct (m s) as [a s' | what s' | |]; assumption.
Qed.

Lemma holds_bind_get {B : Type} (k : S -> M S B) (Q : B -> S -> Prop) :
  (forall c, P c -> holds ub oof P (k c) Q E) -> holds ub oof P (bind get k) Q E.
Proof. intros Hk s Hs. unfold bind, get. apply Hk; assumption. Qed.

Lemma holds_bind_modify {B : Type} (f : S -> S) (k : unit -> M S B) (Q : B -> S -> Prop) :
  (forall s, P s -> P (f s)) -> holds ub oof P (k tt) Q E -> holds ub oof P (bind (modify f) k) Q E.
Proof. intros Hf Hk s Hs. unfold bind, modify. apply Hk, Hf, Hs. Qed.

Lemma holds_bind_require {B : Type} (b : bool) (what : string) (k : unit -> M S B)
    (Q : B -> S -> Prop) :
  (forall s, P s -> E s) ->
  (b = true -> holds ub oof P (k tt) Q E) -> holds ub oof P (bind (QL_REQUIRE b what) k) Q E.
Proof.
  intros HE Hk s Hs. unfold bind, QL_REQUIRE. destruct b; [apply Hk; auto | apply HE, Hs].
Qed.

Lemma holds_vec_get {A : Type} (v : list A) (i : N) (Q : A -> S -> Prop) :
  (v !! N.to_nat i = Datatypes.None -> ub) ->
  (forall a, v !! N.to_nat i = Some a -> forall s, P s -> Q a s) ->
  holds ub oof P (vec_get v i) Q E.
Proof.
  intros Hub HQ s Hs. unfold vec_get.
  destruct (v !! N.to_nat i) as [a |]; [apply HQ; auto | apply Hub; reflexivity].
Qed.

Lemma holds_vec_set {A : Type} (v : list A) (i : N) (x : A) (Q : list A -> S -> Prop) :
  ((length v <= N.to_nat i)%nat -> ub) ->
  ((N.to_nat i < length v)%nat -> forall s, P s -> Q (<[N.to_nat i := x]> v) s) ->
  holds ub oof P (vec_set v i x) Q E.
Proof.
  intros Hub HQ s Hs. unfold vec_set.
  destruct (N.to_nat i <? length v)%nat eqn:Hlt.
  - apply Nat.ltb_lt in Hlt. apply HQ; auto.
  - apply Nat.ltb_ge in Hlt. apply Hub, Hlt.
Qed.

Lemma holds_vec_back {A : Type} (v : list A) (Q : A -> S -> Prop) :
  (v = [] -> ub) ->
  (forall a, last v = Some a -> forall s, P s -> Q a s) ->
  holds ub oof P (vec_back v) Q E.
Proof.
  intros Hub HQ s Hs. unfold vec_back.
  destruct (last v) as [a |] eqn:Hlast; [apply HQ; auto |].
  apply Hub. apply last_None in Hlast. exact Hlast.
Qed.

Lemma holds_bind_vec_get {A B : Type} (v : list A) (i : N) (k : A -> M S B)
    (Q : B -> S -> Prop) :
  (v !! N.to_nat i = Datatypes.None -> ub) ->
  (forall a, v !! N.to_nat i = Some a -> holds ub oof P (k a) Q E) ->
  holds ub oof P (bind (vec_get v i) k) Q E.
Proof.
  intros Hub Hk s Hs. unfold bind, vec_get.
  destruct (v !! N.to_nat i) as [a |]; [apply Hk; auto | apply Hub; reflexivity].
Qed.

Lemma holds_bind_vec_set {A B : Type} (v : list A) (i : N) (x : A)
    (k : list A -> M S B) (Q : B -> S -> Prop) :
  ((length v <= N.to_nat i)%nat -> ub) ->
  ((N.to_nat i < length v)%nat -> holds ub oof P (k (<[N.to_nat i := x]> v)) Q E) ->
  holds ub oof P (bind (vec_set v i x) k) Q E.
Proof.
  intros Hub Hk s Hs. unfold bind, vec_set.
  destruct (N.to_nat i <? length v)%nat eqn:Hlt.
  - apply Nat.ltb_lt in Hlt. apply Hk; auto.
  - apply Nat.ltb_ge in Hlt. apply Hub, Hlt.
Qed.

Lemma holds_undefined {A : Type} (Q : A -> S -> Prop) : ub -> holds ub oof P undefined Q E.
Proof. intros Hub s Hs. exact Hub. Qed.

Lemma holds_host_read {A : Type} (v : list A) (bytes elementSize : N)
    (Q : list A -> S -> Prop) :
  (vec_size v = 0 \/ vec_size v < bytes / elementSize -> ub) ->
  (0 < vec_size v -> bytes / elementSize <= vec_size v ->
   forall s, P s -> Q (take (N.to_nat (bytes / elementSize)) v) s) ->
  holds ub oof P (host_read v bytes elementSize) Q E.
Proof.
  intros Hub HQ s Hs. unfold host_read.
  destruct (0 <? vec_size v) eqn:Hpos; cbn [andb].
  - destruct (bytes / elementSize <=? vec_size v) eqn:Hle.
    + apply N.ltb_lt in Hpos. apply N.leb_le in Hle. apply HQ; assumption.
    + apply N.leb_gt in Hle. apply Hub. right. exact Hle.
  - apply N.ltb_ge in Hpos. apply Hub. left. lia.
Qed.

Lemma holds_bind_host_read {A B : Type} (v : list A) (bytes elementSize : N)
    (k : list A -> M S B) (Q : B -> S -> Prop) :
  (vec_size v = 0 \/ vec_size v < bytes / elementSize -> ub) ->
  (0 < vec_size v -> bytes / elementSize <= vec_size v ->
   holds ub oof P (k (take (N.to_nat (bytes / elementSize)) v)) Q E) ->
  holds ub oof P (bind (host_read v bytes elementSize) k) Q E.
Proof.
  intros Hub Hk s Hs. unfold bind, host_read.
  destruct (0 <? vec_size v) eqn:Hpos; cbn [andb].
  - destruct (bytes / elementSize <=? vec_size v) eqn:Hle.
    + apply N.ltb_lt in Hpos. apply N.leb_le in Hle. apply Hk; assumption.
    + apply N.leb_gt in Hle. apply Hub. right. exact Hle.
  - apply N.ltb_ge in Hpos. apply Hub. left. lia.
Qed.

Lemma holds_bind_vec_back {A B : Type} (v : list A) (k : A -> M S B) (Q : B -> S -> Prop) :
  (v = [] -> ub) ->
  (forall a, last v = Some a -> holds ub oof P (k a) Q E) ->
  holds ub oof P (bind (vec_back v) k) Q E.
Proof.
  intros Hub Hk s Hs. unfold bind, vec_back.
  destruct (last v) as [a |] eqn:Hlast; [apply Hk; auto |].
  apply Hub. apply last_None in Hlast. exact Hlast.
Qed.

Lemma holds_scope_exit {A : Type} (body : M S A) (cleanup : S -> S) (Q : A -> S -> Prop)
    (Q' : A -> S -> Prop) (E' : S -> Prop) :
  holds ub oof P body Q' E' ->
  (forall a s, Q' a s -> Q a (cleanup s)) -> (forall s, E' s -> E (cleanup s)) ->
  holds ub oof P (scope_exit body cleanup) Q E.
Proof.
  intros Hbody HQ HE s Hs. unfold scope_exit. specialize (Hbody s Hs).
  destruct (body s) as [a s' | what s' | |]; auto.
Qed.

Lemma holds_forM {A : Type} (l : list N) (body : N -> A -> M S A) (a : A) :
  (forall x a, In x l -> holds ub oof P (body x a) (fun _ => P) E) ->
  holds ub oof P (forM l body a) (fun _ => P) E.
Proof.
  revert a. induction l as [| x l IH]; intros a Hbody; simpl.
  - apply holds_ret. auto.
  - apply holds_bind.
    + apply Hbody. left. reflexivity.
    + intros a'. apply IH. intros y b Hy. apply Hbody. right. exact Hy.
Qed.

Lemma holds_mapM {A B : Type} (f : A -> M S B) (l : list A) :
  (forall x, In x l -> holds ub oof P (f x) (fun _ => P) E) ->
  holds ub oof P (mapM f l) (fun _ => P) E.
Proof.
  induction l as [| x l IH]; intros Hf; simpl.
  - apply holds_ret. auto.
  - apply holds_bind; [apply Hf; left; reflexivity |].
    intros y. apply holds_bind; [| intros ys; apply holds_ret; auto].
    apply IH. intros z Hz. apply Hf. right. exact Hz.
Qed.

End Holds.

(** Device calls. *)
Lemma holds_bind_cl {B : Type} (ub oof : Prop) (P E : OpenClContext -> Prop) (call : ClCall)
    (k : cl_int * cl_handle -> M OpenClContext B) (Q : B -> OpenClContext -> Prop) :
  (forall s, P s -> P (answered call s)) ->
  (forall err h, holds ub oof P (k (err, h)) Q E) ->
  holds ub oof P (bind (cl call) k) Q E.
Proof. intros Hcall Hk s Hs. unfold bind, cl. apply Hk, Hcall, Hs. Qed.

Lemma holds_cl (ub oof : Prop) (P E : OpenClContext -> Prop) (call : ClCall)
    (Q : cl_int * cl_handle -> OpenClContext -> Prop) :
  (forall s, P s -> Q (next_reply s, fresh_handle s) (answered call s)) ->
  holds ub oof P (cl call) Q E.
Proof. intros Hcall s Hs. unfold cl. apply Hcall, Hs. Qed.

Lemma holds_host (ub oof : Prop) (P E : OpenClContext -> Prop) (call : ClCall)
    (Q : unit -> OpenClContext -> Prop) :
  (forall s, P s -> Q tt (set_cl_calls (cl_calls s ++ [(call, CL_SUCCESS)]) s)) ->
  holds ub oof P (host call) Q E.
Proof. intros Hcall s Hs. unfold host, modify. apply Hcall, Hs. Qed.

Lemma holds_on_this {A : Type} (ub oof : Prop) (P E : OpenClContext -> Prop)
    (m : M OpenClContext A) :
  holds ub oof P m (fun _ => P) E ->
  holds ub oof (on_frame P) (on_this m) (fun _ => on_frame P) (on_frame E).
Proof.
  intros Hm f Hf. unfold on_this. specialize (Hm (this f) Hf).
  destruct (m (this f)) as [a c | what c | |]; exact Hm.
Qed.

Lemma holds_bind_on_this_get {B : Type} (ub oof : Prop) (P : OpenClContext -> Prop)
    (E : Frame -> Prop) (k : OpenClContext -> M Frame B) (Q : B -> Frame -> Prop) :
  (forall c, P c -> holds ub oof (on_frame P) (k c) Q E) ->
  holds ub oof (on_frame P) (bind (on_this get) k) Q E.
Proof. intros Hk f Hf. unfold bind, on_this, get. destruct f as [c g]. apply Hk; exact Hf. Qed.

Lemma holds_guard_mem_push_back (ub oof : Prop) (P : OpenClContext -> Prop)
    (E : Frame -> Prop) (m : cl_handle) :
  holds ub oof (on_frame P) (guard_mem_push_back m) (fun _ => on_frame P) E.
Proof. intros f Hf. exact Hf. Qed.

(** A fact that does not depend on the state is carried through the code as
    a hypothesis. *)
Lemma holds_pure {St A : Type} (ub oof : Prop) (P E : St -> Prop) (fact : Prop)
    (m : M St A) (Q : A -> St -> Prop) :
  (fact -> holds ub oof P m Q E) -> holds ub oof (fun s => P s /\ fact) m Q E.
Proof. intros Hm s [Hs Hfact]. apply Hm; assumption. Qed.

(** One step of an invariant proof, chosen by the shape of the code;
    [side] solves the side conditions on the invariant. *)
Ltac holds_step side :=
  lazymatch goal with
  | |- holds _ _ _ (bind (bind _ _) _) _ _ => apply holds_assoc
  | |- holds _ _ _ (bind get _) _ _ => apply holds_bind_get; intros ? ?
  | |- holds _ _ _ (bind (on_this get) _) _ _ => apply holds_bind_on_this_get; intros ? ?
  | |- holds _ _ _ (bind (modify _) _) _ _ =>
      apply holds_bind_modify; [intros ? ?; side |]
  | |- holds _ _ _ (bind (cl _) _) _ _ =>
      apply holds_bind_cl; [intros ? ?; side | intros ? ?; cbv beta iota]
  | |- holds _ _ _ (bind (QL_REQUIRE _ _) _) _ _ =>
      apply holds_bind_require; [intros ? ?; side | intros ?]
  | |- holds _ _ _ (bind (vec_get _ _) _) _ _ =>
      apply holds_bind_vec_get; [intros ?; side | intros ? ?]
  | |- holds _ _ _ (bind (vec_set _ _ _) _) _ _ =>
      apply holds_bind_vec_set; [intros ?; side | intros ?]
  | |- holds _ _ _ (bind (vec_back _) _) _ _ =>
      apply holds_bind_vec_back; [intros ?; side | intros ? ?]
  | |- holds _ _ _ (bind (host_read _ _ _) _) _ _ =>
      apply holds_bind_host_read; [intros ?; side | intros ? ?]
  | |- holds _ _ _ (bind (if ?b then _ else _) _) _ _ =>
      apply holds_bind; [destruct b eqn:? | intros ?; cbv beta iota]
  | |- holds _ _ _ (bind (match ?x with _ => _ end) _) _ _ =>
      apply holds_bind; [destruct x eqn:? | intros ?; cbv beta iota]
  | |- holds _ _ _ (bind (forM _ _ _) _) _ _ =>
      apply holds_bind; [apply holds_forM; intros ? ? ? | intros ?; cbv beta iota]
  | |- holds _ _ _ (bind (mapM _ _) _) _ _ =>
      apply holds_bind; [apply holds_mapM; intros ? ? | intros ?; cbv beta iota]
  | |- holds _ _ _ (bind _ _) _ _ => apply holds_bind; [| intros ?; cbv beta iota]
  | |- holds _ _ _ (ret _) _ _ => apply holds_ret; intros ? ?; cbv beta; side
  | |- holds _ _ _ (throw _) _ _ => apply holds_throw; intros ? ?; side
  | |- holds _ _ _ (QL_FAIL _) _ _ => apply holds_fail; intros ? ?; side
  | |- holds _ _ _ (QL_REQUIRE _ _) _ _ =>
      apply holds_require; [intros ? ?; side | intros ? ? ?; cbv beta; side]
  | |- holds _ _ _ (vec_get _ _) _ _ =>
      apply holds_vec_get; [intros ?; side | intros ? ? ? ?; cbv beta; side]
  | |- holds _ _ _ (vec_set _ _ _) _ _ =>
      apply holds_vec_set; [intros ?; side | intros ? ? ?; cbv beta; side]
  | |- holds _ _ _ (vec_back _) _ _ =>
      apply holds_vec_back; [intros ?; side | intros ? ? ? ?; cbv beta; side]
  | |- holds _ _ _ (host_read _ _ _) _ _ =>
      apply holds_host_read; [intros ?; side | intros ? ? ? ?; cbv beta; side]
  | |- holds _ _ _ undefined _ _ => apply holds_undefined; side
  | |- holds _ _ _ (modify _) _ _ => apply holds_modify; intros ? ?; cbv beta; side
  | |- holds _ _ _ (cl _) _ _ => apply holds_cl; intros ? ?; cbv beta; side
  | |- holds _ _ _ (host _) _ _ => apply holds_host; intros ? ?; cbv beta; side
  | |- holds _ _ _ (forM _ _ _) _ _ => apply holds_forM; intros ? ? ?
  | |- holds _ _ _ (mapM _ _) _ _ => apply holds_mapM; intros ? ?
  | |- holds _ _ _ (on_this _) _ _ => apply holds_on_this
  | |- holds _ _ _ (guard_mem_push_back _) _ _ => apply holds_guard_mem_push_back
  | |- holds _ _ _ (if ?b then _ else _) _ _ => destruct b eqn:?
  | |- holds _ _ _ (match ?x with _ => _ end) _ _ => destruct x eqn:?
  | |- preserves _ _ _ _ => unfold preserves
  end.

Tactic Notation "holds_steps" tactic3(side) := repeat (holds_step side).

(** *** Code that only talks to the device *)

Lemma device_only_refl (c : OpenClContext) : device_only c c.
Proof. exists (cl_calls c), (cl_replies c). destruct c. reflexivity. Qed.

Lemma device_only_answered (c s : OpenClContext) (call : ClCall) :
  device_only c s -> device_only c (answered call s).
Proof. intros (calls & replies & ->). eexists _, _. reflexivity. Qed.

Lemma device_only_trans (a b c : OpenClContext) :
  device_only a b -> device_only b c -> device_only a c.
Proof. intros (? & ? & ->) (? & ? & ->). eexists _, _. reflexivity. Qed.

Ltac device_inv :=
  idtac;
  first [ apply device_only_answered; assumption | assumption ].

Lemma releaseKernel_device_only (c : OpenClContext) (k : cl_handle) :
  preserves True True (device_only c) (releaseKernel k).
Proof. unfold releaseKernel. holds_steps device_inv. Qed.

Lemma releaseProgram_device_only (c : OpenClContext) (p : cl_handle) :
  preserves True True (device_only c) (releaseProgram p).
Proof. unfold releaseProgram. holds_steps device_inv. Qed.

Lemma releaseMem_device_only (c : OpenClContext) (m : cl_handle) :
  preserves True True (device_only c) (releaseMem m).
Proof. unfold releaseMem. holds_steps device_inv. Qed.

Lemma runHealthCheckProgram_device_only (c : OpenClContext) (source kernelName : string) :
  preserves True True (device_only c) (runHealthCheckProgram source kernelName).
Proof.
  unfold runHealthCheckProgram.
  holds_steps device_inv;
    first [ apply releaseKernel_device_only | apply releaseProgram_device_only
          | apply releaseMem_device_only ].
Qed.

Lemma runHealthChecks_device_only (c : OpenClContext) :
  preserves True True (device_only c) runHealthChecks.
Proof.
  unfold runHealthChecks.
  repeat (apply holds_bind; [apply runHealthCheckProgram_device_only | intros _]).
  apply runHealthCheckProgram_device_only.
Qed.

(** ** Well-formed contexts *)

(** *** Index arithmetic on a well-formed context *)

(** [id - 1] for a positive [id] never exceeds the exact predecessor. *)
Lemma sub_1_le (id : N) : 0 < id -> id -% 1 <= id - 1.
Proof.
  intros Hpos. unfold SizeT.sub. rewrite modulus_value.
  assert (0 <= Z.of_N id - Z.of_N 1)%Z as H0 by lia.
  pose proof (Z.mod_le (Z.of_N id - Z.of_N 1) (Z.of_N 18446744073709551616) H0) as Hle.
  pose proof (Z.mod_pos_bound (Z.of_N id - Z.of_N 1) (Z.of_N 18446744073709551616)) as Hb.
  lia.
Qed.

(** The zero-based index [currentId_ - 1] of the current calculation. *)
Lemma wf_index (c : OpenClContext) :
  wf c -> 0 < currentId_ c ->
  (N.to_nat (currentId_ c -% 1) < length (hasKernel_ c))%nat.
Proof.
  intros H Hpos. pose proof (sub_1_le _ Hpos) as Hs.
  pose proof (wf_current c H) as Hle. unfold vec_size in Hle. lia.
Qed.

Lemma lookup_lt_Some' {A : Type} (l : list A) (i : nat) :
  (i < length l)%nat -> exists x, l !! i = Some x.
Proof. intros H. apply lookup_lt_is_Some_2 in H. destruct H as [x Hx]. eauto. Qed.

Ltac wf_lookup H Hpos c f :=
  let Hi := fresh "Hi" in
  pose proof (wf_index c H Hpos) as Hi;
  apply (lookup_lt_Some' (f c)); first
    [ exact Hi | rewrite (wf_size c H); exact Hi | rewrite (wf_disposed c H); exact Hi
    | rewrite (wf_version c H); exact Hi | rewrite (wf_program c H); exact Hi
    | rewrite (wf_kernel c H); exact Hi | rewrite (wf_inputBufferSize c H); exact Hi
    | rewrite (wf_nOutputVars c H); exact Hi ].

Lemma wf_lookup_hasKernel (c : OpenClContext) :
  wf c -> 0 < currentId_ c ->
  exists b, hasKernel_ c !! N.to_nat (currentId_ c -% 1) = Some b.
Proof. intros H Hpos. wf_lookup H Hpos c hasKernel_. Qed.

Lemma wf_lookup_size (c : OpenClContext) :
  wf c -> 0 < currentId_ c ->
  exists n, size_ c !! N.to_nat (currentId_ c -% 1) = Some n.
Proof. intros H Hpos. wf_lookup H Hpos c size_. Qed.

Lemma wf_lookup_nOutputVars (c : OpenClContext) :
  wf c -> 0 < currentId_ c ->
  exists n, nOutputVars_ c !! N.to_nat (currentId_ c -% 1) = Some n.
Proof. intros H Hpos. wf_lookup H Hpos c nOutputVars_. Qed.

Lemma wf_lookup_version (c : OpenClContext) :
  wf c -> 0 < currentId_ c ->
  exists n, version_ c !! N.to_nat (currentId_ c -% 1) = Some n.
Proof. intros H Hpos. wf_lookup H Hpos c version_. Qed.

Lemma wf_lookup_kernel (c : OpenClContext) :
  wf c -> 0 < currentId_ c ->
  exists n, kernel_ c !! N.to_nat (currentId_ c -% 1) = Some n.
Proof. intros H Hpos. wf_lookup H Hpos c kernel_. Qed.

Lemma wf_lookup_inputBufferSize (c : OpenClContext) :
  wf c -> 0 < currentId_ c ->
  exists n, inputBufferSize_ c !! N.to_nat (currentId_ c -% 1) = Some n.
Proof. intros H Hpos. wf_lookup H Hpos c inputBufferSize_. Qed.

(** The constructor establishes the invariant. *)
Lemma wf_new (supportsDoublePrecision : bool) (garbage : N) (replies : list cl_int) :
  is_size_t garbage -> wf (OpenClContext_new supportsDoublePrecision garbage replies).
Proof.
  intros Hg. constructor; simpl; try reflexivity; try assumption.
  all: first [ intros H; exfalso; apply H; reflexivity | unfold vec_size; simpl; lia ].
Qed.

(** *** Every operation keeps the invariant *)

Lemma steady_refl (c : OpenClContext) : wf c -> steady c c.
Proof. intros H. exact (conj H (conj eq_refl eq_refl)). Qed.

Lemma steady_keeps_wf {A : Type} (m : M OpenClContext A) :
  (forall c0, preserves True True (steady c0) m) -> keeps_wf m.
Proof.
  intros Hm c Hc. specialize (Hm c c (steady_refl c Hc)).
  destruct (m c) as [a c' | what c' | |]; try exact I; apply Hm.
Qed.

Lemma keeps_wf_steady {A : Type} (m : M OpenClContext A) (c0 : OpenClContext) :
  keeps_wf m ->
  (forall c, match m c with
             | Returned _ c' | Thrown _ c' =>
                 length (hasKernel_ c') = length (hasKernel_ c) /\ currentId_ c' = currentId_ c
             | _ => True
             end) ->
  preserves True True (steady c0) m.
Proof.
  intros Hwf Hframe s (Hs & Hlen & Hid). specialize (Hwf s Hs). specialize (Hframe s).
  destruct (m s) as [a c' | what c' | |]; try exact I.
  all: destruct Hframe as [Hl Hi]; refine (conj Hwf (conj _ _)); congruence.
Qed.

Ltac open_invariants :=
  repeat match goal with
         | H : steady _ _ |- _ => destruct H as (? & ? & ?)
         | H : wf _ |- _ => destruct H
         end.

Ltac lengths :=
  ctx_simpl;
  unfold vec_size in *;
  repeat rewrite length_app;
  repeat rewrite length_insert;
  simpl length.

(** Solves the invariant of an updated context from the invariants at hand. *)
Ltac wf_side :=
  idtac;
  cbv beta;
  try exact I;
  open_invariants;
  repeat lazymatch goal with
         | |- steady _ _ => refine (conj _ (conj _ _))
         | |- wf _ => constructor
         end;
  lengths;
  first [ assumption | congruence | lia | intros; assumption | intros; lia | reflexivity
        | apply add_is_size_t ].

Lemma answered_wf (call : ClCall) (c : OpenClContext) : wf c -> wf (answered call c).
Proof. intros H. wf_side. Qed.

Lemma releaseKernel_steady (c0 : OpenClContext) (k : cl_handle) :
  preserves True True (steady c0) (releaseKernel k).
Proof. unfold releaseKernel. holds_steps wf_side. Qed.

Lemma releaseProgram_steady (c0 : OpenClContext) (p : cl_handle) :
  preserves True True (steady c0) (releaseProgram p).
Proof. unfold releaseProgram. holds_steps wf_side. Qed.

Lemma releaseMem_steady (c0 : OpenClContext) (m : cl_handle) :
  preserves True True (steady c0) (releaseMem m).
Proof. unfold releaseMem. holds_steps wf_side. Qed.

Lemma disposeCalculation_wf (id : N) : keeps_wf (disposeCalculation id).
Proof.
  apply steady_keeps_wf. intros c0. unfold disposeCalculation.
  holds_steps wf_side;
    first [ apply releaseKernel_steady | apply releaseProgram_steady ].
Qed.

(** ** [disposeCalculation] *)

(** Rewrites with the hypotheses that decide the control flow, one at a
    time, evaluating in between. *)
Ltac run_with H := rewrite H; ctx_simpl.

(** Disposing a live, known calculation marks it disposed and releases its
    kernel, then its program. *)
Lemma disposeCalculation_live (id : N) (c : OpenClContext) (k p : cl_handle)
    (Hdisposed : disposed_ c !! N.to_nat (id -% 1) = Some false)
    (Hkernel : kernel_ c !! N.to_nat (id -% 1) = Some k)
    (Hprogram : program_ c !! N.to_nat (id -% 1) = Some p) :
  disposeCalculation id c
    = Returned tt
        (answered (clReleaseProgram p)
           (answered (clReleaseKernel k)
              (set_disposed_ (<[N.to_nat (id -% 1) := true]> (disposed_ c)) c))).
Proof.
  unfold disposeCalculation. exec_unfold. ctx_simpl.
  run_with Hdisposed.
  apply lookup_lt_Some in Hdisposed. apply Nat.ltb_lt in Hdisposed.
  run_with Hdisposed. run_with Hkernel. run_with Hprogram. reflexivity.
Qed.

(** Disposing a calculation that is already disposed fails and changes
    nothing. *)
Lemma disposeCalculation_disposed (id : N) (c : OpenClContext)
    (Hdisposed : disposed_ c !! N.to_nat (id -% 1) = Some true) :
  disposeCalculation id c
    = Thrown "OpenClContext::disposeCalculation(): id was already disposed." c.
Proof.
  unfold disposeCalculation. exec_unfold. ctx_simpl. run_with Hdisposed. reflexivity.
Qed.

(** Hence disposing the same id twice fails on the second call. *)
Lemma disposeCalculation_twice (id : N) (c c' : OpenClContext) :
  disposeCalculation id c = Returned tt c' ->
  disposeCalculation id c'
    = Thrown "OpenClContext::disposeCalculation(): id was already disposed." c'.
Proof.
  unfold disposeCalculation at 1. exec; returned.
  apply disposeCalculation_disposed. ctx_simpl.
  apply list_lookup_insert_eq. apply Nat.ltb_lt. assumption.
Qed.

(** C9.  [disposeCalculation] reads [disposed_[id - 1]] without checking
    [id] against the number of records (as [initiateCalculation] does): for
    [id = 0] the index wraps to [2^64 - 1], for [id] above the number of
    records it lies past the end, and in both cases the access is out of
    range, so the call has undefined behaviour instead of failing. *)
Theorem disposeCalculation_unknown_id (id : N) (c : OpenClContext)
    (Hid : is_size_t id) (Hcount : is_size_t (vec_size (disposed_ c)))
    (Hunknown : id = 0 \/ vec_size (disposed_ c) < id) :
  disposeCalculation id c = Undefined.
Proof.
  assert (disposed_ c !! N.to_nat (id -% 1) = Datatypes.None) as Hnone.
  { apply lookup_ge_None. unfold is_size_t, vec_size in *. rewrite modulus_value in *.
    destruct Hunknown as [-> | Hgt].
    - rewrite sub_1_zero. lia.
    - rewrite sub_1_pos by (unfold is_size_t; rewrite ?modulus_value; lia). lia. }
  unfold disposeCalculation. exec_unfold. ctx_simpl. rewrite Hnone. reflexivity.
Qed.

Lemma disposeCalculation_unknown_id_witness :
  disposeCalculation 0 fresh_context = Undefined /\
  disposeCalculation 2 (after started) = Undefined.
Proof.
  split.
  - apply (disposeCalculation_unknown_id 0 fresh_context); [reflexivity | reflexivity |].
    left. reflexivity.
  - apply (disposeCalculation_unknown_id 2 (after started)); [reflexivity | reflexivity |].
    right. vm_compute. reflexivity.
Defined.

(** ** [declareOutputVariable] *)

(** C6 (as amended).  In every non-idle state of a well-formed context,
    as long as the current calculation has no kernel yet,
    [declareOutputVariable(id)] succeeds for every [id], appends [id] to the
    output list, increments the current record's output count and changes
    nothing else, so the state stays as it is; once the kernel of the
    current calculation is cached (a repeat evaluation) the call fails and
    changes nothing. *)
Theorem declareOutputVariable_appends (id : N) (c : OpenClContext)
    (Hwf : wf c) (Hstate : currentState_ c <> idle) :
  exists hasKernel count,
    hasKernel_ c !! N.to_nat (currentId_ c -% 1) = Some hasKernel /\
    nOutputVars_ c !! N.to_nat (currentId_ c -% 1) = Some count /\
    declareOutputVariable id c
      = if hasKernel : bool
        then Thrown
               "OpenClContext::declareOutputVariable(): id has a kernel already, output variables can not be declared."
               c
        else Returned tt
               (set_nOutputVars_
                  (<[N.to_nat (currentId_ c -% 1) := count +% 1]> (nOutputVars_ c))
                  (set_outputVariables_ (outputVariables_ c ++ [id]) c)).
Proof.
  pose proof (wf_busy c Hwf Hstate) as Hpos.
  destruct (wf_lookup_hasKernel c Hwf Hpos) as [hasKernel HhasKernel].
  destruct (wf_lookup_nOutputVars c Hwf Hpos) as [count Hcount].
  exists hasKernel, count. split; [exact HhasKernel |]. split; [exact Hcount |].
  assert (ComputeState_eqb (currentState_ c) idle = false) as Hb.
  { destruct (currentState_ c); try reflexivity. exfalso. apply Hstate. reflexivity. }
  apply N.ltb_lt in Hpos.
  unfold declareOutputVariable. exec_unfold. ctx_simpl.
  run_with Hb. simpl negb. cbv iota. run_with Hpos. run_with HhasKernel.
  destruct hasKernel; simpl negb; cbv iota; [reflexivity |].
  ctx_simpl. run_with Hcount.
  apply lookup_lt_Some in Hcount. apply Nat.ltb_lt in Hcount. run_with Hcount.
  reflexivity.
Qed.

(** [wf] of a concrete context, by evaluation. *)
Ltac concrete_wf :=
  constructor; vm_compute;
  first [ reflexivity | intros; reflexivity | intros; discriminate ].

Lemma started_wf : wf (after started).
Proof. concrete_wf. Qed.

Lemma first_evaluation_wf : wf (after first_evaluation).
Proof. concrete_wf. Qed.

Lemma repeat_evaluation_wf : wf (after repeat_evaluation).
Proof. concrete_wf. Qed.

Lemma declareOutputVariable_appends_witness :
  exists hasKernel count,
    hasKernel_ (after started) !! N.to_nat (currentId_ (after started) -% 1)
      = Some hasKernel /\
    nOutputVars_ (after started) !! N.to_nat (currentId_ (after started) -% 1)
      = Some count /\
    declareOutputVariable 7 (after started)
      = if hasKernel : bool
        then Thrown
               "OpenClContext::declareOutputVariable(): id has a kernel already, output variables can not be declared."
               (after started)
        else Returned tt
               (set_nOutputVars_
                  (<[N.to_nat (currentId_ (after started) -% 1) := count +% 1]>
                     (nOutputVars_ (after started)))
                  (set_outputVariables_ (outputVariables_ (after started) ++ [7])
                     (after started))).
Proof.
  apply (declareOutputVariable_appends 7 (after started) started_wf).
  vm_compute. discriminate.
Defined.

(** C6, the claim as stated, fails.  A calculation that was finalised and
    is initiated again under the same id and version is in state
    [createInput] with its kernel cached; declaring an output then fails. *)
Lemma declareOutputVariable_cached_kernel_throws :
  perform_all repeat_evaluation fresh_context = Some (after repeat_evaluation) /\
  currentState_ (after repeat_evaluation) = createInput /\
  hasKernel_ (after repeat_evaluation) = [true] /\
  declareOutputVariable 1 (after repeat_evaluation)
    = Thrown
        "OpenClContext::declareOutputVariable(): id has a kernel already, output variables can not be declared."
        (after repeat_evaluation).
Proof. conjs; by_computation. Qed.

(** ** [init] and the health flag *)

Lemma runHealthCheckProgram_returns (source kernelName : string) (c : OpenClContext) :
  exists c', runHealthCheckProgram source kernelName c = Returned tt c'.
Proof. unfold runHealthCheckProgram. exec; eexists; reflexivity. Qed.

Lemma runHealthChecks_returns (c : OpenClContext) :
  exists c', runHealthChecks c = Returned tt c'.
Proof.
  unfold runHealthChecks, bind.
  repeat match goal with
         | |- context [runHealthCheckProgram ?s ?k ?c] =>
             let c' := fresh "c" in
             let H := fresh "H" in
             destruct (runHealthCheckProgram_returns s k c) as [c' H]; rewrite H
         end.
  eexists. reflexivity.
Qed.

(** The retry loop never throws and leaves the health flag alone. *)
Lemma createContextLoop_healthy (remaining : nat) (err : cl_int) (c : OpenClContext) :
  exists err' c',
    createContextLoop remaining err c = Returned err' c' /\ healthy_ c' = healthy_ c /\
    initialized_ c' = initialized_ c.
Proof.
  revert err c. induction remaining as [| remaining IH]; intros err c; simpl.
  - eexists _, _. split; [reflexivity | auto].
  - destruct (is_success err); [eexists _, _; split; [reflexivity | auto] |].
    exec_unfold. ctx_simpl.
    destruct (negb (is_success (next_reply c))); ctx_simpl.
    + match goal with |- context [createContextLoop remaining ?e ?s] =>
        destruct (IH e s) as (err' & c' & -> & Hh & Hi) end.
      eexists _, _. split; [reflexivity |]. rewrite Hh, Hi. ctx_simpl. auto.
    + match goal with |- context [createContextLoop remaining ?e ?s] =>
        destruct (IH e s) as (err' & c' & -> & Hh & Hi) end.
      eexists _, _. split; [reflexivity |]. rewrite Hh, Hi. ctx_simpl. auto.
Qed.

(** A failed [init] leaves the context unhealthy. *)
Lemma init_failure_unhealthy (err0 : cl_int) (c c' : OpenClContext) (what : string) :
  init err0 c = Thrown what c' -> healthy_ c' = false.
Proof.
  unfold init. unfold bind at 1. unfold get. unfold bind at 1.
  destruct (healthy_ c) eqn:Hhealthy; cbn [QL_REQUIRE ret throw].
  2: { intros H. inversion H; subst. exact Hhealthy. }
  destruct (initialized_ c); [discriminate |].
  unfold bind at 1. unfold modify at 1. unfold bind at 1. unfold modify at 1.
  unfold bind at 1.
  match goal with |- context [createContextLoop 10 err0 ?s] =>
    destruct (createContextLoop_healthy 10 err0 s) as (err & c1 & -> & Hh & _) end.
  ctx_simpl in Hh.
  exec_unfold. ctx_simpl.
  destruct (is_success err); ctx_simpl.
  2: { intros H. inversion H; subst. exact Hh. }
  destruct (is_success (next_reply c1)); ctx_simpl.
  2: { intros H. inversion H; subst. ctx_simpl. exact Hh. }
  match goal with |- context [runHealthChecks ?s] =>
    destruct (runHealthChecks_returns s) as [c2 ->] end.
  discriminate.
Qed.

(** C8 (as amended).  Once a context is marked unhealthy, every later
    [init()] fails and changes nothing.  The calculation interface does not
    consult the health flag: in particular [initiateCalculation] for a new
    calculation ([id = 0], [n > 0]) is accepted on an unhealthy context,
    which stays unhealthy. *)
Theorem unhealthy_context_rejects_init_only (c : OpenClContext)
    (Hunhealthy : healthy_ c = false) :
  (forall err0,
     init err0 c
       = Thrown
           "OpenClCOntext::init(): context is not healthy, check log for previous errors, aborting."
           c) /\
  (forall n version settings, 0 < n ->
     exists c',
       initiateCalculation n 0 version settings c
         = Returned (vec_size (hasKernel_ c ++ [false]), true) c' /\
       healthy_ c' = false /\ currentState_ c' = createInput).
Proof.
  split.
  - intros err0. unfold init. exec_unfold. ctx_simpl. rewrite Hunhealthy. reflexivity.
  - intros n version settings Hn.
    destruct (initiateCalculation_new n version settings c Hn)
      as (c' & Hret & Hh & _ & _ & _ & Hstate).
    exists c'. split; [exact Hret |]. split; [congruence | exact Hstate].
Qed.

Lemma unhealthy_context_rejects_init_only_witness :
  (forall err0,
     init err0 failed_init
       = Thrown
           "OpenClCOntext::init(): context is not healthy, check log for previous errors, aborting."
           failed_init) /\
  (forall n version settings, 0 < n ->
     exists c',
       initiateCalculation n 0 version settings failed_init
         = Returned (vec_size (hasKernel_ failed_init ++ [false]), true) c' /\
       healthy_ c' = false /\ currentState_ c' = createInput).
Proof.
  apply (unhealthy_context_rejects_init_only failed_init). by_computation.
Defined.

(** C8, the claim as stated, fails.  On a device that refuses every
    [clCreateContext], [init] throws and leaves the context unhealthy; a
    following [initiateCalculation] nevertheless returns a new calculation
    id and moves the context to [createInput]. *)
Lemma initiateCalculation_on_unhealthy_context_returns :
  init (-1)%Z refusing_device
    = Thrown "OpenClContext::OpenClContext(): error during clCreateContext(): " failed_init /\
  healthy_ failed_init = false /\
  initiateCalculation 4 0 0 single_precision failed_init
    = Returned (1, true) (after_from failed_init started) /\
  currentState_ (after_from failed_init started) = createInput /\
  healthy_ (after_from failed_init started) = false.
Proof. conjs; by_computation. Qed.

(** ** [finalizeCalculation] *)

(** The guard's destructor leaves the state machine idle. *)
Lemma release_all_state (mem : list cl_handle) (c : OpenClContext) :
  currentState_ (fold_left (fun c m => answered (clReleaseMemObject m) c) mem c)
    = currentState_ c.
Proof.
  revert c. induction mem as [| m mem IH]; intros c; simpl; [reflexivity |].
  rewrite IH. reflexivity.
Qed.

Lemma exitGuard_dtor_idle (f : Frame) : currentState_ (exitGuard_dtor f) = idle.
Proof. unfold exitGuard_dtor. rewrite release_all_state. reflexivity. Qed.

Ltac trivial_side := idtac; cbv beta; exact I.

(** No loop of [finalizeCalculation] depends on fuel. *)
Lemma buildKernel_fuel_free (inputBufferSize outputBufferSize : N) :
  preserves True False (fun _ => True) (buildKernel inputBufferSize outputBufferSize).
Proof.
  unfold buildKernel, outputName. holds_steps trivial_side.
Qed.

Lemma finalizeCalculation_body_fuel_free (output : list N) :
  preserves True False (on_frame (fun _ => True)) (finalizeCalculation_body output).
Proof.
  unfold finalizeCalculation_body, readBack.
  holds_steps trivial_side.
  all: try apply (buildKernel_fuel_free _ _).
Qed.

Lemma in_indices (n x : N) : In x (indices n) -> x < n.
Proof.
  unfold indices. rewrite in_map_iff. intros (i & <- & Hi). apply in_seq in Hi. lia.
Qed.

Lemma finalizing_refl (c : OpenClContext) : finalizing c c.
Proof. constructor; reflexivity. Qed.

Lemma finalizing_wf (c0 s : OpenClContext) : wf c0 -> finalizing c0 s -> wf s.
Proof.
  intros H0 Hs. constructor; unfold vec_size.
  - rewrite (fin_size _ _ Hs), (fin_hasKernel _ _ Hs). apply H0.
  - rewrite (fin_disposed _ _ Hs), (fin_hasKernel _ _ Hs). apply H0.
  - rewrite (fin_version _ _ Hs), (fin_hasKernel _ _ Hs). apply H0.
  - rewrite (fin_program _ _ Hs), (fin_hasKernel _ _ Hs). apply H0.
  - rewrite (fin_kernel _ _ Hs), (fin_hasKernel _ _ Hs). apply H0.
  - rewrite (fin_inputBufferSize _ _ Hs), (fin_hasKernel _ _ Hs). apply H0.
  - rewrite (fin_nOutputVars _ _ Hs), (fin_hasKernel _ _ Hs). apply H0.
  - rewrite (fin_currentId _ _ Hs), (fin_hasKernel _ _ Hs). apply H0.
  - rewrite (fin_currentId _ _ Hs), (fin_currentState _ _ Hs). apply H0.
  - rewrite (fin_inputVarIsScalar _ _ Hs), (fin_inputVarOffset _ _ Hs). apply H0.
  - rewrite (fin_variatesPoolSize _ _ Hs). apply H0.
  - rewrite (fin_nVars _ _ Hs). apply H0.
  - rewrite (fin_nVariates _ _ Hs). apply H0.
Qed.

(** An access at the index of the current calculation is in range. *)
Lemma current_lookup_defined {A : Type} (c : OpenClContext) (v : list A) :
  wf c -> (0 <? currentId_ c) = true -> length v = length (hasKernel_ c) ->
  v !! N.to_nat (currentId_ c -% 1) = Datatypes.None -> False.
Proof.
  intros Hwf Hpos Hlen Hnone. apply N.ltb_lt in Hpos.
  pose proof (wf_index c Hwf Hpos) as Hi.
  apply lookup_ge_None in Hnone. lia.
Qed.

Lemma current_update_defined {A : Type} (c : OpenClContext) (v : list A) :
  wf c -> (0 <? currentId_ c) = true -> length v = length (hasKernel_ c) ->
  (length v <= N.to_nat (currentId_ c -% 1))%nat -> False.
Proof.
  intros Hwf Hpos Hlen Hle. apply N.ltb_lt in Hpos.
  pose proof (wf_index c Hwf Hpos) as Hi. lia.
Qed.

Lemma input_lookup_defined (c : OpenClContext) (arg : N) :
  wf c -> (arg <? vec_size (inputVarOffset_ c)) = true ->
  (inputVarOffset_ c !! N.to_nat arg = Datatypes.None -> False) /\
  (inputVarIsScalar_ c !! N.to_nat arg = Datatypes.None -> False).
Proof.
  intros Hwf Hlt. apply N.ltb_lt in Hlt. unfold vec_size in Hlt.
  pose proof (wf_inputs c Hwf) as Hlen.
  split; intros Hnone; apply lookup_ge_None in Hnone; lia.
Qed.

Lemma last_input_defined (c : OpenClContext) (x : N) (l : list N) :
  wf c -> inputVarOffset_ c = x :: l -> inputVarIsScalar_ c = [] -> False.
Proof.
  intros Hwf Hoffsets Hflags. pose proof (wf_inputs c Hwf) as Hlen.
  rewrite Hoffsets, Hflags in Hlen. discriminate.
Qed.

Ltac finalizing_goal :=
  lazymatch goal with
  | |- finalizing _ _ =>
      repeat match goal with H : finalizing _ _ |- _ => destruct H end;
      constructor; ctx_simpl; rewrite ?length_insert; congruence
  | |- on_frame _ _ => unfold on_frame in *; ctx_simpl; try assumption
  end.

(** The length of a per-calculation vector of a well-formed context. *)
Ltac per_calculation_length Hwf :=
  first [ reflexivity | apply (wf_size _ Hwf) | apply (wf_disposed _ Hwf)
        | apply (wf_version _ Hwf) | apply (wf_program _ Hwf) | apply (wf_kernel _ Hwf)
        | apply (wf_inputBufferSize _ Hwf) | apply (wf_nOutputVars _ Hwf) ].

(** Shows that an access the code makes is in range, from the invariants
    at hand. *)
Ltac defined_goal :=
  match goal with
  | Hc : finalizing ?c0 ?c, Hwf0 : wf ?c0, Hpos : (0 <? currentId_ ?c0) = true |- False =>
      let Hwf := fresh "Hwf" in
      pose proof (finalizing_wf c0 c Hwf0 Hc) as Hwf;
      let Hpos' := fresh "Hpos" in
      assert ((0 <? currentId_ c) = true) as Hpos'
        by (first [exact Hpos | rewrite (fin_currentId c0 c Hc); exact Hpos]);
      try rewrite <- (fin_currentId c0 c Hc) in *;
      lazymatch goal with
      | H : ?v !! N.to_nat (currentId_ c -% 1) = Datatypes.None |- _ =>
          apply (current_lookup_defined c v Hwf Hpos'); [per_calculation_length Hwf | exact H]
      | H : (length ?v <= N.to_nat (currentId_ c -% 1))%nat |- _ =>
          apply (current_update_defined c v Hwf Hpos'); [per_calculation_length Hwf | exact H]
      | H : inputVarIsScalar_ c !! N.to_nat ?a = Datatypes.None,
        Hlt : (?a <? vec_size (inputVarOffset_ c)) = true |- _ =>
          apply (proj2 (input_lookup_defined c a Hwf Hlt)); exact H
      | H : inputVarOffset_ c !! N.to_nat ?a = Datatypes.None,
        Hlt : (?a <? vec_size (inputVarOffset_ c)) = true |- _ =>
          apply (proj1 (input_lookup_defined c a Hwf Hlt)); exact H
      | H : inputVarIsScalar_ c = [], Ho : inputVarOffset_ c = _ :: _ |- _ =>
          apply (last_input_defined c _ _ Hwf Ho H)
      end
  end.

Ltac fin_side :=
  idtac;
  cbv beta;
  try exact I;
  try assumption;
  try (match goal with H : _ :: _ = [] |- _ => discriminate H end);
  try (solve [finalizing_goal | defined_goal]).

Lemma buildKernel_defined (c0 : OpenClContext) (inputBufferSize outputBufferSize : N)
    (Hwf0 : wf c0) (Hpos : (0 <? currentId_ c0) = true)
    (Hbound : forall count,
        nOutputVars_ c0 !! N.to_nat (currentId_ c0 -% 1) = Some count ->
        count <= vec_size (outputVariables_ c0)) :
  preserves False False (finalizing c0) (buildKernel inputBufferSize outputBufferSize).
Proof.
  unfold buildKernel, outputName.
  holds_steps fin_side.
  (* the output list covers every declared output *)
  match goal with
  | Hc : finalizing c0 ?c, Hcount : nOutputVars_ ?c !! _ = Some ?count,
    Hin : In ?x (indices ?count), Hnone : outputVariables_ ?c !! _ = Datatypes.None |- _ =>
      rewrite (fin_nOutputVars c0 c Hc), (fin_currentId c0 c Hc) in Hcount;
      apply Hbound in Hcount; apply in_indices in Hin;
      rewrite (fin_outputVariables c0 c Hc) in Hnone;
      apply lookup_ge_None in Hnone; unfold vec_size in Hcount; lia
  end.
Qed.

Lemma div_wrapped_le (size a : N) : (size *% a) / size <= a.
Proof.
  destruct (N.eq_dec size 0) as [-> | Hsize].
  - rewrite N.div_0_r. lia.
  - unfold SizeT.mul, SizeT.wrap.
    transitivity ((size * a) / size).
    + apply N.Div0.div_le_mono. apply N.Div0.mod_le.
    + rewrite N.mul_comm, N.div_mul by exact Hsize. lia.
Qed.

(** The size of the input buffer, as [finalizeCalculation] derives it from
    the last input descriptor. *)
Lemma holds_inputBufferSize {St : Type} (ub oof : Prop) (P E : St -> Prop)
    (c : OpenClContext) :
  wf c -> (0 <? currentId_ c) = true ->
  holds ub oof P
    (match inputVarOffset_ c with
     | [] => ret 0
     | _ :: _ =>
         lastOffset <- vec_back (inputVarOffset_ c) ;;
         lastIsScalar <- vec_back (inputVarIsScalar_ c) ;;
         width <- (if lastIsScalar : bool then ret 1
                   else vec_get (size_ c) (currentId_ c -% 1)) ;;
         ret (lastOffset +% width)
     end)
    (fun a s =>
       P s /\
       forall n, size_ c !! N.to_nat (currentId_ c -% 1) = Some n ->
         a = following_offset n (inputVarOffset_ c) (inputVarIsScalar_ c))
    E.
Proof.
  intros Hwf Hpos s Hs.
  pose proof (wf_inputs c Hwf) as Hlen.
  unfold following_offset.
  destruct (inputVarOffset_ c) as [| o offsets] eqn:Hoffsets.
  - split; [exact Hs | reflexivity].
  - unfold bind, vec_back, vec_get, ret. rewrite <- Hoffsets in *.
    destruct (last (inputVarOffset_ c)) as [lastOffset |] eqn:Hlast;
      [| apply last_None in Hlast; rewrite Hlast in Hoffsets; discriminate].
    destruct (last (inputVarIsScalar_ c)) as [lastIsScalar |] eqn:Hflag;
      [| apply last_None in Hflag; rewrite Hflag, Hoffsets in Hlen; discriminate].
    destruct lastIsScalar.
    + split; [exact Hs | reflexivity].
    + destruct (size_ c !! N.to_nat (currentId_ c -% 1)) as [n |] eqn:Hn.
      * split; [exact Hs |]. intros n' Hn'. injection Hn' as <-. reflexivity.
      * exfalso. apply (current_lookup_defined c (size_ c) Hwf Hpos (wf_size c Hwf) Hn).
Qed.

(** The value vector covers what the device reads from it. *)
Lemma host_read_defined (c : OpenClContext) (a : N) :
  wf c -> (0 <? currentId_ c) = true -> inputs_stored c ->
  (forall n, size_ c !! N.to_nat (currentId_ c -% 1) = Some n ->
     a = following_offset n (inputVarOffset_ c) (inputVarIsScalar_ c)) ->
  (0 <? a) = true ->
  0 < values_stored c /\ (fpSize_of (settings_ c) *% a) / fpSize_of (settings_ c) <= values_stored c.
Proof.
  intros Hwf Hpos Hstored Ha Hsome. apply N.ltb_lt in Hsome.
  destruct (size_ c !! N.to_nat (currentId_ c -% 1)) as [n |] eqn:Hn;
    [| exfalso; apply (current_lookup_defined c (size_ c) Hwf Hpos (wf_size c Hwf) Hn)].
  specialize (Hstored n Hn). rewrite <- (Ha n eq_refl) in Hstored.
  split; [lia |].
  pose proof (div_wrapped_le (fpSize_of (settings_ c)) a). lia.
Qed.

(** The size of the input buffer is computed once and remembered. *)
Ltac input_size_step :=
  lazymatch goal with
  | |- holds _ _ _ (bind (match inputVarOffset_ _ with [] => _ | _ :: _ => _ end) _) _ _ =>
      eapply holds_seq;
      [ apply holds_inputBufferSize; assumption
      | intros ?; cbv beta; apply holds_pure; intros ? ]
  end.

(** Shows that the read of the input values is in range. *)
Ltac stored_goal :=
  match goal with
  | Hwf : wf ?c, Hpos : (0 <? currentId_ ?c) = true, Hstored : inputs_stored ?c,
    Hsize : (forall n, size_ ?c !! _ = Some n -> ?a = following_offset _ _ _),
    Hsome : (0 <? ?a) = true,
    Hprecision : useDoublePrecision (settings_ ?c) = _,
    Hshort : _ \/ _ |- False =>
      let H := fresh in
      pose proof (host_read_defined c a Hwf Hpos Hstored Hsize Hsome) as H;
      unfold values_stored, fpSize_of in H, Hshort;
      rewrite Hprecision in H, Hshort;
      destruct H; destruct Hshort; lia
  end.

(** On a safe context the body of [finalizeCalculation] returns or throws,
    and all along it changes nothing but what [finalizing] lets change. *)
Lemma finalizeCalculation_body_defined (output : list N) (c0 : OpenClContext)
    (Hsafe : finalize_safe c0) :
  holds False False (on_frame (fun s => s = c0)) (finalizeCalculation_body output)
    (fun _ => on_frame (finalizing c0)) (on_frame (finalizing c0)).
Proof.
  destruct Hsafe as (Hwf0 & Hbound & Hstored).
  pose proof (finalizing_refl c0) as Hrefl.
  unfold finalizeCalculation_body, readBack.
  apply holds_bind_on_this_get. intros c ->.
  apply (holds_consequence False False _ _
           (on_frame (finalizing c0)) (on_frame (finalizing c0)) _ _
           (fun _ => on_frame (finalizing c0)));
    [| intros s Hs; unfold on_frame in *; rewrite Hs; exact Hrefl | auto | auto].
  repeat first [ input_size_step | holds_step ltac:(idtac; fin_side; try stored_goal) ].
  (* the kernel is built only when none is cached *)
  apply buildKernel_defined; try assumption.
  intros count Hcount.
  match goal with
  | Hk : hasKernel_ c0 !! _ = Some ?b, Hb : negb ?b = true |- _ =>
      destruct b; [discriminate Hb | exact (Hbound count Hk Hcount)]
  end.
Qed.

(** C3.  Every call to [finalizeCalculation] that returns, and every call
    that throws (whatever the failing check or device call), leaves the
    state machine in [idle]: the exit guard is constructed before anything
    else and its destructor runs on every way out.  The call never depends
    on fuel, and its behaviour is defined on every safe context. *)
Theorem finalizeCalculation_leaves_idle (output : list N) (c : OpenClContext) :
  match finalizeCalculation output c with
  | Returned _ c' => currentState_ c' = idle
  | Thrown _ c' => currentState_ c' = idle
  | Undefined => ~ finalize_safe c
  | OutOfFuel => False
  end.
Proof.
  unfold finalizeCalculation.
  pose proof (finalizeCalculation_body_fuel_free output {| this := c; guard_mem := [] |} I)
    as Hfuel.
  destruct (finalizeCalculation_body output {| this := c; guard_mem := [] |})
    as [a f | what f | |] eqn:Hbody.
  - apply exitGuard_dtor_idle.
  - apply exitGuard_dtor_idle.
  - intros Hsafe.
    pose proof (finalizeCalculation_body_defined output c Hsafe
                  {| this := c; guard_mem := [] |} eq_refl) as Hdefined.
    rewrite Hbody in Hdefined. exact Hdefined.
  - exact Hfuel.
Qed.

(** The same, as a statement about a safe context: the call returns or
    throws, and the state is [idle] afterwards. *)
Lemma finalizeCalculation_safe (output : list N) (c : OpenClContext) :
  finalize_safe c ->
  exists c',
    currentState_ c' = idle /\
    (finalizeCalculation output c = Returned tt c' \/
     exists what, finalizeCalculation output c = Thrown what c').
Proof.
  intros Hsafe.
  pose proof (finalizeCalculation_body_defined output c Hsafe
                {| this := c; guard_mem := [] |} eq_refl) as Hdefined.
  unfold finalizeCalculation.
  destruct (finalizeCalculation_body output {| this := c; guard_mem := [] |})
    as [[] f | what f | |]; try contradiction.
  - exists (exitGuard_dtor f). split; [apply exitGuard_dtor_idle | left; reflexivity].
  - exists (exitGuard_dtor f). split; [apply exitGuard_dtor_idle | right; eauto].
Qed.

(** ** [applyOperation] *)

Lemma argName_resolves (c s : OpenClContext) (n arg : N) :
  wf c -> size_ c !! N.to_nat (currentId_ c -% 1) = Some n ->
  exists text, argName c arg s = Returned text s /\ resolves c n arg text.
Proof.
  intros Hwf Hsize. unfold argName.
  destruct (arg <? vec_size (inputVarOffset_ c)) eqn:Hinput.
  - destruct (input_lookup_defined c arg Hwf Hinput) as [Hoffset Hflag].
    apply N.ltb_lt in Hinput. exec_unfold.
    destruct (inputVarOffset_ c !! N.to_nat arg) as [offset |] eqn:Eo; [| contradiction Hoffset; reflexivity].
    destruct (inputVarIsScalar_ c !! N.to_nat arg) as [[] |] eqn:Ef; [| | contradiction Hflag; reflexivity].
    + eexists. split; [reflexivity |]. apply resolves_scalar; assumption.
    + eexists. split; [reflexivity |]. apply resolves_vector; assumption.
  - apply N.ltb_ge in Hinput.
    destruct (arg <? vec_size (inputVarOffset_ c) +% nVariates_ c) eqn:Hvariate.
    + apply N.ltb_lt in Hvariate. exec_unfold. rewrite Hsize.
      eexists. split; [reflexivity |]. apply resolves_variate; assumption.
    + apply N.ltb_ge in Hvariate. exec_unfold.
      eexists. split; [reflexivity |]. apply resolves_intermediate; assumption.
Qed.

Lemma mapM_argName_resolves (c s : OpenClContext) (n : N) (args : list N) :
  wf c -> size_ c !! N.to_nat (currentId_ c -% 1) = Some n ->
  exists argStr,
    mapM (argName c) args s = Returned argStr s /\ Forall2 (resolves c n) args argStr.
Proof.
  intros Hwf Hsize. induction args as [| arg args IH]; simpl.
  - exists []. split; [reflexivity | constructor].
  - destruct (argName_resolves c s n arg Hwf Hsize) as (text & Htext & Hres).
    destruct IH as (argStr & Hargs & Hall).
    exists (text :: argStr). unfold bind. rewrite Htext, Hargs.
    split; [reflexivity | constructor; assumption].
Qed.

Lemma opExpression_table (op : RandomVariableOpCode.t) (argStr : list string)
    (s : OpenClContext) :
  supported op = true -> (arity op <= length argStr)%nat ->
  opExpression op argStr s
    = Returned (table_rhs op (first_arg argStr) (second_arg argStr)) s.
Proof.
  intros Hop Harity. unfold first_arg, second_arg.
  destruct op; try discriminate Hop; simpl in Harity;
    destruct argStr as [| a [| b rest]]; simpl in Harity; try lia; reflexivity.
Qed.

Lemma not_idle_check (st : ComputeState) :
  st <> idle ->
  ComputeState_eqb st createInput || ComputeState_eqb st createVariates
    || ComputeState_eqb st calc = true.
Proof. destruct st; intros H; try reflexivity. exfalso. apply H. reflexivity. Qed.

(** C1 (as amended).  On a well-formed context in a non-idle state whose
    current calculation has no kernel yet, [applyOperation] with a supported
    opcode and at least as many arguments as the opcode reads returns, moves
    to [calc] and appends exactly one line to the SSA text.  If the free
    list is non-empty the result id is its last element, which is removed,
    and the line carries no type prefix: ["  v<id> = <rhs>"]; otherwise the
    result id is the previous [nVars_], [nVars_] is incremented, and the line
    reads ["  <T> v<id> = <rhs>"] with [<T>] being [double] or [float] as the
    settings say.  [<rhs>] is the entry of the opcode table over the resolved
    arguments, closing semicolon included; for the reserved opcode [None]
    it is empty. *)
Theorem applyOperation_emits_one_line (op : RandomVariableOpCode.t) (args : list N)
    (c : OpenClContext)
    (Hwf : wf c) (Hstate : currentState_ c <> idle)
    (Hkernel : hasKernel_ c !! N.to_nat (currentId_ c -% 1) = Some false)
    (Hop : supported op = true) (Harity : (arity op <= length args)%nat) :
  exists (resultId : N) (c' : OpenClContext) (argStr : list string) (n : N),
    applyOperation op args c = Returned resultId c' /\
    currentState_ c' = calc /\
    size_ c !! N.to_nat (currentId_ c -% 1) = Some n /\
    Forall2 (resolves c n) args argStr /\
    (forall rest back, freedVariables_ c = rest ++ [back] ->
       resultId = back /\ freedVariables_ c' = rest /\ nVars_ c' = nVars_ c /\
       currentSsa_ c'
         = currentSsa_ c +:+ "  "
             +:+ ((EmptyString +:+ "v" +:+ SizeT.to_string resultId +:+ " = ")
                    +:+ table_rhs op (first_arg argStr) (second_arg argStr))
             +:+ newline) /\
    (freedVariables_ c = [] ->
       resultId = nVars_ c /\ freedVariables_ c' = [] /\ nVars_ c' = nVars_ c +% 1 /\
       currentSsa_ c'
         = currentSsa_ c +:+ "  "
             +:+ (((fpTypeStr_of (settings_ c) +:+ " ") +:+ "v"
                     +:+ SizeT.to_string resultId +:+ " = ")
                    +:+ table_rhs op (first_arg argStr) (second_arg argStr))
             +:+ newline).
Proof.
  pose proof (wf_busy c Hwf Hstate) as Hpos.
  destruct (wf_lookup_size c Hwf Hpos) as [n Hsize].
  apply N.ltb_lt in Hpos. apply not_idle_check in Hstate.
  unfold applyOperation. unfold bind at 1. unfold get. unfold bind at 1.
  rewrite Hstate. cbn [QL_REQUIRE ret].
  unfold bind at 1. unfold modify at 1. unfold bind at 1.
  rewrite Hpos. cbn [QL_REQUIRE ret].
  unfold bind at 1. unfold vec_get at 1. rewrite Hkernel. cbn [ret].
  unfold bind at 1. cbn [negb QL_REQUIRE ret].
  unfold bind at 1.
  destruct (last (freedVariables_ c)) as [back |] eqn:Hlast.
  - (* a freed id is recycled *)
    unfold bind at 1. unfold modify at 1. cbn [ret]. cbv beta iota.
    unfold bind at 1.
    match goal with |- context [mapM (argName c) args ?s] =>
      destruct (mapM_argName_resolves c s n args Hwf Hsize) as (argStr & -> & Hall) end.
    unfold bind at 1.
    rewrite opExpression_table
      by (try assumption; rewrite <- (Forall2_length _ _ _ Hall); assumption).
    unfold bind at 1. unfold modify at 1.
    unfold bind, vec_get, ret, modify. rewrite ?Hsize.
    destruct (debug (settings_ c)).
    all: exists back; eexists; exists argStr, n.
    all: split; [reflexivity |].
    all: split; [reflexivity |].
    all: split; [first [exact Hsize | reflexivity] |]; split; [exact Hall |].
    all: split; [intros rest back' Hfreed | intros Hempty].
    all: try (rewrite Hempty in Hlast; discriminate Hlast).
    all: rewrite Hfreed in Hlast; rewrite last_snoc in Hlast; injection Hlast as <-.
    all: split; [reflexivity |].
    all: split; [ctx_simpl; rewrite Hfreed; apply removelast_last |].
    all: split; reflexivity.
  - (* a new id is declared *)
    apply last_None in Hlast.
    unfold post_increment_nVars. unfold bind at 1. unfold bind at 1. unfold get.
    unfold bind at 1. unfold modify at 1. cbn [ret]. cbv beta iota.
    unfold bind at 1.
    match goal with |- context [mapM (argName c) args ?s] =>
      destruct (mapM_argName_resolves c s n args Hwf Hsize) as (argStr & -> & Hall) end.
    unfold bind at 1.
    rewrite opExpression_table
      by (try assumption; rewrite <- (Forall2_length _ _ _ Hall); assumption).
    unfold bind at 1. unfold modify at 1.
    unfold bind, vec_get, ret, modify. rewrite ?Hsize.
    destruct (debug (settings_ c)).
    all: exists (nVars_ c); eexists; exists argStr, n.
    all: split; [reflexivity |].
    all: split; [reflexivity |].
    all: split; [first [exact Hsize | reflexivity] |]; split; [exact Hall |].
    all: split; [intros rest back Hfreed | intros _].
    all: try (rewrite Hlast in Hfreed; destruct rest; discriminate Hfreed).
    all: split; [reflexivity |].
    all: split; [ctx_simpl; exact Hlast |].
    all: split; reflexivity.
Qed.

Lemma applyOperation_emits_one_line_witness :
  exists (resultId : N) (c' : OpenClContext) (argStr : list string) (n : N),
    applyOperation RandomVariableOpCode.Add [0; 1] (after first_evaluation)
      = Returned resultId c' /\
    currentState_ c' = calc /\
    size_ (after first_evaluation)
      !! N.to_nat (currentId_ (after first_evaluation) -% 1) = Some n /\
    Forall2 (resolves (after first_evaluation) n) [0; 1] argStr /\
    (forall rest back, freedVariables_ (after first_evaluation) = rest ++ [back] ->
       resultId = back /\ freedVariables_ c' = rest /\
       nVars_ c' = nVars_ (after first_evaluation) /\
       currentSsa_ c'
         = currentSsa_ (after first_evaluation) +:+ "  "
             +:+ ((EmptyString +:+ "v" +:+ SizeT.to_string resultId +:+ " = ")
                    +:+ table_rhs RandomVariableOpCode.Add
                          (first_arg argStr) (second_arg argStr))
             +:+ newline) /\
    (freedVariables_ (after first_evaluation) = [] ->
       resultId = nVars_ (after first_evaluation) /\ freedVariables_ c' = [] /\
       nVars_ c' = nVars_ (after first_evaluation) +% 1 /\
       currentSsa_ c'
         = currentSsa_ (after first_evaluation) +:+ "  "
             +:+ (((fpTypeStr_of (settings_ (after first_evaluation)) +:+ " ") +:+ "v"
                     +:+ SizeT.to_string resultId +:+ " = ")
                    +:+ table_rhs RandomVariableOpCode.Add
                          (first_arg argStr) (second_arg argStr))
             +:+ newline).
Proof.
  apply (applyOperation_emits_one_line RandomVariableOpCode.Add [0; 1]
           (after first_evaluation) first_evaluation_wf).
  - vm_compute. discriminate.
  - vm_compute. reflexivity.
  - reflexivity.
  - simpl. lia.
Defined.

(** C1, the claim as stated, fails.  After a finalised evaluation the
    calculation is initiated again under the same id and version: the state
    is [createInput], the opcode [Add] is in the table, and yet the call
    throws: no id is returned and nothing but the state changes. *)
Lemma applyOperation_cached_kernel_throws :
  perform_all repeat_evaluation fresh_context = Some (after repeat_evaluation) /\
  currentState_ (after repeat_evaluation) = createInput /\
  supported RandomVariableOpCode.Add = true /\
  applyOperation RandomVariableOpCode.Add [0; 1] (after repeat_evaluation)
    = Thrown "OpenClContext::applyOperation(): id has a kernel already."
        (set_currentState_ calc (after repeat_evaluation)).
Proof. conjs; by_computation. Qed.

(** ** [createInputVariable]: the layout of the input buffer *)

Lemma offsets_chained_nil (n : N) : offsets_chained n [] [].
Proof.
  split; [reflexivity |]. split; intros; discriminate.
Qed.

Lemma offsets_chained_snoc (n : N) (offsets : list N) (isScalar : list bool) (s : bool) :
  offsets_chained n offsets isScalar ->
  offsets_chained n (offsets ++ [following_offset n offsets isScalar]) (isScalar ++ [s]).
Proof.
  intros (Hlen & Hfirst & Hchain). split; [| split].
  - rewrite !length_app, Hlen. reflexivity.
  - intros o Ho. destruct offsets as [| o0 offsets'].
    + simpl in Ho. injection Ho as <-. reflexivity.
    + simpl in Ho. apply Hfirst. simpl. exact Ho.
  - intros k o o' s' Ho Hs Ho'.
    assert (S k < length (offsets ++ [following_offset n offsets isScalar]))%nat as Hk
      by (apply lookup_lt_is_Some; eauto).
    rewrite length_app in Hk. simpl in Hk.
    assert (k < length offsets)%nat as Hk' by lia.
    rewrite lookup_app_l in Ho by exact Hk'.
    rewrite lookup_app_l in Hs by (rewrite Hlen; exact Hk').
    destruct (decide (S k < length offsets)%nat) as [Hin | Hout].
    + rewrite lookup_app_l in Ho' by exact Hin. eapply Hchain; eassumption.
    + assert (S k = length offsets) as Hlast by lia.
      rewrite lookup_app_r in Ho' by lia.
      replace (S k - length offsets)%nat with 0%nat in Ho' by lia.
      simpl in Ho'. injection Ho' as <-.
      unfold following_offset. rewrite !last_lookup.
      rewrite Hlen. replace (pred (length offsets)) with k by lia.
      rewrite Ho, Hs. reflexivity.
Qed.

(** [nextInputOffset] reads the context and leaves it as it is. *)
Lemma nextInputOffset_following (n : N) (c : OpenClContext) :
  size_ c !! N.to_nat (currentId_ c -% 1) = Some n ->
  length (inputVarIsScalar_ c) = length (inputVarOffset_ c) ->
  nextInputOffset c
    = Returned (following_offset n (inputVarOffset_ c) (inputVarIsScalar_ c)) c.
Proof.
  intros Hsize Hlen. unfold nextInputOffset, following_offset.
  unfold bind at 1. unfold get.
  destruct (inputVarOffset_ c) as [| o offsets] eqn:Hoffsets; [reflexivity |].
  destruct (last (o :: offsets)) as [lo |] eqn:Hlo;
    [| apply last_None in Hlo; discriminate Hlo].
  destruct (last (inputVarIsScalar_ c)) as [ls |] eqn:Hls;
    [| apply last_None in Hls; rewrite Hls in Hlen; discriminate Hlen].
  unfold vec_back, bind, ret, vec_get. rewrite Hlo, Hls.
  destruct ls; [reflexivity |]. rewrite Hsize. reflexivity.
Qed.

Lemma push_input_values_descriptors (v : N -> double) (l : list N) (c : OpenClContext) :
  exists c',
    forM l (fun i _ => push_input_value (v i)) tt c = Returned tt c' /\
    same_descriptors c c'.
Proof.
  revert c. induction l as [| i l IH]; intros c; simpl.
  - exists c. split; [reflexivity |]. repeat split.
  - unfold bind. unfold push_input_value at 1. unfold modify.
    match goal with |- context [forM l _ tt ?s] => destruct (IH s) as (c' & -> & Hsame) end.
    exists c'. split; [reflexivity |].
    destruct Hsame as (H1 & H2 & H3 & H4 & H5 & H6).
    destruct (useDoublePrecision (settings_ c)); ctx_simpl in H1; ctx_simpl in H2;
      ctx_simpl in H3; ctx_simpl in H4; ctx_simpl in H5; ctx_simpl in H6;
      repeat split; assumption.
Qed.

(** One call: it returns the next variable id and appends one descriptor. *)
Lemma createInputVariable_appends (n : N) (x : InputValue) (c : OpenClContext) :
  currentState_ c = createInput ->
  size_ c !! N.to_nat (currentId_ c -% 1) = Some n ->
  length (inputVarIsScalar_ c) = length (inputVarOffset_ c) ->
  exists c',
    createInputVariable x c = Returned (nVars_ c) c' /\
    currentState_ c' = createInput /\ size_ c' = size_ c /\
    currentId_ c' = currentId_ c /\ nVars_ c' = nVars_ c +% 1 /\
    inputVarOffset_ c'
      = inputVarOffset_ c ++ [following_offset n (inputVarOffset_ c) (inputVarIsScalar_ c)] /\
    inputVarIsScalar_ c' = inputVarIsScalar_ c ++ [is_scalar x].
Proof.
  intros Hstate Hsize Hlen.
  destruct x as [v | v]; simpl.
  - unfold createInputVariable_scalar. unfold bind at 1. unfold get.
    rewrite Hstate. cbn [ComputeState_eqb QL_REQUIRE]. unfold bind at 1. unfold ret at 1.
    unfold bind at 1. rewrite (nextInputOffset_following n c Hsize Hlen).
    unfold post_increment_nVars, push_input_value, bind, modify, get, ret.
    ctx_simpl.
    destruct (useDoublePrecision (settings_ c)); ctx_simpl;
      (eexists; split; [reflexivity |]; ctx_simpl; auto 10).
  - unfold createInputVariable_vector. unfold bind at 1. unfold get.
    rewrite Hstate. cbn [ComputeState_eqb QL_REQUIRE]. unfold bind at 1. unfold ret at 1.
    unfold bind at 1. rewrite (nextInputOffset_following n c Hsize Hlen).
    unfold bind at 1. unfold modify at 1. unfold bind at 1. unfold modify at 1.
    unfold bind at 1. unfold vec_get. rewrite Hsize. unfold ret at 1.
    unfold bind at 1.
    match goal with |- context [forM ?l _ tt ?s] =>
      destruct (push_input_values_descriptors v l s) as (c' & -> & Hsame) end.
    destruct Hsame as (H1 & H2 & H3 & H4 & H5 & H6).
    ctx_simpl in H1. ctx_simpl in H2. ctx_simpl in H3. ctx_simpl in H4.
    ctx_simpl in H5. ctx_simpl in H6.
    unfold post_increment_nVars, bind, modify, get, ret.
    eexists. split; [rewrite H4; reflexivity |]. ctx_simpl.
    rewrite H1, H2, H3, H5, H6. auto 10.
Qed.

(** Any number of calls keeps the offsets chained. *)
Lemma createInputVariables_chained (n : N) (xs : list InputValue) (c : OpenClContext) :
  currentState_ c = createInput ->
  size_ c !! N.to_nat (currentId_ c -% 1) = Some n ->
  offsets_chained n (inputVarOffset_ c) (inputVarIsScalar_ c) ->
  exists ids c',
    createInputVariables xs c = Returned ids c' /\
    currentState_ c' = createInput /\
    offsets_chained n (inputVarOffset_ c') (inputVarIsScalar_ c') /\
    inputVarIsScalar_ c' = inputVarIsScalar_ c ++ map is_scalar xs.
Proof.
  revert c. induction xs as [| x xs IH]; intros c Hstate Hsize Hchained.
  - exists [], c. split; [reflexivity |]. rewrite app_nil_r. auto.
  - destruct (createInputVariable_appends n x c Hstate Hsize (proj1 Hchained))
      as (c1 & Hrun & Hstate1 & Hsize1 & Hid1 & _ & Hoffsets1 & Hflags1).
    destruct (IH c1) as (ids & c' & Hrest & Hstate' & Hchained' & Hflags').
    + exact Hstate1.
    + rewrite Hsize1, Hid1. exact Hsize.
    + rewrite Hoffsets1, Hflags1. apply offsets_chained_snoc. exact Hchained.
    + exists (nVars_ c :: ids), c'.
      unfold createInputVariables in *. simpl. unfold bind. rewrite Hrun, Hrest.
      split; [reflexivity |]. split; [exact Hstate' |]. split; [exact Hchained' |].
      rewrite Hflags', Hflags1, <- app_assoc. reflexivity.
Qed.

(** C4.  In a calculation of batch size [n] that has just been initiated
    (state [createInput], no input yet), every sequence [xs] of
    [createInputVariable] calls returns, and the stored offsets are laid out
    one input after the other: there is one offset per input, the first is
    [0], and the offset after input [k] is the offset of input [k] plus [1]
    when input [k] is a scalar and plus [n] when it is a vector. *)
Theorem createInputVariable_offsets (n : N) (xs : list InputValue) (c : OpenClContext)
    (Hstate : currentState_ c = createInput)
    (Hsize : size_ c !! N.to_nat (currentId_ c -% 1) = Some n)
    (Hnone : inputVarOffset_ c = [] /\ inputVarIsScalar_ c = []) :
  exists (ids : list N) (c' : OpenClContext),
    createInputVariables xs c = Returned ids c' /\
    length (inputVarOffset_ c') = length xs /\
    inputVarIsScalar_ c' = map is_scalar xs /\
    (forall x, xs !! 0%nat = Some x -> inputVarOffset_ c' !! 0%nat = Some 0) /\
    (forall (k : nat) (x y : InputValue),
        xs !! k = Some x -> xs !! S k = Some y ->
        exists offset,
          inputVarOffset_ c' !! k = Some offset /\
          inputVarOffset_ c' !! S k
            = Some (offset +% (if is_scalar x then 1 else n))).
Proof.
  destruct Hnone as [Hoffsets Hflags].
  destruct (createInputVariables_chained n xs c Hstate Hsize) as
    (ids & c' & Hrun & _ & (Hlen & Hfirst & Hchain) & Hflags').
  { rewrite Hoffsets, Hflags. apply offsets_chained_nil. }
  rewrite Hflags in Hflags'. simpl in Hflags'.
  assert (length (inputVarOffset_ c') = length xs) as Hcount
    by (rewrite <- Hlen, Hflags', length_map; reflexivity).
  exists ids, c'. split; [exact Hrun |]. split; [exact Hcount |].
  split; [exact Hflags' |]. split.
  - intros x Hx.
    destruct (lookup_lt_Some' (inputVarOffset_ c') 0) as [o Ho].
    { rewrite Hcount. apply lookup_lt_is_Some. eauto. }
    rewrite Ho. f_equal. apply Hfirst. exact Ho.
  - intros k x y Hx Hy.
    destruct (lookup_lt_Some' (inputVarOffset_ c') k) as [o Ho].
    { rewrite Hcount. apply lookup_lt_is_Some. eauto. }
    destruct (lookup_lt_Some' (inputVarOffset_ c') (S k)) as [o' Ho'].
    { rewrite Hcount. apply lookup_lt_is_Some. eauto. }
    exists o. split; [exact Ho |]. rewrite Ho'. f_equal.
    apply (Hchain k o o' (is_scalar x) Ho); [| exact Ho'].
    rewrite Hflags', list_lookup_fmap, Hx. reflexivity.
Qed.

Lemma createInputVariable_offsets_witness :
  exists (ids : list N) (c' : OpenClContext),
    createInputVariables three_inputs (after started) = Returned ids c' /\
    length (inputVarOffset_ c') = length three_inputs /\
    inputVarIsScalar_ c' = map is_scalar three_inputs /\
    (forall x, three_inputs !! 0%nat = Some x -> inputVarOffset_ c' !! 0%nat = Some 0) /\
    (forall (k : nat) (x y : InputValue),
        three_inputs !! k = Some x -> three_inputs !! S k = Some y ->
        exists offset,
          inputVarOffset_ c' !! k = Some offset /\
          inputVarOffset_ c' !! S k
            = Some (offset +% (if is_scalar x then 1 else 4))).
Proof.
  apply (createInputVariable_offsets 4 three_inputs (after started)).
  - vm_compute. reflexivity.
  - vm_compute. reflexivity.
  - split; vm_compute; reflexivity.
Defined.

(** The layout of these three inputs, computed. *)
Lemma three_inputs_offsets :
  exists c',
    createInputVariables three_inputs (after started) = Returned [0; 1; 2] c' /\
    inputVarOffset_ c' = [0; 1; 5] /\ inputVarIsScalar_ c' = [true; false; true].
Proof. eexists. conjs; by_computation. Qed.

(** A successful [initiateCalculation] opens such a calculation: the batch
    size stored for the current id is the [n] passed in. *)
Lemma initiateCalculation_opens_inputs (n id version : N) (settings : Settings)
    (c c' : OpenClContext) (r : N * bool) :
  wf c -> is_size_t (vec_size (hasKernel_ c) + 1) ->
  initiateCalculation n id version settings c = Returned r c' ->
  currentState_ c' = createInput /\
  size_ c' !! N.to_nat (currentId_ c' -% 1) = Some n /\
  inputVarOffset_ c' = [] /\ inputVarIsScalar_ c' = [].
Proof.
  intros Hwf Hrep.
  assert (size_ (set_size_ (size_ c ++ [n]) c)
            !! N.to_nat (vec_size (hasKernel_ c ++ [false]) -% 1) = Some n) as Hnew.
  { ctx_simpl. unfold vec_size in *. rewrite length_app. simpl.
    replace (N.of_nat (length (hasKernel_ c) + 1)) with (N.of_nat (length (hasKernel_ c)) + 1)
      by lia.
    rewrite sub_1_pos by (try exact Hrep; lia).
    replace (N.to_nat (N.of_nat (length (hasKernel_ c)) + 1 - 1)) with (length (size_ c))
      by (rewrite (wf_size c Hwf); lia).
    rewrite lookup_app_r by lia. rewrite Nat.sub_diag. reflexivity. }
  ctx_simpl in Hnew.
  unfold initiateCalculation. exec; returned.
  all: repeat first [split | reflexivity | assumption].
  all: repeat match goal with
              | H : (_ =? _) = true |- _ => apply N.eqb_eq in H
              end.
  all: congruence.
Qed.

(** ** The variate pool *)

Lemma pooling_refl (c : OpenClContext) : pooling c c.
Proof. constructor; reflexivity. Qed.

Ltac pooling_side :=
  idtac;
  cbv beta;
  try exact I;
  lazymatch goal with
  | H : pooling _ _ |- pooling _ _ =>
      destruct H; constructor; ctx_simpl; assumption
  end.

Lemma buildVariatesProgram_pooling (ub oof : Prop) (c0 : OpenClContext) :
  preserves ub oof (pooling c0) buildVariatesProgram.
Proof. unfold buildVariatesProgram. holds_steps pooling_side. Qed.

(** The fill loop leaves only when the running size has reached the
    demand. *)
Lemma fillLoop_exit (ub : Prop) (c0 : OpenClContext) (fuel : nat) (demand : N) (initEvent : cl_handle)
    (currentPoolSize : N) (generateEvent : cl_handle) (haveGenerated : bool) :
  holds ub True (pooling c0)
    (fillLoop fuel demand initEvent currentPoolSize generateEvent haveGenerated)
    (fun r s => pooling c0 s /\ demand <= fst (fst r)) (pooling c0).
Proof.
  revert currentPoolSize generateEvent haveGenerated.
  induction fuel as [| fuel IH]; intros currentPoolSize generateEvent haveGenerated; simpl.
  - destruct (currentPoolSize <? demand) eqn:Hlt.
    + intros s Hs. exact I.
    + apply N.ltb_ge in Hlt. apply holds_ret. intros s Hs. split; assumption.
  - destruct (currentPoolSize <? demand) eqn:Hlt.
    + holds_steps pooling_side. apply IH.
    + apply N.ltb_ge in Hlt. apply holds_ret. intros s Hs. split; assumption.
Qed.

Lemma committed_answered (c0 s : OpenClContext) (call : ClCall) :
  committed c0 s -> committed c0 (answered call s).
Proof.
  intros [Hframe Hsize]. split; [| exact Hsize].
  destruct Hframe. constructor; ctx_simpl; first [assumption | reflexivity].
Qed.

Ltac pool_side :=
  idtac;
  cbv beta;
  try exact I;
  try assumption;
  try solve [pooling_side].

Ltac pool_step :=
  lazymatch goal with
  | |- holds _ _ _ (bind (fillLoop _ _ _ _ _ _) _) _ _ =>
      eapply holds_seq;
      [ apply fillLoop_exit
      | intros [[? ?] ?]; cbv beta iota; apply holds_pure; cbn [fst]; intros ? ]
  | _ => holds_step pool_side
  end.

Lemma updateVariatesPool_committed (fuel : nat) (c0 : OpenClContext) :
  holds True True (fun s => s = c0) (updateVariatesPool fuel)
    (fun _ => committed c0) (pooling c0).
Proof.
  pose proof (pooling_refl c0) as Hrefl.
  unfold updateVariatesPool.
  apply holds_bind_get. intros c ->.
  apply (holds_consequence True True _ _ (pooling c0) (pooling c0) _ _
           (fun _ => committed c0));
    [| intros s ->; exact Hrefl | auto | auto].
  apply holds_bind_require; [auto | intros Hpos].
  apply holds_bind.
  { destruct (variatesPoolSize_ c0 =? 0).
    - apply buildVariatesProgram_pooling.
    - apply holds_ret. auto. }
  intros initEvent.
  apply holds_bind_vec_get; [auto | intros n Hn]. cbv zeta.
  assert (forall s, pooling c0 s ->
            (nVariates_ c0 *% n <=? variatesPoolSize_ c0) = true -> committed c0 s)
    as Hkept.
  { intros s Hs Hle. split.
    - destruct Hs. constructor; ctx_simpl; first [assumption | reflexivity].
    - exists n. rewrite Hle. split; [exact Hn |]. split; [exact Hpos |]. apply Hs. }
  destruct (nVariates_ c0 *% n <=? variatesPoolSize_ c0) eqn:Hle.
  - repeat pool_step; apply Hkept; try reflexivity; pooling_side.
  - apply (holds_scope_exit True True _ _ _ _ _ (fun _ => committed c0) (pooling c0)).
    + repeat pool_step.
      match goal with
      | Heq : (?cur =? alignedSize_of _) = true, Hge : _ <= ?cur, Hs : pooling c0 _
        |- committed _ _ =>
          apply N.eqb_eq in Heq; split;
          [ destruct Hs; constructor; ctx_simpl; first [assumption | reflexivity]
          | exists n; rewrite Hle; ctx_simpl;
            split; [exact Hn |]; split; [exact Hpos |]; split; [exact Heq | exact Hge] ]
      end.
    + intros _ s Hs. unfold OldBufferReleaser_dtor.
      destruct (0 <? variatesPoolSize_ c0); [apply committed_answered |]; exact Hs.
    + intros s Hs. unfold OldBufferReleaser_dtor.
      destruct (0 <? variatesPoolSize_ c0); [| exact Hs]. pooling_side.
Qed.

(** The aligned size that covers a demand is the demand rounded up to the
    next multiple of 624.  (When [demand] is within 16 of [2^64] the
    product wraps to a value below 624, which does not cover it.) *)
Lemma alignedSize_of_rounds_up (demand : N) :
  is_size_t demand -> demand <= alignedSize_of demand ->
  alignedSize_of demand = 624 * ((demand + 623) / 624) /\
  alignedSize_of demand mod 624 = 0 /\ alignedSize_of demand < demand + 624.
Proof.
  unfold is_size_t, alignedSize_of. rewrite modulus_value. intros Hsmall.
  pose proof (N.div_mod demand 624 ltac:(discriminate)) as Hdm.
  pose proof (N.mod_lt demand 624 ltac:(discriminate)) as Hr.
  set (q := demand / 624) in *. set (r := demand mod 624) in *.
  assert ((demand + 623) / 624 = q + (if r =? 0 then 0 else 1)) as Hceil.
  { symmetry. apply (N.div_unique _ _ _ (if r =? 0 then 623 else r - 1)).
    - destruct (r =? 0); lia.
    - destruct (r =? 0) eqn:Hr0; [apply N.eqb_eq in Hr0 | apply N.eqb_neq in Hr0]; lia. }
  rewrite Hceil.
  assert (q +% (if r =? 0 then 0 else 1) = q + (if r =? 0 then 0 else 1)) as ->.
  { apply add_small. unfold is_size_t. rewrite modulus_value. destruct (r =? 0); lia. }
  set (k := q + (if r =? 0 then 0 else 1)) in *.
  assert (demand <= 624 * k /\ 624 * k < demand + 624) as [Hlo Hhi].
  { subst k. destruct (r =? 0) eqn:Hr0; [apply N.eqb_eq in Hr0 | apply N.eqb_neq in Hr0]; lia. }
  unfold SizeT.mul, SizeT.wrap. rewrite modulus_value.
  destruct (decide (624 * k < 18446744073709551616)) as [Hfit | Hwrap].
  - rewrite N.mod_small by exact Hfit. intros _.
    split; [reflexivity |]. split; [| exact Hhi].
    rewrite N.mul_comm. apply N.Div0.mod_mul.
  - intros Hcover. exfalso.
    pose proof (N.div_mod (624 * k) 18446744073709551616 ltac:(discriminate)) as Hw.
    pose proof (N.mod_lt (624 * k) 18446744073709551616 ltac:(discriminate)) as Hwr.
    assert (624 * k / 18446744073709551616 = 1) as Hone.
    { symmetry. apply (N.div_unique _ _ _ (624 * k - 18446744073709551616)); lia. }
    rewrite Hone in Hw. lia.
Qed.




(** The sizes in this run, computed: 624 samples held, 628 demanded, 1248
    held afterwards; and a pool growing from nothing to cover 4 samples
    holds 624. *)
Lemma updateVariatesPool_sizes :
  variatesPoolSize_ demand_628 = 624 /\ nVariates_ demand_628 *% 4 = 628 /\
  updateVariatesPool 8 demand_628 = Returned tt pool_of_1248 /\
  variatesPoolSize_ pool_of_1248 = 1248 /\
  variatesPoolSize_ (after started) = 0 /\
  variatesPoolSize_ (after_from (after started) [call_createInputVariates 8 1 1]) = 624.
Proof. conjs; by_computation. Qed.

(** ** [createInputVariates]: the ids handed out *)

(** A counting loop with an invariant [I] that depends on the number of
    rounds done and on the loop-carried local. *)
Lemma holds_forM_indices {St A : Type} (ub oof : Prop) (E : St -> Prop)
    (I : N -> A -> St -> Prop) (n : N) (body : N -> A -> M St A) (a : A) :
  (forall k a, k < n -> holds ub oof (I k a) (body k a) (fun a' => I (k + 1) a') E) ->
  holds ub oof (I 0 a) (forM (indices n) body a) (fun a' => I n a') E.
Proof.
  intros Hbody. unfold indices.
  assert (forall len start a,
             (start + len = N.to_nat n)%nat ->
             holds ub oof (I (N.of_nat start) a)
               (forM (map N.of_nat (seq start len)) body a) (fun a' => I n a') E) as Hloop.
  { induction len as [| len IH]; intros start b Hsum; simpl.
    - apply holds_ret. intros s Hs.
      replace n with (N.of_nat start) by lia. exact Hs.
    - eapply holds_seq.
      + apply Hbody. lia.
      + intros a'. cbv beta.
        replace (N.of_nat start + 1) with (N.of_nat (S start)) by lia.
        apply IH. lia. }
  apply (Hloop (N.to_nat n) 0%nat a). reflexivity.
Qed.

Lemma wrap_succ (x : N) : SizeT.wrap x +% 1 = SizeT.wrap (x + 1).
Proof. rewrite add_wrap_l. reflexivity. Qed.

Lemma assignVariateId_fills (v dim nVariates i j : N) (a : list (list N)) :
  i < dim ->
  holds True True
    (fun s => counting v (j * dim + i) nVariates s /\ filled v dim j i a)
    (assignVariateId i j a)
    (fun a' s => counting v (j * dim + (i + 1)) nVariates s /\ filled v dim j (i + 1) a')
    (fun _ => True).
Proof.
  intros Hi s [[Hvars Hvariates] Hfilled].
  unfold assignVariateId, post_increment_nVars. exec; try exact I.
  split.
  - unfold counting. ctx_simpl. split; [| exact Hvariates].
    rewrite Hvars, wrap_succ. f_equal. lia.
  - match goal with
    | Hrow : a !! N.to_nat i = Some ?row,
      Hj : (N.to_nat j <? length ?row)%nat = true,
      Hlen : (N.to_nat i <? length a)%nat = true |- _ =>
        apply Nat.ltb_lt in Hj; apply Nat.ltb_lt in Hlen;
        intros i2 j2 Hi2 Hdone;
        destruct (decide (i2 = i)) as [-> | Hne]
    end.
    + rewrite list_lookup_insert_eq by assumption. eexists. split; [reflexivity |].
      destruct (decide (j2 = j)) as [-> | Hnej].
      * rewrite list_lookup_insert_eq by assumption. rewrite Hvars. reflexivity.
      * rewrite list_lookup_insert_ne by lia.
        destruct (Hfilled i j2 Hi2) as (row' & Hrow' & Hentry); [left; lia |].
        congruence.
    + rewrite list_lookup_insert_ne by lia.
      apply Hfilled; [exact Hi2 | lia].
Qed.

(** The two nested loops hand out [steps * dim] ids, column by column. *)
Lemma assignVariateId_loops (v dim steps nVariates : N) (a0 : list (list N)) :
  holds True True (counting v 0 nVariates)
    (forM (indices steps)
       (fun j resultIds =>
          forM (indices dim) (fun i resultIds => assignVariateId i j resultIds) resultIds)
       a0)
    (fun a s => counting v (steps * dim) nVariates s /\ filled v dim steps 0 a)
    (fun _ => True).
Proof.
  apply (holds_consequence True True _ _
           (fun s => counting v (0 * dim) nVariates s /\ filled v dim 0 0 a0) (fun _ => True)
           _ _
           (fun a s => counting v (steps * dim) nVariates s /\ filled v dim steps 0 a));
    [| | auto | auto].
  - apply (holds_forM_indices True True (fun _ => True)
             (fun j a s => counting v (j * dim) nVariates s /\ filled v dim j 0 a)).
    intros j a Hj.
    apply (holds_consequence True True _ _
             (fun s => counting v (j * dim + 0) nVariates s /\ filled v dim j 0 a)
             (fun _ => True) _ _
             (fun a' s => counting v (j * dim + dim) nVariates s /\ filled v dim j dim a')).
    + apply (holds_forM_indices True True (fun _ => True)
               (fun i a s => counting v (j * dim + i) nVariates s /\ filled v dim j i a)).
      intros i a' Hi. apply assignVariateId_fills. exact Hi.
    + intros s Hs. rewrite N.add_0_r. exact Hs.
    + intros a' s [Hcount Hfilled]. split.
      * replace ((j + 1) * dim) with (j * dim + dim) by lia. exact Hcount.
      * intros i j2 Hi Hdone. apply Hfilled; [exact Hi | lia].
    + auto.
  - intros s Hs. split; [exact Hs |]. intros i j Hi Hdone. lia.
Qed.

(** [updateVariatesPool] leaves the two counters and the state alone. *)
Lemma updateVariatesPool_counters (fuel : nat) (c : OpenClContext) :
  match updateVariatesPool fuel c with
  | Returned _ c' | Thrown _ c' =>
      nVars_ c' = nVars_ c /\ nVariates_ c' = nVariates_ c /\
      currentState_ c' = currentState_ c
  | _ => True
  end.
Proof.
  pose proof (updateVariatesPool_committed fuel c c eq_refl) as Hc.
  destruct (updateVariatesPool fuel c) as [[] c' | what c' | |]; try exact I.
  - destruct Hc as [[] _]. ctx_simpl in pool_nVars0. ctx_simpl in pool_nVariates0.
    ctx_simpl in pool_currentState0. auto.
  - destruct Hc. auto.
Qed.

(** What a returning [createInputVariates dim steps] has done, with [v]
    the variable counter before the call: the id matrix holds
    [v + j * dim + i] at row [i] and column [j], the variable counter has
    advanced by [dim * steps] and so has the variate counter.  The sums
    are those of [std::size_t]; when [v + dim * steps] and the new variate
    count are representable they are the plain sums. *)
Lemma createInputVariates_returned_ids (fuel : nat) (dim steps : N) (c c' : OpenClContext)
    (resultIds : list (list N))
    (Hv : is_size_t (nVars_ c))
    (Hrun : createInputVariates fuel dim steps c = Returned resultIds c') :
  (forall i j, i < dim -> j < steps ->
     exists row,
       resultIds !! N.to_nat i = Some row /\
       row !! N.to_nat j = Some (SizeT.wrap (nVars_ c + (j * dim + i)))) /\
  nVars_ c' = SizeT.wrap (nVars_ c + dim * steps) /\
  nVariates_ c' = nVariates_ c +% dim *% steps /\
  (is_size_t (nVars_ c + dim * steps) -> is_size_t (nVariates_ c + dim * steps) ->
     (forall i j, i < dim -> j < steps ->
        exists row,
          resultIds !! N.to_nat i = Some row /\
          row !! N.to_nat j = Some (nVars_ c + j * dim + i)) /\
     nVars_ c' = nVars_ c + dim * steps /\
     nVariates_ c' = nVariates_ c + dim * steps).
Proof.
  assert ((forall i j, i < dim -> j < steps ->
             exists row,
               resultIds !! N.to_nat i = Some row /\
               row !! N.to_nat j = Some (SizeT.wrap (nVars_ c + (j * dim + i)))) /\
          nVars_ c' = SizeT.wrap (nVars_ c + dim * steps) /\
          nVariates_ c' = nVariates_ c +% dim *% steps) as (Hids & Hvars & Hvariates).
  { unfold createInputVariates in Hrun. unfold bind at 1, get in Hrun.
    unfold bind at 1 in Hrun.
    destruct (_ || _); [| discriminate Hrun]. cbn [QL_REQUIRE ret] in Hrun.
    unfold bind at 1 in Hrun.
    destruct (0 <? currentId_ c); [| discriminate Hrun]. cbn [QL_REQUIRE ret] in Hrun.
    unfold bind at 1, vec_get in Hrun.
    destruct (hasKernel_ c !! _) as [hasKernel |]; [| discriminate Hrun].
    unfold ret at 1 in Hrun. unfold bind at 1 in Hrun.
    destruct hasKernel; [discriminate Hrun |]. cbn [negb QL_REQUIRE ret] in Hrun.
    unfold bind at 1, modify at 1 in Hrun. unfold bind at 1 in Hrun.
    pose proof (assignVariateId_loops (nVars_ c) dim steps (nVariates_ c)
                  (repeat (repeat 0 (N.to_nat steps)) (N.to_nat dim))
                  (set_currentState_ createVariates c)) as Hloops.
    destruct (forM _ _ _ _) as [a s1 | | |]; try discriminate Hrun.
    destruct Hloops as [[Hn1 Hn2] Hfilled].
    { split; ctx_simpl; [| reflexivity]. rewrite N.add_0_r, wrap_small; auto. }
    unfold bind at 1, modify at 1 in Hrun. unfold bind at 1 in Hrun.
    pose proof (updateVariatesPool_counters fuel
                  (set_nVariates_ (nVariates_ s1 +% dim *% steps) s1)) as Hpool.
    destruct (updateVariatesPool _ _) as [[] s2 | | |]; try discriminate Hrun.
    unfold ret in Hrun. injection Hrun as <- <-.
    destruct Hpool as (Hp1 & Hp2 & _). ctx_simpl in Hp1. ctx_simpl in Hp2.
    split; [| split].
    - intros i j Hi Hj. apply Hfilled; [exact Hi | left; exact Hj].
    - rewrite Hp1, Hn1. f_equal. lia.
    - rewrite Hp2, Hn2. reflexivity. }
  split; [exact Hids |]. split; [exact Hvars |]. split; [exact Hvariates |].
  intros Hfit Hfit'. split; [| split].
  - intros i j Hi Hj. destruct (Hids i j Hi Hj) as (row & Hrow & Hentry).
    exists row. split; [exact Hrow |]. rewrite Hentry. f_equal.
    rewrite N.add_assoc. apply wrap_small. unfold is_size_t in *. nia.
  - rewrite Hvars. apply wrap_small. exact Hfit.
  - rewrite Hvariates. unfold SizeT.mul. rewrite add_wrap_r. apply add_small. exact Hfit'.
Qed.

(** ** [createInputVariates (0, 0)] *)

Lemma set_nothing (c : OpenClContext) :
  set_nVariates_ (nVariates_ c) (set_currentState_ createVariates c)
    = set_currentState_ createVariates c.
Proof. destruct c. reflexivity. Qed.

(** C5.  [createInputVariates (0, 0)], called in state [createInput] or
    [createVariates] on a calculation without kernel, moves to
    [createVariates] and then depends on the variate counter: with no
    variate created so far it runs into the check of [updateVariatesPool]
    that calls this an internal error, and throws; with variates that a
    non-empty pool already covers it returns the empty id matrix.  Either
    way nothing else in the context changes: the pool, its size and the
    device log stay as they were. *)
Theorem createInputVariates_none (fuel : nat) (n : N) (c : OpenClContext)
    (Hstate : currentState_ c = createInput \/ currentState_ c = createVariates)
    (Hid : 0 < currentId_ c)
    (Hkernel : hasKernel_ c !! N.to_nat (currentId_ c -% 1) = Some false)
    (Hsize : size_ c !! N.to_nat (currentId_ c -% 1) = Some n)
    (Hcount : is_size_t (nVariates_ c)) :
  (nVariates_ c = 0 ->
     createInputVariates fuel 0 0 c
       = Thrown "OpenClContext::updateVariatesPool(): internal error, got nVariates_ == 0."
           (set_currentState_ createVariates c)) /\
  (0 < nVariates_ c -> 0 < variatesPoolSize_ c ->
   nVariates_ c *% n <= variatesPoolSize_ c ->
     createInputVariates fuel 0 0 c = Returned [] (set_currentState_ createVariates c)).
Proof.
  assert (ComputeState_eqb (currentState_ c) createInput
          || ComputeState_eqb (currentState_ c) createVariates = true) as Hvalid
    by (destruct Hstate as [-> | ->]; reflexivity).
  apply N.ltb_lt in Hid.
  assert (createInputVariates fuel 0 0 c
          = bind (updateVariatesPool fuel) (fun _ => ret [])
              (set_currentState_ createVariates c)) as ->.
  { unfold createInputVariates. unfold bind at 1. unfold get.
    rewrite Hvalid. cbn [QL_REQUIRE]. unfold bind at 1. unfold ret at 1.
    rewrite Hid. cbn [QL_REQUIRE]. unfold bind at 1. unfold ret at 1.
    unfold bind at 1. unfold vec_get. rewrite Hkernel. unfold ret at 1.
    cbn [negb QL_REQUIRE]. unfold bind at 1. unfold ret at 1.
    unfold bind at 1. unfold modify at 1.
    change (indices 0) with (@nil N). change (N.to_nat 0) with 0%nat.
    cbn [repeat forM]. unfold bind at 1. unfold ret at 1.
    unfold bind at 1. unfold modify at 1. ctx_simpl.
    change (0 *% 0) with 0. rewrite (add_0_r _ Hcount), set_nothing. reflexivity. }
  unfold updateVariatesPool. split.
  - intros Hzero. unfold bind at 1. unfold bind at 1. unfold get. ctx_simpl.
    rewrite Hzero. reflexivity.
  - intros Hpos Hpool Hcover.
    unfold bind at 1. unfold bind at 1. unfold get. ctx_simpl.
    apply N.ltb_lt in Hpos. apply N.leb_le in Hcover.
    assert ((variatesPoolSize_ c =? 0) = false) as Hnonempty by (apply N.eqb_neq; lia).
    rewrite Hpos. cbn [QL_REQUIRE]. unfold bind at 1. unfold ret at 1.
    rewrite Hnonempty. unfold bind at 1. unfold ret at 1.
    unfold bind at 1. unfold vec_get. rewrite Hsize. unfold ret at 1.
    rewrite Hcover. reflexivity.
Qed.

Lemma createInputVariates_none_witness :
  (nVariates_ one_variate = 0 ->
     createInputVariates 8 0 0 one_variate
       = Thrown "OpenClContext::updateVariatesPool(): internal error, got nVariates_ == 0."
           (set_currentState_ createVariates one_variate)) /\
  (0 < nVariates_ one_variate -> 0 < variatesPoolSize_ one_variate ->
   nVariates_ one_variate *% 4 <= variatesPoolSize_ one_variate ->
     createInputVariates 8 0 0 one_variate
       = Returned [] (set_currentState_ createVariates one_variate)).
Proof.
  apply (createInputVariates_none 8 4 one_variate).
  - right. vm_compute. reflexivity.
  - vm_compute. reflexivity.
  - vm_compute. reflexivity.
  - vm_compute. reflexivity.
  - vm_compute. reflexivity.
Defined.

(** The empty request in a calculation that has just been initiated
    (state [createInput], no variate so far): the call throws. *)
Lemma createInputVariates_none_throws :
  perform_all started fresh_context = Some (after started) /\
  currentState_ (after started) = createInput /\
  nVariates_ (after started) = 0 /\
  createInputVariates 8 0 0 (after started)
    = Thrown "OpenClContext::updateVariatesPool(): internal error, got nVariates_ == 0."
        (set_currentState_ createVariates (after started)).
Proof. conjs; by_computation. Qed.

(** ** Every operation keeps the representation invariant *)

(** Started in [c0] exactly, the code may be followed with any invariant
    that [c0] satisfies. *)
Lemma holds_from {St A : Type} (ub oof : Prop) (c0 : St) (P : St -> Prop) (m : M St A)
    (Q : A -> St -> Prop) (E : St -> Prop) :
  P c0 -> holds ub oof P m Q E -> holds ub oof (fun s => s = c0) m Q E.
Proof. intros H0 Hm s ->. apply Hm, H0. Qed.

(** A member function that first reads [*this]: what it reads is the
    context it was started in. *)
Lemma holds_get_from {St B : Type} (ub oof : Prop) (c0 : St) (P : St -> Prop)
    (k : St -> M St B) (Q : B -> St -> Prop) (E : St -> Prop) :
  P c0 -> holds ub oof P (k c0) Q E -> holds ub oof (fun s => s = c0) (bind get k) Q E.
Proof. intros H0 Hk s ->. unfold bind, get. apply Hk, H0. Qed.

Lemma keeps_wf_from {A : Type} (m : M OpenClContext A) :
  (forall c0, wf c0 -> holds True True (fun s => s = c0) m (fun _ => wf) wf) -> keeps_wf m.
Proof. intros Hm c Hc. exact (Hm c Hc c eq_refl). Qed.

Lemma steady_wf (c0 s : OpenClContext) : steady c0 s -> wf s.
Proof. intros H. apply H. Qed.

(** The current id of a context that is not idle. *)
Lemma busy_current (c : OpenClContext) :
  wf c -> ComputeState_eqb (currentState_ c) idle = false -> 0 < currentId_ c.
Proof.
  intros Hwf Hb. apply (wf_busy c Hwf). intros Hidle. rewrite Hidle in Hb. discriminate Hb.
Qed.

Ltac start_from c0 Hwf :=
  apply keeps_wf_from; intros c0 Hwf;
  apply (holds_consequence True True _ _ (fun s => s = c0) (steady c0) _ _
           (fun _ => steady c0));
  [| auto | intros ? ?; apply steady_wf | intros ?; apply steady_wf ];
  apply (holds_get_from True True c0 (steady c0)); [apply steady_refl; exact Hwf |].

Lemma freeVariable_wf (id : N) : keeps_wf (freeVariable id).
Proof.
  unfold freeVariable. start_from c0 Hwf. holds_steps wf_side.
Qed.

Lemma declareOutputVariable_wf (id : N) : keeps_wf (declareOutputVariable id).
Proof.
  unfold declareOutputVariable. start_from c0 Hwf. holds_steps wf_side.
Qed.

Lemma argName_steady (c0 c : OpenClContext) (arg : N) :
  preserves True True (steady c0) (argName c arg).
Proof. unfold argName. holds_steps wf_side. Qed.

Lemma opExpression_steady (c0 : OpenClContext) (op : RandomVariableOpCode.t)
    (argStr : list string) :
  preserves True True (steady c0) (opExpression op argStr).
Proof. unfold opExpression, unary, binary. destruct op; holds_steps wf_side. Qed.

Lemma applyOperation_wf (op : RandomVariableOpCode.t) (args : list N) :
  keeps_wf (applyOperation op args).
Proof.
  unfold applyOperation, post_increment_nVars. start_from c0 Hwf.
  apply holds_bind_require; [auto | intros Hstate].
  assert (0 < currentId_ c0) as Hpos.
  { apply (wf_busy c0 Hwf). intros Hidle. rewrite Hidle in Hstate. discriminate Hstate. }
  holds_steps wf_side.
  all: first [ apply argName_steady | apply opExpression_steady ].
Qed.

(** Two writes in a row, seen as one: the invariant may be broken in
    between. *)
Lemma holds_bind_modify_twice {St B : Type} (ub oof : Prop) (P E : St -> Prop)
    (f g : St -> St) (k : unit -> M St B) (Q : B -> St -> Prop) :
  (forall s, P s -> P (g (f s))) -> holds ub oof P (k tt) Q E ->
  holds ub oof P (bind (modify f) (fun _ => bind (modify g) k)) Q E.
Proof. intros Hfg Hk s Hs. unfold bind, modify. apply Hk, Hfg, Hs. Qed.

Lemma push_input_value_steady (c0 : OpenClContext) (v : double) :
  preserves True True (steady c0) (push_input_value v).
Proof.
  unfold push_input_value. apply holds_modify. intros s Hs.
  destruct (useDoublePrecision (settings_ s)); wf_side.
Qed.

Lemma nextInputOffset_steady (c0 : OpenClContext) :
  preserves True True (steady c0) nextInputOffset.
Proof. unfold nextInputOffset. holds_steps wf_side. Qed.

Lemma createInputVariable_scalar_wf (v : double) : keeps_wf (createInputVariable_scalar v).
Proof.
  unfold createInputVariable_scalar, post_increment_nVars. start_from c0 Hwf.
  apply holds_bind_require; [auto | intros Hstate].
  apply holds_bind; [apply nextInputOffset_steady | intros nextOffset].
  apply holds_bind_modify_twice; [intros s Hs; wf_side |].
  apply holds_bind; [apply push_input_value_steady | intros _].
  holds_steps wf_side.
Qed.

Lemma createInputVariable_vector_wf (v : N -> double) : keeps_wf (createInputVariable_vector v).
Proof.
  unfold createInputVariable_vector, post_increment_nVars. start_from c0 Hwf.
  apply holds_bind_require; [auto | intros Hstate].
  apply holds_bind; [apply nextInputOffset_steady | intros nextOffset].
  apply holds_bind_modify_twice; [intros s Hs; wf_side |].
  holds_steps wf_side.
  apply push_input_value_steady.
Qed.

Lemma pooling_wf (c0 s : OpenClContext) : wf c0 -> pooling c0 s -> wf s.
Proof.
  intros H0 Hs. destruct Hs.
  constructor; unfold vec_size;
    repeat match goal with H : ?f s = ?f c0 |- _ => rewrite H; clear H end;
    apply H0.
Qed.

Lemma updateVariatesPool_wf (fuel : nat) : keeps_wf (updateVariatesPool fuel).
Proof.
  intros c Hwf. pose proof (updateVariatesPool_committed fuel c c eq_refl) as H.
  destruct (updateVariatesPool fuel c) as [[] c' | what c' | |]; try exact I.
  - destruct H as [Hframe (n & Hn & Hpos & Hpool)].
    pose proof (pooling_wf _ _ Hwf Hframe) as Hwf'.
    assert (variatesPoolSize_ c' mod 624 = 0) as Haligned.
    { destruct (nVariates_ c *% n <=? variatesPoolSize_ c).
      - rewrite Hpool. apply Hwf.
      - destruct Hpool as [Hnew Hcover]. rewrite Hnew in *.
        apply (alignedSize_of_rounds_up _ (mul_is_size_t _ _) Hcover). }
    destruct Hwf'.
    repeat match goal with H : _ |- _ => progress ctx_simpl in H end.
    constructor; assumption.
  - exact (pooling_wf _ _ Hwf H).
Qed.

Lemma updateVariatesPool_steady (c0 : OpenClContext) (fuel : nat) :
  preserves True True (steady c0) (updateVariatesPool fuel).
Proof.
  apply keeps_wf_steady; [apply updateVariatesPool_wf |].
  intros c. pose proof (updateVariatesPool_committed fuel c c eq_refl) as H.
  destruct (updateVariatesPool fuel c) as [[] c' | what c' | |]; try exact I.
  - destruct H as [[] _].
    repeat match goal with H : _ |- _ => progress ctx_simpl in H end.
    split; congruence.
  - destruct H. split; congruence.
Qed.

Lemma createInputVariates_wf (fuel : nat) (dim steps : N) :
  keeps_wf (createInputVariates fuel dim steps).
Proof.
  unfold createInputVariates, assignVariateId, post_increment_nVars. start_from c0 Hwf.
  apply holds_bind_require; [auto | intros Hstate].
  apply holds_bind_require; [auto | intros Hpos]. apply N.ltb_lt in Hpos.
  holds_steps wf_side.
  apply updateVariatesPool_steady.
Qed.

Lemma initiateCalculation_wf (n id version : N) (settings : Settings) :
  keeps_wf (initiateCalculation n id version settings).
Proof.
  intros c Hwf. unfold initiateCalculation. exec; try exact I.
  all: repeat match goal with
              | H : (_ =? 0) = false |- _ => apply N.eqb_neq in H
              | H : (_ <=? _) = true |- _ => apply N.leb_le in H
              | H : (_ <? _)%nat = true |- _ => apply Nat.ltb_lt in H
              end.
  all: destruct Hwf; constructor; lengths;
    first [ assumption | congruence | lia | intros; assumption | intros; lia | reflexivity ].
Qed.

Lemma device_only_steady (c0 c s : OpenClContext) :
  steady c0 c -> device_only c s -> steady c0 s.
Proof. intros Hc (calls & replies & ->). wf_side. Qed.

Lemma runHealthChecks_steady (c0 : OpenClContext) :
  preserves True True (steady c0) runHealthChecks.
Proof.
  intros s Hs.
  pose proof (runHealthChecks_device_only s s (device_only_refl s)) as Hrun.
  destruct (runHealthChecks s) as [a s' | what s' | |]; try exact I.
  all: exact (device_only_steady c0 s s' Hs Hrun).
Qed.

Lemma createContextLoop_steady (c0 : OpenClContext) (remaining : nat) (err : cl_int) :
  preserves True True (steady c0) (createContextLoop remaining err).
Proof.
  revert err. induction remaining as [| remaining IH]; intros err; simpl.
  - holds_steps wf_side.
  - holds_steps wf_side. apply IH.
Qed.

Lemma init_wf (err0 : cl_int) : keeps_wf (init err0).
Proof.
  unfold init. start_from c0 Hwf. holds_steps wf_side.
  - apply createContextLoop_steady.
  - apply runHealthChecks_steady.
Qed.

(** [finalizeCalculation] *)
Lemma buildKernel_finalizing (c0 : OpenClContext) (inputBufferSize outputBufferSize : N) :
  preserves True True (finalizing c0) (buildKernel inputBufferSize outputBufferSize).
Proof. unfold buildKernel, outputName. holds_steps fin_side. Qed.

Lemma finalizeCalculation_body_finalizing (output : list N) (c0 : OpenClContext) :
  holds True True (on_frame (fun s => s = c0)) (finalizeCalculation_body output)
    (fun _ => on_frame (finalizing c0)) (on_frame (finalizing c0)).
Proof.
  pose proof (finalizing_refl c0) as Hrefl.
  unfold finalizeCalculation_body, readBack.
  apply holds_bind_on_this_get. intros c ->.
  apply (holds_consequence True True _ _
           (on_frame (finalizing c0)) (on_frame (finalizing c0)) _ _
           (fun _ => on_frame (finalizing c0)));
    [| intros s Hs; unfold on_frame in *; rewrite Hs; exact Hrefl | auto | auto].
  holds_steps fin_side.
  apply buildKernel_finalizing.
Qed.

Lemma release_all_wf (mem : list cl_handle) (c : OpenClContext) :
  wf c -> wf (fold_left (fun c m => answered (clReleaseMemObject m) c) mem c).
Proof.
  revert c. induction mem as [| m mem IH]; intros c Hwf; simpl; [exact Hwf |].
  apply IH, answered_wf, Hwf.
Qed.

Lemma exitGuard_dtor_wf (c0 : OpenClContext) (f : Frame) :
  wf c0 -> finalizing c0 (this f) -> wf (exitGuard_dtor f).
Proof.
  intros Hwf Hf. unfold exitGuard_dtor. apply release_all_wf.
  pose proof (finalizing_wf c0 (this f) Hwf Hf) as Hthis.
  destruct Hthis. constructor; ctx_simpl; try assumption.
  intros Hidle. exfalso. apply Hidle. reflexivity.
Qed.

Lemma finalizeCalculation_wf (output : list N) : keeps_wf (finalizeCalculation output).
Proof.
  intros c Hwf. unfold finalizeCalculation.
  pose proof (finalizeCalculation_body_finalizing output c
                {| this := c; guard_mem := [] |} eq_refl) as Hbody.
  destruct (finalizeCalculation_body output {| this := c; guard_mem := [] |})
    as [a f | what f | |]; try exact I.
  all: apply (exitGuard_dtor_wf c); assumption.
Qed.

(** Hence every call of the client interface keeps the invariant, and
    every reachable context is well-formed. *)
Lemma perform_wf (call : Call) (c c' : OpenClContext) :
  wf c -> perform call c = Some c' -> wf c'.
Proof.
  intros Hwf Hcall.
  assert (forall (A : Type) (m : M OpenClContext A),
             keeps_wf m -> state_after (m c) = Some c' -> wf c') as Hkeeps.
  { intros A m Hm Hstate. specialize (Hm c Hwf).
    destruct (m c) as [a s | what s | |]; simpl in Hstate; try discriminate Hstate;
      injection Hstate as <-; exact Hm. }
  destruct call; simpl in Hcall; eapply Hkeeps; try exact Hcall.
  - apply init_wf.
  - apply initiateCalculation_wf.
  - apply disposeCalculation_wf.
  - apply createInputVariable_scalar_wf.
  - apply createInputVariable_vector_wf.
  - apply createInputVariates_wf.
  - apply applyOperation_wf.
  - apply freeVariable_wf.
  - apply declareOutputVariable_wf.
  - apply finalizeCalculation_wf.
Qed.

Lemma perform_all_wf (calls : list Call) (c c' : OpenClContext) :
  wf c -> perform_all calls c = Some c' -> wf c'.
Proof.
  revert c. induction calls as [| call calls IH]; intros c Hwf Hall; simpl in Hall.
  - injection Hall as <-. exact Hwf.
  - destruct (perform call c) as [c1 |] eqn:Hcall; [| discriminate Hall].
    apply (IH c1); [| exact Hall]. exact (perform_wf call c c1 Hwf Hcall).
Qed.

(** X1.  Every context that a client can bring about, by construction
    followed by any calls of the interface that return or throw, satisfies
    the representation invariant. *)
Theorem reachable_wf (c : OpenClContext) : reachable c -> wf c.
Proof.
  intros (supportsDoublePrecision & garbage & replies & calls & Hgarbage & Hcalls).
  exact (perform_all_wf calls _ c (wf_new _ _ _ Hgarbage) Hcalls).
Qed.

Lemma reachable_wf_witness : wf (after repeat_evaluation).
Proof.
  apply reachable_wf. exists true, 0, [], repeat_evaluation.
  split; [reflexivity | vm_compute; reflexivity].
Defined.

(** ** A device that answers every call with [CL_SUCCESS] *)

Lemma quiet_answered (call : ClCall) (s : OpenClContext) : quiet s -> quiet (answered call s).
Proof. unfold quiet, answered. intros H. ctx_simpl. rewrite H. reflexivity. Qed.

Lemma holds_bind_cl_quiet {B : Type} (ub oof : Prop) (P E : OpenClContext -> Prop)
    (call : ClCall) (k : cl_int * cl_handle -> M OpenClContext B)
    (Q : B -> OpenClContext -> Prop) :
  (forall s, P s -> quiet s) ->
  (forall s, P s -> P (answered call s)) ->
  (forall h, holds ub oof P (k (CL_SUCCESS, h)) Q E) ->
  holds ub oof P (bind (cl call) k) Q E.
Proof.
  intros Hquiet Hcall Hk s Hs. unfold bind, cl.
  replace (next_reply s) with CL_SUCCESS
    by (unfold next_reply; rewrite (Hquiet s Hs); reflexivity).
  apply Hk, Hcall, Hs.
Qed.

Ltac quiet_side :=
  idtac;
  cbv beta;
  try exact I;
  try assumption;
  lazymatch goal with
  | H : pooling_quietly _ _ |- pooling_quietly _ _ =>
      destruct H as [? ?]; split; [pooling_side | first [apply quiet_answered | idtac]; assumption]
  | H : pooling_quietly _ _ |- quiet _ => apply H
  | |- _ => idtac
  end.

(** Evaluates the checks on a status that is known. *)
Ltac known_status :=
  repeat match goal with
         | |- context [is_success ?e] =>
             let v := eval vm_compute in (is_success e) in
             progress change (is_success e) with v
         end;
  cbn [negb QL_REQUIRE].

Ltac quiet_step :=
  known_status;
  lazymatch goal with
  | |- holds _ _ _ (bind (cl _) _) _ _ =>
      apply holds_bind_cl_quiet;
      [ intros ? ?; quiet_side | intros ? ?; quiet_side | intros ?; cbv beta iota ]
  | _ => holds_step quiet_side
  end.

Lemma buildVariatesProgram_quietly (c0 : OpenClContext) :
  holds False False (pooling_quietly c0) buildVariatesProgram
    (fun _ => pooling_quietly c0) (fun _ => False).
Proof.
  unfold buildVariatesProgram.
  repeat quiet_step.
Qed.

Lemma fillLoop_quietly (c0 : OpenClContext) (fuel : nat) (demand : N) (initEvent : cl_handle)
    (currentPoolSize : N) (generateEvent : cl_handle) (haveGenerated : bool) :
  is_size_t (demand + 623) ->
  demand <= currentPoolSize + 624 * N.of_nat fuel ->
  holds False False (pooling_quietly c0)
    (fillLoop fuel demand initEvent currentPoolSize generateEvent haveGenerated)
    (fun r s => pooling_quietly c0 s /\ filled_up demand currentPoolSize (fst (fst r)))
    (fun _ => False).
Proof.
  unfold is_size_t. rewrite modulus_value. intros Hroom.
  revert currentPoolSize generateEvent haveGenerated.
  induction fuel as [| fuel IH]; intros currentPoolSize generateEvent haveGenerated Hfuel;
    simpl fillLoop.
  - assert ((currentPoolSize <? demand) = false) as -> by (apply N.ltb_ge; lia).
    apply holds_ret. intros s Hs. split; [exact Hs |].
    unfold filled_up. cbn [fst]. repeat split; try lia.
  - destruct (currentPoolSize <? demand) eqn:Hlt.
    + apply N.ltb_lt in Hlt.
      assert (currentPoolSize +% mt_N = currentPoolSize + 624) as Hnext
        by (apply add_small; unfold is_size_t, mt_N; rewrite modulus_value; lia).
      rewrite Hnext.
      repeat quiet_step.
      eapply holds_consequence; [apply IH; lia | auto | | auto].
      intros r s [Hs (Hcover & Hmod & Hnear & Hsame)]. split; [exact Hs |].
      unfold filled_up. split; [exact Hcover |]. split.
      * rewrite Hmod. rewrite <- (N.Div0.add_mod_idemp_r currentPoolSize 624 624).
        rewrite N.Div0.mod_same, N.add_0_r. reflexivity.
      * split; [| lia]. intros _.
        destruct (decide (currentPoolSize + 624 < demand)) as [Hfar | Hclose].
        -- apply Hnear, Hfar.
        -- rewrite Hsame by lia. lia.
    + apply N.ltb_ge in Hlt. apply holds_ret. intros s Hs. split; [exact Hs |].
      unfold filled_up. cbn [fst]. repeat split; try lia.
Qed.

Lemma alignedSize_of_room (demand : N) :
  is_size_t (demand + 623) -> demand <= alignedSize_of demand.
Proof.
  unfold is_size_t, alignedSize_of. rewrite modulus_value. intros Hroom.
  pose proof (N.div_mod demand 624 ltac:(discriminate)) as Hdm.
  pose proof (N.mod_lt demand 624 ltac:(discriminate)) as Hr.
  set (q := demand / 624) in *. set (r := demand mod 624) in *.
  rewrite add_small by (unfold is_size_t; rewrite modulus_value; destruct (r =? 0); lia).
  rewrite mul_small.
  - destruct (r =? 0) eqn:Hr0; [apply N.eqb_eq in Hr0 | apply N.eqb_neq in Hr0]; lia.
  - unfold is_size_t. rewrite modulus_value.
    destruct (r =? 0) eqn:Hr0; [apply N.eqb_eq in Hr0 | apply N.eqb_neq in Hr0]; lia.
Qed.

(** The loop stops at the aligned size. *)
Lemma filled_up_aligned (demand start stop : N) :
  is_size_t (demand + 623) -> start mod 624 = 0 -> start < demand ->
  filled_up demand start stop -> stop = alignedSize_of demand.
Proof.
  intros Hroom Hstart Hlt (Hcover & Hmod & Hnear & _).
  pose proof (alignedSize_of_room demand Hroom) as Hle.
  assert (is_size_t demand) as Hsmall by (unfold is_size_t in *; lia).
  destruct (alignedSize_of_rounds_up demand Hsmall Hle) as (_ & Hamod & Hanear).
  specialize (Hnear Hlt). rewrite Hstart in Hmod.
  pose proof (N.div_mod stop 624 ltac:(discriminate)) as Hs.
  pose proof (N.div_mod (alignedSize_of demand) 624 ltac:(discriminate)) as Ha.
  rewrite Hmod in Hs. rewrite Hamod in Ha. lia.
Qed.

Lemma holds_bind_ret {St A B : Type} (ub oof : Prop) (P E : St -> Prop) (x : A)
    (k : A -> M St B) (Q : B -> St -> Prop) :
  holds ub oof P (k x) Q E -> holds ub oof P (bind (ret x) k) Q E.
Proof. intros Hk s Hs. unfold bind, ret. apply Hk, Hs. Qed.

Ltac quiet_pool_step :=
  lazymatch goal with
  | |- holds _ _ _ (bind (fillLoop _ _ _ _ _ _) _) _ _ =>
      eapply holds_seq;
      [ apply fillLoop_quietly; assumption
      | intros [[? ?] ?]; cbv beta iota; apply holds_pure; cbn [fst]; intros ? ]
  | _ => quiet_step
  end.

(** The closing check of [updateVariatesPool] passes. *)
Ltac aligned_step Hroom Haligned Hle :=
  lazymatch goal with
  | Hstop : filled_up _ _ ?stop
    |- holds _ _ _ (bind (QL_REQUIRE (?stop =? alignedSize_of _) _) _) _ _ =>
      rewrite (filled_up_aligned _ _ _ Hroom Haligned Hle Hstop), N.eqb_refl;
      cbn [QL_REQUIRE]; apply holds_bind_ret
  end.

(** On a quiet device, with variates to serve, an aligned pool, room below
    [2^64] and fuel for every block, [updateVariatesPool] returns; the
    context it returns is described by [committed]. *)
Lemma updateVariatesPool_returns (fuel : nat) (n : N) (c : OpenClContext) :
  0 < nVariates_ c ->
  size_ c !! N.to_nat (currentId_ c -% 1) = Some n ->
  quiet c ->
  variatesPoolSize_ c mod 624 = 0 ->
  is_size_t (nVariates_ c *% n + 623) ->
  nVariates_ c *% n <= variatesPoolSize_ c + 624 * N.of_nat fuel ->
  exists c', updateVariatesPool fuel c = Returned tt c' /\ committed c c' /\ quiet c'.
Proof.
  intros Hpos Hsize Hquiet Haligned Hroom Hfuel.
  assert (holds False False (fun s => s = c) (updateVariatesPool fuel)
            (fun _ => quiet) (fun _ => False)) as Hruns.
  { unfold updateVariatesPool.
    apply (holds_get_from False False c (pooling_quietly c));
      [split; [apply pooling_refl | exact Hquiet] |].
    apply N.ltb_lt in Hpos. rewrite Hpos. cbn [QL_REQUIRE].
    apply holds_bind_ret.
    apply holds_bind.
    { destruct (variatesPoolSize_ c =? 0).
      - apply buildVariatesProgram_quietly.
      - apply holds_ret. auto. }
    intros initEvent. unfold vec_get at 1. rewrite Hsize.
    apply holds_bind_ret. cbv zeta.
    destruct (nVariates_ c *% n <=? variatesPoolSize_ c) eqn:Hle.
    - repeat quiet_pool_step.
    - apply N.leb_gt in Hle.
      apply (holds_scope_exit False False _ _ _ _ _ (fun _ => quiet) (fun _ => False)).
      + repeat first [aligned_step Hroom Haligned Hle | quiet_pool_step].
      + intros _ s Hs. unfold OldBufferReleaser_dtor.
        destruct (0 <? variatesPoolSize_ c); [apply quiet_answered |]; exact Hs.
      + intros s [].  }
  specialize (Hruns c eq_refl).
  pose proof (updateVariatesPool_committed fuel c c eq_refl) as Hc.
  destruct (updateVariatesPool fuel c) as [[] c' | what c' | |]; try contradiction.
  exists c'. auto.
Qed.

(** ** [createInputVariates] returns *)

Lemma shaped_allocated (dim steps : N) :
  shaped dim steps (repeat (repeat 0 (N.to_nat steps)) (N.to_nat dim)).
Proof.
  split; [apply repeat_length |].
  induction (N.to_nat dim) as [| k IH]; simpl; constructor;
    [apply repeat_length | exact IH].
Qed.

Lemma assignVariateId_defined (s0 : OpenClContext) (dim steps i j : N) (a : list (list N)) :
  i < dim -> j < steps ->
  holds False False (fun s => counting_from s0 s /\ shaped dim steps a)
    (assignVariateId i j a)
    (fun a' s => counting_from s0 s /\ shaped dim steps a') (fun _ => False).
Proof.
  intros Hi Hj s [[v ->] [Hrows Hcols]].
  unfold assignVariateId, post_increment_nVars. exec_unfold. ctx_simpl.
  destruct (a !! N.to_nat i) as [row |] eqn:Hrow.
  2: { apply lookup_ge_None in Hrow. lia. }
  assert (length row = N.to_nat steps) as Hlen
    by (apply (proj1 (Forall_lookup _ a) Hcols _ _ Hrow)).
  assert ((N.to_nat j <? length row)%nat = true) as -> by (apply Nat.ltb_lt; lia).
  assert ((N.to_nat i <? length a)%nat = true) as -> by (apply Nat.ltb_lt; lia).
  split.
  - eexists. destruct s0. reflexivity.
  - split; [rewrite length_insert; exact Hrows |].
    apply Forall_insert; [exact Hcols |]. rewrite length_insert. exact Hlen.
Qed.

Lemma assignVariateId_loops_defined (s0 : OpenClContext) (dim steps : N) :
  exists a v,
    forM (indices steps)
      (fun j resultIds =>
         forM (indices dim) (fun i resultIds => assignVariateId i j resultIds) resultIds)
      (repeat (repeat 0 (N.to_nat steps)) (N.to_nat dim)) s0
    = Returned a (set_nVars_ v s0).
Proof.
  pose proof (holds_forM_indices False False (fun _ => False)
                (fun (_ : N) a s => counting_from s0 s /\ shaped dim steps a) steps
                (fun j resultIds =>
                   forM (indices dim) (fun i resultIds => assignVariateId i j resultIds)
                     resultIds)
                (repeat (repeat 0 (N.to_nat steps)) (N.to_nat dim))) as Hloops.
  cbv beta in Hloops.
  specialize (Hloops
    (fun j a Hj =>
       holds_forM_indices False False (fun _ => False)
         (fun (_ : N) a s => counting_from s0 s /\ shaped dim steps a) dim
         (fun i resultIds => assignVariateId i j resultIds) a
         (fun i a' Hi => assignVariateId_defined s0 dim steps i j a' Hi Hj))).
  specialize (Hloops s0).
  destruct (forM _ _ _ s0) as [a s | | |].
  - destruct Hloops as [[v ->] _].
    + split; [| apply shaped_allocated]. exists (nVars_ s0). destruct s0. reflexivity.
    + exists a, v. reflexivity.
  - exfalso. apply Hloops. split; [| apply shaped_allocated].
    exists (nVars_ s0). destruct s0. reflexivity.
  - exfalso. apply Hloops. split; [| apply shaped_allocated].
    exists (nVars_ s0). destruct s0. reflexivity.
  - exfalso. apply Hloops. split; [| apply shaped_allocated].
    exists (nVars_ s0). destruct s0. reflexivity.
Qed.

Lemma createInputVariates_returns (fuel : nat) (dim steps n : N) (c : OpenClContext) :
  wf c ->
  currentState_ c = createInput \/ currentState_ c = createVariates ->
  hasKernel_ c !! N.to_nat (currentId_ c -% 1) = Some false ->
  size_ c !! N.to_nat (currentId_ c -% 1) = Some n ->
  quiet c ->
  0 < nVariates_ c +% dim *% steps ->
  is_size_t ((nVariates_ c +% dim *% steps) *% n + 623) ->
  (nVariates_ c +% dim *% steps) *% n <= variatesPoolSize_ c + 624 * N.of_nat fuel ->
  exists resultIds c',
    createInputVariates fuel dim steps c = Returned resultIds c' /\ quiet c'.
Proof.
  intros Hwf Hstate Hkernel Hsize Hquiet Hsome Hroom Hfuel.
  assert (ComputeState_eqb (currentState_ c) createInput
          || ComputeState_eqb (currentState_ c) createVariates = true) as Hvalid
    by (destruct Hstate as [-> | ->]; reflexivity).
  assert ((0 <? currentId_ c) = true) as Hid.
  { apply N.ltb_lt, (wf_busy c Hwf). destruct Hstate as [-> | ->]; discriminate. }
  unfold createInputVariates. unfold bind at 1. unfold get.
  rewrite Hvalid. cbn [QL_REQUIRE]. unfold bind at 1. unfold ret at 1.
  rewrite Hid. cbn [QL_REQUIRE]. unfold bind at 1. unfold ret at 1.
  unfold bind at 1. unfold vec_get. rewrite Hkernel. unfold ret at 1.
  cbn [negb QL_REQUIRE]. unfold bind at 1. unfold ret at 1.
  unfold bind at 1. unfold modify at 1. unfold bind at 1.
  destruct (assignVariateId_loops_defined (set_currentState_ createVariates c) dim steps)
    as (a & v & ->).
  unfold bind at 1. unfold modify at 1. ctx_simpl. unfold bind at 1.
  match goal with |- context [updateVariatesPool fuel ?s] =>
    destruct (updateVariatesPool_returns fuel n s) as (c' & -> & _ & Hquiet')
  end; ctx_simpl; try assumption.
  - apply Hwf.
  - exists a, c'. split; [reflexivity | exact Hquiet'].
Qed.

(** C10.  In a calculation without kernel, in state [createInput] or
    [createVariates], on a device that answers every call with
    [CL_SUCCESS], and when the variates requested so far fit the pool's
    address range, [createInputVariates dim steps] returns (given the fuel
    for the blocks the pool grows by).  With [v] the variable counter before
    the call, the id matrix holds [v + j * dim + i] at row [i] and column
    [j] for all [i < dim] and [j < steps], the variable counter has advanced
    to [v + dim * steps], and the variate counter has grown by
    [dim * steps].  The sums are those of [std::size_t]; when
    [v + dim * steps] and the new variate count are representable they are
    the plain sums. *)
Theorem createInputVariates_ids (fuel : nat) (dim steps n : N) (c : OpenClContext)
    (Hwf : wf c)
    (Hstate : currentState_ c = createInput \/ currentState_ c = createVariates)
    (Hkernel : hasKernel_ c !! N.to_nat (currentId_ c -% 1) = Some false)
    (Hsize : size_ c !! N.to_nat (currentId_ c -% 1) = Some n)
    (Hquiet : quiet c)
    (Hsome : 0 < nVariates_ c +% dim *% steps)
    (Hroom : is_size_t ((nVariates_ c +% dim *% steps) *% n + 623))
    (Hfuel : (nVariates_ c +% dim *% steps) *% n
               <= variatesPoolSize_ c + 624 * N.of_nat fuel) :
  exists (resultIds : list (list N)) (c' : OpenClContext),
    createInputVariates fuel dim steps c = Returned resultIds c' /\
    (forall i j, i < dim -> j < steps ->
       exists row,
         resultIds !! N.to_nat i = Some row /\
         row !! N.to_nat j = Some (SizeT.wrap (nVars_ c + (j * dim + i)))) /\
    nVars_ c' = SizeT.wrap (nVars_ c + dim * steps) /\
    nVariates_ c' = nVariates_ c +% dim *% steps /\
    (is_size_t (nVars_ c + dim * steps) -> is_size_t (nVariates_ c + dim * steps) ->
       (forall i j, i < dim -> j < steps ->
          exists row,
            resultIds !! N.to_nat i = Some row /\
            row !! N.to_nat j = Some (nVars_ c + j * dim + i)) /\
       nVars_ c' = nVars_ c + dim * steps /\
       nVariates_ c' = nVariates_ c + dim * steps).
Proof.
  destruct (createInputVariates_returns fuel dim steps n c
              Hwf Hstate Hkernel Hsize Hquiet Hsome Hroom Hfuel)
    as (resultIds & c' & Hrun & _).
  exists resultIds, c'. split; [exact Hrun |].
  exact (createInputVariates_returned_ids fuel dim steps c c' resultIds
           (wf_nVars c Hwf) Hrun).
Qed.

Lemma one_input_wf : wf one_input.
Proof. concrete_wf. Qed.

Lemma createInputVariates_ids_witness :
  exists (resultIds : list (list N)) (c' : OpenClContext),
    createInputVariates 8 2 3 one_input = Returned resultIds c' /\
    (forall i j, i < 2 -> j < 3 ->
       exists row,
         resultIds !! N.to_nat i = Some row /\
         row !! N.to_nat j = Some (SizeT.wrap (nVars_ one_input + (j * 2 + i)))) /\
    nVars_ c' = SizeT.wrap (nVars_ one_input + 2 * 3) /\
    nVariates_ c' = nVariates_ one_input +% 2 *% 3 /\
    (is_size_t (nVars_ one_input + 2 * 3) -> is_size_t (nVariates_ one_input + 2 * 3) ->
       (forall i j, i < 2 -> j < 3 ->
          exists row,
            resultIds !! N.to_nat i = Some row /\
            row !! N.to_nat j = Some (nVars_ one_input + j * 2 + i)) /\
       nVars_ c' = nVars_ one_input + 2 * 3 /\
       nVariates_ c' = nVariates_ one_input + 2 * 3).
Proof.
  apply (createInputVariates_ids 8 2 3 4 one_input one_input_wf).
  - left. vm_compute. reflexivity.
  - vm_compute. reflexivity.
  - vm_compute. reflexivity.
  - vm_compute. reflexivity.
  - vm_compute. reflexivity.
  - vm_compute. reflexivity.
  - vm_compute. discriminate.
Defined.

(** The counters of this run, computed. *)
Lemma createInputVariates_2x3 :
  nVars_ one_input = 1 /\ nVariates_ one_input = 0 /\
  createInputVariates 8 2 3 one_input = Returned [[1; 3; 5]; [2; 4; 6]] variates_2x3 /\
  nVars_ variates_2x3 = 7 /\ nVariates_ variates_2x3 = 6 /\
  variatesPoolSize_ variates_2x3 = 624.
Proof. conjs; by_computation. Qed.

(** X2.  On a device that answers every call with [CL_SUCCESS], for a
    calculation of batch size [n] with at least one variate, a pool whose
    size is a multiple of 624 and a demand [nVariates_ * n] that leaves room
    for one more block below [2^64], [updateVariatesPool] returns (given
    the fuel for the blocks it adds): the pool keeps its size when that
    covers the demand, and otherwise has the demand rounded up to the next
    multiple of 624. *)
Theorem updateVariatesPool_grows (fuel : nat) (n : N) (c : OpenClContext)
    (Hsome : 0 < nVariates_ c)
    (Hsize : size_ c !! N.to_nat (currentId_ c -% 1) = Some n)
    (Hquiet : quiet c)
    (Haligned : variatesPoolSize_ c mod 624 = 0)
    (Hroom : is_size_t (nVariates_ c *% n + 623))
    (Hfuel : nVariates_ c *% n <= variatesPoolSize_ c + 624 * N.of_nat fuel) :
  exists c',
    updateVariatesPool fuel c = Returned tt c' /\
    variatesPoolSize_ c'
      = if nVariates_ c *% n <=? variatesPoolSize_ c
        then variatesPoolSize_ c
        else 624 * ((nVariates_ c *% n + 623) / 624).
Proof.
  destruct (updateVariatesPool_returns fuel n c Hsome Hsize Hquiet Haligned Hroom Hfuel)
    as (c' & Hrun & [_ (n' & Hn' & _ & Hpool)] & _).
  rewrite Hsize in Hn'. injection Hn' as <-.
  exists c'. split; [exact Hrun |].
  destruct (nVariates_ c *% n <=? variatesPoolSize_ c); [exact Hpool |].
  destruct Hpool as [Hnew Hcover]. rewrite Hnew in *.
  apply (alignedSize_of_rounds_up _ (mul_is_size_t _ _) Hcover).
Qed.

Lemma updateVariatesPool_grows_witness :
  exists c',
    updateVariatesPool 8 demand_628 = Returned tt c' /\
    variatesPoolSize_ c'
      = if nVariates_ demand_628 *% 4 <=? variatesPoolSize_ demand_628
        then variatesPoolSize_ demand_628
        else 624 * ((nVariates_ demand_628 *% 4 + 623) / 624).
Proof.
  apply (updateVariatesPool_grows 8 4 demand_628).
  - vm_compute. reflexivity.
  - vm_compute. reflexivity.
  - vm_compute. reflexivity.
  - vm_compute. reflexivity.
  - vm_compute. reflexivity.
  - vm_compute. discriminate.
Defined.

(** ** [finalizeCalculation] on the first evaluation *)

(** Finalising the first evaluation builds and caches the kernel and
    returns; when the build is refused the call throws.  The state is
    [idle] after both. *)
Lemma finalizeCalculation_first_evaluation :
  (exists c',
     finalizeCalculation [1000] (after first_evaluation) = Returned tt c' /\
     currentState_ c' = idle /\ hasKernel_ c' = [true]) /\
  (exists what c',
     finalizeCalculation [1000] build_refused = Thrown what c' /\
     currentState_ c' = idle /\ hasKernel_ c' = [false]).
Proof. split; [eexists | eexists _, _]; conjs; by_computation. Qed.

(** ** The health checks release what they create *)

Lemma objects_created_app (i : nat) (a b : list (ClCall * cl_int)) :
  objects_created i (a ++ b) = objects_created i a ++ objects_created (i + length a) b.
Proof.
  revert i. induction a as [| [call err] a IH]; intros i; simpl.
  - rewrite Nat.add_0_r. reflexivity.
  - rewrite IH, <- app_assoc. do 3 f_equal. lia.
Qed.

Lemma objects_released_app (a b : list (ClCall * cl_int)) :
  objects_released (a ++ b) = objects_released a ++ objects_released b.
Proof.
  induction a as [| [call err] a IH]; simpl; [reflexivity |].
  rewrite IH, app_assoc. reflexivity.
Qed.

Lemma tally_refl (c : OpenClContext) : tally c [] [] c.
Proof.
  split; [apply device_only_refl |]. exists []. rewrite app_nil_r. auto.
Qed.

Lemma tally_trans (a b c : OpenClContext) (cr1 rl1 cr2 rl2 : list cl_handle) :
  tally a cr1 rl1 b -> tally b cr2 rl2 c -> tally a (cr1 ++ cr2) (rl1 ++ rl2) c.
Proof.
  intros [Hab (new1 & Hlog1 & Hcr1 & Hrl1)] [Hbc (new2 & Hlog2 & Hcr2 & Hrl2)].
  split; [exact (device_only_trans a b c Hab Hbc) |].
  exists (new1 ++ new2). split; [| split].
  - rewrite Hlog2, Hlog1, app_assoc. reflexivity.
  - rewrite objects_created_app, Hcr1. rewrite Hlog1, length_app in Hcr2.
    rewrite Hcr2. reflexivity.
  - rewrite objects_released_app, Hrl1, Hrl2. reflexivity.
Qed.

(** One device call, as the tally sees it. *)
Lemma tally_answered (c s : OpenClContext) (cr rl : list cl_handle) (call : ClCall) :
  tally c cr rl s ->
  tally c
    (cr ++ (if creates_object call && is_success (next_reply s) then [fresh_handle s] else []))
    (rl ++ released_by call) (answered call s).
Proof.
  intros [Hdev (new & Hlog & Hcr & Hrl)].
  split; [apply device_only_answered; exact Hdev |].
  exists (new ++ [(call, next_reply s)]). split; [| split].
  - unfold answered. ctx_simpl. rewrite Hlog, app_assoc. reflexivity.
  - rewrite objects_created_app, Hcr. cbn [objects_created]. rewrite app_nil_r.
    unfold fresh_handle. rewrite Hlog, length_app. reflexivity.
  - rewrite objects_released_app, Hrl. cbn [objects_released]. rewrite app_nil_r.
    reflexivity.
Qed.

Lemma tally_cl {B : Type} (ub oof : Prop) (c : OpenClContext) (cr rl : list cl_handle)
    (call : ClCall) (k : cl_int * cl_handle -> M OpenClContext B)
    (Q : B -> OpenClContext -> Prop) (E : OpenClContext -> Prop) :
  (forall err h,
      holds ub oof
        (tally c (cr ++ (if creates_object call && is_success err then [h] else []))
           (rl ++ released_by call))
        (k (err, h)) Q E) ->
  holds ub oof (tally c cr rl) (bind (cl call) k) Q E.
Proof.
  intros Hk s Hs. unfold bind, cl. apply Hk, tally_answered, Hs.
Qed.

Lemma balanced_trans (a b c : OpenClContext) : balanced a b -> balanced b c -> balanced a c.
Proof.
  intros [o1 H1] [o2 H2]. exists (o1 ++ o2). exact (tally_trans a b c _ _ _ _ H1 H2).
Qed.

(** One step through code that only talks to the device. *)
Ltac tally_step :=
  lazymatch goal with
  | |- holds _ _ _ (bind (bind _ _) _) _ _ => apply holds_assoc
  | |- holds _ _ _ (bind (cl _) _) _ _ =>
      apply tally_cl; intros ? ?; cbn [creates_object released_by andb]
  | |- holds _ _ _ (bind (ret _) _) _ _ => apply holds_bind_ret
  | |- holds _ _ _ (if negb (is_success ?e) then _ else _) _ _ =>
      destruct (is_success e); cbn [negb andb]
  | |- holds _ _ _ (ret _) _ _ =>
      apply holds_ret; intros ? ?; eexists;
      repeat rewrite app_nil_r in *; repeat rewrite <- app_assoc in *; cbn [app] in *;
      eassumption
  end.

(** A health check program releases what it created, on every way out, and
    always returns. *)
Lemma runHealthCheckProgram_balanced (source kernelName : string) (c : OpenClContext) :
  holds False False (balanced c) (runHealthCheckProgram source kernelName)
    (fun _ => balanced c) (fun _ => False).
Proof.
  intros s [objects Hs]. revert s Hs.
  change (holds False False (tally c objects objects)
            (runHealthCheckProgram source kernelName) (fun _ => balanced c) (fun _ => False)).
  unfold runHealthCheckProgram, releaseProgram, releaseKernel, releaseMem.
  repeat tally_step.
Qed.

Lemma runHealthChecks_holds (c : OpenClContext) :
  holds False False (balanced c) runHealthChecks (fun _ => balanced c) (fun _ => False).
Proof.
  unfold runHealthChecks.
  repeat (apply holds_bind; [apply runHealthCheckProgram_balanced | intros _]).
  apply runHealthCheckProgram_balanced.
Qed.

Lemma runHealthChecks_log (c : OpenClContext) :
  exists c', runHealthChecks c = Returned tt c' /\ balanced c c'.
Proof.
  pose proof (runHealthChecks_holds c c (ex_intro _ [] (tally_refl c))) as H.
  destruct (runHealthChecks c) as [[] c' | what c' | |]; try contradiction.
  exists c'. split; [reflexivity | exact H].
Qed.

(** X3.  The device health checks never throw and never leak.
    [runHealthChecks] always returns, whichever of its device calls fail, and
    the programs, kernels and buffers that its successful
    [clCreateProgramWithSource], [clCreateKernel] and [clCreateBuffer] calls
    created are exactly the objects its [clReleaseProgram],
    [clReleaseKernel] and [clReleaseMemObject] calls release, in the same
    order. *)
Theorem runHealthChecks_balanced (c : OpenClContext) :
  exists c', runHealthChecks c = Returned tt c' /\ leak_free c c'.
Proof.
  destruct (runHealthChecks_log c) as (c' & Hrun & objects & _ & new & Hlog & Hcreated & Hreleased).
  exists c'. split; [exact Hrun |].
  exists new. split; [exact Hlog |]. rewrite Hcreated, Hreleased. reflexivity.
Qed.

(** ** [init]: the retry loop and the two flags *)

Lemma createContextLoop_done (remaining : nat) (err : cl_int) (c : OpenClContext) :
  is_success err = true -> createContextLoop remaining err c = Returned err c.
Proof. intros H. destruct remaining; simpl; [| rewrite H]; reflexivity. Qed.

Lemma refused_app (a b : list cl_int) : refused (a ++ b) = refused a ++ refused b.
Proof. unfold refused. apply flat_map_app. Qed.

Lemma is_success_eq (err : cl_int) : is_success err = true -> err = CL_SUCCESS.
Proof. unfold is_success. apply Z.eqb_eq. Qed.

(** The loop, started with a failing status: it stops at the first
    accepted attempt, or after [remaining] refused ones. *)
Lemma createContextLoop_log (remaining : nat) (err : cl_int) (c : OpenClContext) :
  is_success err = false ->
  exists err' c',
    createContextLoop remaining err c = Returned err' c' /\
    healthy_ c' = healthy_ c /\ initialized_ c' = initialized_ c /\
    if (refusals (cl_replies c) <? remaining)%nat
    then err' = CL_SUCCESS /\
         cl_calls c'
           = cl_calls c ++ refused (take (refusals (cl_replies c)) (cl_replies c))
               ++ [(clCreateContext, CL_SUCCESS)] /\
         cl_replies c' = drop (S (refusals (cl_replies c))) (cl_replies c) /\
         context_ c'
           = N.of_nat (length (cl_calls c) + 2 * refusals (cl_replies c) + 1)
    else is_success err' = false /\
         cl_calls c' = cl_calls c ++ refused (take remaining (cl_replies c)).
Proof.
  revert err c. induction remaining as [| remaining IH]; intros err c Herr.
  - exists err, c. simpl. rewrite app_nil_r. auto.
  - simpl createContextLoop. rewrite Herr. exec_unfold. unfold answered, next_reply, fresh_handle. ctx_simpl.
    destruct (cl_replies c) as [| r replies] eqn:Hreplies; cbn [hd tl refusals].
    + change (is_success CL_SUCCESS) with true. cbn [negb]. ctx_simpl.
      rewrite createContextLoop_done by reflexivity.
      eexists _, _. split; [reflexivity |]. ctx_simpl. rewrite ?Hreplies.
      cbn [Nat.ltb Nat.leb refusals take drop refused flat_map app].
      repeat split; try reflexivity. f_equal. lia.
    + destruct (is_success r) eqn:Hr; cbn [negb]; ctx_simpl.
      * rewrite createContextLoop_done by exact Hr.
        eexists _, _. split; [reflexivity |]. ctx_simpl. rewrite ?Hreplies.
        cbn [Nat.ltb Nat.leb take drop refused flat_map app].
        apply is_success_eq in Hr. subst r.
        repeat split; try reflexivity. f_equal. lia.
      * match goal with |- context [createContextLoop remaining r ?s] =>
          destruct (IH r s Hr) as (err' & c' & -> & Hh & Hi & Hlog) end.
        ctx_simpl in Hh. ctx_simpl in Hi. ctx_simpl in Hlog.
        exists err', c'. split; [reflexivity |]. split; [exact Hh |]. split; [exact Hi |].
        rewrite ?Hreplies.
        change (S (refusals replies) <? S remaining)%nat
          with (refusals replies <? remaining)%nat.
        destruct (refusals replies <? remaining)%nat.
        -- destruct Hlog as (-> & Hcalls & Hrest & Hctx).
           split; [reflexivity |]. split; [| split].
           ++ rewrite Hcalls. cbn [take refused flat_map app].
              repeat rewrite <- app_assoc. reflexivity.
           ++ exact Hrest.
           ++ rewrite Hctx. rewrite !length_app. cbn [length]. f_equal. lia.
        -- destruct Hlog as (Hfail & Hcalls). split; [exact Hfail |].
           rewrite Hcalls. cbn [take refused flat_map app].
           repeat rewrite <- app_assoc. reflexivity.
Qed.

(** [init] on a healthy context that is not initialised yet, by cases on
    the outcome of the retry loop and of the queue creation. *)
Lemma init_cases (err0 : cl_int) (c : OpenClContext) :
  healthy_ c = true -> initialized_ c = false ->
  exists err c1,
    createContextLoop 10 err0 (set_healthy_ false (set_numberOfOperations 0 c))
      = Returned err c1 /\
    init err0 c =
      if is_success err then
        if is_success (next_reply c1) then
          runHealthChecks
            (set_healthy_ true
               (set_initialized_ true
                  (set_queue_ (fresh_handle c1)
                     (answered (clCreateCommandQueue (context_ c1)) c1))))
        else
          Thrown "OpenClContext::OpenClContext(): error during clCreateCommandQueue(): "
            (set_queue_ (fresh_handle c1) (answered (clCreateCommandQueue (context_ c1)) c1))
      else Thrown "OpenClContext::OpenClContext(): error during clCreateContext(): " c1.
Proof.
  intros Hhealthy Hinit.
  destruct (createContextLoop_healthy 10 err0 (set_healthy_ false (set_numberOfOperations 0 c)))
    as (err & c1 & Hloop & _ & _).
  exists err, c1. split; [exact Hloop |].
  unfold init. unfold bind at 1. unfold get. unfold bind at 1.
  rewrite Hhealthy. cbn [QL_REQUIRE ret]. rewrite Hinit.
  unfold bind at 1. unfold modify at 1. unfold bind at 1. unfold modify at 1.
  unfold bind at 1. rewrite Hloop.
  exec_unfold. ctx_simpl.
  destruct (is_success err); ctx_simpl; [| reflexivity].
  destruct (is_success (next_reply c1)); ctx_simpl; reflexivity.
Qed.

Lemma init_returned_flags (err0 : cl_int) (c c' : OpenClContext) :
  init err0 c = Returned tt c' -> healthy_ c' = true /\ initialized_ c' = true.
Proof.
  intros Hret.
  destruct (healthy_ c) eqn:Hhealthy.
  2: { unfold init in Hret. exec_unfold. rewrite Hhealthy in Hret. discriminate Hret. }
  destruct (initialized_ c) eqn:Hinit.
  { unfold init in Hret. exec_unfold. rewrite Hhealthy, Hinit in Hret.
    injection Hret as <-. auto. }
  destruct (init_cases err0 c Hhealthy Hinit) as (err & c1 & _ & Hcases).
  rewrite Hcases in Hret.
  destruct (is_success err); [| discriminate Hret].
  destruct (is_success (next_reply c1)); [| discriminate Hret].
  match type of Hret with runHealthChecks ?s = _ =>
    destruct (runHealthChecks_log s) as (c2 & Hchecks & [objects [Hdev _]]) end.
  rewrite Hchecks in Hret. injection Hret as <-.
  destruct Hdev as (calls & replies & ->). ctx_simpl. auto.
Qed.

(** X4.  [init] latches.  A call that returns leaves the context healthy
    and initialised, and every later [init] returns at once and changes
    nothing: no second context or command queue is created and the health
    checks are not run again. *)
Theorem init_idempotent (err0 : cl_int) (c c' : OpenClContext) :
  init err0 c = Returned tt c' ->
  healthy_ c' = true /\ initialized_ c' = true /\
  forall err1, init err1 c' = Returned tt c'.
Proof.
  intros Hret. destruct (init_returned_flags err0 c c' Hret) as [Hhealthy Hinit].
  split; [exact Hhealthy |]. split; [exact Hinit |].
  intros err1. unfold init. exec_unfold. rewrite Hhealthy, Hinit. reflexivity.
Qed.

Lemma init_idempotent_witness :
  healthy_ initialized_context = true /\ initialized_ initialized_context = true /\
  forall err1, init err1 initialized_context = Returned tt initialized_context.
Proof.
  apply (init_idempotent (-1)%Z fresh_context initialized_context). by_computation.
Defined.

(** X5.  [init] gives up after ten attempts.  On a healthy context that is
    not initialised, entered with a failing status in the local [err], a
    device that refuses [clCreateContext] ten times or more makes [init]
    throw after exactly ten attempts, each followed by a sleep of ten
    seconds, and nothing else; the context is left unhealthy and not
    initialised, so that every later [init] throws at once and changes
    nothing. *)
Theorem init_gives_up (err0 : cl_int) (c : OpenClContext) :
  healthy_ c = true -> initialized_ c = false -> is_success err0 = false ->
  (10 <= refusals (cl_replies c))%nat ->
  exists c',
    init err0 c
      = Thrown "OpenClContext::OpenClContext(): error during clCreateContext(): " c' /\
    cl_calls c' = cl_calls c ++ refused (take 10 (cl_replies c)) /\
    healthy_ c' = false /\ initialized_ c' = false /\
    forall err1,
      init err1 c'
        = Thrown
            "OpenClCOntext::init(): context is not healthy, check log for previous errors, aborting."
            c'.
Proof.
  intros Hhealthy Hinit Herr0 Hrefusals.
  destruct (init_cases err0 c Hhealthy Hinit) as (err & c1 & Hloop & Hcases).
  destruct (createContextLoop_log 10 err0
              (set_healthy_ false (set_numberOfOperations 0 c)) Herr0)
    as (err' & c1' & Hloop' & Hh & Hi & Hlog).
  rewrite Hloop in Hloop'. injection Hloop' as <- <-.
  ctx_simpl in Hh. ctx_simpl in Hi. ctx_simpl in Hlog.
  destruct (refusals (cl_replies c) <? 10)%nat eqn:Hlt;
    [apply Nat.ltb_lt in Hlt; lia |].
  destruct Hlog as [Hfail Hcalls]. rewrite Hfail in Hcases.
  exists c1. split; [exact Hcases |]. split; [exact Hcalls |].
  split; [exact Hh |]. split; [congruence |].
  intros err1. unfold init. exec_unfold. rewrite Hh. reflexivity.
Qed.

Lemma init_gives_up_witness :
  exists c',
    init (-1)%Z refusing_device
      = Thrown "OpenClContext::OpenClContext(): error during clCreateContext(): " c' /\
    cl_calls c' = cl_calls refusing_device ++ refused (take 10 (cl_replies refusing_device)) /\
    healthy_ c' = false /\ initialized_ c' = false /\
    forall err1,
      init err1 c'
        = Thrown
            "OpenClCOntext::init(): context is not healthy, check log for previous errors, aborting."
            c'.
Proof.
  apply (init_gives_up (-1)%Z refusing_device); reflexivity.
Defined.

(** X6.  [init] retries until the device accepts.  On a healthy context
    that is not initialised, entered with a failing status in [err], a
    device that refuses [clCreateContext] [k < 10] times makes [init] log
    [k] refused attempts, each followed by a sleep of ten seconds, then the
    accepted attempt, and then create the command queue on the context that
    the accepted attempt returned. *)
Theorem init_retries (err0 : cl_int) (c : OpenClContext) :
  healthy_ c = true -> initialized_ c = false -> is_success err0 = false ->
  (refusals (cl_replies c) < 10)%nat ->
  exists c' rest,
    state_after (init err0 c) = Some c' /\
    cl_calls c'
      = cl_calls c ++ refused (take (refusals (cl_replies c)) (cl_replies c))
          ++ (clCreateContext, CL_SUCCESS)
          :: (clCreateCommandQueue
                (N.of_nat (length (cl_calls c) + 2 * refusals (cl_replies c) + 1)),
              hd CL_SUCCESS (drop (S (refusals (cl_replies c))) (cl_replies c)))
          :: rest.
Proof.
  intros Hhealthy Hinit Herr0 Hrefusals.
  destruct (init_cases err0 c Hhealthy Hinit) as (err & c1 & Hloop & Hcases).
  destruct (createContextLoop_log 10 err0
              (set_healthy_ false (set_numberOfOperations 0 c)) Herr0)
    as (err' & c1' & Hloop' & Hh & Hi & Hlog).
  rewrite Hloop in Hloop'. injection Hloop' as <- <-.
  ctx_simpl in Hh. ctx_simpl in Hi. ctx_simpl in Hlog.
  apply Nat.ltb_lt in Hrefusals. rewrite Hrefusals in Hlog.
  destruct Hlog as (-> & Hcalls & Hreplies & Hctx).
  change (is_success CL_SUCCESS) with true in Hcases. cbv iota in Hcases.
  rewrite Hcases. unfold next_reply. rewrite Hreplies, Hctx.
  match goal with |- context [if is_success ?e then _ else _] => destruct (is_success e) end.
  - match goal with |- context [runHealthChecks ?s] =>
      destruct (runHealthChecks_log s)
        as (c2 & -> & [objects [_ (new & Hnew & _)]]) end.
    ctx_simpl in Hnew. unfold next_reply in Hnew.
    rewrite ?Hreplies, ?Hctx, ?Hcalls in Hnew.
    exists c2, new. split; [reflexivity |]. rewrite Hnew.
    repeat rewrite <- app_assoc. reflexivity.
  - eexists _, []. split; [reflexivity |]. ctx_simpl. unfold next_reply.
    rewrite ?Hreplies, ?Hctx, ?Hcalls. repeat rewrite <- app_assoc. reflexivity.
Qed.

Lemma init_retries_witness :
  exists c' rest,
    state_after (init (-1)%Z reluctant_device) = Some c' /\
    cl_calls c'
      = cl_calls reluctant_device
          ++ refused (take (refusals (cl_replies reluctant_device)) (cl_replies reluctant_device))
          ++ (clCreateContext, CL_SUCCESS)
          :: (clCreateCommandQueue
                (N.of_nat (length (cl_calls reluctant_device)
                           + 2 * refusals (cl_replies reluctant_device) + 1)),
              hd CL_SUCCESS
                 (drop (S (refusals (cl_replies reluctant_device))) (cl_replies reluctant_device)))
          :: rest.
Proof.
  apply (init_retries (-1)%Z reluctant_device); try reflexivity.
  vm_compute. lia.
Defined.

(** X7.  [init] trusts the unset status.  The local [err] is read by the
    loop condition before anything is assigned to it: when the value found
    there is [CL_SUCCESS], a healthy context that is not initialised makes no
    attempt to create an OpenCL context at all, and the first device call of
    [init] creates the command queue on the [context_] member as it stood. *)
Theorem init_unset_status (err0 : cl_int) (c : OpenClContext) :
  healthy_ c = true -> initialized_ c = false -> is_success err0 = true ->
  exists c' rest,
    state_after (init err0 c) = Some c' /\
    cl_calls c' = cl_calls c ++ (clCreateCommandQueue (context_ c), next_reply c) :: rest.
Proof.
  intros Hhealthy Hinit Herr0.
  destruct (init_cases err0 c Hhealthy Hinit) as (err & c1 & Hloop & Hcases).
  rewrite createContextLoop_done in Hloop by exact Herr0.
  injection Hloop as <- <-. rewrite Herr0 in Hcases. rewrite Hcases.
  unfold next_reply. ctx_simpl.
  match goal with |- context [if is_success ?e then _ else _] => destruct (is_success e) end.
  - match goal with |- context [runHealthChecks ?s] =>
      destruct (runHealthChecks_log s)
        as (c2 & -> & [objects [_ (new & Hnew & _)]]) end.
    ctx_simpl in Hnew.
    exists c2, new. split; [reflexivity |]. rewrite Hnew.
    repeat rewrite <- app_assoc. reflexivity.
  - eexists _, []. split; reflexivity.
Qed.

Lemma init_unset_status_witness :
  exists c' rest,
    state_after (init 0%Z fresh_context) = Some c' /\
    cl_calls c'
      = cl_calls fresh_context
          ++ (clCreateCommandQueue (context_ fresh_context), next_reply fresh_context) :: rest.
Proof.
  apply (init_unset_status 0%Z fresh_context); reflexivity.
Defined.

(** ** [freeVariable] and the order of the calls *)

(** [applyOperation] on a calculation under construction: it returns the
    next result id. *)
Lemma applyOperation_runs (op : RandomVariableOpCode.t) (args : list N) (c : OpenClContext)
    (Hwf : wf c) (Hstate : currentState_ c <> idle)
    (Hkernel : hasKernel_ c !! N.to_nat (currentId_ c -% 1) = Some false)
    (Hop : supported op = true) (Harity : (arity op <= length args)%nat) :
  exists c',
    applyOperation op args c = Returned (next_result_id c) c' /\
    currentState_ c' = calc /\
    freedVariables_ c' = removelast (freedVariables_ c) /\
    same_calculation c c'.
Proof.
  pose proof (wf_busy c Hwf Hstate) as Hpos.
  destruct (wf_lookup_size c Hwf Hpos) as [n Hsize].
  apply N.ltb_lt in Hpos. apply not_idle_check in Hstate.
  unfold next_result_id, same_calculation.
  unfold applyOperation. unfold bind at 1. unfold get. unfold bind at 1.
  rewrite Hstate. cbn [QL_REQUIRE ret].
  unfold bind at 1. unfold modify at 1. unfold bind at 1.
  rewrite Hpos. cbn [QL_REQUIRE ret].
  unfold bind at 1. unfold vec_get at 1. rewrite Hkernel. cbn [ret].
  unfold bind at 1. cbn [negb QL_REQUIRE ret].
  unfold bind at 1.
  destruct (last (freedVariables_ c)) as [back |] eqn:Hlast.
  - unfold bind at 1. unfold modify at 1. cbn [ret]. cbv beta iota.
    unfold bind at 1.
    match goal with |- context [mapM (argName c) args ?s] =>
      destruct (mapM_argName_resolves c s n args Hwf Hsize) as (argStr & -> & Hall) end.
    unfold bind at 1.
    rewrite opExpression_table
      by (try assumption; rewrite <- (Forall2_length _ _ _ Hall); assumption).
    unfold bind at 1. unfold modify at 1.
    unfold bind, vec_get, ret, modify. rewrite ?Hsize.
    destruct (debug (settings_ c)); eexists; (split; [reflexivity |]); ctx_simpl; auto 6.
  - apply last_None in Hlast.
    unfold post_increment_nVars. unfold bind at 1. unfold bind at 1. unfold get.
    unfold bind at 1. unfold modify at 1. cbn [ret]. cbv beta iota.
    unfold bind at 1.
    match goal with |- context [mapM (argName c) args ?s] =>
      destruct (mapM_argName_resolves c s n args Hwf Hsize) as (argStr & -> & Hall) end.
    unfold bind at 1.
    rewrite opExpression_table
      by (try assumption; rewrite <- (Forall2_length _ _ _ Hall); assumption).
    unfold bind at 1. unfold modify at 1.
    unfold bind, vec_get, ret, modify. rewrite ?Hsize.
    destruct (debug (settings_ c)); eexists; (split; [reflexivity |]); ctx_simpl;
      rewrite Hlast; auto 6.
Qed.

(** [freeVariable] in a calculation under construction. *)
Lemma freeVariable_runs (id : N) (c : OpenClContext)
    (Hwf : wf c) (Hstate : currentState_ c = calc)
    (Hkernel : hasKernel_ c !! N.to_nat (currentId_ c -% 1) = Some false) :
  freeVariable id c
    = Returned tt
        (if id <? vec_size (inputVarOffset_ c) +% nVariates_ c then c
         else set_freedVariables_ (freedVariables_ c ++ [id]) c).
Proof.
  assert (currentState_ c <> idle) as Hbusy by (rewrite Hstate; discriminate).
  pose proof (wf_busy c Hwf Hbusy) as Hpos. apply N.ltb_lt in Hpos.
  unfold freeVariable. exec_unfold. rewrite Hstate, Hpos, Hkernel. cbn.
  destruct (id <? vec_size (inputVarOffset_ c) +% nVariates_ c); reflexivity.
Qed.

Lemma set_freedVariables_wf (l : list N) (c : OpenClContext) :
  wf c -> wf (set_freedVariables_ l c).
Proof. intros []. constructor; ctx_simpl; assumption. Qed.

Lemma one_operation_wf : wf one_operation.
Proof. concrete_wf. Qed.

(** X8.  Freed ids are recycled last in, first out, and [freeVariable]
    does not check that an id is live.  In a calculation under construction
    (state [calc], no kernel yet), after [freeVariable a] and
    [freeVariable b] for two ids that are neither inputs nor variates, the
    next [applyOperation] returns [b] and the one after it returns [a].
    Nothing requires [a] and [b] to differ: an id freed twice is handed out
    twice, to two results that are live at the same time. *)
Theorem freeVariable_last_in_first_out (a b : N) (op1 op2 : RandomVariableOpCode.t)
    (args1 args2 : list N) (c : OpenClContext)
    (Hwf : wf c) (Hstate : currentState_ c = calc)
    (Hkernel : hasKernel_ c !! N.to_nat (currentId_ c -% 1) = Some false)
    (Ha : is_intermediate c a) (Hb : is_intermediate c b)
    (Hop1 : supported op1 = true) (Harity1 : (arity op1 <= length args1)%nat)
    (Hop2 : supported op2 = true) (Harity2 : (arity op2 <= length args2)%nat) :
  exists c1 c2 c3 c4,
    freeVariable a c = Returned tt c1 /\
    freeVariable b c1 = Returned tt c2 /\
    applyOperation op1 args1 c2 = Returned b c3 /\
    applyOperation op2 args2 c3 = Returned a c4.
Proof.
  unfold is_intermediate in Ha, Hb.
  pose proof (freeVariable_runs a c Hwf Hstate Hkernel) as Hfree1. rewrite Ha in Hfree1.
  pose proof (set_freedVariables_wf (freedVariables_ c ++ [a]) c Hwf) as Hwf1.
  pose proof (freeVariable_runs b _ Hwf1 Hstate Hkernel) as Hfree2.
  ctx_simpl in Hfree2. rewrite Hb in Hfree2.
  pose proof (set_freedVariables_wf ((freedVariables_ c ++ [a]) ++ [b]) c Hwf) as Hwf2.
  assert (currentState_ (set_freedVariables_ ((freedVariables_ c ++ [a]) ++ [b]) c) <> idle)
    as Hbusy2 by (ctx_simpl; rewrite Hstate; discriminate).
  destruct (applyOperation_runs op1 args1 _ Hwf2 Hbusy2 Hkernel Hop1 Harity1)
    as (c3 & Hop & Hstate3 & Hfreed3 & Hk3 & Hid3 & _).
  unfold next_result_id in Hop. ctx_simpl in Hop. rewrite last_snoc in Hop.
  ctx_simpl in Hfreed3. rewrite removelast_last in Hfreed3.
  ctx_simpl in Hk3. ctx_simpl in Hid3.
  pose proof (applyOperation_wf op1 args1 _ Hwf2) as Hwf3. rewrite Hop in Hwf3.
  assert (currentState_ c3 <> idle) as Hbusy3 by (rewrite Hstate3; discriminate).
  assert (hasKernel_ c3 !! N.to_nat (currentId_ c3 -% 1) = Some false) as Hkernel3
    by (rewrite Hk3, Hid3; exact Hkernel).
  destruct (applyOperation_runs op2 args2 c3 Hwf3 Hbusy3 Hkernel3 Hop2 Harity2)
    as (c4 & Hop' & _).
  unfold next_result_id in Hop'. rewrite Hfreed3, last_snoc in Hop'.
  eexists _, _, c3, c4. split; [exact Hfree1 |]. ctx_simpl.
  split; [exact Hfree2 |]. split; [exact Hop | exact Hop'].
Qed.

Lemma freeVariable_last_in_first_out_witness :
  exists c1 c2 c3 c4,
    freeVariable 1 one_operation = Returned tt c1 /\
    freeVariable 1 c1 = Returned tt c2 /\
    applyOperation RandomVariableOpCode.Abs [0] c2 = Returned 1 c3 /\
    applyOperation RandomVariableOpCode.Exp [0] c3 = Returned 1 c4.
Proof.
  apply (freeVariable_last_in_first_out 1 1 RandomVariableOpCode.Abs RandomVariableOpCode.Exp
           [0] [0] one_operation one_operation_wf).
  - by_computation.
  - by_computation.
  - by_computation.
  - by_computation.
  - reflexivity.
  - apply le_n.
  - reflexivity.
  - apply le_n.
Defined.

(** X9.  Inputs come before operations.  Once [applyOperation] has
    returned, the calculation is in state [calc]: both overloads of
    [createInputVariable] and [createInputVariates] throw and leave the
    context as it is, whatever their arguments. *)
Theorem no_inputs_after_operations (op : RandomVariableOpCode.t) (args : list N)
    (c : OpenClContext)
    (Hwf : wf c) (Hstate : currentState_ c <> idle)
    (Hkernel : hasKernel_ c !! N.to_nat (currentId_ c -% 1) = Some false)
    (Hop : supported op = true) (Harity : (arity op <= length args)%nat) :
  exists r c',
    applyOperation op args c = Returned r c' /\
    (forall x,
       createInputVariable x c'
         = Thrown "OpenClContext::createInputVariable(): not in state createInput" c') /\
    (forall fuel dim steps,
       createInputVariates fuel dim steps c'
         = Thrown
             "OpenClContext::createInputVariable(): not in state createInput or createVariates"
             c').
Proof.
  destruct (applyOperation_runs op args c Hwf Hstate Hkernel Hop Harity)
    as (c' & Hret & Hcalc & _).
  exists (next_result_id c), c'. split; [exact Hret |]. split.
  - intros [v | v]; unfold createInputVariable, createInputVariable_scalar,
      createInputVariable_vector; exec_unfold; rewrite Hcalc; reflexivity.
  - intros fuel dim steps. unfold createInputVariates. exec_unfold. rewrite Hcalc. reflexivity.
Qed.

Lemma no_inputs_after_operations_witness :
  exists r c',
    applyOperation RandomVariableOpCode.Abs [0] one_operation = Returned r c' /\
    (forall x,
       createInputVariable x c'
         = Thrown "OpenClContext::createInputVariable(): not in state createInput" c') /\
    (forall fuel dim steps,
       createInputVariates fuel dim steps c'
         = Thrown
             "OpenClContext::createInputVariable(): not in state createInput or createVariates"
             c').
Proof.
  apply (no_inputs_after_operations RandomVariableOpCode.Abs [0] one_operation
           one_operation_wf).
  - vm_compute. discriminate.
  - by_computation.
  - reflexivity.
  - apply le_n.
Defined.

(** X10.  Nothing is accepted in state [idle].  On a context whose state
    is [idle] (as constructed, or after [finalizeCalculation] returned or
    threw) the calls that build a calculation all throw and leave the
    context as it is; only [initiateCalculation] leads out of [idle]. *)
Theorem idle_rejects (c : OpenClContext) (Hidle : currentState_ c = idle) :
  (forall x,
     createInputVariable x c
       = Thrown "OpenClContext::createInputVariable(): not in state createInput" c) /\
  (forall fuel dim steps,
     createInputVariates fuel dim steps c
       = Thrown
           "OpenClContext::createInputVariable(): not in state createInput or createVariates"
           c) /\
  (forall op args,
     applyOperation op args c
       = Thrown "OpenClContext::applyOperation(): not in state createInput or calc" c) /\
  (forall id,
     freeVariable id c = Thrown "OpenClContext::free(): not in state calc" c) /\
  (forall id,
     declareOutputVariable id c
       = Thrown "OpenClContext::declareOutputVariable(): state is idle" c).
Proof.
  conjs.
  - intros [v | v]; unfold createInputVariable, createInputVariable_scalar,
      createInputVariable_vector; exec_unfold; rewrite Hidle; reflexivity.
  - intros fuel dim steps. unfold createInputVariates. exec_unfold. rewrite Hidle. reflexivity.
  - intros op args. unfold applyOperation. exec_unfold. rewrite Hidle. reflexivity.
  - intros id. unfold freeVariable. exec_unfold. rewrite Hidle. reflexivity.
  - intros id. unfold declareOutputVariable. exec_unfold. rewrite Hidle. reflexivity.
Qed.

Lemma idle_rejects_witness :
  (forall x,
     createInputVariable x (after (first_evaluation ++ [call_finalizeCalculation [1000]]))
       = Thrown "OpenClContext::createInputVariable(): not in state createInput"
           (after (first_evaluation ++ [call_finalizeCalculation [1000]]))) /\
  (forall fuel dim steps,
     createInputVariates fuel dim steps
         (after (first_evaluation ++ [call_finalizeCalculation [1000]]))
       = Thrown
           "OpenClContext::createInputVariable(): not in state createInput or createVariates"
           (after (first_evaluation ++ [call_finalizeCalculation [1000]]))) /\
  (forall op args,
     applyOperation op args (after (first_evaluation ++ [call_finalizeCalculation [1000]]))
       = Thrown "OpenClContext::applyOperation(): not in state createInput or calc"
           (after (first_evaluation ++ [call_finalizeCalculation [1000]]))) /\
  (forall id,
     freeVariable id (after (first_evaluation ++ [call_finalizeCalculation [1000]]))
       = Thrown "OpenClContext::free(): not in state calc"
           (after (first_evaluation ++ [call_finalizeCalculation [1000]]))) /\
  (forall id,
     declareOutputVariable id (after (first_evaluation ++ [call_finalizeCalculation [1000]]))
       = Thrown "OpenClContext::declareOutputVariable(): state is idle"
           (after (first_evaluation ++ [call_finalizeCalculation [1000]]))).
Proof.
  apply (idle_rejects (after (first_evaluation ++ [call_finalizeCalculation [1000]]))).
  by_computation.
Defined.

(** ** [finalizeCalculation]: checks, buffers and the cached kernel *)

(** X11.  [finalizeCalculation] checks before it acts, and the guard acts
    anyway.  When the current id is 0, when the number of result buffers
    differs from the number of outputs that the record of the current
    calculation counts, or when double precision is configured on a device
    that does not support it, the call throws before any device call is made
    and any buffer is created; the only change is that the state machine is
    [idle] afterwards, so the calculation has to be initiated again. *)
Theorem finalizeCalculation_checks_first (output : list N) (c : OpenClContext) :
  finalize_refused output c ->
  exists what, finalizeCalculation output c = Thrown what (set_currentState_ idle c).
Proof.
  intros Hrefused.
  unfold finalizeCalculation, finalizeCalculation_body.
  unfold bind at 1. unfold on_this at 1. unfold get at 1. cbn [this guard_mem].
  unfold bind at 1.
  destruct Hrefused as [Hzero | (count & Hcount & Hbad)].
  { rewrite Hzero. cbn [N.ltb N.compare QL_REQUIRE throw]. eexists. reflexivity. }
  destruct (0 <? currentId_ c); cbn [QL_REQUIRE throw ret]; [| eexists; reflexivity].
  unfold bind at 1. unfold vec_get at 1. rewrite Hcount. cbn [ret].
  unfold bind at 1.
  destruct (vec_size output =? count) eqn:Hsize; cbn [QL_REQUIRE throw ret];
    [| eexists; reflexivity].
  destruct Hbad as [Hne | [Hdouble Hsupport]];
    [apply N.eqb_eq in Hsize; contradiction |].
  unfold bind at 1. rewrite Hdouble, Hsupport. cbn [negb orb QL_REQUIRE throw].
  eexists. reflexivity.
Qed.

Lemma finalizeCalculation_checks_first_witness :
  exists what,
    finalizeCalculation [] (after first_evaluation)
      = Thrown what (set_currentState_ idle (after first_evaluation)).
Proof.
  apply (finalizeCalculation_checks_first [] (after first_evaluation)).
  right. exists 1. split; [by_computation | left; discriminate].
Defined.

Lemma reusing_refl (c : OpenClContext) : reusing c c.
Proof. constructor; try reflexivity. exists []. rewrite app_nil_r. auto. Qed.

Lemma reusing_answered (c0 s : OpenClContext) (call : ClCall) :
  builds call = false -> reusing c0 s -> reusing c0 (answered call s).
Proof.
  intros Hcall [Hp Hk Hh Hi (new & Hlog & Hnew)]. constructor; ctx_simpl; try assumption.
  exists (new ++ [(call, next_reply s)]). rewrite Hlog, app_assoc. split; [reflexivity |].
  apply Forall_app. split; [exact Hnew |]. constructor; [exact Hcall | constructor].
Qed.

Ltac reuse_side :=
  idtac;
  cbv beta;
  try exact I;
  unfold on_frame in *; ctx_simpl;
  try assumption;
  try (apply reusing_answered; [reflexivity | assumption]).

Lemma release_all_reusing (c0 : OpenClContext) (mem : list cl_handle) (s : OpenClContext) :
  reusing c0 s -> reusing c0 (fold_left (fun c m => answered (clReleaseMemObject m) c) mem s).
Proof.
  revert s. induction mem as [| m mem IH]; intros s Hs; simpl; [exact Hs |].
  apply IH, reusing_answered; [reflexivity | exact Hs].
Qed.

Lemma finalizeCalculation_body_reusing (output : list N) (c0 : OpenClContext) :
  hasKernel_ c0 !! N.to_nat (currentId_ c0 -% 1) = Some true ->
  holds True True (on_frame (fun s => s = c0)) (finalizeCalculation_body output)
    (fun _ => on_frame (reusing c0)) (on_frame (reusing c0)).
Proof.
  intros Hcached.
  pose proof (reusing_refl c0) as Hrefl.
  unfold finalizeCalculation_body, readBack.
  apply holds_bind_on_this_get. intros c ->.
  apply (holds_consequence True True _ _
           (on_frame (reusing c0)) (on_frame (reusing c0)) _ _
           (fun _ => on_frame (reusing c0)));
    [| intros s Hs; unfold on_frame in *; rewrite Hs; exact Hrefl | auto | auto].
  holds_steps reuse_side.
  (* no kernel is built *)
  match goal with
  | Hk : hasKernel_ c0 !! _ = Some ?b, Hb : negb ?b = true |- _ =>
      rewrite Hcached in Hk; injection Hk as <-; discriminate Hb
  end.
Qed.

(** X12.  A cached kernel is reused.  When the current calculation has a
    kernel, [finalizeCalculation] on a well-formed context whose value vector
    of the configured precision holds a value for every element of the input
    buffer returns or throws without a single [clCreateProgramWithSource],
    [clBuildProgram] or [clCreateKernel] call, and leaves the cached programs,
    kernels, kernel flags and input buffer sizes of all calculations as they
    were. *)
Theorem finalizeCalculation_reuses_kernel (output : list N) (c : OpenClContext) :
  wf c -> inputs_stored c -> hasKernel_ c !! N.to_nat (currentId_ c -% 1) = Some true ->
  exists c', state_after (finalizeCalculation output c) = Some c' /\ reusing c c'.
Proof.
  intros Hwf Hstored Hcached.
  assert (finalize_safe c) as Hsafe.
  { split; [exact Hwf |]. split; [| exact Hstored].
    intros count Hk. rewrite Hcached in Hk. discriminate Hk. }
  pose proof (finalizeCalculation_body_defined output c Hsafe
                {| this := c; guard_mem := [] |} eq_refl) as Hdefined.
  pose proof (finalizeCalculation_body_reusing output c Hcached
                {| this := c; guard_mem := [] |} eq_refl) as Hreuse.
  unfold finalizeCalculation.
  destruct (finalizeCalculation_body output {| this := c; guard_mem := [] |})
    as [[] f | what f | |]; try contradiction.
  all: exists (exitGuard_dtor f); split; [reflexivity |].
  all: unfold exitGuard_dtor; apply release_all_reusing.
  all: destruct Hreuse; constructor; ctx_simpl; assumption.
Qed.

Lemma finalizeCalculation_reuses_kernel_witness :
  exists c',
    state_after (finalizeCalculation [1000] (after repeat_evaluation)) = Some c' /\
    reusing (after repeat_evaluation) c'.
Proof.
  apply (finalizeCalculation_reuses_kernel [1000] (after repeat_evaluation)
           repeat_evaluation_wf).
  - intros n Hn. vm_compute. discriminate.
  - by_computation.
Defined.

(** *** The guard releases the buffers *)

Lemma buffers_requested_app (i : nat) (a b : list (ClCall * cl_int)) :
  buffers_requested i (a ++ b)
    = buffers_requested i a ++ buffers_requested (i + length a) b.
Proof.
  revert i. induction a as [| [call err] a IH]; intros i; simpl.
  - rewrite Nat.add_0_r. reflexivity.
  - rewrite IH, <- app_assoc. do 3 f_equal. lia.
Qed.

Lemma logged_refl (c : OpenClContext) : logged c [] [] c.
Proof. exists []. rewrite app_nil_r. auto. Qed.

Lemma logged_answered (c0 s : OpenClContext) (requested released : list cl_handle)
    (call : ClCall) :
  logged c0 requested released s ->
  logged c0
    (requested ++ match call with clCreateBuffer _ => [fresh_handle s] | _ => [] end)
    (released ++ released_by call) (answered call s).
Proof.
  intros (new & Hlog & Hreq & Hrel).
  exists (new ++ [(call, next_reply s)]). split; [| split].
  - ctx_simpl. rewrite Hlog, app_assoc. reflexivity.
  - rewrite buffers_requested_app, Hreq. cbn [buffers_requested]. rewrite app_nil_r.
    unfold fresh_handle. rewrite Hlog, length_app. reflexivity.
  - rewrite objects_released_app, Hrel. cbn [objects_released]. rewrite app_nil_r.
    reflexivity.
Qed.

Lemma logged_plain (c0 s : OpenClContext) (requested released : list cl_handle)
    (call : ClCall) :
  plain call = true ->
  logged c0 requested released s -> logged c0 requested released (answered call s).
Proof.
  intros Hplain Hs. pose proof (logged_answered c0 s requested released call Hs) as H.
  destruct call; try discriminate Hplain; cbn [released_by] in H;
    rewrite !app_nil_r in H; exact H.
Qed.

Lemma logged_same_log (c0 s s' : OpenClContext) (requested released : list cl_handle) :
  cl_calls s' = cl_calls s -> logged c0 requested released s -> logged c0 requested released s'.
Proof. intros Hsame (new & Hlog & H). exists new. rewrite Hsame. auto. Qed.

Ltac logged_side :=
  idtac;
  cbv beta;
  try exact I;
  try assumption;
  try (apply logged_plain; [reflexivity | assumption]);
  try (eapply logged_same_log; [| eassumption]; reflexivity).

Lemma buildKernel_logged (c0 : OpenClContext) (requested : list cl_handle)
    (inputBufferSize outputBufferSize : N) :
  preserves True True (logged c0 requested []) (buildKernel inputBufferSize outputBufferSize).
Proof. unfold buildKernel, outputName. holds_steps logged_side. Qed.

Lemma readBack_logged (c0 : OpenClContext) (requested : list cl_handle)
    (outputBuffer runEvent : cl_handle) (fpSize n count : N) :
  preserves True True (logged c0 requested [])
    (forM (indices count) (readBack outputBuffer runEvent fpSize n) []).
Proof. unfold readBack. holds_steps logged_side. Qed.

(** Rules for the frame of [finalizeCalculation]. *)
Lemma guard_bind_get {B : Type} (ub oof : Prop) (P E : Frame -> Prop)
    (k : OpenClContext -> M Frame B) (Q : B -> Frame -> Prop) :
  (forall c, holds ub oof P (k c) Q E) -> holds ub oof P (bind (on_this get) k) Q E.
Proof. intros Hk f Hf. unfold bind, on_this, get. destruct f as [c g]. apply Hk, Hf. Qed.

Lemma guard_bind_create {B : Type} (ub oof : Prop) (c0 : OpenClContext) (E : Frame -> Prop)
    (bytes : N) (k : cl_int * cl_handle -> M Frame B) (Q : B -> Frame -> Prop) :
  (forall err h, holds ub oof (guarded c0 [h]) (k (err, h)) Q E) ->
  holds ub oof (guarded c0 []) (bind (on_this (cl (clCreateBuffer bytes))) k) Q E.
Proof.
  intros Hk f Hf. unfold bind, on_this, cl. apply Hk. unfold guarded in *. cbn [this guard_mem].
  rewrite app_nil_r in Hf.
  pose proof (logged_answered c0 (this f) _ _ (clCreateBuffer bytes) Hf) as H.
  cbn [released_by app] in H. exact H.
Qed.

Lemma guard_bind_push {B : Type} (ub oof : Prop) (c0 : OpenClContext) (E : Frame -> Prop)
    (h : cl_handle) (k : unit -> M Frame B) (Q : B -> Frame -> Prop) :
  holds ub oof (guarded c0 []) (k tt) Q E ->
  holds ub oof (guarded c0 [h]) (bind (guard_mem_push_back h) k) Q E.
Proof.
  intros Hk f Hf. unfold bind, guard_mem_push_back, modify. apply Hk.
  unfold guarded in *. cbn [this guard_mem]. rewrite app_nil_r. exact Hf.
Qed.

Lemma guard_on_this {A : Type} (ub oof : Prop) (c0 : OpenClContext) (m : M OpenClContext A) :
  (forall requested, preserves ub oof (logged c0 requested []) m) ->
  holds ub oof (guarded c0 []) (on_this m) (fun _ => guarded c0 []) (guarded c0 []).
Proof.
  intros Hm f Hf. unfold on_this. unfold guarded in Hf.
  specialize (Hm _ (this f) Hf).
  destruct (m (this f)) as [a c | what c | |]; exact Hm.
Qed.

Lemma guard_bind_cl {B : Type} (ub oof : Prop) (c0 : OpenClContext) (E : Frame -> Prop)
    (call : ClCall) (k : cl_int * cl_handle -> M Frame B) (Q : B -> Frame -> Prop) :
  plain call = true ->
  (forall err h, holds ub oof (guarded c0 []) (k (err, h)) Q E) ->
  holds ub oof (guarded c0 []) (bind (on_this (cl call)) k) Q E.
Proof.
  intros Hplain Hk f Hf. unfold bind, on_this, cl. apply Hk.
  unfold guarded in *. cbn [this guard_mem]. apply logged_plain; assumption.
Qed.

Ltac guard_side := idtac; cbv beta; try exact I; try assumption.

Ltac guard_step :=
  lazymatch goal with
  | |- holds _ _ _ (bind (bind _ _) _) _ _ => apply holds_assoc
  | |- holds _ _ _ (bind (on_this get) _) _ _ => apply guard_bind_get; intros ?
  | |- holds _ _ _ (bind (on_this (cl (clCreateBuffer _))) _) _ _ =>
      apply guard_bind_create; intros ? ?; cbv beta iota
  | |- holds _ _ _ (bind (guard_mem_push_back _) _) _ _ => apply guard_bind_push
  | |- holds _ _ _ (bind (on_this (cl _)) _) _ _ =>
      apply guard_bind_cl; [reflexivity | intros ? ?; cbv beta iota]
  | |- holds _ _ _ (on_this (buildKernel _ _)) _ _ =>
      apply guard_on_this; intros ?; apply buildKernel_logged
  | |- holds _ _ _ (on_this (forM _ _ _)) _ _ =>
      apply guard_on_this; intros ?; apply readBack_logged
  | _ => holds_step guard_side
  end.

Lemma finalizeCalculation_body_guarded (output : list N) (c0 : OpenClContext) :
  holds True True (guarded c0 []) (finalizeCalculation_body output)
    (fun _ => guarded c0 []) (guarded c0 []).
Proof.
  unfold finalizeCalculation_body.
  repeat guard_step.
Qed.

Lemma release_all_logged (c0 : OpenClContext) (mem : list cl_handle) :
  forall (s : OpenClContext) (requested released : list cl_handle),
    logged c0 requested released s ->
    logged c0 requested (released ++ mem)
      (fold_left (fun c m => answered (clReleaseMemObject m) c) mem s).
Proof.
  induction mem as [| m mem IH]; intros s requested released Hs; simpl.
  - rewrite app_nil_r. exact Hs.
  - pose proof (logged_answered c0 s requested released (clReleaseMemObject m) Hs) as H.
    cbn [released_by] in H. rewrite app_nil_r in H.
    apply IH in H. rewrite <- app_assoc in H. exact H.
Qed.

(** X13.  [finalizeCalculation] hands every buffer back.  On a safe
    context (the representation invariant holds, every output that the
    record counts is in the output list unless the kernel is cached, and the
    value vector of the configured precision holds a value for every element
    of the input buffer) the call returns or throws, and in both cases the
    objects released during the call are exactly the handles returned by its
    [clCreateBuffer] calls, in that order.  A buffer is handed to the guard
    before the status of its creation is checked, so the handle of a failed
    creation is released as well. *)
Theorem finalizeCalculation_releases_buffers (output : list N) (c : OpenClContext) :
  finalize_safe c ->
  exists c' new,
    state_after (finalizeCalculation output c) = Some c' /\
    cl_calls c' = cl_calls c ++ new /\
    objects_released new = buffers_requested (length (cl_calls c)) new.
Proof.
  intros Hsafe.
  pose proof (finalizeCalculation_body_defined output c Hsafe
                {| this := c; guard_mem := [] |} eq_refl) as Hdefined.
  pose proof (finalizeCalculation_body_guarded output c
                {| this := c; guard_mem := [] |} (logged_refl c)) as Hguard.
  unfold finalizeCalculation.
  destruct (finalizeCalculation_body output {| this := c; guard_mem := [] |})
    as [[] f | what f | |]; try contradiction.
  all: unfold guarded in Hguard; rewrite app_nil_r in Hguard.
  all: assert (logged c (guard_mem f) [] (set_currentState_ idle (this f))) as Hidle
         by (eapply logged_same_log; [| exact Hguard]; reflexivity).
  all: destruct (release_all_logged c (guard_mem f) _ _ _ Hidle) as (new & Hlog & Hreq & Hrel).
  all: exists (exitGuard_dtor f), new; split; [reflexivity |].
  all: split; [exact Hlog | rewrite Hreq, Hrel; reflexivity].
Qed.

Lemma output_buffer_refused_safe : finalize_safe output_buffer_refused.
Proof.
  split; [concrete_wf |]. split.
  - intros count _ Hcount. vm_compute in Hcount. injection Hcount as <-.
    vm_compute. discriminate.
  - intros n Hn. vm_compute in Hn. injection Hn as <-. vm_compute. discriminate.
Qed.

Lemma finalizeCalculation_releases_buffers_witness :
  exists c' new,
    state_after (finalizeCalculation [1000] output_buffer_refused) = Some c' /\
    cl_calls c' = cl_calls output_buffer_refused ++ new /\
    objects_released new = buffers_requested (length (cl_calls output_buffer_refused)) new.
Proof.
  apply (finalizeCalculation_releases_buffers [1000] output_buffer_refused).
  exact output_buffer_refused_safe.
Defined.

(** ** Disposal and version changes *)

(** X14.  A disposed id is dead.  After [disposeCalculation id] has
    returned, [initiateCalculation] for that id throws, whatever the batch
    size, version and settings; all it changes is [settings_], which is
    assigned before the id is looked at (and not even that when [n = 0]). *)
Theorem disposed_id_cannot_be_initiated (n id version : N) (settings : Settings)
    (c c' : OpenClContext) :
  wf c -> 0 < id -> disposeCalculation id c = Returned tt c' ->
  exists what,
    initiateCalculation n id version settings c'
      = Thrown what (if 0 <? n then set_settings_ settings c' else c').
Proof.
  intros Hwf Hid.
  assert ((id =? 0) = false) as Hid0 by (apply N.eqb_neq; lia).
  intros Hdispose.
  assert (exists k p,
             (N.to_nat (id -% 1) < length (disposed_ c))%nat /\
             c' = answered (clReleaseProgram p)
                    (answered (clReleaseKernel k)
                       (set_disposed_ (<[N.to_nat (id -% 1) := true]> (disposed_ c)) c)))
    as (k & p & Hlt & ->).
  { revert Hdispose. unfold disposeCalculation. exec; returned.
    eexists _, _. split; [| reflexivity]. apply Nat.ltb_lt. assumption. }
  assert (exists sz, size_ c !! N.to_nat (id -% 1) = Some sz) as [sz Hsz]
    by (apply lookup_lt_Some'; rewrite (wf_size c Hwf), <- (wf_disposed c Hwf); exact Hlt).
  unfold initiateCalculation. exec_unfold. ctx_simpl.
  destruct (0 <? n); ctx_simpl; cbv iota; [| eexists; reflexivity].
  rewrite Hid0. ctx_simpl.
  destruct (id <=? vec_size (hasKernel_ c)); ctx_simpl; [| eexists; reflexivity].
  rewrite Hsz. ctx_simpl.
  destruct (sz =? n); ctx_simpl; [| eexists; reflexivity].
  rewrite list_lookup_insert_eq by exact Hlt. ctx_simpl.
  eexists. reflexivity.
Qed.

Lemma disposed_id_cannot_be_initiated_witness :
  exists what,
    initiateCalculation 4 1 0 single_precision
        (after (first_evaluation ++ [call_disposeCalculation 1]))
      = Thrown what
          (if 0 <? 4
           then set_settings_ single_precision
                  (after (first_evaluation ++ [call_disposeCalculation 1]))
           else after (first_evaluation ++ [call_disposeCalculation 1])).
Proof.
  apply (disposed_id_cannot_be_initiated 4 1 0 single_precision (after first_evaluation)).
  - exact first_evaluation_wf.
  - reflexivity.
  - by_computation.
Defined.

(** [initiateCalculation] on a known, live id under a new version. *)
Lemma initiateCalculation_outdated (n id version : N) (settings : Settings)
    (c : OpenClContext) (k p : cl_handle) :
  outdated c n id version k p ->
  exists c',
    initiateCalculation n id version settings c = Returned (id, true) c' /\
    cl_calls c'
      = cl_calls c ++ [(clReleaseKernel k, next_reply c);
                       (clReleaseProgram p, hd CL_SUCCESS (tl (cl_replies c)))] /\
    cl_replies c' = tl (tl (cl_replies c)) /\
    hasKernel_ c' = <[N.to_nat (id -% 1) := false]> (hasKernel_ c) /\
    version_ c' = <[N.to_nat (id -% 1) := version]> (version_ c) /\
    kernel_ c' = kernel_ c /\ program_ c' = program_ c /\ disposed_ c' = disposed_ c /\
    size_ c' = size_ c /\ inputBufferSize_ c' = inputBufferSize_ c /\
    nOutputVars_ c' = nOutputVars_ c /\ outputVariables_ c' = [] /\
    inputVarOffset_ c' = [] /\ currentId_ c' = id /\ settings_ c' = settings /\
    supportsDoublePrecision_ c' = supportsDoublePrecision_ c /\
    (wf c -> wf c').
Proof.
  intros [Hn Hid Hknown Hsize Hlive (v & Hv & Hne) Hk Hp].
  apply N.ltb_lt in Hn. apply N.leb_le in Hknown.
  assert ((id =? 0) = false) as Hid0 by (apply N.eqb_neq; lia).
  assert ((version =? v) = false) as Hversion by (apply N.eqb_neq; congruence).
  pose proof (initiateCalculation_wf n id version settings c) as Hkeeps.
  revert Hkeeps.
  unfold initiateCalculation. exec_unfold. ctx_simpl.
  repeat (first [rewrite Hn | rewrite Hid0 | rewrite Hknown | rewrite Hsize | rewrite Hlive
                | rewrite Hv | rewrite N.eqb_refl | rewrite Hversion | rewrite Hk
                | rewrite Hp ]; ctx_simpl; cbn [negb]).
  assert ((N.to_nat (id -% 1) <? length (version_ c))%nat = true) as Hlv
    by (apply Nat.ltb_lt; apply lookup_lt_Some in Hv; exact Hv).
  destruct (N.to_nat (id -% 1) <? length (hasKernel_ c))%nat eqn:Hlh; ctx_simpl; cbn [negb].
  2: { intros Hkeeps. exfalso. apply Nat.ltb_ge in Hlh. apply lookup_lt_Some in Hv.
       apply N.leb_le in Hknown. unfold vec_size in Hknown.
       pose proof (sub_1_le id Hid). lia. }
  repeat (first [rewrite Hlv | rewrite Hk | rewrite Hp]; ctx_simpl; cbn [negb]).
  intros Hkeeps. eexists. split; [reflexivity |]. ctx_simpl.
  unfold next_reply. ctx_simpl. conjs; try reflexivity; [| exact Hkeeps].
  rewrite <- app_assoc. reflexivity.
Qed.

Lemma finalized_once_outdated : outdated finalized_once 4 1 7 21 19.
Proof.
  constructor; try by_computation.
  - vm_compute. discriminate.
  - exists 0. split; [by_computation | discriminate].
Qed.

(** X15.  A version change discards the kernel but keeps the output
    count.  [initiateCalculation] on a known, live id under another version
    than the stored one reports a fresh calculation: it stores the new
    version, clears the kernel flag and the output list, and releases the
    kernel and then the program.  The record's output count [nOutputVars_]
    is not reset, although the list it counts is now empty, and the released
    handles stay in [kernel_] and [program_]. *)
Theorem version_change_keeps_output_count (n id version : N) (settings : Settings)
    (c : OpenClContext) (k p : cl_handle) :
  outdated c n id version k p ->
  exists c',
    initiateCalculation n id version settings c = Returned (id, true) c' /\
    cl_calls c'
      = cl_calls c ++ [(clReleaseKernel k, next_reply c);
                       (clReleaseProgram p, hd CL_SUCCESS (tl (cl_replies c)))] /\
    hasKernel_ c' !! N.to_nat (id -% 1) = Some false /\
    version_ c' !! N.to_nat (id -% 1) = Some version /\
    outputVariables_ c' = [] /\
    nOutputVars_ c' = nOutputVars_ c /\
    kernel_ c' = kernel_ c /\ program_ c' = program_ c.
Proof.
  intros Hout.
  destruct (initiateCalculation_outdated n id version settings c k p Hout)
    as (c' & Hret & Hlog & _ & Hh & Hv & Hk & Hp & _ & _ & _ & Hcount & Houtput & _).
  destruct Hout as [_ Hid Hknown _ _ (v & Hversion & _) _ _].
  exists c'. split; [exact Hret |]. split; [exact Hlog |].
  split.
  { rewrite Hh. apply list_lookup_insert_eq.
    pose proof (sub_1_le id Hid). unfold vec_size in Hknown. lia. }
  split.
  { rewrite Hv. apply list_lookup_insert_eq. apply lookup_lt_Some in Hversion. exact Hversion. }
  auto.
Qed.

Lemma version_change_keeps_output_count_witness :
  exists c',
    initiateCalculation 4 1 7 single_precision finalized_once = Returned (1, true) c' /\
    cl_calls c'
      = cl_calls finalized_once
          ++ [(clReleaseKernel 21, next_reply finalized_once);
              (clReleaseProgram 19, hd CL_SUCCESS (tl (cl_replies finalized_once)))] /\
    hasKernel_ c' !! N.to_nat (1 -% 1) = Some false /\
    version_ c' !! N.to_nat (1 -% 1) = Some 7 /\
    outputVariables_ c' = [] /\
    nOutputVars_ c' = nOutputVars_ finalized_once /\
    kernel_ c' = kernel_ finalized_once /\ program_ c' = program_ finalized_once.
Proof.
  apply (version_change_keeps_output_count 4 1 7 single_precision finalized_once 21 19).
  exact finalized_once_outdated.
Defined.

(** X16.  A version change followed by a disposal releases twice.  The
    handles that the version change released are still stored, and
    [disposeCalculation] does not consult the kernel flag: disposing the
    calculation before it is finalised again passes the same kernel and the
    same program to [clReleaseKernel] and [clReleaseProgram] a second
    time. *)
Theorem version_change_then_dispose_releases_twice (n id version : N)
    (settings : Settings) (c : OpenClContext) (k p : cl_handle) :
  outdated c n id version k p ->
  exists c1 c2 r1 r2 r3 r4,
    initiateCalculation n id version settings c = Returned (id, true) c1 /\
    disposeCalculation id c1 = Returned tt c2 /\
    cl_calls c2
      = cl_calls c ++ [(clReleaseKernel k, r1); (clReleaseProgram p, r2);
                       (clReleaseKernel k, r3); (clReleaseProgram p, r4)].
Proof.
  intros Hout.
  destruct (initiateCalculation_outdated n id version settings c k p Hout)
    as (c1 & Hret & Hlog & _ & _ & _ & Hk & Hp & Hd & _).
  destruct Hout as [_ _ _ _ Hlive _ Hkernel Hprogram].
  rewrite <- Hd in Hlive. rewrite <- Hk in Hkernel. rewrite <- Hp in Hprogram.
  pose proof (disposeCalculation_live id c1 k p Hlive Hkernel Hprogram) as Hdispose.
  eexists c1, _, _, _, _, _. split; [exact Hret |]. split; [exact Hdispose |].
  ctx_simpl. rewrite Hlog. repeat rewrite <- app_assoc. reflexivity.
Qed.

Lemma version_change_then_dispose_releases_twice_witness :
  exists c1 c2 r1 r2 r3 r4,
    initiateCalculation 4 1 7 single_precision finalized_once = Returned (1, true) c1 /\
    disposeCalculation 1 c1 = Returned tt c2 /\
    cl_calls c2
      = cl_calls finalized_once
          ++ [(clReleaseKernel 21, r1); (clReleaseProgram 19, r2);
              (clReleaseKernel 21, r3); (clReleaseProgram 19, r4)].
Proof.
  apply (version_change_then_dispose_releases_twice 4 1 7 single_precision finalized_once
           21 19).
  exact finalized_once_outdated.
Defined.

(** ** [finalizeCalculation] on a device that answers [CL_SUCCESS] *)

Lemma running_refl (c : OpenClContext) : quiet c -> running c false c.
Proof. intros Hq. constructor; [apply finalizing_refl | exact Hq | discriminate]. Qed.

Lemma running_answered (c0 s : OpenClContext) (built : bool) (call : ClCall) :
  running c0 built s -> running c0 built (answered call s).
Proof.
  intros [Hf Hq Hb]. constructor.
  - destruct Hf. constructor; ctx_simpl; assumption.
  - apply quiet_answered, Hq.
  - exact Hb.
Qed.

Lemma holds_on_this_seq {A : Type} (ub oof : Prop) (P E : OpenClContext -> Prop)
    (Q : A -> OpenClContext -> Prop) (m : M OpenClContext A) :
  holds ub oof P m Q E ->
  holds ub oof (on_frame P) (on_this m) (fun a => on_frame (Q a)) (on_frame E).
Proof.
  intros Hm f Hf. unfold on_this. specialize (Hm (this f) Hf).
  destruct (m (this f)) as [a c | what c | |]; exact Hm.
Qed.

Lemma holds_never {St A : Type} (ub oof : Prop) (m : M St A) (Q : A -> St -> Prop)
    (E : St -> Prop) :
  holds ub oof (fun _ => False) m Q E.
Proof. intros s []. Qed.

Lemma holds_bind_vec_get_known {St A B : Type} (ub oof : Prop) (P E : St -> Prop)
    (v : list A) (i : N) (a : A) (k : A -> M St B) (Q : B -> St -> Prop) :
  v !! N.to_nat i = Some a -> holds ub oof P (k a) Q E ->
  holds ub oof P (bind (vec_get v i) k) Q E.
Proof. intros Ha Hk s Hs. unfold bind, vec_get. rewrite Ha. apply Hk, Hs. Qed.

Lemma run_bind_cl {B : Type} (ub oof : Prop) (c0 : OpenClContext) (built : bool)
    (E : Frame -> Prop) (call : ClCall) (k : cl_int * cl_handle -> M Frame B)
    (Q : B -> Frame -> Prop) :
  (forall h, holds ub oof (on_frame (running c0 built)) (k (CL_SUCCESS, h)) Q E) ->
  holds ub oof (on_frame (running c0 built)) (bind (on_this (cl call)) k) Q E.
Proof.
  intros Hk f Hf. unfold bind, on_this, cl. unfold on_frame in Hf.
  replace (next_reply (this f)) with CL_SUCCESS
    by (unfold next_reply; rewrite (run_quiet _ _ _ Hf); reflexivity).
  apply Hk. unfold on_frame. cbn [this]. apply running_answered, Hf.
Qed.

(** Side conditions of a run on a quiet device. *)
Ltac run_side :=
  idtac;
  cbv beta;
  try exact I;
  unfold on_frame in *; cbn [this guard_mem] in *;
  try assumption;
  try (match goal with H : _ :: _ = [] |- _ => discriminate H end);
  try (apply running_answered; assumption);
  try (lazymatch goal with
       | |- running _ _ _ =>
           repeat match goal with H : running _ _ _ |- _ => destruct H as [? ? ?] end;
           constructor;
           [ finalizing_goal | unfold quiet in *; ctx_simpl; assumption
           | ctx_simpl; assumption ]
       | |- False =>
           repeat match goal with H : running _ _ _ |- _ => destruct H as [? ? ?] end;
           defined_goal
       end).

Ltac quiet_run_step :=
  known_status;
  lazymatch goal with
  | |- holds _ _ _ (bind (vec_set (hasKernel_ _) _ true) _) _ _ => fail
  | |- holds _ _ _ (bind (cl _) _) _ _ =>
      apply holds_bind_cl_quiet;
      [ intros ? [? ? ?]; assumption | intros ? ?; run_side | intros ?; cbv beta iota ]
  | |- holds _ _ _ (bind (ret _) _) _ _ => apply holds_bind_ret; cbv beta iota
  | _ => holds_step run_side
  end.

(** On a quiet device the kernel of a safe calculation is built and
    cached. *)
Lemma buildKernel_quietly (c0 : OpenClContext) (inputBufferSize outputBufferSize : N)
    (Hwf0 : wf c0) (Hpos : (0 <? currentId_ c0) = true)
    (Hbound : forall count,
        nOutputVars_ c0 !! N.to_nat (currentId_ c0 -% 1) = Some count ->
        count <= vec_size (outputVariables_ c0)) :
  holds False False (running c0 false) (buildKernel inputBufferSize outputBufferSize)
    (fun _ => running c0 true) (fun _ => False).
Proof.
  unfold buildKernel, outputName.
  repeat quiet_run_step.
  - (* the output list covers every declared output *)
    match goal with
    | Hr : running c0 _ ?c, Hcount : nOutputVars_ ?c !! _ = Some ?count,
      Hin : In ?x (indices ?count), Hnone : outputVariables_ ?c !! _ = Datatypes.None |- _ =>
        destruct Hr as [Hc _ _];
        rewrite (fin_nOutputVars c0 c Hc), (fin_currentId c0 c Hc) in Hcount;
        apply Hbound in Hcount; apply in_indices in Hin;
        rewrite (fin_outputVariables c0 c Hc) in Hnone;
        apply lookup_ge_None in Hnone; unfold vec_size in Hcount; lia
    end.
  - (* the kernel flag is set *)
    apply holds_bind_vec_set; [intros ?; run_side | intros Hlen].
    apply (holds_seq False False _ _ (fun _ => running c0 true)).
    + apply holds_modify. intros s Hs.
      match goal with Hr : running c0 false c |- _ => destruct Hr as [Hc _ _] end.
      destruct Hs as [Hf Hq _]. constructor.
      * finalizing_goal.
      * exact Hq.
      * intros _. ctx_simpl. rewrite <- (fin_currentId c0 c Hc).
        apply list_lookup_insert_eq. exact Hlen.
    + intros _. holds_steps run_side.
Qed.


Lemma readBack_quietly (c0 : OpenClContext) (built : bool)
    (Hwf0 : wf c0) (Hpos : (0 <? currentId_ c0) = true)
    (outputBuffer runEvent : cl_handle) (fpSize n count : N) :
  holds False False (running c0 built)
    (forM (indices count) (readBack outputBuffer runEvent fpSize n) [])
    (fun _ => running c0 built) (fun _ => False).
Proof.
  apply holds_forM. intros x a Hx. unfold readBack.
  repeat quiet_run_step.
Qed.

(** One step of a run of [finalizeCalculation] on a quiet device; [build]
    deals with the kernel build. *)
Ltac run_step build :=
  known_status; rewrite ?N.eqb_refl; cbn [negb orb QL_REQUIRE];
  lazymatch goal with
  | |- holds _ _ _ (bind (bind _ _) _) _ _ => apply holds_assoc
  | |- holds _ _ _ (bind (ret _) _) _ _ => apply holds_bind_ret; cbv beta iota
  | |- holds _ _ _ (bind (on_this get) _) _ _ => apply holds_bind_on_this_get; intros ? ?
  | |- holds _ _ _ (bind (on_this (cl _)) _) _ _ =>
      apply run_bind_cl; intros ?; cbv beta iota
  | |- holds _ _ _ (bind (on_this (buildKernel _ _)) _) _ _ => build
  | |- holds _ _ _ (bind (match inputVarOffset_ ?c with [] => _ | _ :: _ => _ end) _) _ _ =>
      first [input_size_step | destruct (inputVarOffset_ c) eqn:?]
  | |- holds _ _ _ (bind (host_read _ _ _) _) _ _ =>
      apply holds_bind_host_read; [intros ?; run_side; try stored_goal | intros ? ?]
  | |- holds _ _ _ (bind (on_this (forM _ _ _)) _) _ _ =>
      eapply holds_seq;
      [ apply holds_on_this_seq, readBack_quietly; assumption | intros ?; cbv beta ]
  | |- holds _ _ _ (bind (guard_mem_push_back _) _) _ _ =>
      apply holds_bind; [apply holds_guard_mem_push_back | intros ?; cbv beta]
  | |- holds _ _ _ (bind (vec_get _ _) _) _ _ =>
      first [ eapply holds_bind_vec_get_known; [eassumption |]
            | apply holds_bind_vec_get; [intros ?; run_side | intros ? ?] ]
  | |- holds _ _ _ (bind (vec_back _) _) _ _ =>
      apply holds_bind_vec_back; [intros ?; run_side | intros ? ?]
  | |- holds _ _ _ (bind (if ?b then _ else _) _) _ _ => destruct b eqn:?
  | |- holds _ _ _ (bind (match ?x with _ => _ end) _) _ _ => destruct x eqn:?
  | |- holds _ _ _ (if ?b then _ else _) _ _ => destruct b eqn:?
  | |- holds _ _ _ (ret _) _ _ => apply holds_ret; intros ? ?; run_side
  end.

Lemma finalizeCalculation_body_quietly (output : list N) (c0 : OpenClContext)
    (Hsafe : finalize_safe c0) (Hquiet : quiet c0) (Hfirst : first_finalize output c0) :
  holds False False (on_frame (fun s => s = c0)) (finalizeCalculation_body output)
    (fun _ => on_frame (running c0 true)) (on_frame (fun _ => False)).
Proof.
  destruct Hsafe as (Hwf0 & Hbound & Hstored).
  destruct Hfirst as [Hpos Hkernel Houtputs Hprecision].
  apply N.ltb_lt in Hpos.
  pose proof (finalizing_refl c0) as Hrefl.
  unfold finalizeCalculation_body.
  apply holds_bind_on_this_get. intros c ->.
  apply (holds_consequence False False _ _
           (on_frame (running c0 false)) (on_frame (fun _ => False)) _ _
           (fun _ => on_frame (running c0 true)));
    [| intros s Hs; unfold on_frame in *; rewrite Hs; apply running_refl, Hquiet | auto | auto].
  rewrite Hpos, Hprecision.
  repeat (run_step
            ltac:(eapply holds_seq;
                  [ apply holds_on_this_seq, buildKernel_quietly;
                    [ exact Hwf0 | exact Hpos | intros count; exact (Hbound count Hkernel) ]
                  | intros ?; cbv beta ])).
Qed.

Lemma release_all_quiet (mem : list cl_handle) (s : OpenClContext) :
  quiet s -> quiet (fold_left (fun c m => answered (clReleaseMemObject m) c) mem s).
Proof.
  revert s. induction mem as [| m mem IH]; intros s Hs; simpl; [exact Hs |].
  apply IH, quiet_answered, Hs.
Qed.

Lemma release_all_currentId (mem : list cl_handle) (s : OpenClContext) :
  currentId_ (fold_left (fun c m => answered (clReleaseMemObject m) c) mem s) = currentId_ s.
Proof.
  revert s. induction mem as [| m mem IH]; intros s; simpl; [reflexivity |].
  rewrite IH. reflexivity.
Qed.

Lemma first_evaluation_safe : finalize_safe (after first_evaluation).
Proof.
  split; [exact first_evaluation_wf |]. split.
  - intros count _ Hcount. vm_compute in Hcount. injection Hcount as <-.
    vm_compute. discriminate.
  - intros n Hn. vm_compute. discriminate.
Qed.

(** X17.  The first [finalizeCalculation] of a calculation succeeds on a
    cooperative device.  On a safe context (the representation invariant
    holds, every output that the record counts is in the output list, and the
    value vector of the configured precision holds a value for every element
    of the input buffer) whose current calculation has no kernel yet, with
    one result buffer per counted output and a supported precision, and a
    device that answers every call with [CL_SUCCESS], the call returns: no
    check fails, no vector of the context is indexed out of range and the
    input values are not read past their end.  Afterwards the state is
    [idle], the kernel of the calculation is cached, and the current id is
    unchanged. *)
Theorem finalizeCalculation_returns (output : list N) (c : OpenClContext) :
  finalize_safe c -> quiet c -> first_finalize output c ->
  exists c',
    finalizeCalculation output c = Returned tt c' /\
    currentState_ c' = idle /\
    hasKernel_ c' !! N.to_nat (currentId_ c -% 1) = Some true /\
    currentId_ c' = currentId_ c /\ quiet c'.
Proof.
  intros Hsafe Hquiet Hfirst.
  pose proof (finalizeCalculation_body_quietly output c Hsafe Hquiet Hfirst
                {| this := c; guard_mem := [] |} eq_refl) as Hbody.
  unfold finalizeCalculation.
  destruct (finalizeCalculation_body output {| this := c; guard_mem := [] |})
    as [[] f | what f | |]; try contradiction.
  destruct Hbody as [Hfin Hq Hbuilt].
  exists (exitGuard_dtor f). split; [reflexivity |].
  split; [apply exitGuard_dtor_idle |].
  unfold exitGuard_dtor.
  pose proof (release_all_reusing _ (guard_mem f) _
                (reusing_refl (set_currentState_ idle (this f)))) as Hsame.
  split; [rewrite (reuse_hasKernel _ _ Hsame); ctx_simpl; apply Hbuilt; reflexivity |].
  split; [| apply release_all_quiet; exact Hq].
  rewrite release_all_currentId. ctx_simpl. apply (fin_currentId _ _ Hfin).
Qed.

Lemma finalizeCalculation_returns_witness :
  exists c',
    finalizeCalculation [1000] (after first_evaluation) = Returned tt c' /\
    currentState_ c' = idle /\
    hasKernel_ c' !! N.to_nat (currentId_ (after first_evaluation) -% 1) = Some true /\
    currentId_ c' = currentId_ (after first_evaluation) /\ quiet c'.
Proof.
  apply (finalizeCalculation_returns [1000] (after first_evaluation) first_evaluation_safe).
  - by_computation.
  - constructor; by_computation.
Defined.

(** *** Outputs that were counted but not declared *)

(** A loop one of whose rounds never completes does not complete. *)
Lemma holds_forM_stuck {St A : Type} (ub : Prop) (P : St -> Prop) (l : list N)
    (body : N -> A -> M St A) (x : N) :
  In x l ->
  (forall y a, In y l -> holds ub False P (body y a) (fun _ => P) (fun _ => False)) ->
  (forall a, holds ub False P (body x a) (fun _ _ => False) (fun _ => False)) ->
  forall a, holds ub False P (forM l body a) (fun _ _ => False) (fun _ => False).
Proof.
  induction l as [| y l IH]; intros Hin Hrounds Hstuck a; [destruct Hin |].
  simpl forM. destruct (N.eq_dec y x) as [-> | Hne].
  - apply (holds_seq ub False _ _ (fun _ _ => False)); [apply Hstuck |].
    intros a'. apply holds_never.
  - apply (holds_seq ub False _ _ (fun _ => P)); [apply Hrounds; left; reflexivity |].
    intros a'. apply IH.
    + destruct Hin as [Heq | Hin]; [contradiction | exact Hin].
    + intros z b Hz. apply Hrounds. right. exact Hz.
    + exact Hstuck.
Qed.

Lemma indices_in (n x : N) : x < n -> In x (indices n).
Proof.
  intros Hlt. unfold indices. apply in_map_iff. exists (N.to_nat x).
  split; [apply N2Nat.id | apply in_seq; lia].
Qed.

(** With fewer declared outputs than the record counts, the kernel source
    cannot be assembled: the loop over the outputs reads past the end of the
    output list. *)
Lemma buildKernel_stuck (c0 : OpenClContext) (inputBufferSize outputBufferSize count : N) :
  nOutputVars_ c0 !! N.to_nat (currentId_ c0 -% 1) = Some count ->
  vec_size (outputVariables_ c0) < count ->
  holds True False (running c0 false) (buildKernel inputBufferSize outputBufferSize)
    (fun _ _ => False) (fun _ => False).
Proof.
  intros Hcount Hshort. unfold buildKernel.
  apply holds_bind_get. intros c Hc.
  apply holds_bind_vec_get; [intros _; exact I | intros version _].
  apply holds_bind_vec_get; [intros _; exact I | intros n _].
  apply holds_bind_vec_get; [intros _; exact I | intros count' Hcount'].
  destruct Hc as [Hf _ _].
  rewrite (fin_nOutputVars _ _ Hf), (fin_currentId _ _ Hf), Hcount in Hcount'.
  injection Hcount' as <-.
  apply (holds_seq True False _ _ (fun _ _ => False)); [| intros a; apply holds_never].
  apply (holds_forM_stuck True _ _ _ (vec_size (outputVariables_ c0))).
  - apply indices_in, Hshort.
  - intros y a Hy. unfold outputName. holds_steps run_side.
  - intros a. apply holds_bind_vec_get; [intros _; exact I |].
    intros v Hv. exfalso. rewrite (fin_outputVariables _ _ Hf) in Hv.
    apply lookup_lt_Some in Hv. unfold vec_size in Hv. lia.
Qed.

Lemma finalizeCalculation_body_stuck (output : list N) (c0 : OpenClContext)
    (Hquiet : quiet c0) (Hfirst : first_finalize output c0)
    (Hshort : vec_size (outputVariables_ c0) < vec_size output) :
  holds True False (on_frame (fun s => s = c0)) (finalizeCalculation_body output)
    (fun _ => on_frame (fun _ => False)) (on_frame (fun _ => False)).
Proof.
  destruct Hfirst as [Hpos Hkernel Houtputs Hprecision].
  apply N.ltb_lt in Hpos.
  pose proof (finalizing_refl c0) as Hrefl.
  unfold finalizeCalculation_body.
  apply holds_bind_on_this_get. intros c ->.
  apply (holds_consequence True False _ _
           (on_frame (running c0 false)) (on_frame (fun _ => False)) _ _
           (fun _ => on_frame (fun _ => False)));
    [| intros s Hs; unfold on_frame in *; rewrite Hs; apply running_refl, Hquiet | auto | auto].
  rewrite Hpos, Hprecision.
  repeat (run_step
            ltac:(eapply holds_seq;
                  [ apply holds_on_this_seq,
                      (buildKernel_stuck c0 _ _ (vec_size output) Houtputs Hshort)
                  | intros ?; cbv beta; apply holds_never ])).
Qed.

(** X18.  Counted but undeclared outputs are read past the end.  When the
    record of the current calculation counts more outputs than the output
    list holds (as it does after a version change, which clears the list and
    keeps the count), [finalizeCalculation] with the number of result buffers
    that the count demands passes its checks on a cooperative device and then,
    assembling the kernel source, reads [outputVariables_] past its end: the
    behaviour is undefined. *)
Theorem finalizeCalculation_undeclared_outputs (output : list N) (c : OpenClContext) :
  quiet c -> first_finalize output c ->
  vec_size (outputVariables_ c) < vec_size output ->
  finalizeCalculation output c = Undefined.
Proof.
  intros Hquiet Hfirst Hshort.
  pose proof (finalizeCalculation_body_stuck output c Hquiet Hfirst Hshort
                {| this := c; guard_mem := [] |} eq_refl) as Hbody.
  unfold finalizeCalculation.
  destruct (finalizeCalculation_body output {| this := c; guard_mem := [] |})
    as [[] f | what f | |]; try contradiction.
  reflexivity.
Qed.

Lemma finalizeCalculation_undeclared_outputs_witness :
  finalizeCalculation [1000] version_changed = Undefined.
Proof.
  apply (finalizeCalculation_undeclared_outputs [1000] version_changed).
  - by_computation.
  - constructor; by_computation.
  - by_computation.
Defined.

(** ** [applyOperation]: opcodes without implementation, missing arguments *)

(** [applyOperation] up to the [switch]: the result id is taken and the
    arguments are resolved; what the [switch] does decides the rest. *)
Lemma applyOperation_switch (op : RandomVariableOpCode.t) (args : list N) (c : OpenClContext)
    (Hwf : wf c) (Hstate : currentState_ c <> idle)
    (Hkernel : hasKernel_ c !! N.to_nat (currentId_ c -% 1) = Some false) :
  exists (argStr : list string) (rest : string -> M OpenClContext N),
    length argStr = length args /\
    applyOperation op args c = bind (opExpression op argStr) rest (result_id_taken c).
Proof.
  pose proof (wf_busy c Hwf Hstate) as Hpos.
  destruct (wf_lookup_size c Hwf Hpos) as [n Hsize].
  apply N.ltb_lt in Hpos. apply not_idle_check in Hstate.
  unfold result_id_taken.
  unfold applyOperation. unfold bind at 1. unfold get. unfold bind at 1.
  rewrite Hstate. cbn [QL_REQUIRE ret].
  unfold bind at 1. unfold modify at 1. unfold bind at 1.
  rewrite Hpos. cbn [QL_REQUIRE ret].
  unfold bind at 1. unfold vec_get at 1. rewrite Hkernel. cbn [ret].
  unfold bind at 1. cbn [negb QL_REQUIRE ret].
  unfold bind at 1.
  destruct (last (freedVariables_ c)) as [back |] eqn:Hlast.
  - unfold bind at 1. unfold modify at 1. cbn [ret]. cbv beta iota.
    unfold bind at 1.
    match goal with |- context [mapM (argName c) args ?s] =>
      destruct (mapM_argName_resolves c s n args Hwf Hsize) as (argStr & -> & Hall) end.
    exists argStr. eexists. split; [symmetry; exact (Forall2_length _ _ _ Hall) |].
    reflexivity.
  - unfold post_increment_nVars. unfold bind at 1. unfold bind at 1. unfold get.
    unfold bind at 1. unfold modify at 1. cbn [ret]. cbv beta iota.
    unfold bind at 1.
    match goal with |- context [mapM (argName c) args ?s] =>
      destruct (mapM_argName_resolves c s n args Hwf Hsize) as (argStr & -> & Hall) end.
    exists argStr. eexists. split; [symmetry; exact (Forall2_length _ _ _ Hall) |].
    reflexivity.
Qed.



Lemma opExpression_short {St : Type} (op : RandomVariableOpCode.t) (argStr : list string)
    (s : St) :
  supported op = true -> (length argStr < arity op)%nat ->
  opExpression op argStr s = Undefined.
Proof.
  intros Hop Hshort.
  destruct op; try discriminate Hop; simpl in Hshort;
    destruct argStr as [| a [| b rest]]; simpl in Hshort; try lia; reflexivity.
Qed.

(** X20.  A missing argument is read anyway.  [applyOperation] does not
    compare the number of arguments with the number the opcode reads: with
    fewer arguments than that (a binary opcode with one argument, any
    opcode but [None] without arguments) the [switch] indexes [argStr] past
    its end, and the behaviour is undefined. *)
Theorem applyOperation_missing_argument (op : RandomVariableOpCode.t) (args : list N)
    (c : OpenClContext)
    (Hwf : wf c) (Hstate : currentState_ c <> idle)
    (Hkernel : hasKernel_ c !! N.to_nat (currentId_ c -% 1) = Some false)
    (Hop : supported op = true) (Hshort : (length args < arity op)%nat) :
  applyOperation op args c = Undefined.
Proof.
  destruct (applyOperation_switch op args c Hwf Hstate Hkernel)
    as (argStr & k & Hlen & Hswitch).
  rewrite Hswitch. unfold bind.
  rewrite opExpression_short; [reflexivity | exact Hop | rewrite Hlen; exact Hshort].
Qed.

Lemma applyOperation_missing_argument_witness :
  applyOperation RandomVariableOpCode.Add [0] (after first_evaluation) = Undefined.
Proof.
  apply (applyOperation_missing_argument RandomVariableOpCode.Add [0]
           (after first_evaluation) first_evaluation_wf).
  - vm_compute. discriminate.
  - by_computation.
  - reflexivity.
  - apply le_n.
Defined.

(** ** The variate pool: reuse and failed growth *)

(** A pool that covers the demand is left alone, and so is the device. *)
Lemma updateVariatesPool_covered (fuel : nat) (n : N) (c : OpenClContext) :
  0 < nVariates_ c ->
  size_ c !! N.to_nat (currentId_ c -% 1) = Some n ->
  0 < variatesPoolSize_ c ->
  nVariates_ c *% n <= variatesPoolSize_ c ->
  updateVariatesPool fuel c = Returned tt c.
Proof.
  intros Hpos Hsize Hpool Hle.
  apply N.ltb_lt in Hpos. apply N.leb_le in Hle.
  assert ((variatesPoolSize_ c =? 0) = false) as Hne by (apply N.eqb_neq; lia).
  unfold updateVariatesPool. exec_unfold.
  rewrite Hpos, Hne, Hsize, Hle. reflexivity.
Qed.

(** X21.  The pool is shared and reused.  When the pool already holds at
    least as many samples as the current calculation needs after the
    request, [createInputVariates] hands out its ids without a single device
    call: the log, the pending replies, the pool and its size are as before,
    whatever the device would answer and whatever the fuel. *)
Theorem createInputVariates_reuses_pool (fuel : nat) (dim steps n : N) (c : OpenClContext) :
  wf c ->
  currentState_ c = createInput \/ currentState_ c = createVariates ->
  hasKernel_ c !! N.to_nat (currentId_ c -% 1) = Some false ->
  size_ c !! N.to_nat (currentId_ c -% 1) = Some n ->
  0 < nVariates_ c +% dim *% steps ->
  0 < variatesPoolSize_ c ->
  (nVariates_ c +% dim *% steps) *% n <= variatesPoolSize_ c ->
  exists resultIds c',
    createInputVariates fuel dim steps c = Returned resultIds c' /\
    cl_calls c' = cl_calls c /\ cl_replies c' = cl_replies c /\
    variatesPoolSize_ c' = variatesPoolSize_ c /\ variatesPool_ c' = variatesPool_ c /\
    nVariates_ c' = nVariates_ c +% dim *% steps.
Proof.
  intros Hwf Hstate Hkernel Hsize Hsome Hpool Hle.
  assert (ComputeState_eqb (currentState_ c) createInput
          || ComputeState_eqb (currentState_ c) createVariates = true) as Hvalid
    by (destruct Hstate as [-> | ->]; reflexivity).
  assert ((0 <? currentId_ c) = true) as Hid.
  { apply N.ltb_lt, (wf_busy c Hwf). destruct Hstate as [-> | ->]; discriminate. }
  unfold createInputVariates. unfold bind at 1. unfold get.
  rewrite Hvalid. cbn [QL_REQUIRE]. unfold bind at 1. unfold ret at 1.
  rewrite Hid. cbn [QL_REQUIRE]. unfold bind at 1. unfold ret at 1.
  unfold bind at 1. unfold vec_get. rewrite Hkernel. unfold ret at 1.
  cbn [negb QL_REQUIRE]. unfold bind at 1. unfold ret at 1.
  unfold bind at 1. unfold modify at 1. unfold bind at 1.
  destruct (assignVariateId_loops_defined (set_currentState_ createVariates c) dim steps)
    as (a & v & ->).
  unfold bind at 1. unfold modify at 1. ctx_simpl. unfold bind at 1.
  rewrite (updateVariatesPool_covered fuel n) by (ctx_simpl; assumption).
  eexists _, _. split; [reflexivity |]. ctx_simpl. auto.
Qed.

Lemma second_calculation_wf : wf second_calculation.
Proof. concrete_wf. Qed.

Lemma createInputVariates_reuses_pool_witness :
  exists resultIds c',
    createInputVariates 0 2 3 second_calculation = Returned resultIds c' /\
    cl_calls c' = cl_calls second_calculation /\
    cl_replies c' = cl_replies second_calculation /\
    variatesPoolSize_ c' = variatesPoolSize_ second_calculation /\
    variatesPool_ c' = variatesPool_ second_calculation /\
    nVariates_ c' = nVariates_ second_calculation +% 2 *% 3.
Proof.
  apply (createInputVariates_reuses_pool 0 2 3 4 second_calculation second_calculation_wf).
  - left. by_computation.
  - by_computation.
  - by_computation.
  - by_computation.
  - by_computation.
  - vm_compute. discriminate.
Defined.

(** *** A growth that fails *)

Lemma growing_answered (c0 s : OpenClContext) (bytes : N) (call : ClCall) :
  growing c0 bytes s -> growing c0 bytes (answered call s).
Proof.
  intros [Hsize Hpool (new & Hlog)]. constructor; ctx_simpl; try assumption.
  exists (new ++ [(call, next_reply s)]). rewrite Hlog, <- app_assoc. reflexivity.
Qed.

Ltac growing_side :=
  idtac;
  cbv beta;
  try exact I;
  try assumption;
  try (apply growing_answered; assumption).

Lemma fillLoop_growing (c0 : OpenClContext) (bytes : N) (fuel : nat) (demand : N)
    (initEvent : cl_handle) (currentPoolSize : N) (generateEvent : cl_handle)
    (haveGenerated : bool) :
  preserves True True (growing c0 bytes)
    (fillLoop fuel demand initEvent currentPoolSize generateEvent haveGenerated).
Proof.
  revert currentPoolSize generateEvent haveGenerated.
  induction fuel as [| fuel IH]; intros currentPoolSize generateEvent haveGenerated; simpl.
  - destruct (currentPoolSize <? demand); [intros s Hs; exact I |].
    apply holds_ret. auto.
  - destruct (currentPoolSize <? demand); [| apply holds_ret; auto].
    holds_steps growing_side. apply IH.
Qed.

(** X22.  A failed growth costs the old pool.  When [updateVariatesPool]
    throws while it grows a pool that is not empty (the new buffer is
    refused, the copy fails, a kernel of the fill loop fails, or the closing
    size check fails), the guard has released the old pool buffer, which is
    the last device call of the function, [variatesPool_] holds the handle of
    the new buffer, and [variatesPoolSize_] still records the old size: the
    context keeps counting samples that its pool buffer need not hold. *)
Theorem updateVariatesPool_failed_growth (fuel : nat) (n : N) (c c' : OpenClContext)
    (what : string) :
  size_ c !! N.to_nat (currentId_ c -% 1) = Some n ->
  0 < variatesPoolSize_ c ->
  variatesPoolSize_ c < nVariates_ c *% n ->
  updateVariatesPool fuel c = Thrown what c' ->
  variatesPoolSize_ c' = variatesPoolSize_ c /\
  variatesPool_ c' = fresh_handle c /\
  exists new r,
    cl_calls c'
      = cl_calls c
          ++ (clCreateBuffer (fpSize_of (settings_ c) *% alignedSize_of (nVariates_ c *% n)),
              next_reply c)
          :: new ++ [(clReleaseMemObject (variatesPool_ c), r)].
Proof.
  intros Hsize Hpool Hshort.
  assert ((0 <? nVariates_ c) = true) as Hpos.
  { apply N.ltb_lt. destruct (N.eq_dec (nVariates_ c) 0) as [Hzero | Hnonzero]; [| lia].
    exfalso. rewrite Hzero in Hshort. unfold SizeT.mul, SizeT.wrap in Hshort.
    rewrite N.mul_0_l, N.Div0.mod_0_l in Hshort. lia. }
  assert ((variatesPoolSize_ c =? 0) = false) as Hne by (apply N.eqb_neq; lia).
  assert ((nVariates_ c *% n <=? variatesPoolSize_ c) = false) as Hgt
    by (apply N.leb_gt; exact Hshort).
  assert ((0 <? variatesPoolSize_ c) = true) as Hold by (apply N.ltb_lt; exact Hpool).
  set (bytes := fpSize_of (settings_ c) *% alignedSize_of (nVariates_ c *% n)).
  assert (holds True True (fun s => s = c) (updateVariatesPool fuel)
            (fun _ _ => True)
            (fun s => growing c bytes s /\
                      exists r s', s = answered (clReleaseMemObject (variatesPool_ c)) s' /\
                                   r = next_reply s' /\ growing c bytes s')) as Hruns.
  { unfold updateVariatesPool.
    apply holds_bind_get. intros c0 ->.
    rewrite Hpos, Hne. cbn [QL_REQUIRE]. apply holds_bind_ret. apply holds_bind_ret.
    unfold vec_get at 1. rewrite Hsize. apply holds_bind_ret. cbv zeta.
    rewrite Hgt, Hold. fold bytes.
    apply (holds_scope_exit True True _ _ _ _ _ (fun _ _ => True) (growing c bytes)).
    - apply (holds_seq True True _ _
               (fun r s => r = (next_reply c, fresh_handle c)
                           /\ s = answered (clCreateBuffer bytes) c)).
      { apply holds_cl. intros s ->. auto. }
      intros [err newPool]. cbv beta iota.
      apply (holds_seq True True _ _ (fun _ => growing c bytes)).
      { apply holds_modify. intros s [Heq ->]. injection Heq as -> ->.
        constructor; ctx_simpl; try reflexivity. exists []. reflexivity. }
      intros _.
      apply (holds_consequence True True _ _ (growing c bytes) (growing c bytes) _ _
               (fun _ _ => True)); [| auto | auto | auto].
      repeat first
        [ lazymatch goal with
          | |- holds _ _ _ (bind (fillLoop _ _ _ _ _ _) _) _ _ =>
              apply holds_bind; [apply fillLoop_growing | intros [[? ?] ?]; cbv beta iota]
          end
        | holds_step growing_side ].
    - intros _ s _. exact I.
    - intros s Hs. unfold OldBufferReleaser_dtor. split.
      + apply growing_answered, Hs.
      + eexists _, s. split; [reflexivity |]. split; [reflexivity | exact Hs]. }
  intros Hthrown. specialize (Hruns c eq_refl). rewrite Hthrown in Hruns.
  destruct Hruns as [[Hs Hp _] (r & s' & -> & _ & [_ _ (new & Hlog)])].
  split; [exact Hs |]. split; [exact Hp |].
  exists new, (next_reply s'). ctx_simpl. rewrite Hlog.
  rewrite <- app_assoc. reflexivity.
Qed.

Lemma updateVariatesPool_failed_growth_witness :
  variatesPoolSize_ growth_failed = variatesPoolSize_ growth_refused /\
  variatesPool_ growth_failed = fresh_handle growth_refused /\
  exists new r,
    cl_calls growth_failed
      = cl_calls growth_refused
          ++ (clCreateBuffer
                (fpSize_of (settings_ growth_refused)
                   *% alignedSize_of (nVariates_ growth_refused *% 4)),
              next_reply growth_refused)
          :: new ++ [(clReleaseMemObject (variatesPool_ growth_refused), r)].
Proof.
  apply (updateVariatesPool_failed_growth 8 4 growth_refused growth_failed
           "OpenClContext::updateVariatesPool(): error creating variates buffer with size ").
  - by_computation.
  - by_computation.
  - by_computation.
  - by_computation.
Defined.

(** ** Input values and input names *)

Lemma push_input_values_stored (v : N -> double) (l : list N) (c : OpenClContext) :
  exists c',
    forM l (fun i _ => push_input_value (v i)) tt c = Returned tt c' /\
    same_descriptors c c' /\ settings_ c' = settings_ c /\
    values_stored c' = values_stored c + N.of_nat (length l).
Proof.
  revert c. induction l as [| i l IH]; intros c; simpl.
  - exists c. split; [reflexivity |]. split; [repeat split |]. split; [reflexivity | lia].
  - unfold bind. unfold push_input_value at 1. unfold modify.
    match goal with |- context [forM l _ tt ?s] =>
      destruct (IH s) as (c' & -> & Hsame & Hsettings & Hstored) end.
    exists c'. split; [reflexivity |].
    destruct Hsame as (H1 & H2 & H3 & H4 & H5 & H6).
    unfold values_stored in *.
    destruct (useDoublePrecision (settings_ c)) eqn:Hdouble; ctx_simpl in H1; ctx_simpl in H2;
      ctx_simpl in H3; ctx_simpl in H4; ctx_simpl in H5; ctx_simpl in H6;
      ctx_simpl in Hsettings; ctx_simpl in Hstored.
    all: split; [repeat split; assumption |]; split; [exact Hsettings |].
    all: rewrite Hsettings in *; rewrite Hdouble in *; rewrite Hstored.
    all: unfold vec_size; rewrite length_app; simpl; lia.
Qed.

(** One call appends one descriptor and the values of the input. *)
Lemma createInputVariable_stores (n : N) (x : InputValue) (c : OpenClContext) :
  currentState_ c = createInput ->
  size_ c !! N.to_nat (currentId_ c -% 1) = Some n ->
  length (inputVarIsScalar_ c) = length (inputVarOffset_ c) ->
  exists c',
    createInputVariable x c = Returned (nVars_ c) c' /\
    currentState_ c' = createInput /\ size_ c' = size_ c /\
    currentId_ c' = currentId_ c /\
    inputVarOffset_ c'
      = inputVarOffset_ c ++ [following_offset n (inputVarOffset_ c) (inputVarIsScalar_ c)] /\
    inputVarIsScalar_ c' = inputVarIsScalar_ c ++ [is_scalar x] /\
    values_stored c' = values_stored c + input_width n x.
Proof.
  intros Hstate Hsize Hlen. unfold values_stored, input_width.
  destruct x as [v | v]; simpl.
  - unfold createInputVariable_scalar. unfold bind at 1. unfold get.
    rewrite Hstate. cbn [ComputeState_eqb QL_REQUIRE]. unfold bind at 1. unfold ret at 1.
    unfold bind at 1. rewrite (nextInputOffset_following n c Hsize Hlen).
    unfold post_increment_nVars, push_input_value, bind, modify, get, ret.
    ctx_simpl.
    destruct (useDoublePrecision (settings_ c)) eqn:Hdouble; ctx_simpl;
      (eexists; split; [reflexivity |]; ctx_simpl; rewrite Hdouble;
       conjs; try reflexivity; try assumption;
       unfold vec_size; rewrite length_app; simpl; lia).
  - unfold createInputVariable_vector. unfold bind at 1. unfold get.
    rewrite Hstate. cbn [ComputeState_eqb QL_REQUIRE]. unfold bind at 1. unfold ret at 1.
    unfold bind at 1. rewrite (nextInputOffset_following n c Hsize Hlen).
    unfold bind at 1. unfold modify at 1. unfold bind at 1. unfold modify at 1.
    unfold bind at 1. unfold vec_get. rewrite Hsize. unfold ret at 1.
    unfold bind at 1.
    match goal with |- context [forM ?l _ tt ?s] =>
      destruct (push_input_values_stored v l s) as (c' & -> & Hsame & Hsettings & Hstored) end.
    destruct Hsame as (H1 & H2 & H3 & H4 & H5 & H6).
    ctx_simpl in H1. ctx_simpl in H2. ctx_simpl in H3. ctx_simpl in H4.
    ctx_simpl in H5. ctx_simpl in H6. ctx_simpl in Hsettings.
    unfold values_stored in Hstored. ctx_simpl in Hstored. rewrite Hsettings in Hstored.
    unfold post_increment_nVars, bind, modify, get, ret.
    eexists. split; [rewrite H4; reflexivity |]. ctx_simpl.
    rewrite H1, H2, H3, H5, H6, Hsettings, Hstored.
    unfold indices. rewrite length_map, length_seq, N2Nat.id. auto 10.
Qed.

Lemma values_match_snoc (n : N) (x : InputValue) (c c' : OpenClContext) :
  values_match n c ->
  inputVarOffset_ c'
    = inputVarOffset_ c ++ [following_offset n (inputVarOffset_ c) (inputVarIsScalar_ c)] ->
  inputVarIsScalar_ c' = inputVarIsScalar_ c ++ [is_scalar x] ->
  values_stored c' = values_stored c + input_width n x ->
  values_match n c'.
Proof.
  intros [Hlen Hmatch] Hoffsets Hflags Hstored. split.
  - rewrite Hoffsets, Hflags, !length_app, Hlen. reflexivity.
  - rewrite Hoffsets, Hflags. unfold following_offset at 1. rewrite !last_snoc.
    rewrite Hmatch, Hstored, add_wrap_l. reflexivity.
Qed.

Lemma createInputVariables_stored (n : N) (xs : list InputValue) (c : OpenClContext) :
  currentState_ c = createInput ->
  size_ c !! N.to_nat (currentId_ c -% 1) = Some n ->
  values_match n c ->
  exists ids c',
    createInputVariables xs c = Returned ids c' /\
    values_match n c' /\
    values_stored c' = values_stored c + total_width n xs.
Proof.
  revert c. induction xs as [| x xs IH]; intros c Hstate Hsize Hmatch.
  - exists [], c. split; [reflexivity |]. split; [exact Hmatch | simpl; lia].
  - destruct (createInputVariable_stores n x c Hstate Hsize (proj1 Hmatch))
      as (c1 & Hrun & Hstate1 & Hsize1 & Hid1 & Hoffsets1 & Hflags1 & Hstored1).
    destruct (IH c1) as (ids & c' & Hrest & Hmatch' & Hstored').
    + exact Hstate1.
    + rewrite Hsize1, Hid1. exact Hsize.
    + exact (values_match_snoc n x c c1 Hmatch Hoffsets1 Hflags1 Hstored1).
    + exists (nVars_ c :: ids), c'.
      unfold createInputVariables in *. simpl. unfold bind. rewrite Hrun, Hrest.
      split; [reflexivity |]. split; [exact Hmatch' |].
      rewrite Hstored', Hstored1. lia.
Qed.

(** X23.  The stored input values fill the input buffer exactly.  In a
    calculation of batch size [n] that has just been initiated, after any
    sequence of [createInputVariable] calls the value vector of the
    configured precision holds one value per scalar and [n] per vector, and
    the input buffer size that [finalizeCalculation] derives from the last
    offset and its width is that number, reduced to a [std::size_t]: unless
    the total exceeds the range of [std::size_t], host vector and device
    buffer have the same number of elements. *)
Theorem createInputVariables_fill_the_buffer (n : N) (xs : list InputValue)
    (c : OpenClContext)
    (Hstate : currentState_ c = createInput)
    (Hsize : size_ c !! N.to_nat (currentId_ c -% 1) = Some n)
    (Hnone : inputVarOffset_ c = [] /\ inputVarIsScalar_ c = [] /\ values_stored c = 0) :
  exists (ids : list N) (c' : OpenClContext),
    createInputVariables xs c = Returned ids c' /\
    values_stored c' = total_width n xs /\
    following_offset n (inputVarOffset_ c') (inputVarIsScalar_ c')
      = SizeT.wrap (total_width n xs) /\
    (is_size_t (total_width n xs) ->
     following_offset n (inputVarOffset_ c') (inputVarIsScalar_ c') = values_stored c').
Proof.
  destruct Hnone as (Hoffsets & Hflags & Hvalues).
  destruct (createInputVariables_stored n xs c Hstate Hsize)
    as (ids & c' & Hrun & [_ Hmatch] & Hstored).
  { split; [rewrite Hoffsets, Hflags; reflexivity |].
    rewrite Hoffsets, Hflags, Hvalues. reflexivity. }
  rewrite Hvalues, N.add_0_l in Hstored.
  exists ids, c'. split; [exact Hrun |]. split; [exact Hstored |].
  rewrite Hmatch, Hstored. split; [reflexivity |].
  intros Hfits. apply wrap_small, Hfits.
Qed.

Lemma createInputVariables_fill_the_buffer_witness :
  exists (ids : list N) (c' : OpenClContext),
    createInputVariables three_inputs (after started) = Returned ids c' /\
    values_stored c' = total_width 4 three_inputs /\
    following_offset 4 (inputVarOffset_ c') (inputVarIsScalar_ c')
      = SizeT.wrap (total_width 4 three_inputs) /\
    (is_size_t (total_width 4 three_inputs) ->
     following_offset 4 (inputVarOffset_ c') (inputVarIsScalar_ c') = values_stored c').
Proof.
  apply (createInputVariables_fill_the_buffer 4 three_inputs (after started)).
  - by_computation.
  - by_computation.
  - conjs; by_computation.
Defined.

(** *** The name of an input, as an argument and as an output *)

Lemma string_length_app (a b : string) :
  String.length (a +:+ b) = (String.length a + String.length b)%nat.
Proof. induction a as [| ch a IH]; simpl; [reflexivity | rewrite IH; reflexivity]. Qed.

Lemma string_app_inv_tail (a b s : string) : a +:+ s = b +:+ s -> a = b.
Proof.
  revert b. induction a as [| ca a IH]; intros [| cb b] Heq; simpl in Heq.
  - reflexivity.
  - apply (f_equal String.length) in Heq. rewrite !string_length_app in Heq.
    simpl in Heq. rewrite ?string_length_app in Heq. lia.
  - apply (f_equal String.length) in Heq. rewrite !string_length_app in Heq.
    simpl in Heq. rewrite ?string_length_app in Heq. lia.
  - cbn in Heq. injection Heq as -> Heq. f_equal. apply IH, Heq.
Qed.

Lemma to_uint_nonnil (n : N) : N.to_uint n <> Decimal.Nil.
Proof.
  destruct n as [| p]; simpl; [discriminate |].
  apply DecimalPos.Unsigned.to_uint_nonnil.
Qed.

(** The decimal text of a [std::size_t] determines it. *)
Lemma to_string_inj (a b : N) : SizeT.to_string a = SizeT.to_string b -> a = b.
Proof.
  unfold SizeT.to_string. intros Heq.
  apply (f_equal NilZero.uint_of_string) in Heq.
  rewrite !NilZero.usu in Heq by apply to_uint_nonnil.
  injection Heq as Heq. apply DecimalN.Unsigned.to_uint_inj, Heq.
Qed.

(** X24.  An input that is declared as an output is read at its id.  As
    an argument of an operation, input [id] is named by its offset in the
    input buffer: [input[<offset>U]] for a scalar and [input[<offset>U + i]]
    for a vector.  As an output it is named by [outputName], which prints the
    id where the offset belongs.  For a scalar input the two names coincide
    exactly when the offset equals the id, which is no longer the case once a
    vector input of a batch size other than 1 precedes it. *)
Theorem output_of_input_is_indexed_by_id (c s : OpenClContext) (id offset : N)
    (isScalar : bool) :
  id < vec_size (inputVarOffset_ c) ->
  inputVarOffset_ c !! N.to_nat id = Some offset ->
  inputVarIsScalar_ c !! N.to_nat id = Some isScalar ->
  argName c id s
    = Returned ("input[" +:+ SizeT.to_string offset +:+ "U"
                  +:+ (if isScalar then "]" else " + i]")) s /\
  outputName c id s
    = Returned ("input[" +:+ SizeT.to_string id +:+ "U"
                  +:+ (if isScalar then "]" else " + i] ")) s /\
  (isScalar = true -> (outputName c id s = argName c id s <-> offset = id)).
Proof.
  intros Hinput Hoffset Hflag. apply N.ltb_lt in Hinput.
  assert (argName c id s
          = Returned ("input[" +:+ SizeT.to_string offset +:+ "U"
                        +:+ (if isScalar then "]" else " + i]")) s) as Harg.
  { unfold argName. rewrite Hinput. exec_unfold. rewrite Hoffset, Hflag. reflexivity. }
  assert (outputName c id s
          = Returned ("input[" +:+ SizeT.to_string id +:+ "U"
                        +:+ (if isScalar then "]" else " + i] ")) s) as Hout.
  { unfold outputName. rewrite Hinput. exec_unfold. rewrite Hflag. reflexivity. }
  split; [exact Harg |]. split; [exact Hout |].
  intros ->. rewrite Harg, Hout. split.
  - intros Heq. injection Heq as Heq.
    change (SizeT.to_string id +:+ ("U" +:+ "]") = SizeT.to_string offset +:+ ("U" +:+ "]"))
      in Heq.
    apply string_app_inv_tail in Heq. symmetry. apply to_string_inj, Heq.
  - intros ->. reflexivity.
Qed.

Lemma output_of_input_is_indexed_by_id_witness :
  argName three_inputs_created 2 three_inputs_created
    = Returned ("input[" +:+ SizeT.to_string 5 +:+ "U" +:+ (if true then "]" else " + i]"))
        three_inputs_created /\
  outputName three_inputs_created 2 three_inputs_created
    = Returned ("input[" +:+ SizeT.to_string 2 +:+ "U" +:+ (if true then "]" else " + i] "))
        three_inputs_created /\
  (true = true ->
   (outputName three_inputs_created 2 three_inputs_created
      = argName three_inputs_created 2 three_inputs_created <-> 5 = 2)).
Proof.
  apply (output_of_input_is_indexed_by_id three_inputs_created three_inputs_created 2 5 true).
  - by_computation.
  - by_computation.
  - by_computation.
Defined.

(** ** [errorText] *)

Lemma to_int_isi (z : Z) :
  NilZero.int_of_string (NilZero.string_of_int (Z.to_int z)) = Some (Z.to_int z).
Proof.
  apply NilZero.isi; destruct z as [| p | p]; simpl; try discriminate;
    intros H; injection H as H; revert H; apply DecimalPos.Unsigned.to_uint_nonnil.
Qed.

(** The text of a status without a name reads back as that status. *)
Lemma errorCode_unknown (z : Z) :
  errorCode ("unknown cl error code " +:+ std_to_string_int z) = Some z.
Proof.
  unfold errorCode.
  assert (forall digits,
             find (fun code => String.eqb (errorText code) ("unknown cl error code " +:+ digits))
               named_codes = Datatypes.None) as Hfind
    by (intros digits; vm_compute; reflexivity).
  rewrite Hfind.
  assert (forall digits, strip "unknown cl error code " ("unknown cl error code " +:+ digits)
                         = Some digits) as Hstrip by (intros digits; reflexivity).
  rewrite Hstrip. unfold std_to_string_int. rewrite to_int_isi. simpl.
  rewrite DecimalZ.of_to. reflexivity.
Qed.

(** Every text reads back as the status it was made from. *)
Lemma errorCode_errorText (z : Z) : errorCode (errorText z) = Some z.
Proof.
  destruct z as [| p | p].
  - vm_compute. reflexivity.
  - exact (errorCode_unknown (Z.pos p)).
  - do 7 (try destruct p as [p | p |]).
    all: first [ exact (errorCode_unknown _) | vm_compute; reflexivity ].
Qed.

(** X25.  The text of a status identifies it.  Every status code, named
    by the [switch] of [errorText] or not, is recovered from its text by
    [errorCode]; hence [errorText] never gives the text of a status to
    another one, and a status is reported as ["CL_SUCCESS"] only when it is
    [CL_SUCCESS]. *)
Theorem errorText_read_back (err : cl_int) :
  errorCode (errorText err) = Some err /\
  forall other, errorText other = errorText err -> other = err.
Proof.
  split; [apply errorCode_errorText |].
  intros other Heq. apply (f_equal errorCode) in Heq.
  rewrite !errorCode_errorText in Heq. injection Heq as Heq. exact Heq.
Qed.

Lemma errorText_read_back_witness :
  errorCode (errorText (-11)%Z) = Some (-11)%Z /\
  forall other, errorText other = errorText (-11)%Z -> other = (-11)%Z.
Proof. apply (errorText_read_back (-11)%Z). Defined.

(** ** The destructor *)

Lemma live_nil_r (disposed : list bool) : live disposed [] = [].
Proof. destruct disposed; reflexivity. Qed.

Lemma final_run (call : FinalCall) (log : list FinalCall) :
  final call log = Returned tt (log ++ [call]).
Proof. reflexivity. Qed.

(** One of the two loops over the calculations. *)
Lemma release_loop_from (f : cl_handle -> FinalCall) (disposed : list bool)
    (v : list cl_handle) (Hlen : length disposed = length v) (n : nat) :
  forall (a : nat) (log : list FinalCall),
    (a + n)%nat = length v ->
    forM (map N.of_nat (seq a n))
      (fun i _ =>
         d <- vec_get disposed i ;;
         if d : bool then ret tt else h <- vec_get v i ;; final (f h))
      tt log
    = Returned tt (log ++ map f (live (drop a disposed) (drop a v))).
Proof.
  induction n as [| n IH]; intros a log Ha.
  - simpl. rewrite (drop_ge v) by lia. rewrite live_nil_r, app_nil_r. reflexivity.
  - destruct (lookup_lt_Some' disposed a) as [d Hd]; [lia |].
    destruct (lookup_lt_Some' v a) as [h Hh]; [lia |].
    cbn [seq map forM]. unfold bind at 1. unfold bind at 1. unfold vec_get at 1.
    rewrite Nat2N.id, Hd. cbn [ret].
    rewrite (drop_S _ _ _ Hd), (drop_S _ _ _ Hh). cbn [live].
    destruct d.
    + cbn [ret app]. apply IH. lia.
    + unfold bind at 1. unfold vec_get at 1. rewrite Nat2N.id, Hh.
      cbn [ret]. rewrite final_run, IH by lia.
      cbn [app map]. rewrite <- app_assoc. reflexivity.
Qed.

Lemma release_loop (f : cl_handle -> FinalCall) (disposed : list bool) (v : list cl_handle)
    (log : list FinalCall) :
  length disposed = length v ->
  forM (indices (vec_size v))
    (fun i _ =>
       d <- vec_get disposed i ;;
       if d : bool then ret tt else h <- vec_get v i ;; final (f h))
    tt log
  = Returned tt (log ++ map f (live disposed v)).
Proof.
  intros Hlen. unfold indices, vec_size. rewrite Nat2N.id.
  apply (release_loop_from f disposed v Hlen (length v) 0 log). reflexivity.
Qed.

(** The destructor of a well-formed, initialised context, in closed
    form. *)
Lemma OpenClContext_dtor_calls (c : OpenClContext) :
  wf c -> initialized_ c = true ->
  OpenClContext_dtor c [] = Returned tt (final_calls c).
Proof.
  intros Hwf Hinit. unfold OpenClContext_dtor, final_calls, pool_releases. rewrite Hinit.
  assert (length (disposed_ c) = length (kernel_ c)) as Hk
    by (rewrite (wf_disposed c Hwf), (wf_kernel c Hwf); reflexivity).
  assert (length (disposed_ c) = length (program_ c)) as Hp
    by (rewrite (wf_disposed c Hwf), (wf_program c Hwf); reflexivity).
  unfold bind at 1.
  destruct (0 <? variatesPoolSize_ c).
  - unfold final at 1 2 3 4 5 6. unfold bind at 1 2 3 4 5. unfold modify. cbn [app].
    unfold bind at 1. rewrite (release_loop _ _ _ _ Hk).
    unfold bind at 1. rewrite (release_loop _ _ _ _ Hp).
    unfold bind, final, modify. repeat rewrite <- app_assoc. reflexivity.
  - unfold ret at 1.
    unfold bind at 1. rewrite (release_loop _ _ _ _ Hk).
    unfold bind at 1. rewrite (release_loop _ _ _ _ Hp).
    unfold bind, final, modify. repeat rewrite <- app_assoc. reflexivity.
Qed.

(** Disposing a live calculation takes its entry out of the live ones. *)
Lemma live_disposed (disposed : list bool) (v : list cl_handle) (i : nat) (h : cl_handle) :
  disposed !! i = Some false -> v !! i = Some h ->
  Permutation (live disposed v) (h :: live (<[i := true]> disposed) v).
Proof.
  revert v i. induction disposed as [| d disposed IH]; intros [| x v] i Hd Hh;
    try discriminate.
  destruct i as [| i]; simpl in Hd, Hh.
  - injection Hd as ->. injection Hh as ->. reflexivity.
  - cbn [list_insert live]. rewrite (IH v i Hd Hh).
    destruct d; cbn [app]; [reflexivity | apply Permutation_swap].
Qed.

Lemma initialized_and_finalized_wf : wf initialized_and_finalized.
Proof. concrete_wf. Qed.

(** X26.  A calculation is released by [disposeCalculation] or by the
    destructor, not by both.  On a well-formed, initialised context the
    destructor releases the pool's objects (when there is a pool), then the
    kernel of every calculation that is not disposed, then the program of
    every such calculation, then the command queue and the context, and all
    its vector accesses are in range.  After [disposeCalculation id] has
    returned, the destructor makes the same calls except for the two
    releases that the disposal has made in its place. *)
Theorem dispose_then_destroy (id : N) (c c' : OpenClContext) :
  wf c -> initialized_ c = true -> disposeCalculation id c = Returned tt c' ->
  exists k p,
    kernel_ c !! N.to_nat (id -% 1) = Some k /\
    program_ c !! N.to_nat (id -% 1) = Some p /\
    OpenClContext_dtor c [] = Returned tt (final_calls c) /\
    OpenClContext_dtor c' [] = Returned tt (final_calls c') /\
    Permutation (final_calls c)
      (release (clReleaseKernel k) :: release (clReleaseProgram p) :: final_calls c').
Proof.
  intros Hwf Hinit Hdispose.
  pose proof (disposeCalculation_wf id c Hwf) as Hwf'. rewrite Hdispose in Hwf'.
  assert (exists k p,
             disposed_ c !! N.to_nat (id -% 1) = Some false /\
             kernel_ c !! N.to_nat (id -% 1) = Some k /\
             program_ c !! N.to_nat (id -% 1) = Some p /\
             c' = answered (clReleaseProgram p)
                    (answered (clReleaseKernel k)
                       (set_disposed_ (<[N.to_nat (id -% 1) := true]> (disposed_ c)) c)))
    as (k & p & Hlive & Hk & Hp & ->).
  { revert Hdispose. clear Hwf'. unfold disposeCalculation. exec; returned.
    eexists _, _.
    match goal with H : negb ?b = true |- _ => destruct b; [discriminate H |] end.
    auto. }
  exists k, p. split; [exact Hk |]. split; [exact Hp |].
  split; [apply OpenClContext_dtor_calls; assumption |].
  split; [apply OpenClContext_dtor_calls; [exact Hwf' | exact Hinit] |].
  unfold final_calls, pool_releases. ctx_simpl.
  rewrite (live_disposed _ _ _ k Hlive Hk) at 1.
  rewrite (live_disposed _ _ _ p Hlive Hp) at 1.
  cbn [map].
  set (pool := if 0 <? variatesPoolSize_ c then _ else _).
  set (kernels := map _ (live _ (kernel_ c))).
  set (programs := map _ (live _ (program_ c))).
  set (tail := [clReleaseCommandQueue (queue_ c); clReleaseContext (context_ c)]).
  cbn [app].
  rewrite <- Permutation_middle. apply Permutation_cons; [reflexivity |].
  rewrite !app_assoc. rewrite <- (app_assoc (pool ++ kernels)).
  cbn [app]. rewrite <- Permutation_middle. rewrite <- !app_assoc. reflexivity.
Qed.

Lemma dispose_then_destroy_witness :
  exists k p,
    kernel_ initialized_and_finalized !! N.to_nat (1 -% 1) = Some k /\
    program_ initialized_and_finalized !! N.to_nat (1 -% 1) = Some p /\
    OpenClContext_dtor initialized_and_finalized []
      = Returned tt (final_calls initialized_and_finalized) /\
    OpenClContext_dtor
        (after_from initialized_and_finalized [call_disposeCalculation 1]) []
      = Returned tt
          (final_calls (after_from initialized_and_finalized [call_disposeCalculation 1])) /\
    Permutation (final_calls initialized_and_finalized)
      (release (clReleaseKernel k) :: release (clReleaseProgram p)
         :: final_calls (after_from initialized_and_finalized [call_disposeCalculation 1])).
Proof.
  apply (dispose_then_destroy 1 initialized_and_finalized).
  - exact initialized_and_finalized_wf.
  - by_computation.
  - by_computation.
Defined.

(** ** [finalizeCalculation] and the precision of the stored values *)

(** What is known of defined runs holds of all runs when nothing is claimed
    of the undefined ones. *)
Lemma holds_defined {St A : Type} (ub oof : Prop) (P E : St -> Prop) (m : M St A)
    (Q : A -> St -> Prop) :
  holds False oof P m Q E -> holds ub oof P m Q E.
Proof.
  intros Hm s Hs. specialize (Hm s Hs).
  destruct (m s) as [a s' | what s' | |]; try assumption. contradiction.
Qed.

Lemma finalizeCalculation_body_values_missing (output : list N) (n : N) (c0 : OpenClContext)
    (Hwf0 : wf c0) (Hquiet : quiet c0) (Hfirst : first_finalize output c0)
    (Hlisted : vec_size output <= vec_size (outputVariables_ c0))
    (Hsize : size_ c0 !! N.to_nat (currentId_ c0 -% 1) = Some n)
    (Hinputs : 0 < following_offset n (inputVarOffset_ c0) (inputVarIsScalar_ c0))
    (Hempty : values_stored c0 = 0) :
  holds True False (on_frame (fun s => s = c0)) (finalizeCalculation_body output)
    (fun _ => on_frame (fun _ => False)) (on_frame (fun _ => False)).
Proof.
  destruct Hfirst as [Hpos Hkernel Houtputs Hprecision].
  apply N.ltb_lt in Hpos. apply N.ltb_lt in Hinputs.
  pose proof (finalizing_refl c0) as Hrefl.
  unfold finalizeCalculation_body.
  apply holds_bind_on_this_get. intros c ->.
  apply (holds_consequence True False _ _
           (on_frame (running c0 false)) (on_frame (fun _ => False)) _ _
           (fun _ => on_frame (fun _ => False)));
    [| intros s Hs; unfold on_frame in *; rewrite Hs; apply running_refl, Hquiet | auto | auto].
  rewrite Hpos, Hprecision.
  repeat
    (lazymatch goal with
     | |- holds _ _ _ (bind (match inputVarOffset_ _ with [] => _ | _ :: _ => _ end) _) _ _ =>
         input_size_step;
         match goal with
         | Ha : (forall m, size_ c0 !! _ = Some m -> ?a = _) |- _ =>
             rewrite (Ha n Hsize); clear Ha; rewrite ?Hinputs
         end
     | |- holds _ _ _ (bind (host_read _ _ _) _) _ _ =>
         apply holds_bind_host_read; [intros _; exact I | intros Hsome _; exfalso];
         unfold values_stored in Hempty;
         match goal with
         | H : useDoublePrecision (settings_ c0) = _ |- _ => rewrite H in Hempty
         end;
         lia
     | _ =>
         run_step
           ltac:(eapply holds_seq;
                 [ apply holds_on_this_seq, holds_defined, buildKernel_quietly;
                   [ exact Hwf0 | exact Hpos
                   | intros count Hcount; rewrite Houtputs in Hcount;
                     injection Hcount as <-; exact Hlisted ]
                 | intros ?; cbv beta ])
     end).
Qed.

(** X27.  Input values are read in the configured precision, stored or
    not.  [createInputVariable] stores each value in the vector of the
    precision configured at that time, and [finalizeCalculation] fills the
    input buffer from the vector of the precision configured when it runs.
    When the calculation has inputs and that vector is empty (the settings
    were replaced in between: [initiateCalculation] stores its settings
    before it checks its arguments, so a call that throws has changed them),
    the first [finalizeCalculation] on a cooperative device passes its
    checks, creates its buffers, builds and caches the kernel, and then hands
    the address of the first element of the empty vector to the device: the
    behaviour is undefined. *)
Theorem finalizeCalculation_values_missing (output : list N) (n : N) (c : OpenClContext) :
  wf c -> quiet c -> first_finalize output c ->
  vec_size output <= vec_size (outputVariables_ c) ->
  size_ c !! N.to_nat (currentId_ c -% 1) = Some n ->
  0 < following_offset n (inputVarOffset_ c) (inputVarIsScalar_ c) ->
  values_stored c = 0 ->
  finalizeCalculation output c = Undefined.
Proof.
  intros Hwf Hquiet Hfirst Hlisted Hsize Hinputs Hempty.
  pose proof (finalizeCalculation_body_values_missing output n c Hwf Hquiet Hfirst Hlisted
                Hsize Hinputs Hempty {| this := c; guard_mem := [] |} eq_refl) as Hbody.
  unfold finalizeCalculation.
  destruct (finalizeCalculation_body output {| this := c; guard_mem := [] |})
    as [[] f | what f | |]; try contradiction.
  reflexivity.
Qed.

Lemma precision_switched_wf : wf precision_switched.
Proof. concrete_wf. Qed.

Lemma finalizeCalculation_values_missing_witness :
  finalizeCalculation [1000] precision_switched = Undefined.
Proof.
  apply (finalizeCalculation_values_missing [1000] 4 precision_switched precision_switched_wf).
  - by_computation.
  - constructor; by_computation.
  - vm_compute. discriminate.
  - by_computation.
  - by_computation.
  - by_computation.
Defined.

(** The settings were replaced by a call that threw: on the calculation
    built in single precision, [initiateCalculation] with another batch size
    and double precision is rejected, and leaves the double precision
    configured while the only stored value is a single precision one. *)
Lemma precision_switched_by_failure :
  perform_all one_input_evaluation fresh_context = Some (after one_input_evaluation) /\
  useDoublePrecision (settings_ (after one_input_evaluation)) = false /\
  (exists what,
     initiateCalculation 5 1 0 double_precision (after one_input_evaluation)
       = Thrown what precision_switched) /\
  useDoublePrecision (settings_ precision_switched) = true /\
  vec_size (inputVarValues32_ precision_switched) = 1 /\
  vec_size (inputVarValues64_ precision_switched) = 0.
Proof. conjs; try by_computation. eexists. by_computation. Qed.

(** ** What the operations do not read *)

Section Commutes.

Context {S : Type} (f : S -> S).

Lemma commutes_ret {A : Type} (a : A) : commutes f (ret a).
Proof. intros s. reflexivity. Qed.

Lemma commutes_require (b : bool) (what : string) : commutes f (QL_REQUIRE b what).
Proof. intros s. destruct b; reflexivity. Qed.

Lemma commutes_vec_get {A : Type} (v : list A) (i : N) : commutes f (vec_get v i).
Proof. intros s. unfold vec_get. destruct (v !! N.to_nat i); reflexivity. Qed.

Lemma commutes_vec_set {A : Type} (v : list A) (i : N) (x : A) : commutes f (vec_set v i x).
Proof. intros s. unfold vec_set. destruct (N.to_nat i <? length v)%nat; reflexivity. Qed.

Lemma commutes_vec_back {A : Type} (v : list A) : commutes f (vec_back v).
Proof. intros s. unfold vec_back. destruct (last v); reflexivity. Qed.

Lemma commutes_host_read {A : Type} (v : list A) (bytes elementSize : N) :
  commutes f (host_read v bytes elementSize).
Proof.
  intros s. unfold host_read.
  destruct ((0 <? vec_size v) && (bytes / elementSize <=? vec_size v)); reflexivity.
Qed.

Lemma commutes_bind {A B : Type} (m : M S A) (k : A -> M S B) :
  commutes f m -> (forall a, commutes f (k a)) -> commutes f (bind m k).
Proof.
  intros Hm Hk s. unfold bind. rewrite Hm.
  destruct (m s) as [a s' | what s' | |]; cbn [outcome_map]; [apply Hk | reflexivity ..].
Qed.

(** What the code reads of [*this] is not what [f] changes. *)
Lemma commutes_bind_get {B : Type} (k : S -> M S B) :
  (forall c, commutes f (k c)) -> (forall c, k (f c) = k c) -> commutes f (bind get k).
Proof. intros Hk Hread s. unfold bind, get. rewrite Hread. apply Hk. Qed.

Lemma commutes_scope_exit {A : Type} (body : M S A) (cleanup : S -> S) :
  commutes f body -> (forall s, cleanup (f s) = f (cleanup s)) ->
  commutes f (scope_exit body cleanup).
Proof.
  intros Hbody Hcleanup s. unfold scope_exit. rewrite Hbody.
  destruct (body s) as [a s' | what s' | |]; cbn [outcome_map]; rewrite ?Hcleanup; reflexivity.
Qed.

Lemma commutes_forM {A : Type} (l : list N) (body : N -> A -> M S A) (a : A) :
  (forall x a, commutes f (body x a)) -> commutes f (forM l body a).
Proof.
  intros Hbody. revert a. induction l as [| x l IH]; intros a; simpl.
  - apply commutes_ret.
  - apply commutes_bind; [apply Hbody | exact IH].
Qed.

Lemma commutes_mapM {A B : Type} (g : A -> M S B) (l : list A) :
  (forall x, commutes f (g x)) -> commutes f (mapM g l).
Proof.
  intros Hg. induction l as [| x l IH]; simpl.
  - apply commutes_ret.
  - apply commutes_bind; [apply Hg |]. intros y.
    apply commutes_bind; [exact IH |]. intros ys. apply commutes_ret.
Qed.

End Commutes.

Lemma commutes_on_this {A : Type} (f : OpenClContext -> OpenClContext)
    (m : M OpenClContext A) :
  commutes f m -> commutes (reframe f) (on_this m).
Proof.
  intros Hm frame. unfold on_this, reframe. cbn [this guard_mem]. rewrite Hm.
  destruct (m (this frame)) as [a c | what c | |]; reflexivity.
Qed.

Lemma commutes_bind_on_this_get {B : Type} (f : OpenClContext -> OpenClContext)
    (k : OpenClContext -> M Frame B) :
  (forall c, commutes (reframe f) (k c)) -> (forall c, k (f c) = k c) ->
  commutes (reframe f) (bind (on_this get) k).
Proof.
  intros Hk Hread frame. unfold bind, on_this, get. cbn [reframe this guard_mem].
  rewrite Hread. apply (Hk (this frame) {| this := this frame; guard_mem := guard_mem frame |}).
Qed.

(** A step that changes the context, and changes it alike after [f]. *)
Ltac commute_change :=
  let s := fresh "s" in
  intros s; unfold modify, cl, outcome_map; cbv beta; ctx_simpl;
  repeat match goal with |- context [if ?b then _ else _] => destruct b end;
  reflexivity.

(** One step through code that does not read what [f] changes. *)
Ltac commute_step :=
  lazymatch goal with
  | |- commutes _ (bind (on_this get) _) =>
      apply commutes_bind_on_this_get; [intros ? | intros ?; reflexivity]
  | |- commutes _ (bind get _) => apply commutes_bind_get; [intros ? | intros ?; reflexivity]
  | |- commutes _ (bind _ _) => apply commutes_bind; [| intros ?]
  | |- commutes _ (ret _) => apply commutes_ret
  | |- commutes _ (QL_REQUIRE _ _) => apply commutes_require
  | |- commutes _ (QL_FAIL _) => intros ?; reflexivity
  | |- commutes _ undefined => intros ?; reflexivity
  | |- commutes _ out_of_fuel => intros ?; reflexivity
  | |- commutes _ (vec_get _ _) => apply commutes_vec_get
  | |- commutes _ (vec_set _ _ _) => apply commutes_vec_set
  | |- commutes _ (vec_back _) => apply commutes_vec_back
  | |- commutes _ (host_read _ _ _) => apply commutes_host_read
  | |- commutes _ (guard_mem_push_back _) => intros ?; reflexivity
  | |- commutes _ (on_this _) => apply commutes_on_this
  | |- commutes _ (cl _) => commute_change
  | |- commutes _ (modify _) => commute_change
  | |- commutes _ (scope_exit _ _) =>
      apply commutes_scope_exit;
      [| intros ?; unfold OldBufferReleaser_dtor;
         repeat match goal with |- context [if ?b then _ else _] => destruct b end;
         reflexivity ]
  | |- commutes _ (forM _ _ _) => apply commutes_forM; intros ? ?
  | |- commutes _ (mapM _ _) => apply commutes_mapM; intros ?
  | |- commutes _ (if ?b then _ else _) => destruct b
  | |- commutes _ (match ?x with _ => _ end) => destruct x
  end.

Lemma finalizeCalculation_body_commutes (output : list N) (st : ComputeState) :
  commutes (reframe (set_currentState_ st)) (finalizeCalculation_body output).
Proof.
  unfold finalizeCalculation_body, buildKernel, outputName, readBack.
  repeat commute_step.
Qed.

(** X28.  [finalizeCalculation] does not consult the state.  Whatever
    state the context is in, [idle] included, the call makes the same checks
    and the same device calls and ends in the same context: the state is
    read by none of them and is overwritten with [idle] by the guard.  So a
    call that follows another [finalizeCalculation] at once is not rejected
    for the state: it runs the calculation again. *)
Theorem finalizeCalculation_ignores_state (output : list N) (st : ComputeState)
    (c : OpenClContext) :
  finalizeCalculation output (set_currentState_ st c) = finalizeCalculation output c.
Proof.
  unfold finalizeCalculation.
  pose proof (finalizeCalculation_body_commutes output st {| this := c; guard_mem := [] |})
    as Hbody.
  change (reframe (set_currentState_ st) {| this := c; guard_mem := [] |})
    with {| this := set_currentState_ st c; guard_mem := [] |} in Hbody.
  rewrite Hbody.
  destruct (finalizeCalculation_body output {| this := c; guard_mem := [] |})
    as [a f | what f | |]; reflexivity.
Qed.

(** The first evaluation, finalised and left [idle], is finalised a second
    time: the cached kernel is run again, with seven more device calls. *)
Lemma finalizeCalculation_twice :
  currentState_ finalized_once = idle /\
  finalizeCalculation [1000] finalized_once = Returned tt finalized_twice /\
  length (cl_calls finalized_twice) = (length (cl_calls finalized_once) + 7)%nat.
Proof. conjs; by_computation. Qed.

(** *** The health flag *)

Section Health.

Variable h : bool.

Lemma fillLoop_commutes (fuel : nat) :
  forall (demand : N) (initEvent : cl_handle) (currentPoolSize : N)
         (generateEvent : cl_handle) (haveGenerated : bool),
    commutes (set_healthy_ h)
      (fillLoop fuel demand initEvent currentPoolSize generateEvent haveGenerated).
Proof.
  induction fuel as [| fuel IH]; intros demand initEvent currentPoolSize generateEvent
    haveGenerated; simpl.
  - repeat commute_step.
  - destruct (currentPoolSize <? demand); [| apply commutes_ret].
    repeat first [ apply IH | commute_step ].
Qed.

Lemma updateVariatesPool_commutes (fuel : nat) :
  commutes (set_healthy_ h) (updateVariatesPool fuel).
Proof.
  unfold updateVariatesPool, buildVariatesProgram.
  repeat first [ apply fillLoop_commutes | commute_step ].
Qed.

Lemma release_all_healthy (mem : list cl_handle) (s : OpenClContext) :
  fold_left (fun c m => answered (clReleaseMemObject m) c) mem (set_healthy_ h s)
    = set_healthy_ h (fold_left (fun c m => answered (clReleaseMemObject m) c) mem s).
Proof.
  revert s. induction mem as [| m mem IH]; intros s; simpl; [reflexivity |].
  rewrite <- IH. reflexivity.
Qed.

Lemma finalizeCalculation_commutes (output : list N) :
  commutes (set_healthy_ h) (finalizeCalculation output).
Proof.
  assert (commutes (reframe (set_healthy_ h)) (finalizeCalculation_body output)) as Hbody.
  { unfold finalizeCalculation_body, buildKernel, outputName, readBack.
    repeat commute_step. }
  intros c. unfold finalizeCalculation.
  specialize (Hbody {| this := c; guard_mem := [] |}).
  change (reframe (set_healthy_ h) {| this := c; guard_mem := [] |})
    with {| this := set_healthy_ h c; guard_mem := [] |} in Hbody.
  rewrite Hbody.
  destruct (finalizeCalculation_body output {| this := c; guard_mem := [] |})
    as [a f | what f | |]; cbn [outcome_map]; try reflexivity.
  all: f_equal; unfold exitGuard_dtor, reframe; cbn [this guard_mem];
    rewrite <- release_all_healthy; reflexivity.
Qed.

End Health.

(** X29.  Only [init] reads the health flag.  Each of the operations on
    calculations does on a context marked unhealthy exactly what it does on
    the same context marked healthy: the same result or exception, the same
    device calls, the same changes, and the flag is left as it was.  A
    context whose [init] failed is refused by [init] alone. *)
Theorem operations_ignore_health_flag (h : bool) :
  (forall n id version settings,
     commutes (set_healthy_ h) (initiateCalculation n id version settings)) /\
  (forall id, commutes (set_healthy_ h) (disposeCalculation id)) /\
  (forall x, commutes (set_healthy_ h) (createInputVariable x)) /\
  (forall fuel dim steps, commutes (set_healthy_ h) (createInputVariates fuel dim steps)) /\
  (forall op args, commutes (set_healthy_ h) (applyOperation op args)) /\
  (forall id, commutes (set_healthy_ h) (freeVariable id)) /\
  (forall id, commutes (set_healthy_ h) (declareOutputVariable id)) /\
  (forall output, commutes (set_healthy_ h) (finalizeCalculation output)).
Proof.
  conjs.
  - intros n id version settings.
    unfold initiateCalculation, releaseKernel, releaseProgram. repeat commute_step.
  - intros id. unfold disposeCalculation, releaseKernel, releaseProgram. repeat commute_step.
  - intros [v | v]; cbn [createInputVariable];
      unfold createInputVariable_scalar, createInputVariable_vector, nextInputOffset,
        push_input_value, post_increment_nVars;
      repeat commute_step.
  - intros fuel dim steps.
    unfold createInputVariates, assignVariateId, post_increment_nVars.
    repeat first [ apply updateVariatesPool_commutes | commute_step ].
  - intros op args.
    unfold applyOperation, argName, opExpression, unary, binary, post_increment_nVars.
    repeat commute_step.
  - intros id. unfold freeVariable. repeat commute_step.
  - intros id. unfold declareOutputVariable. repeat commute_step.
  - intros output. apply finalizeCalculation_commutes.
Qed.
